(** * csv-to-qb-iif: the ingestion, normalisation and export core

    A shallow embedding of the JavaScript sources (server.js, importer.js,
    exporter.js, database.js) and the properties the specification states
    about them.

    Conventions of the embedding
    - a JavaScript string is a [string] holding its UTF-8 bytes; [trim]
      and the class [\s] take the white space of ECMAScript, the byte
      order mark and the no-break space included; [toLowerCase] maps the
      letters A to Z (the header and synonym tables are ASCII);
    - a parsed CSV record (an object keyed by header text, as csv-parse
      returns it with [columns: true]) is an association list in column
      order; [Object.keys] is the list of its keys;
    - a JavaScript number that is read from text or written to text is a
      finite decimal [dec] (mantissa and scale), exact; the binary
      rounding of IEEE doubles is not modelled, and a property of a number
      the code computes in doubles is stated where the double and the
      decimal agree, or as a bound that holds of both;
    - the PostgreSQL store is a record of tables (lists of rows) threaded
      through every call, with SERIAL counters, UNIQUE constraints and
      NUMERIC(p,s) columns written out;
    - md5, JSON.stringify, dayjs and the clock are collaborators taken as
      section variables. *)

From Stdlib Require Import String Ascii List ZArith QArith Qabs Lia Bool Arith.
Import ListNotations.

Close Scope Q_scope.
Local Open Scope string_scope.
Local Open Scope list_scope.

(* ================================================================== *)
(** * JavaScript string primitives *)
(* ================================================================== *)

Module Js.

Definition TAB : ascii := "009"%char.
Definition LF  : ascii := "010"%char.
Definition CR  : ascii := "013"%char.
Definition DQUOTE : ascii := "034"%char.

Definition is_digit (c : ascii) : bool :=
  let n := nat_of_ascii c in (48 <=? n)%nat && (n <=? 57)%nat.

Definition lower_char (c : ascii) : ascii :=
  let n := nat_of_ascii c in
  if (65 <=? n)%nat && (n <=? 90)%nat then ascii_of_nat (n + 32) else c.

Fixpoint toLowerCase (s : string) : string :=
  match s with
  | EmptyString => EmptyString
  | String c r => String (lower_char c) (toLowerCase r)
  end.


(** The text of the given bytes. *)
Definition utf8 (l : list nat) : string :=
  fold_right (fun n s => String (ascii_of_nat n) s) EmptyString l.

(** The white space of ECMAScript (WhiteSpace and LineTerminator), which
    is what [trim] removes and what the class [\s] of a regular expression
    matches, each character in its UTF-8 bytes: U+0009 to U+000D, U+0020,
    U+00A0, U+1680, U+2000 to U+200A, U+2028, U+2029, U+202F, U+205F,
    U+3000 and U+FEFF (the byte order mark). *)
Definition white_space : list string := Eval cbv in
    map utf8
      [ [9]; [10]; [11]; [12]; [13]; [32];
        [194; 160];
        [225; 154; 128];
        [226; 128; 128]; [226; 128; 129]; [226; 128; 130]; [226; 128; 131];
        [226; 128; 132]; [226; 128; 133]; [226; 128; 134]; [226; 128; 135];
        [226; 128; 136]; [226; 128; 137]; [226; 128; 138];
        [226; 128; 168]; [226; 128; 169]; [226; 128; 175];
        [226; 129; 159];
        [227; 128; 128];
        [239; 187; 191] ].

(** What follows [p] in [s], when [s] starts with [p]. *)
Fixpoint strip_prefix (p s : string) : option string :=
  match p with
  | EmptyString => Some s
  | String a p' =>
      match s with
      | EmptyString => None
      | String b s' => if Ascii.eqb a b then strip_prefix p' s' else None
      end
  end.

Fixpoint strip_one (ws : list string) (s : string) : option string :=
  match ws with
  | [] => None
  | w :: r =>
      match strip_prefix w s with
      | Some x => Some x
      | None => strip_one r s
      end
  end.

(** What follows the white-space character [s] starts with, when it
    starts with one. *)
Definition strip_ws (s : string) : option string := strip_one white_space s.

Fixpoint strip_all (fuel : nat) (s : string) : string :=
  match fuel with
  | O => s
  | S k =>
      match strip_ws s with
      | Some r => strip_all k r
      | None => s
      end
  end.

(** Every step takes at least one byte away, so the length of the text
    is fuel enough. *)
Definition trimStart (s : string) : string := strip_all (String.length s) s.

(** [s] is white space throughout (the empty text included). *)
Definition all_ws (s : string) : bool :=
  match trimStart s with EmptyString => true | _ => false end.

Fixpoint trimEnd (s : string) : string :=
  match s with
  | EmptyString => EmptyString
  | String c r => if all_ws s then EmptyString else String c (trimEnd r)
  end.

Definition trim (s : string) : string := trimEnd (trimStart s).

(** [s.startsWith(p)] *)
Fixpoint startsWith (p s : string) : bool :=
  match p, s with
  | EmptyString, _ => true
  | String a p', String b s' => Ascii.eqb a b && startsWith p' s'
  | String _ _, EmptyString => false
  end.

(** [s.includes(sub)] on strings. *)
Fixpoint str_includes (sub s : string) : bool :=
  startsWith sub s ||
  match s with
  | EmptyString => false
  | String _ r => str_includes sub r
  end.

(** [arr.includes(x)] on arrays of strings. *)
Definition arr_includes (x : string) (arr : list string) : bool :=
  existsb (String.eqb x) arr.

(** A string is falsy exactly when it is empty. *)
Definition truthy (s : string) : bool :=
  match s with EmptyString => false | _ => true end.

(** [arr.join(sep)] *)
Fixpoint join (sep : string) (l : list string) : string :=
  match l with
  | [] => ""
  | [x] => x
  | x :: r => x ++ sep ++ join sep r
  end.

(** Every character of [s] satisfies [p]. *)
Fixpoint str_forall (p : ascii -> bool) (s : string) : bool :=
  match s with
  | EmptyString => true
  | String a r => p a && str_forall p r
  end.

(** [c] occurs in [s]. *)
Fixpoint has_char (c : ascii) (s : string) : bool :=
  match s with
  | EmptyString => false
  | String a r => Ascii.eqb a c || has_char c r
  end.

End Js.

(* ================================================================== *)
(** * Parsed CSV records *)
(* ================================================================== *)

(** One record of [parse(content, {columns: true, ...})]: header text to
    cell text, in column order. *)
Definition row := list (string * string).

Definition Object_keys (r : row) : list string := map fst r.

(** [r[k]]: [None] is [undefined]. *)
Fixpoint get (r : row) (k : string) : option string :=
  match r with
  | [] => None
  | (k', v) :: r' => if String.eqb k' k then Some v else get r' k
  end.

(** [a || b] on cells that are strings or undefined: the first truthy one,
    else the last. *)
Definition or_cell (a b : option string) : option string :=
  match a with
  | Some s => if Js.truthy s then a else b
  | None => b
  end.

(** [c || <empty string>] *)
Definition or_empty (c : option string) : string :=
  match c with Some s => s | None => "" end.

Definition cell_truthy (c : option string) : bool :=
  match c with Some s => Js.truthy s | None => false end.

(* ================================================================== *)
(** * FormatClassifier (server.js, [detectCsvType]) *)
(* ================================================================== *)

Module Classifier.

Inductive csv_type : Type :=
  | po_bills | bank_batch | halo_invoices | stripe_csv | bank_generic | unknown.

Definition csv_type_eqb (a b : csv_type) : bool :=
  match a, b with
  | po_bills, po_bills | bank_batch, bank_batch
  | halo_invoices, halo_invoices | stripe_csv, stripe_csv
  | bank_generic, bank_generic | unknown, unknown => true
  | _, _ => false
  end.

Definition getHeadersLower (rows : list row) : list string :=
  match rows with
  | [] => []
  | r0 :: _ => map (fun h => Js.toLowerCase (Js.trim h)) (Object_keys r0)
  end.

Section Predicates.
Variable h : list string.
Definition has (name : string) : bool := Js.arr_includes name h.
Definition any (names : list string) : bool := existsb has names.
Definition all (names : list string) : bool := forallb has names.
End Predicates.

Definition invoiceNumberSyn :=
  ["invoice number"; "invoice no"; "invoice #"; "inv"; "invoice"; "document number"].
Definition invoiceIdSyn := ["invoiceid"; "invoice id"; "id"].
Definition invDateSyn := ["invoice date"; "date"; "invoicedate"].
Definition customerSyn :=
  ["customer"; "customer name"; "account name"; "client"; "client name"].
Definition amountsSyn := ["total"; "amount due"; "balance"; "subtotal"].

Definition detectCsvType (rows : list row) (filename : string) : csv_type :=
  let h := getHeadersLower rows in
  let fname := Js.toLowerCase filename in
  if has h "po_id" then po_bills
  else if all h ["batch number"; "transfer description"; "effective date"]
          && any h ["dr amount"; "cr amount"] then bank_batch
  else if any h invoiceNumberSyn || any h invoiceIdSyn
          || (any h customerSyn && any h invDateSyn && any h amountsSyn)
          || Js.str_includes "invoice" fname then halo_invoices
  else if any h ["balance transaction id"; "type"] && any h ["amount"; "net"]
       then stripe_csv
  else if any h ["vendor"; "supplier"; "vendor name"]
          && any h ["refnumber"; "ref number"; "reference"; "reference number";
                    "docnum"; "document number"]
          && any h ["item"; "item code"; "sku"; "product"; "product code";
                    "description"]
          && any h ["qty"; "quantity"; "qnty"]
          && any h ["cost"; "unit cost"; "price"; "unit price"; "rate"]
       then po_bills
  else if any h ["date"; "posting date"; "transaction date"]
          && any h ["amount"; "credit"; "debit"]
          && any h ["description"; "memo"; "details"] then bank_generic
  else unknown.

(** ** The rule table of the specification (section 4.1)

    The specification words the classifier as an ordered list of
    (predicate, tag) pairs, first match wins.  The synonym groups are the
    closed lists of the classifier itself. *)






End Classifier.

(* ================================================================== *)
(** * JavaScript numbers as finite decimals *)
(* ================================================================== *)

Module Num.

Local Open Scope Z_scope.
Local Infix "+++" := String.append (right associativity, at level 60).

(** [mant / 10^scale].  Every number the pipeline reads is a decimal
    literal and every operation it applies to one (sum, product, division
    by 100, [Math.round], [Math.abs], negation) stays within decimals. *)
Record dec : Type := mkDec { mant : Z; scale : nat }.

Definition pow10 (n : nat) : Z := 10 ^ Z.of_nat n.

Definition dec_of_Z (z : Z) : dec := mkDec z 0.
Definition dec_neg (d : dec) : dec := mkDec (- mant d) (scale d).
Definition Math_abs (d : dec) : dec := mkDec (Z.abs (mant d)) (scale d).
Definition dec_mul (a b : dec) : dec :=
  mkDec (mant a * mant b) (scale a + scale b).
Definition dec_add (a b : dec) : dec :=
  let s := Nat.max (scale a) (scale b) in
  mkDec (mant a * pow10 (s - scale a) + mant b * pow10 (s - scale b)) s.
(** [x / 100] *)
Definition dec_div100 (d : dec) : dec := mkDec (mant d) (scale d + 2).
(** [Math.round]: the integer nearest to [x], ties towards +infinity. *)
Definition Math_round (d : dec) : dec :=
  mkDec ((2 * mant d + pow10 (scale d)) / (2 * pow10 (scale d))) 0.

(** Comparison by value. *)
Definition dec_eqb (a b : dec) : bool :=
  mant a * pow10 (scale b) =? mant b * pow10 (scale a).
Definition dec_eqv (a b : dec) : Prop :=
  mant a * pow10 (scale b) = mant b * pow10 (scale a).
(** [x > 0] *)
Definition gt0 (d : dec) : bool := 0 <? mant d.
(** Truthiness of a number: everything but 0 (and NaN, which callers have
    already replaced). *)
Definition num_truthy (d : dec) : bool := negb (mant d =? 0).

Definition toQ (d : dec) : Q :=
  (inject_Z (mant d) / inject_Z (pow10 (scale d)))%Q.

(** ** [Number(text)] on the alphabet the callers pass

    Every caller applies [Number] to [String(v).replace(/[^0-9.-]/g, '')]
    or to a captured run of digits, so the argument holds digits, dots
    and minus signs only.  On that alphabet StringToNumber accepts the
    empty string (0) and [-]digits, [-]digits.digits*, [-].digits ; all
    else is NaN, here [None]. *)

Definition digit_val (c : ascii) : Z := Z.of_nat (nat_of_ascii c) - 48.

Fixpoint all_digits (s : string) : bool :=
  match s with
  | EmptyString => true
  | String c r => Js.is_digit c && all_digits r
  end.

Fixpoint val_digits (s : string) (acc : Z) : Z :=
  match s with
  | EmptyString => acc
  | String c r => val_digits r (10 * acc + digit_val c)
  end.

(** The text before the first dot, and the text after it when there is
    one. *)
Fixpoint split_dot (s : string) : string * option string :=
  match s with
  | EmptyString => (EmptyString, None)
  | String c r =>
      if Ascii.eqb c "."%char then (EmptyString, Some r)
      else let (a, b) := split_dot r in (String c a, b)
  end.

Definition unsigned_literal (s : string) : option dec :=
  let (ip, fp) := split_dot s in
  match fp with
  | None =>
      if all_digits ip && Js.truthy ip then Some (mkDec (val_digits ip 0) 0)
      else None
  | Some f =>
      if all_digits ip && all_digits f && (Js.truthy ip || Js.truthy f)
      then Some (mkDec (val_digits f (val_digits ip 0)) (String.length f))
      else None
  end.

Definition Number (s : string) : option dec :=
  match s with
  | EmptyString => Some (dec_of_Z 0)
  | String c r =>
      if Ascii.eqb c "-"%char
      then option_map dec_neg (unsigned_literal r)
      else unsigned_literal s
  end.

(** [s.replace(/[^0-9.-]/g, '')] *)
Definition numeric_char (c : ascii) : bool :=
  Js.is_digit c || Ascii.eqb c "."%char || Ascii.eqb c "-"%char.

Fixpoint strip_non_numeric (s : string) : string :=
  match s with
  | EmptyString => EmptyString
  | String c r =>
      if numeric_char c then String c (strip_non_numeric r)
      else strip_non_numeric r
  end.

(** ** [String(x)] (Number::toString, radix 10)

    With [x = s * 10^(n-k)], [s] of [k] digits and not a multiple of 10:
    plain digits when [k <= n <= 21], a decimal point inside when
    [0 < n <= 21], leading ["0."] when [-6 < n <= 0], exponent notation
    otherwise. *)

Definition digit_char (d : Z) : ascii := ascii_of_nat (Z.to_nat (d + 48)).

Fixpoint digits_fuel (fuel : nat) (n : Z) (acc : string) : string :=
  match fuel with
  | O => acc
  | S f =>
      if n <? 10 then String (digit_char n) acc
      else digits_fuel f (n / 10) (String (digit_char (n mod 10)) acc)
  end.

(** The decimal digits of [n >= 0]. *)
Definition digits (n : Z) : string :=
  digits_fuel (S (Z.to_nat (Z.log2 n))) n EmptyString.

Fixpoint strip_zeros (fuel : nat) (m : Z) (z : nat) : Z * nat :=
  match fuel with
  | O => (m, z)
  | S f => if (m mod 10 =? 0) && negb (m =? 0)
           then strip_zeros f (m / 10) (S z) else (m, z)
  end.

Fixpoint zeros (n : nat) : string :=
  match n with O => EmptyString | S k => String "0"%char (zeros k) end.

Fixpoint str_take (n : nat) (s : string) : string :=
  match n, s with
  | S k, String c r => String c (str_take k r)
  | _, _ => EmptyString
  end.

Fixpoint str_drop (n : nat) (s : string) : string :=
  match n, s with
  | S k, String _ r => str_drop k r
  | _, _ => s
  end.

Definition toString_pos (m : Z) (sc : nat) : string :=
  let (s, z) := strip_zeros (S (Z.to_nat (Z.log2 m))) m O in
  let ds := digits s in
  let k := Z.of_nat (String.length ds) in
  let n := k + Z.of_nat z - Z.of_nat sc in
  if (k <=? n) && (n <=? 21) then ds +++ zeros (Z.to_nat (n - k))
  else if (0 <? n) && (n <=? 21) then
    str_take (Z.to_nat n) ds +++ "." +++ str_drop (Z.to_nat n) ds
  else if (-6 <? n) && (n <=? 0) then "0." +++ zeros (Z.to_nat (- n)) +++ ds
  else
    let e := n - 1 in
    let sign := if e <? 0 then "-" else "+" in
    let es := digits (Z.abs e) in
    if k =? 1 then ds +++ "e" +++ sign +++ es
    else str_take 1 ds +++ "." +++ str_drop 1 ds +++ "e" +++ sign +++ es.

Definition toString (d : dec) : string :=
  if mant d =? 0 then "0"
  else if mant d <? 0 then "-" +++ toString_pos (- mant d) (scale d)
  else toString_pos (mant d) (scale d).

(** ** [x.toFixed(2)]

    The sign first, then the integer [n] nearest to [|x| * 100] (the
    larger one on a tie), printed with two places; [String(x)] from 1e21
    on.  [x] is the exact decimal: of amounts in whole cents, which is
    what the callers print, the digits are those the code prints. *)
Definition toFixed2 (d : dec) : string :=
  let a := Z.abs (mant d) in
  let p := pow10 (scale d) in
  if pow10 21 * p <=? a then toString d
  else
    let n := (2 * a * 100 + p) / (2 * p) in
    let m := digits n in
    let m := zeros (3 - String.length m) +++ m in
    let k := String.length m in
    (if mant d <? 0 then "-" else "")
      +++ str_take (k - 2) m +++ "." +++ str_drop (k - 2) m.

End Num.

(* ================================================================== *)
(** * Results of calls that may throw *)
(* ================================================================== *)

Inductive result (A : Type) : Type :=
  | Ok (a : A)
  | Throw (msg : string).
Arguments Ok {A} a.
Arguments Throw {A} msg.

(* ================================================================== *)
(** * The date library (dayjs), as far as the pipeline uses it *)
(* ================================================================== *)

(** dayjs is a collaborator.  A valid dayjs value is kept at the
    granularity the pipeline observes, the local calendar day, as a day
    number; [add(n, 'day')] moves it by [n].  How text is read
    ([dayjs(s)], [dayjs(s, fmt)], [dayjs(s, fmt, true)]) and written
    ([format('MM/DD/YYYY')]) belongs to the library and the engine. *)
Class Dayjs : Type := {
  (** [dayjs(s)]; [None] when [isValid()] is false *)
  dayjs : string -> option Z;
  (** [dayjs(s, fmt)] and, with [strict = true], [dayjs(s, fmt, true)] *)
  dayjs_fmt : string -> string -> bool -> option Z;
  (** [d.format('MM/DD/YYYY')] *)
  format_MDY : Z -> string;
  (** [dayjs()], the day of the call *)
  today : Z
}.

(** [d.add(n, 'day')] *)
Definition add_days (n : Z) (d : Z) : Z := (d + n)%Z.

(** ** A reference calendar

    The proleptic Gregorian calendar with day 0 = 01/01/1970, reading
    exactly the text [MM/DD/YYYY] of a real date.  It is used to run the
    development on concrete inputs. *)
Module Calendar.
Local Open Scope Z_scope.

Definition days_from_civil (y m d : Z) : Z :=
  let y := if m <=? 2 then y - 1 else y in
  let era := y / 400 in
  let yoe := y - era * 400 in
  let doy := (153 * (if 2 <? m then m - 3 else m + 9) + 2) / 5 + d - 1 in
  let doe := yoe * 365 + yoe / 4 - yoe / 100 + doy in
  era * 146097 + doe - 719468.

Definition civil_from_days (z : Z) : Z * Z * Z :=
  let z := z + 719468 in
  let era := z / 146097 in
  let doe := z - era * 146097 in
  let yoe := (doe - doe / 1460 + doe / 36524 - doe / 146096) / 365 in
  let y := yoe + era * 400 in
  let doy := doe - (365 * yoe + yoe / 4 - yoe / 100) in
  let mp := (5 * doy + 2) / 153 in
  let d := doy - (153 * mp + 2) / 5 + 1 in
  let m := if mp <? 10 then mp + 3 else mp - 9 in
  (if m <=? 2 then y + 1 else y, m, d).

Definition pad (w : nat) (n : Z) : string :=
  let ds := Num.digits n in
  String.append (Num.zeros (w - String.length ds)) ds.

Definition format (z : Z) : string :=
  let '(y, m, d) := civil_from_days z in
  String.append (pad 2 m)
    (String.append "/" (String.append (pad 2 d)
       (String.append "/" (pad 4 y)))).

(** [MM/DD/YYYY], ten characters, naming a day that exists. *)
Definition parse (s : string) : option Z :=
  let mm := Num.str_take 2 s in
  let dd := Num.str_take 2 (Num.str_drop 3 s) in
  let yy := Num.str_drop 6 s in
  if (String.length s =? 10)%nat
     && Num.all_digits mm && Num.all_digits dd && Num.all_digits yy
     && String.eqb (Num.str_take 1 (Num.str_drop 2 s)) "/"
     && String.eqb (Num.str_take 1 (Num.str_drop 5 s)) "/"
  then
    let z := days_from_civil (Num.val_digits yy 0) (Num.val_digits mm 0)
                             (Num.val_digits dd 0) in
    if String.eqb (format z) s then Some z else None
  else None.

Definition reference (now : Z) : Dayjs :=
  {| dayjs := parse;
     dayjs_fmt := fun s _ _ => parse s;
     format_MDY := format;
     today := now |}.

End Calendar.

(* ================================================================== *)
(** * The collaborators: csv-parse, md5, JSON, the random source *)
(* ================================================================== *)

Class Env : Type := {
  (** [parse(content, {columns: true, skip_empty_lines: true,
      relax_column_count: true})]; it throws on text it cannot read *)
  csv_parse : string -> result (list row);
  (** [crypto.createHash('md5').update(content).digest('hex')] *)
  md5 : string -> string;
  (** [hashRow]: md5 of [JSON.stringify] of an object, given by its
      fields in order *)
  hashRow : list (string * string) -> string;
  (** the [k]-th value [crypto.randomUUID()] returns *)
  randomUUID : nat -> string
}.

(* ================================================================== *)
(** * Bills *)
(* ================================================================== *)

Record LineItem : Type := mkLine {
  item : string;
  description : string;
  quantity : Num.dec;
  unit_cost : Num.dec;
  line_amount : Num.dec
}.

Record Bill : Type := mkBill {
  vendor : string;
  ref_num : string;
  date : string;
  total_amount : Num.dec;
  due_date : string;
  terms : string;
  lines : list LineItem
}.

(* ================================================================== *)
(** * RowSanitizer and PoBillNormalizer (server.js) *)
(* ================================================================== *)

Module Server.
Import Num.
Local Infix "+++" := String.append (right associativity, at level 60).

(** Tabs, carriage returns and line feeds become a space, double quotes
    are removed (the two [replace] calls of the source). *)
Fixpoint sanitize (value : string) : string :=
  match value with
  | EmptyString => EmptyString
  | String c r =>
      if Ascii.eqb c Js.TAB || Ascii.eqb c Js.CR || Ascii.eqb c Js.LF
      then String " "%char (sanitize r)
      else if Ascii.eqb c Js.DQUOTE then sanitize r
      else String c (sanitize r)
  end.

(** The longest run of at most [n] leading digits: [(\d{1,n})]. *)
Fixpoint take_digits (n : nat) (s : string) : string :=
  match n, s with
  | S k, String c r =>
      if Js.is_digit c then String c (take_digits k r) else EmptyString
  | _, _ => EmptyString
  end.

(** The text starts with a digit. *)
Definition digit_follows (s : string) : bool :=
  match s with String c _ => Js.is_digit c | EmptyString => false end.

(** [t.match(/^net\s+(\d{1,3})/)]: the captured digits. *)
Definition netMatch (t : string) : option string :=
  if Js.startsWith "net" t then
    let r := str_drop 3 t in
    let r' := Js.trimStart r in
    if (String.length r' <? String.length r)%nat then
      let ds := take_digits 3 r' in
      if Js.truthy ds then Some ds else None
    else None
  else None.

(** [Number(text) || 0] *)
Definition Number_or_0 (s : string) : dec :=
  match Number s with
  | Some d => d
  | None => dec_of_Z 0
  end.

(** The integer a number holds (numbers of days are whole). *)
Definition to_int (d : dec) : Z := (mant d / pow10 (scale d))%Z.

Section WithDayjs.
Context {lib : Dayjs} {env : Env}.

Definition candidates : list string :=
  ["MM/DD/YYYY h:mm A"; "MM/DD/YYYY HH:mm"; "MM/DD/YYYY"; "M/D/YYYY";
   "M/D/YY"; "MM-DD-YYYY"; "YYYY-MM-DD"].

Fixpoint first_valid (input : string) (fmts : list string) : option Z :=
  match fmts with
  | [] => None
  | fmt :: r =>
      match dayjs_fmt input fmt true with
      | Some d => Some d
      | None => first_valid input r
      end
  end.

Definition formatDate (input : option string) : string :=
  if negb (cell_truthy input) then format_MDY today
  else
    let s := or_empty input in
    match first_valid s candidates with
    | Some d => format_MDY d
    | None =>
        match dayjs s with
        | Some d2 => format_MDY d2
        | None => format_MDY today
        end
    end.

Definition computeDueDate (dateStr terms : string) : string :=
  if negb (Js.truthy dateStr) then ""
  else
    let t := Js.toLowerCase terms in
    match netMatch t with
    | Some digits =>
        let add := to_int (Number_or_0 digits) in
        match dayjs_fmt dateStr "MM/DD/YYYY" false with
        | Some d => format_MDY (add_days add d)
        | None => dateStr
        end
    | None => dateStr
    end.

(** ** [parseBillsFromCsv]

    [records] is what csv-parse returns for the content. *)

(** [findActualCol]: the first synonym, in the order of the list, that
    some header of the first record equals once lower-cased and trimmed;
    the header is returned as written. *)
Fixpoint findActualCol (keys : list string) (syns : list string)
  : option string :=
  match syns with
  | [] => None
  | syn :: r =>
      match find (fun k => String.eqb (Js.trim (Js.toLowerCase k)) syn) keys with
      | Some actual => if Js.truthy actual then Some actual
                       else findActualCol keys r
      | None => findActualCol keys r
      end
  end.

Definition unresolved (col : option string) (role : string) : list string :=
  match col with Some _ => [] | None => [role] end.

Definition missing_roles (v rf it q c : option string) : list string :=
  unresolved v "vendor" ++ unresolved rf "refnumber" ++ unresolved it "item"
  ++ unresolved q "qty" ++ unresolved c "cost".

(** The insertion-ordered [Map] from group key to the rows pushed under
    it. *)
Definition groups := list (string * list row).

Fixpoint group_push (key : string) (r : row) (m : groups) : groups :=
  match m with
  | [] => [(key, [r])]
  | (k, rs) :: m' =>
      if String.eqb k key then (k, rs ++ [r]) :: m'
      else (k, rs) :: group_push key r m'
  end.

(** [s.split(sep)] for a non-empty separator; [skip] counts the
    characters of a separator still to pass over. *)
Fixpoint split_from (sep s : string) (skip : nat) : list string :=
  match s with
  | EmptyString => [EmptyString]
  | String c r =>
      match skip with
      | S k => split_from sep r k
      | O =>
          if Js.startsWith sep s
          then EmptyString :: split_from sep r (String.length sep - 1)
          else match split_from sep r 0 with
               | h :: t => String c h :: t
               | [] => [String c EmptyString]
               end
      end
  end.

Definition split (sep s : string) : list string := split_from sep s 0.

Definition date_cell (r : row) : option string :=
  or_cell (get r "Date") (or_cell (get r "TxnDate")
    (or_cell (get r "Transaction Date") (or_cell (get r "PO Date")
      (or_cell (get r "DocDate") (or_cell (get r "PODate") (get r "DATE")))))).

Definition group_key (vendorCol refCol : string) (r : row) : string :=
  sanitize (or_empty (get r vendorCol)) +++ "||"
  +++ sanitize (or_empty (get r refCol)) +++ "||" +++ formatDate (date_cell r).

Fixpoint group_rows (vendorCol refCol : string) (records : list row)
         (groupMap : groups) : groups :=
  match records with
  | [] => groupMap
  | r :: rest =>
      let vendor := sanitize (or_empty (get r vendorCol)) in
      let ref := sanitize (or_empty (get r refCol)) in
      if negb (Js.truthy vendor) || negb (Js.truthy ref)
      then group_rows vendorCol refCol rest groupMap
      else group_rows vendorCol refCol rest
             (group_push (group_key vendorCol refCol r) r groupMap)
  end.

Definition terms_cell (r : row) : string :=
  sanitize (or_empty (or_cell (get r "Terms")
                       (or_cell (get r "Payment Terms") (get r "Term")))).

Fixpoint infer_terms (rows : list row) : string :=
  match rows with
  | [] => ""
  | r :: rest => if Js.truthy (terms_cell r) then terms_cell r
                 else infer_terms rest
  end.

(** [Number(text.replace(/[^0-9.-]/g, <empty>)) || 0] *)
Definition numeric_cell (c : option string) : dec :=
  Number_or_0 (strip_non_numeric (or_empty c)).

(** [Math.round(x * 100) / 100], of the exact decimal.  The code rounds
    the double: the two agree unless [x * 100] is within a rounding error
    of a half (the double of 1.005 * 100 is just below 100.5). *)
Definition round2 (x : dec) : dec :=
  dec_div100 (Math_round (dec_mul x (dec_of_Z 100))).

Definition line_of_row (itemCol qtyCol costCol : string) (r : row)
  : dec * LineItem :=
  let qty := numeric_cell (get r qtyCol) in
  let cost := numeric_cell (get r costCol) in
  let lineAmount := round2 (dec_mul qty cost) in
  (lineAmount,
   {| item := sanitize (or_empty (get r itemCol));
      description := sanitize (or_empty (or_cell (get r "Description")
                                           (get r "Item Description")));
      quantity := qty;
      unit_cost := round2 cost;
      line_amount := round2 lineAmount |}).

(** The inner loop: the running [total] and the [lines] pushed so far. *)
Fixpoint build_lines (itemCol qtyCol costCol : string) (rows : list row)
         (total : dec) (acc : list LineItem) : dec * list LineItem :=
  match rows with
  | [] => (total, acc)
  | r :: rest =>
      let (lineAmount, ln) := line_of_row itemCol qtyCol costCol r in
      build_lines itemCol qtyCol costCol rest
                  (dec_add total lineAmount) (acc ++ [ln])
  end.

Definition bill_of_group (itemCol qtyCol costCol : string)
           (g : string * list row) : Bill :=
  let (key, rows) := g in
  let parts := split "||" key in
  let vendor := nth 0 parts "" in
  let ref := nth 1 parts "" in
  let date := nth 2 parts "" in
  let inferredTerms := infer_terms rows in
  let (total, lines) :=
    build_lines itemCol qtyCol costCol rows (dec_of_Z 0) [] in
  let terms := if Js.truthy inferredTerms then inferredTerms
               else "Due upon receipt" in
  let due_date := computeDueDate date terms in
  {| vendor := vendor; ref_num := ref; date := date;
     total_amount := round2 total; due_date := due_date; terms := terms;
     lines := lines |}.

Definition bills_of_records (records : list row) : result (list Bill) :=
  match records with
  | [] => Throw "CSV is empty or could not be parsed."
  | r0 :: _ =>
      let keys := Object_keys r0 in
      let vendorCol := findActualCol keys ["vendor"; "supplier"; "vendor name"] in
      let refCol := findActualCol keys
        ["refnumber"; "ref number"; "reference"; "reference number"; "docnum";
         "document number"] in
      let itemCol := findActualCol keys
        ["item"; "item code"; "sku"; "product"; "product code"] in
      let qtyCol := findActualCol keys ["qty"; "quantity"; "qnty"] in
      let costCol := findActualCol keys
        ["cost"; "unit cost"; "price"; "unit price"; "rate"] in
      match vendorCol, refCol, itemCol, qtyCol, costCol with
      | Some vc, Some rc, Some ic, Some qc, Some cc =>
          let groupMap := group_rows vc rc records [] in
          let bills := map (bill_of_group ic qc cc) groupMap in
          match bills with
          | [] => Throw "No valid bills found (missing Vendor/RefNumber on rows)."
          | _ => Ok bills
          end
      | _, _, _, _, _ =>
          Throw ("Missing required columns: "
                 +++ Js.join ", " (missing_roles vendorCol refCol itemCol
                                                 qtyCol costCol))
      end
  end.

Definition parseBillsFromCsv (content : string) : result (list Bill) :=
  match csv_parse content with
  | Throw msg => Throw msg
  | Ok records => bills_of_records records
  end.

(** *** Vocabulary of the grouping property *)

(** The row takes part in a bill: its vendor and its reference are not
    empty once sanitised (the [continue] of the grouping loop). *)
Definition keyed (vendorCol refCol : string) (r : row) : bool :=
  Js.truthy (sanitize (or_empty (get r vendorCol)))
  && Js.truthy (sanitize (or_empty (get r refCol))).







(** The rows that take part under the key text [k]. *)
Definition rows_under (vendorCol refCol : string) (k : string)
           (records : list row) : list row :=
  filter (fun r => keyed vendorCol refCol r
                   && String.eqb (group_key vendorCol refCol r) k) records.

(** The state of the map once the rows [seen] have gone through the
    grouping loop: one entry per key text, holding the rows seen under
    it, in order. *)
Definition grouped (vendorCol refCol : string) (m : groups)
           (seen : list row) : Prop :=
  NoDup (map fst m)
  /\ (forall k rs, In (k, rs) m ->
                   rs = rows_under vendorCol refCol k seen /\ rs <> [])
  /\ (forall r, In r seen -> keyed vendorCol refCol r = true ->
                In (group_key vendorCol refCol r) (map fst m)).

(** A number of moderate size: fewer than sixteen digits in all, at most
    fifteen of them after the point.  The double that stands for such a
    number is the one nearest to it, and products of two of them that
    stay below 10^12 are right to a small part of a cent. *)
Definition ordinary (d : dec) : bool :=
  (Z.abs (mant d) <? 10 ^ 15)%Z && (scale d <=? 15)%nat.

(** The line amounts of a bill, added up in order. *)
Definition sum_amounts (ls : list LineItem) : dec :=
  fold_left (fun t l => dec_add t (line_amount l)) ls (dec_of_Z 0).

(** The line amounts of a bill in cents, added up. *)
Definition sum_cents (ls : list LineItem) : Z :=
  fold_right (fun l a => (mant (line_amount l) + a)%Z) 0%Z ls.

End WithDayjs.
End Server.

(* ================================================================== *)
(** * The store (database.js) *)
(* ================================================================== *)

Module Db.
Import Num.
Local Infix "+++" := String.append (right associativity, at level 60).

(** A table: its rows in insertion order, and the last value its SERIAL
    sequence handed out.  A sequence is not transactional: a value taken
    by an insert stays taken when the insert is skipped by ON CONFLICT or
    undone by ROLLBACK. *)
Record table (R : Type) : Type := mkTable { rows : list R; seq : nat }.
Arguments mkTable {R} rows seq.
Arguments rows {R} t.
Arguments seq {R} t.

Definition empty_table {R : Type} : table R := mkTable [] 0.

Definition insert_row {R : Type} (mk : nat -> R) (t : table R)
  : nat * table R :=
  let id := S (seq t) in (id, mkTable (rows t ++ [mk id]) id).

(** The sequence value an insert took although no row was written. *)
Definition burn {R : Type} (t : table R) : table R :=
  mkTable (rows t) (S (seq t)).

Definition update_rows {R : Type} (f : R -> R) (t : table R) : table R :=
  mkTable (map f (rows t)) (seq t).

Definition delete_rows {R : Type} (p : R -> bool) (t : table R) : table R :=
  mkTable (filter (fun r => negb (p r)) (rows t)) (seq t).

(** What ROLLBACK leaves of a table written in the transaction. *)
Definition rolled_back {R : Type} (before now : table R) : table R :=
  mkTable (rows before) (seq now).

(** ** NUMERIC(p, s) columns

    The value is rounded to [s] places, halves away from zero; a result
    of [10^(p-s)] or more in magnitude is refused ("numeric field
    overflow"). *)
Definition numericQ (p s : nat) (q : Q) : option dec :=
  let n := (Qnum q * pow10 s)%Z in
  let d := Zpos (Qden q) in
  let m := (Z.sgn n * ((2 * Z.abs n + d) / (2 * d)))%Z in
  if (Z.abs m <? pow10 p)%Z then Some (mkDec m s) else None.

Definition numeric (p s : nat) (d : dec) : option dec := numericQ p s (toQ d).

(** A nullable NUMERIC(p, s) column. *)
Definition numeric_opt (p s : nat) (d : option dec) : option (option dec) :=
  match d with
  | None => Some None
  | Some x => option_map Some (numeric p s x)
  end.

(** A JavaScript [Date] handed to a DATE or TIMESTAMP column: the text
    it was built from, or the time of the call.  A text that is no date
    makes an Invalid Date, which the column refuses; the tables here take
    every text, so that a call which returns here may throw in the code
    on such a cell. *)
Definition JsDate := option string.

(** ** Rows *)

Record source_row : Type := mkSource {
  src_id : nat; src_name : string; source_type : string }.

Record import_metadata_row : Type := mkImportMetadata {
  im_id : nat; im_source_id : nat; import_type : string;
  original_filename : option string; content_type : option string;
  row_count : nat; raw_headers : list string; sample : list row }.

Record import_record_row : Type := mkImportRecord {
  ir_id : nat; import_metadata_id : nat; ir_external_id : option string;
  ir_checksum : option string; ir_raw : row }.

Record csv_import_row : Type := mkCsvImport {
  ci_id : nat; filename : string; csv_content : string; file_size : nat;
  processed : bool; checksum : string }.

Record transaction_row : Type := mkTransaction {
  t_id : nat; csv_import_id : nat; t_vendor : string; ref_number : string;
  transaction_date : string; t_total_amount : dec; payment_terms : string;
  t_due_date : string }.

Record line_item_row : Type := mkLineItemRow {
  li_id : nat; transaction_id : nat; item_name : string;
  li_description : string; li_quantity : dec; li_unit_cost : dec;
  li_line_amount : dec }.

Record inventory_row : Type := mkInventory {
  inv_id : nat; inv_item_name : string; inv_description : string;
  current_quantity : dec; total_received : dec; total_cost : dec;
  average_unit_cost : dec; last_transaction_date : string;
  last_vendor : string }.

Record inventory_transaction_row : Type := mkInventoryTransaction {
  it_id : nat; item_id : nat; it_transaction_id : nat;
  transaction_type : string; it_quantity : dec; it_unit_cost : dec;
  it_total_cost : dec; it_vendor : string; it_ref_number : string;
  it_transaction_date : string; notes : string }.

Record customer_row : Type := mkCustomerRow {
  cu_id : nat; cu_source_id : nat; cu_external_id : option string;
  cu_name : string; email : option string; tax_id : option string;
  address : option string; tenant_id : nat; cu_msp_tenant_uuid : string;
  client_id : nat; cu_msp_customer_uuid : string }.

Record client_row : Type := mkClient {
  cl_id : nat; cl_source_id : nat; cl_external_id : option string;
  cl_name : string; msp_customer_uuid : string }.

Record tenant_row : Type := mkTenant {
  te_id : nat; te_source_id : nat; te_external_id : option string;
  te_name : string; msp_tenant_uuid : string }.

Record catalog_item_row : Type := mkCatalogItem {
  cat_id : nat; cat_source_id : nat; item_code : string }.

Record invoice_row : Type := mkInvoiceRow {
  inv_row_id : nat; in_source_id : nat; in_external_id : option string;
  in_number : option string; customer_id : option nat;
  in_invoice_date : option string; in_due_date : option string;
  in_status : option string; in_currency : string;
  in_subtotal : option dec; in_tax_total : option dec;
  in_total : option dec; in_balance : option dec }.

Record invoice_line_row : Type := mkInvoiceLineRow {
  il_id : nat; invoice_id : nat; il_item_id : option nat;
  il_description : option string; il_quantity : option dec;
  il_unit_price : option dec; il_tax_code : option string;
  il_line_total : option dec }.

Record ledger_transaction_row : Type := mkLedgerTransaction {
  lt_id : nat; lt_source_id : nat; lt_external_id : option string;
  txn_type : string; lt_txn_date : JsDate; lt_amount : dec;
  lt_currency : string; lt_description : option string;
  counterparty : option string; lt_status : option string; lt_raw : row }.

Record ledger_link_row : Type := mkLedgerLink {
  ll_id : nat; ledger_transaction_id : nat; entity_type : string;
  entity_id : string; match_status : string }.

Record bank_transaction_row : Type := mkBankTransaction {
  bt_id : nat; bt_source_id : nat; bt_external_id : option string;
  bt_txn_date : JsDate; bt_amount : dec; bt_currency : string;
  bt_description : option string; bt_memo : option string;
  bt_balance_after : option dec; bt_checksum : option string }.

Record qbd_account_row : Type := mkQbdAccount {
  qa_id : nat; qa_name : string; role : option string; is_default : bool }.

(** ** The store: every table, and how many UUIDs were drawn so far *)

Record store : Type := mkStore {
  ledger_sources : table source_row;
  import_metadata : table import_metadata_row;
  import_records : table import_record_row;
  csv_imports : table csv_import_row;
  transactions : table transaction_row;
  line_items : table line_item_row;
  inventory : table inventory_row;
  inventory_transactions : table inventory_transaction_row;
  customers : table customer_row;
  clients : table client_row;
  msp_tenants : table tenant_row;
  catalog_items : table catalog_item_row;
  invoices : table invoice_row;
  invoice_lines : table invoice_line_row;
  ledger_transactions : table ledger_transaction_row;
  ledger_links : table ledger_link_row;
  bank_transactions : table bank_transaction_row;
  qbd_accounts : table qbd_account_row;
  uuids_drawn : nat
}.

Definition set_ledger_sources (v : table source_row) (s : store) : store :=
  {| ledger_sources := v;
     import_metadata := import_metadata s;
     import_records := import_records s;
     csv_imports := csv_imports s;
     transactions := transactions s;
     line_items := line_items s;
     inventory := inventory s;
     inventory_transactions := inventory_transactions s;
     customers := customers s;
     clients := clients s;
     msp_tenants := msp_tenants s;
     catalog_items := catalog_items s;
     invoices := invoices s;
     invoice_lines := invoice_lines s;
     ledger_transactions := ledger_transactions s;
     ledger_links := ledger_links s;
     bank_transactions := bank_transactions s;
     qbd_accounts := qbd_accounts s;
     uuids_drawn := uuids_drawn s |}.

Definition set_import_metadata (v : table import_metadata_row) (s : store) : store :=
  {| ledger_sources := ledger_sources s;
     import_metadata := v;
     import_records := import_records s;
     csv_imports := csv_imports s;
     transactions := transactions s;
     line_items := line_items s;
     inventory := inventory s;
     inventory_transactions := inventory_transactions s;
     customers := customers s;
     clients := clients s;
     msp_tenants := msp_tenants s;
     catalog_items := catalog_items s;
     invoices := invoices s;
     invoice_lines := invoice_lines s;
     ledger_transactions := ledger_transactions s;
     ledger_links := ledger_links s;
     bank_transactions := bank_transactions s;
     qbd_accounts := qbd_accounts s;
     uuids_drawn := uuids_drawn s |}.

Definition set_import_records (v : table import_record_row) (s : store) : store :=
  {| ledger_sources := ledger_sources s;
     import_metadata := import_metadata s;
     import_records := v;
     csv_imports := csv_imports s;
     transactions := transactions s;
     line_items := line_items s;
     inventory := inventory s;
     inventory_transactions := inventory_transactions s;
     customers := customers s;
     clients := clients s;
     msp_tenants := msp_tenants s;
     catalog_items := catalog_items s;
     invoices := invoices s;
     invoice_lines := invoice_lines s;
     ledger_transactions := ledger_transactions s;
     ledger_links := ledger_links s;
     bank_transactions := bank_transactions s;
     qbd_accounts := qbd_accounts s;
     uuids_drawn := uuids_drawn s |}.

Definition set_csv_imports (v : table csv_import_row) (s : store) : store :=
  {| ledger_sources := ledger_sources s;
     import_metadata := import_metadata s;
     import_records := import_records s;
     csv_imports := v;
     transactions := transactions s;
     line_items := line_items s;
     inventory := inventory s;
     inventory_transactions := inventory_transactions s;
     customers := customers s;
     clients := clients s;
     msp_tenants := msp_tenants s;
     catalog_items := catalog_items s;
     invoices := invoices s;
     invoice_lines := invoice_lines s;
     ledger_transactions := ledger_transactions s;
     ledger_links := ledger_links s;
     bank_transactions := bank_transactions s;
     qbd_accounts := qbd_accounts s;
     uuids_drawn := uuids_drawn s |}.

Definition set_transactions (v : table transaction_row) (s : store) : store :=
  {| ledger_sources := ledger_sources s;
     import_metadata := import_metadata s;
     import_records := import_records s;
     csv_imports := csv_imports s;
     transactions := v;
     line_items := line_items s;
     inventory := inventory s;
     inventory_transactions := inventory_transactions s;
     customers := customers s;
     clients := clients s;
     msp_tenants := msp_tenants s;
     catalog_items := catalog_items s;
     invoices := invoices s;
     invoice_lines := invoice_lines s;
     ledger_transactions := ledger_transactions s;
     ledger_links := ledger_links s;
     bank_transactions := bank_transactions s;
     qbd_accounts := qbd_accounts s;
     uuids_drawn := uuids_drawn s |}.

Definition set_line_items (v : table line_item_row) (s : store) : store :=
  {| ledger_sources := ledger_sources s;
     import_metadata := import_metadata s;
     import_records := import_records s;
     csv_imports := csv_imports s;
     transactions := transactions s;
     line_items := v;
     inventory := inventory s;
     inventory_transactions := inventory_transactions s;
     customers := customers s;
     clients := clients s;
     msp_tenants := msp_tenants s;
     catalog_items := catalog_items s;
     invoices := invoices s;
     invoice_lines := invoice_lines s;
     ledger_transactions := ledger_transactions s;
     ledger_links := ledger_links s;
     bank_transactions := bank_transactions s;
     qbd_accounts := qbd_accounts s;
     uuids_drawn := uuids_drawn s |}.

Definition set_inventory (v : table inventory_row) (s : store) : store :=
  {| ledger_sources := ledger_sources s;
     import_metadata := import_metadata s;
     import_records := import_records s;
     csv_imports := csv_imports s;
     transactions := transactions s;
     line_items := line_items s;
     inventory := v;
     inventory_transactions := inventory_transactions s;
     customers := customers s;
     clients := clients s;
     msp_tenants := msp_tenants s;
     catalog_items := catalog_items s;
     invoices := invoices s;
     invoice_lines := invoice_lines s;
     ledger_transactions := ledger_transactions s;
     ledger_links := ledger_links s;
     bank_transactions := bank_transactions s;
     qbd_accounts := qbd_accounts s;
     uuids_drawn := uuids_drawn s |}.

Definition set_inventory_transactions (v : table inventory_transaction_row) (s : store) : store :=
  {| ledger_sources := ledger_sources s;
     import_metadata := import_metadata s;
     import_records := import_records s;
     csv_imports := csv_imports s;
     transactions := transactions s;
     line_items := line_items s;
     inventory := inventory s;
     inventory_transactions := v;
     customers := customers s;
     clients := clients s;
     msp_tenants := msp_tenants s;
     catalog_items := catalog_items s;
     invoices := invoices s;
     invoice_lines := invoice_lines s;
     ledger_transactions := ledger_transactions s;
     ledger_links := ledger_links s;
     bank_transactions := bank_transactions s;
     qbd_accounts := qbd_accounts s;
     uuids_drawn := uuids_drawn s |}.

Definition set_customers (v : table customer_row) (s : store) : store :=
  {| ledger_sources := ledger_sources s;
     import_metadata := import_metadata s;
     import_records := import_records s;
     csv_imports := csv_imports s;
     transactions := transactions s;
     line_items := line_items s;
     inventory := inventory s;
     inventory_transactions := inventory_transactions s;
     customers := v;
     clients := clients s;
     msp_tenants := msp_tenants s;
     catalog_items := catalog_items s;
     invoices := invoices s;
     invoice_lines := invoice_lines s;
     ledger_transactions := ledger_transactions s;
     ledger_links := ledger_links s;
     bank_transactions := bank_transactions s;
     qbd_accounts := qbd_accounts s;
     uuids_drawn := uuids_drawn s |}.

Definition set_clients (v : table client_row) (s : store) : store :=
  {| ledger_sources := ledger_sources s;
     import_metadata := import_metadata s;
     import_records := import_records s;
     csv_imports := csv_imports s;
     transactions := transactions s;
     line_items := line_items s;
     inventory := inventory s;
     inventory_transactions := inventory_transactions s;
     customers := customers s;
     clients := v;
     msp_tenants := msp_tenants s;
     catalog_items := catalog_items s;
     invoices := invoices s;
     invoice_lines := invoice_lines s;
     ledger_transactions := ledger_transactions s;
     ledger_links := ledger_links s;
     bank_transactions := bank_transactions s;
     qbd_accounts := qbd_accounts s;
     uuids_drawn := uuids_drawn s |}.

Definition set_msp_tenants (v : table tenant_row) (s : store) : store :=
  {| ledger_sources := ledger_sources s;
     import_metadata := import_metadata s;
     import_records := import_records s;
     csv_imports := csv_imports s;
     transactions := transactions s;
     line_items := line_items s;
     inventory := inventory s;
     inventory_transactions := inventory_transactions s;
     customers := customers s;
     clients := clients s;
     msp_tenants := v;
     catalog_items := catalog_items s;
     invoices := invoices s;
     invoice_lines := invoice_lines s;
     ledger_transactions := ledger_transactions s;
     ledger_links := ledger_links s;
     bank_transactions := bank_transactions s;
     qbd_accounts := qbd_accounts s;
     uuids_drawn := uuids_drawn s |}.

Definition set_catalog_items (v : table catalog_item_row) (s : store) : store :=
  {| ledger_sources := ledger_sources s;
     import_metadata := import_metadata s;
     import_records := import_records s;
     csv_imports := csv_imports s;
     transactions := transactions s;
     line_items := line_items s;
     inventory := inventory s;
     inventory_transactions := inventory_transactions s;
     customers := customers s;
     clients := clients s;
     msp_tenants := msp_tenants s;
     catalog_items := v;
     invoices := invoices s;
     invoice_lines := invoice_lines s;
     ledger_transactions := ledger_transactions s;
     ledger_links := ledger_links s;
     bank_transactions := bank_transactions s;
     qbd_accounts := qbd_accounts s;
     uuids_drawn := uuids_drawn s |}.

Definition set_invoices (v : table invoice_row) (s : store) : store :=
  {| ledger_sources := ledger_sources s;
     import_metadata := import_metadata s;
     import_records := import_records s;
     csv_imports := csv_imports s;
     transactions := transactions s;
     line_items := line_items s;
     inventory := inventory s;
     inventory_transactions := inventory_transactions s;
     customers := customers s;
     clients := clients s;
     msp_tenants := msp_tenants s;
     catalog_items := catalog_items s;
     invoices := v;
     invoice_lines := invoice_lines s;
     ledger_transactions := ledger_transactions s;
     ledger_links := ledger_links s;
     bank_transactions := bank_transactions s;
     qbd_accounts := qbd_accounts s;
     uuids_drawn := uuids_drawn s |}.

Definition set_invoice_lines (v : table invoice_line_row) (s : store) : store :=
  {| ledger_sources := ledger_sources s;
     import_metadata := import_metadata s;
     import_records := import_records s;
     csv_imports := csv_imports s;
     transactions := transactions s;
     line_items := line_items s;
     inventory := inventory s;
     inventory_transactions := inventory_transactions s;
     customers := customers s;
     clients := clients s;
     msp_tenants := msp_tenants s;
     catalog_items := catalog_items s;
     invoices := invoices s;
     invoice_lines := v;
     ledger_transactions := ledger_transactions s;
     ledger_links := ledger_links s;
     bank_transactions := bank_transactions s;
     qbd_accounts := qbd_accounts s;
     uuids_drawn := uuids_drawn s |}.

Definition set_ledger_transactions (v : table ledger_transaction_row) (s : store) : store :=
  {| ledger_sources := ledger_sources s;
     import_metadata := import_metadata s;
     import_records := import_records s;
     csv_imports := csv_imports s;
     transactions := transactions s;
     line_items := line_items s;
     inventory := inventory s;
     inventory_transactions := inventory_transactions s;
     customers := customers s;
     clients := clients s;
     msp_tenants := msp_tenants s;
     catalog_items := catalog_items s;
     invoices := invoices s;
     invoice_lines := invoice_lines s;
     ledger_transactions := v;
     ledger_links := ledger_links s;
     bank_transactions := bank_transactions s;
     qbd_accounts := qbd_accounts s;
     uuids_drawn := uuids_drawn s |}.

Definition set_ledger_links (v : table ledger_link_row) (s : store) : store :=
  {| ledger_sources := ledger_sources s;
     import_metadata := import_metadata s;
     import_records := import_records s;
     csv_imports := csv_imports s;
     transactions := transactions s;
     line_items := line_items s;
     inventory := inventory s;
     inventory_transactions := inventory_transactions s;
     customers := customers s;
     clients := clients s;
     msp_tenants := msp_tenants s;
     catalog_items := catalog_items s;
     invoices := invoices s;
     invoice_lines := invoice_lines s;
     ledger_transactions := ledger_transactions s;
     ledger_links := v;
     bank_transactions := bank_transactions s;
     qbd_accounts := qbd_accounts s;
     uuids_drawn := uuids_drawn s |}.

Definition set_bank_transactions (v : table bank_transaction_row) (s : store) : store :=
  {| ledger_sources := ledger_sources s;
     import_metadata := import_metadata s;
     import_records := import_records s;
     csv_imports := csv_imports s;
     transactions := transactions s;
     line_items := line_items s;
     inventory := inventory s;
     inventory_transactions := inventory_transactions s;
     customers := customers s;
     clients := clients s;
     msp_tenants := msp_tenants s;
     catalog_items := catalog_items s;
     invoices := invoices s;
     invoice_lines := invoice_lines s;
     ledger_transactions := ledger_transactions s;
     ledger_links := ledger_links s;
     bank_transactions := v;
     qbd_accounts := qbd_accounts s;
     uuids_drawn := uuids_drawn s |}.

Definition set_qbd_accounts (v : table qbd_account_row) (s : store) : store :=
  {| ledger_sources := ledger_sources s;
     import_metadata := import_metadata s;
     import_records := import_records s;
     csv_imports := csv_imports s;
     transactions := transactions s;
     line_items := line_items s;
     inventory := inventory s;
     inventory_transactions := inventory_transactions s;
     customers := customers s;
     clients := clients s;
     msp_tenants := msp_tenants s;
     catalog_items := catalog_items s;
     invoices := invoices s;
     invoice_lines := invoice_lines s;
     ledger_transactions := ledger_transactions s;
     ledger_links := ledger_links s;
     bank_transactions := bank_transactions s;
     qbd_accounts := v;
     uuids_drawn := uuids_drawn s |}.

Definition set_uuids_drawn (v : nat) (s : store) : store :=
  {| ledger_sources := ledger_sources s;
     import_metadata := import_metadata s;
     import_records := import_records s;
     csv_imports := csv_imports s;
     transactions := transactions s;
     line_items := line_items s;
     inventory := inventory s;
     inventory_transactions := inventory_transactions s;
     customers := customers s;
     clients := clients s;
     msp_tenants := msp_tenants s;
     catalog_items := catalog_items s;
     invoices := invoices s;
     invoice_lines := invoice_lines s;
     ledger_transactions := ledger_transactions s;
     ledger_links := ledger_links s;
     bank_transactions := bank_transactions s;
     qbd_accounts := qbd_accounts s;
     uuids_drawn := v |}.

Definition empty_store : store :=
  mkStore empty_table empty_table empty_table empty_table empty_table
          empty_table empty_table empty_table empty_table empty_table
          empty_table empty_table empty_table empty_table empty_table
          empty_table empty_table empty_table 0.

(** ** Calls on the store

    A call runs from a store to a value and a store, or throws; the store
    a thrown call leaves holds what was committed before the throw. *)
Inductive outcome (A : Type) : Type :=
  | Done (a : A) (s : store)
  | Raised (msg : string) (s : store).
Arguments Done {A} a s.
Arguments Raised {A} msg s.

Definition M (A : Type) : Type := store -> outcome A.

(** The store a call leaves, returned or thrown. *)
Definition final {A : Type} (o : outcome A) : store :=
  match o with Done _ s => s | Raised _ s => s end.

Definition ret {A : Type} (a : A) : M A := fun s => Done a s.
Definition raise {A : Type} (msg : string) : M A := fun s => Raised msg s.
Definition bind {A B : Type} (c : M A) (k : A -> M B) : M B :=
  fun s => match c s with
           | Done a s' => k a s'
           | Raised msg s' => Raised msg s'
           end.
Definition modify (f : store -> store) : M unit := fun s => Done tt (f s).
Definition gets {A : Type} (f : store -> A) : M A := fun s => Done (f s) s.

Notation "x <- c ;; k" := (bind c (fun x => k))
  (at level 61, c at next level, right associativity).
Notation "c ;;; k" := (bind c (fun _ => k))
  (at level 61, right associativity).

(** [BEGIN ... COMMIT], with [ROLLBACK] and rethrow in the [catch]:
    [undo before now] is the store after the rollback. *)
Definition transaction {A : Type} (undo : store -> store -> store)
           (body : M A) : M A :=
  fun s => match body s with
           | Done a s' => Done a s'
           | Raised msg s' => Raised msg (undo s s')
           end.

(** A value a NOT NULL or NUMERIC column refuses makes the query throw. *)
Definition require {A : Type} (msg : string) (v : option A) : M A :=
  match v with Some a => ret a | None => raise msg end.

Fixpoint for_each {A : Type} (f : A -> M unit) (l : list A) : M unit :=
  match l with
  | [] => ret tt
  | x :: r => f x ;;; for_each f r
  end.

Definition opt_eqb (a : option string) (b : string) : bool :=
  match a with Some x => String.eqb x b | None => false end.

(** [x || null] on text *)
Definition or_null (c : option string) : option string :=
  if cell_truthy c then c else None.

(** [x || null] on numbers *)
Definition num_or_null (d : option dec) : option dec :=
  match d with
  | Some x => if num_truthy x then Some x else None
  | None => None
  end.

Section Calls.
Context {env : Env}.

(** ** [getOrCreateSource] *)
Definition getOrCreateSource (name : string) : M nat :=
  fun s =>
    match find (fun r => String.eqb (src_name r) name)
               (rows (ledger_sources s)) with
    | Some r => Done (src_id r) s
    | None =>
        let (id, t) := insert_row (fun id => mkSource id name "csv")
                                  (ledger_sources s) in
        Done id (set_ledger_sources t s)
    end.

(** ** [createImportMetadata] *)
Record import_meta : Type := mkImportMeta {
  meta_original_filename : option string;
  meta_content_type : option string;
  meta_row_count : nat;
  meta_raw_headers : list string;
  meta_sample : list row }.

Definition createImportMetadata (sourceName importType : string)
           (meta : import_meta) : M nat :=
  sourceId <- getOrCreateSource sourceName ;;
  fun s =>
    let (id, t) :=
      insert_row (fun id => mkImportMetadata id sourceId importType
                    (meta_original_filename meta) (meta_content_type meta)
                    (meta_row_count meta) (meta_raw_headers meta)
                    (meta_sample meta))
                 (import_metadata s) in
    Done id (set_import_metadata t s).

(** ** [addImportRecords] *)
Record import_record : Type := mkRecord {
  rec_external_id : option string;
  rec_checksum : string;
  rec_raw : row }.

Definition undo_import_records (before now : store) : store :=
  set_import_records
    (rolled_back (import_records before) (import_records now)) now.

(** One INSERT of the loop; import_metadata_id references
    import_metadata(id). *)
Definition insert_import_record (importMetadataId : nat) (r : import_record)
  : M unit :=
  fun s =>
    if existsb (fun m => Nat.eqb (im_id m) importMetadataId)
               (rows (import_metadata s))
    then
      Done tt
        (set_import_records
           (snd (insert_row (fun id => mkImportRecord id importMetadataId
                               (or_null (rec_external_id r))
                               (or_null (Some (rec_checksum r))) (rec_raw r))
                            (import_records s))) s)
    else Raised "import_records_import_metadata_id_fkey" s.

Definition addImportRecords (importMetadataId : nat)
           (records : list import_record) : M nat :=
  match records with
  | [] => ret 0
  | _ =>
      transaction undo_import_records
        (for_each (insert_import_record importMetadataId) records) ;;;
      ret (List.length records)
  end.

(** ** [storeCsvImport] *)
Definition generateChecksum (content : string) : string := md5 content.

Record store_result : Type := mkStoreResult {
  sr_id : nat;
  sr_isDuplicate : bool;
  alreadyProcessed : bool;
  message : string }.

Definition storeCsvImport (fname csvContent : string) : M store_result :=
  fun s =>
    let checksum := generateChecksum csvContent in
    let fileSize := String.length csvContent in
    match find (fun r => String.eqb (Db.checksum r) checksum)
               (rows (csv_imports s)) with
    | Some r =>
        Done {| sr_id := ci_id r;
                sr_isDuplicate := true;
                alreadyProcessed := processed r;
                message := if processed r
                           then "CSV already imported and processed"
                           else "CSV already imported but not processed" |}
             s
    | None =>
        let (id, t) :=
          insert_row (fun id => mkCsvImport id fname csvContent fileSize
                                            false checksum)
                     (csv_imports s) in
        Done {| sr_id := id; sr_isDuplicate := false;
                alreadyProcessed := false;
                message := "CSV imported successfully" |}
             (set_csv_imports t s)
    end.

(** The source [name] is known. *)
Definition has_source (name : string) (s : store) : Prop :=
  find (fun r => String.eqb (src_name r) name) (rows (ledger_sources s))
  <> None.



(** ** [processCsvImport] *)

Definition undo_process (before now : store) : store :=
  set_transactions (rolled_back (transactions before) (transactions now))
   (set_line_items (rolled_back (line_items before) (line_items now))
    (set_inventory (rolled_back (inventory before) (inventory now))
     (set_inventory_transactions
        (rolled_back (inventory_transactions before)
                     (inventory_transactions now))
      (set_csv_imports (rolled_back (csv_imports before) (csv_imports now))
         now)))).

Definition insert_inventory_transaction (itemId transactionId : nat)
           (bill : Bill) (line : LineItem) : M unit :=
  uc <- require "numeric field overflow" (numeric 12 4 (unit_cost line)) ;;
  tc <- require "numeric field overflow" (numeric 12 2 (line_amount line)) ;;
  modify (fun s =>
    set_inventory_transactions
      (snd (insert_row
              (fun id => mkInventoryTransaction id itemId transactionId
                 "RECEIPT" (quantity line) uc tc (vendor bill)
                 (ref_num bill) (date bill) "CSV Import")
              (inventory_transactions s))) s).

(** [newQuantity ? newTotalCost / newQuantity : 0], as an exact
    quotient.  What JavaScript hands to the driver is the double next to
    it, which the column rounds to the same four places unless the
    quotient is half-way between two of them ([off_half] below). *)
Definition newAverageCost (newTotalCost newQuantity : dec) : Q :=
  if num_truthy newQuantity
  then (toQ newTotalCost / toQ newQuantity)%Q
  else 0%Q.

(** The inventory upsert for one line. *)
Definition upsert_inventory (transactionId : nat) (bill : Bill)
           (line : LineItem) : M unit :=
  invRow <- gets (fun s =>
              find (fun r => String.eqb (inv_item_name r) (item line))
                   (rows (inventory s))) ;;
  match invRow with
  | Some row =>
      let newQuantity := dec_add (current_quantity row) (quantity line) in
      let newTotalCost := dec_add (total_cost row) (line_amount line) in
      tc <- require "numeric field overflow" (numeric 12 2 newTotalCost) ;;
      avg <- require "numeric field overflow"
               (numericQ 12 4 (newAverageCost newTotalCost newQuantity)) ;;
      modify (fun s =>
        set_inventory
          (update_rows
             (fun r =>
                if Nat.eqb (inv_id r) (inv_id row)
                then mkInventory (inv_id r) (inv_item_name r)
                       (inv_description r) newQuantity
                       (dec_add (total_received row) (quantity line))
                       tc avg (date bill) (vendor bill)
                else r)
             (inventory s)) s) ;;;
      insert_inventory_transaction (inv_id row) transactionId bill line
  | None =>
      tc <- require "numeric field overflow"
              (numeric 12 2 (line_amount line)) ;;
      avg <- require "numeric field overflow"
               (numeric 12 4 (unit_cost line)) ;;
      newItem <- (fun s =>
        let (id, t) :=
          insert_row (fun id => mkInventory id (item line)
                        (description line) (quantity line) (quantity line)
                        tc avg (date bill) (vendor bill))
                     (inventory s) in
        Done id (set_inventory t s)) ;;
      insert_inventory_transaction newItem transactionId bill line
  end.

Definition process_line (transactionId : nat) (bill : Bill)
           (line : LineItem) : M unit :=
  uc <- require "numeric field overflow" (numeric 12 4 (unit_cost line)) ;;
  la <- require "numeric field overflow" (numeric 12 2 (line_amount line)) ;;
  modify (fun s =>
    set_line_items
      (snd (insert_row
              (fun id => mkLineItemRow id transactionId (item line)
                           (description line) (quantity line) uc la)
              (line_items s))) s) ;;;
  upsert_inventory transactionId bill line.

Definition process_bill (importId : nat) (bill : Bill) : M unit :=
  total <- require "numeric field overflow"
             (numeric 12 2 (total_amount bill)) ;;
  transactionId <- (fun s =>
    if existsb (fun r => Nat.eqb (ci_id r) importId) (rows (csv_imports s))
    then
      let (id, t) :=
        insert_row (fun id => mkTransaction id importId (vendor bill)
                      (ref_num bill) (date bill) total (terms bill)
                      (due_date bill))
                   (transactions s) in
      Done id (set_transactions t s)
    else Raised "transactions_csv_import_id_fkey" s) ;;
  for_each (process_line transactionId bill) (lines bill).

Definition processCsvImport (importId : nat) (bills : list Bill) : M unit :=
  transaction undo_process
    (for_each (process_bill importId) bills ;;;
     modify (fun s =>
       set_csv_imports
         (update_rows
            (fun r => if Nat.eqb (ci_id r) importId
                      then mkCsvImport (ci_id r) (filename r) (csv_content r)
                                       (file_size r) true (checksum r)
                      else r)
            (csv_imports s)) s)).

(** ** [getOrCreateClient], [getOrCreateTenant] *)

(** [ORDER BY id DESC LIMIT 1] among the rows that satisfy [p]. *)
Definition latest {R : Type} (id : R -> nat) (p : R -> bool) (l : list R)
  : option R :=
  fold_left
    (fun best r =>
       if p r then
         match best with
         | Some b => if Nat.ltb (id b) (id r) then Some r else best
         | None => Some r
         end
       else best)
    l None.

Definition draw_uuid : M string :=
  fun s => Done (randomUUID (uuids_drawn s))
                (set_uuids_drawn (S (uuids_drawn s)) s).

Definition getOrCreateClient (sourceName : string)
           (external_id name : option string) : M (nat * string) :=
  sourceId <- getOrCreateSource sourceName ;;
  byExt <- gets (fun s =>
    if cell_truthy external_id then
      find (fun r => Nat.eqb (cl_source_id r) sourceId
                     && opt_eqb (cl_external_id r) (or_empty external_id))
           (rows (clients s))
    else None) ;;
  match byExt with
  | Some r => ret (cl_id r, msp_customer_uuid r)
  | None =>
      byName <- gets (fun s =>
        match name with
        | Some n =>
            latest cl_id
              (fun r => String.eqb (Js.toLowerCase (cl_name r))
                                   (Js.toLowerCase n))
              (rows (clients s))
        | None => None
        end) ;;
      match byName with
      | Some r => ret (cl_id r, msp_customer_uuid r)
      | None =>
          uuid <- draw_uuid ;;
          n <- require "null value in column name" name ;;
          fun s =>
            if existsb (fun r => String.eqb (msp_customer_uuid r) uuid)
                       (rows (clients s))
            then Raised "clients_msp_customer_uuid_key"
                        (set_clients (burn (clients s)) s)
            else
              let (id, t) :=
                insert_row (fun id => mkClient id sourceId external_id n uuid)
                           (clients s) in
              Done (id, uuid) (set_clients t s)
      end
  end.

Definition getOrCreateTenant (sourceName : string)
           (external_id name : option string) : M (nat * string) :=
  sourceId <- getOrCreateSource sourceName ;;
  byExt <- gets (fun s =>
    if cell_truthy external_id then
      find (fun r => Nat.eqb (te_source_id r) sourceId
                     && opt_eqb (te_external_id r) (or_empty external_id))
           (rows (msp_tenants s))
    else None) ;;
  match byExt with
  | Some r => ret (te_id r, msp_tenant_uuid r)
  | None =>
      byName <- gets (fun s =>
        match name with
        | Some n =>
            latest te_id
              (fun r => String.eqb (Js.toLowerCase (te_name r))
                                   (Js.toLowerCase n))
              (rows (msp_tenants s))
        | None => None
        end) ;;
      match byName with
      | Some r => ret (te_id r, msp_tenant_uuid r)
      | None =>
          uuid <- draw_uuid ;;
          n <- require "null value in column name" name ;;
          fun s =>
            if existsb (fun r => String.eqb (msp_tenant_uuid r) uuid)
                       (rows (msp_tenants s))
            then Raised "msp_tenants_msp_tenant_uuid_key"
                        (set_msp_tenants (burn (msp_tenants s)) s)
            else
              let (id, t) :=
                insert_row (fun id => mkTenant id sourceId external_id n uuid)
                           (msp_tenants s) in
              Done (id, uuid) (set_msp_tenants t s)
      end
  end.

(** ** [upsertCustomer] *)
Record Customer : Type := mkCustomer {
  c_external_id : option string;
  c_name : option string;
  c_email : option string;
  c_address : option string;
  c_tax_id : option string;
  client_external_id : option string;
  client_name : option string;
  tenant_external_id : option string;
  tenant_name : option string }.

(** Two keys of a [UNIQUE (source_id, external_id)] constraint collide
    only when the external id is not NULL. *)
Definition same_key (src : nat) (ext : option string)
           (src' : nat) (ext' : option string) : bool :=
  match ext, ext' with
  | Some a, Some b => Nat.eqb src src' && String.eqb a b
  | _, _ => false
  end.

Definition upsertCustomer (sourceName : string) (customer : Customer)
  : M nat :=
  sourceId <- getOrCreateSource sourceName ;;
  clientRec <- getOrCreateClient sourceName
                 (or_null (or_cell (client_external_id customer)
                                   (c_external_id customer)))
                 (or_cell (client_name customer) (c_name customer)) ;;
  tenant <- getOrCreateTenant sourceName
              (or_null (or_cell (tenant_external_id customer)
                                (c_external_id customer)))
              (or_cell (tenant_name customer) (c_name customer)) ;;
  let ext := or_null (c_external_id customer) in
  fun s =>
    match c_name customer with
    | None => Raised "null value in column name"
                     (set_customers (burn (customers s)) s)
    | Some name =>
        let fresh id :=
          mkCustomerRow id sourceId ext name (or_null (c_email customer))
            (or_null (c_tax_id customer)) (or_null (c_address customer))
            (fst tenant) (snd tenant) (fst clientRec) (snd clientRec) in
        match find (fun r => same_key (cu_source_id r) (cu_external_id r)
                                      sourceId ext)
                   (rows (customers s)) with
        | Some old =>
            Done (cu_id old)
                 (set_customers
                    (burn (update_rows
                             (fun r => if Nat.eqb (cu_id r) (cu_id old)
                                       then fresh (cu_id r) else r)
                             (customers s))) s)
        | None =>
            let (id, t) := insert_row fresh (customers s) in
            Done id (set_customers t s)
        end
    end.

(** ** [upsertInvoiceWithLines] *)
Record Invoice : Type := mkInvoice {
  external_id : option string;
  number : option string;
  invoice_date : option string;
  inv_due_date : option string;
  status : option string;
  currency : option string;
  subtotal : option dec;
  tax_total : option dec;
  total : option dec;
  balance : option dec;
  customer : option Customer;
  raw : row }.

Record InvoiceLine : Type := mkInvoiceLine {
  ln_item_code : option string;
  ln_description : option string;
  ln_quantity : option dec;
  ln_unit_price : option dec;
  ln_tax_code : option string;
  ln_line_total : option dec }.

Definition undo_invoice (before now : store) : store :=
  set_invoices (rolled_back (invoices before) (invoices now))
   (set_invoice_lines
      (rolled_back (invoice_lines before) (invoice_lines now))
    (set_ledger_transactions
       (rolled_back (ledger_transactions before) (ledger_transactions now))
       now)).

Definition upsert_invoice_row (sourceId : nat) (invoice : Invoice)
           (customerId : option nat) : M nat :=
  sub <- require "numeric field overflow"
           (numeric_opt 14 2 (num_or_null (subtotal invoice))) ;;
  tax <- require "numeric field overflow"
           (numeric_opt 14 2 (num_or_null (tax_total invoice))) ;;
  tot <- require "numeric field overflow"
           (numeric_opt 14 2 (num_or_null (total invoice))) ;;
  bal <- require "numeric field overflow"
           (numeric_opt 14 2 (num_or_null (balance invoice))) ;;
  let ext := or_null (external_id invoice) in
  let fresh id :=
    mkInvoiceRow id sourceId ext (or_null (number invoice)) customerId
      (or_null (invoice_date invoice)) (or_null (inv_due_date invoice))
      (or_null (status invoice))
      (if cell_truthy (currency invoice) then or_empty (currency invoice)
       else "USD")
      sub tax tot bal in
  fun s =>
    match find (fun r => same_key (in_source_id r) (in_external_id r)
                                  sourceId ext)
               (rows (invoices s)) with
    | Some old =>
        Done (inv_row_id old)
             (set_invoices
                (burn (update_rows
                         (fun r => if Nat.eqb (inv_row_id r) (inv_row_id old)
                                   then fresh (inv_row_id r) else r)
                         (invoices s))) s)
    | None =>
        let (id, t) := insert_row fresh (invoices s) in
        Done id (set_invoices t s)
    end.

Definition insert_invoice_line (sourceId invoiceId : nat) (ln : InvoiceLine)
  : M unit :=
  itemId <- gets (fun s =>
    if cell_truthy (ln_item_code ln) then
      option_map cat_id
        (find (fun r => Nat.eqb (cat_source_id r) sourceId
                        && String.eqb (item_code r)
                                      (or_empty (ln_item_code ln)))
              (rows (catalog_items s)))
    else None) ;;
  q <- require "numeric field overflow"
         (numeric_opt 12 4 (num_or_null (ln_quantity ln))) ;;
  up <- require "numeric field overflow"
          (numeric_opt 12 4 (num_or_null (ln_unit_price ln))) ;;
  lt <- require "numeric field overflow"
          (numeric_opt 14 2 (num_or_null (ln_line_total ln))) ;;
  modify (fun s =>
    set_invoice_lines
      (snd (insert_row
              (fun id => mkInvoiceLineRow id invoiceId itemId
                           (or_null (ln_description ln)) q up
                           (or_null (ln_tax_code ln)) lt)
              (invoice_lines s))) s).

Definition num_or_0 (d : option dec) : dec :=
  match num_or_null d with Some x => x | None => dec_of_Z 0 end.

Definition insert_invoice_ledger (sourceId : nat) (invoice : Invoice)
  : M unit :=
  amount <- require "numeric field overflow"
              (numeric 14 2 (num_or_0 (total invoice))) ;;
  let ext := or_null (or_cell (external_id invoice) (number invoice)) in
  modify (fun s =>
    if existsb (fun r => same_key (lt_source_id r) (lt_external_id r)
                                  sourceId ext)
               (rows (ledger_transactions s))
    then set_ledger_transactions (burn (ledger_transactions s)) s
    else
      set_ledger_transactions
        (snd (insert_row
                (fun id => mkLedgerTransaction id sourceId ext "invoice"
                   (or_null (or_cell (invoice_date invoice)
                                     (inv_due_date invoice)))
                   amount
                   (if cell_truthy (currency invoice)
                    then or_empty (currency invoice) else "USD")
                   (Some ("Invoice " +++ or_empty (or_null (number invoice))))
                   (match customer invoice with
                    | Some c => or_null (c_name c)
                    | None => None
                    end)
                   (or_null (status invoice)) (raw invoice))
                (ledger_transactions s))) s).

Definition upsertInvoiceWithLines (sourceName : string) (invoice : Invoice)
           (lines : list InvoiceLine) : M nat :=
  sourceId <- getOrCreateSource sourceName ;;
  transaction undo_invoice
    (customerId <- match customer invoice with
                   | Some c => id <- upsertCustomer sourceName c ;;
                               ret (Some id)
                   | None => ret None
                   end ;;
     invoiceId <- upsert_invoice_row sourceId invoice customerId ;;
     modify (fun s =>
       set_invoice_lines
         (delete_rows (fun r => Nat.eqb (invoice_id r) invoiceId)
                      (invoice_lines s)) s) ;;;
     for_each (insert_invoice_line sourceId invoiceId) lines ;;;
     insert_invoice_ledger sourceId invoice ;;;
     ret invoiceId).

(** ** [insertBankTransactions] *)
Record BankTxn : Type := mkBankTxn {
  bx_external_id : option string;
  txn_date : JsDate;
  amount : dec;
  bx_currency : string;
  bx_description : string;
  memo : string;
  balance_after : option dec;
  bx_checksum : string;
  bx_status : option string;
  bx_raw : row }.

Definition undo_bank (before now : store) : store :=
  set_bank_transactions
    (rolled_back (bank_transactions before) (bank_transactions now))
   (set_ledger_transactions
      (rolled_back (ledger_transactions before) (ledger_transactions now))
    (set_ledger_links
       (rolled_back (ledger_links before) (ledger_links now)) now)).

(** [INSERT INTO bank_transactions ... ON CONFLICT (source_id,
    external_id) DO NOTHING RETURNING id]: the id, or nothing when the
    insert was skipped. *)
Definition insert_bank_row (sourceId : nat) (t : BankTxn) : M (option nat) :=
  amt <- require "numeric field overflow" (numeric 14 2 (amount t)) ;;
  bal <- require "numeric field overflow"
           (numeric_opt 14 2 (num_or_null (balance_after t))) ;;
  let externalId := or_null (bx_external_id t) in
  fun s =>
    if existsb (fun r => same_key (bt_source_id r) (bt_external_id r)
                                  sourceId externalId)
               (rows (bank_transactions s))
    then Done None (set_bank_transactions (burn (bank_transactions s)) s)
    else
      let (id, tb) :=
        insert_row (fun id => mkBankTransaction id sourceId externalId
                      (txn_date t) amt
                      (if Js.truthy (bx_currency t) then bx_currency t
                       else "USD")
                      (or_null (Some (bx_description t)))
                      (or_null (Some (memo t))) bal
                      (or_null (Some (bx_checksum t))))
                   (bank_transactions s) in
      Done (Some id) (set_bank_transactions tb s).

Definition insert_bank_ledger (sourceId : nat) (t : BankTxn)
  : M (option nat) :=
  amt <- require "numeric field overflow" (numeric 14 2 (amount t)) ;;
  let externalId := or_null (bx_external_id t) in
  fun s =>
    if existsb (fun r => same_key (lt_source_id r) (lt_external_id r)
                                  sourceId externalId)
               (rows (ledger_transactions s))
    then Done None (set_ledger_transactions (burn (ledger_transactions s)) s)
    else
      let (id, tb) :=
        insert_row (fun id => mkLedgerTransaction id sourceId externalId
                      "bank_txn" (txn_date t) amt
                      (if Js.truthy (bx_currency t) then bx_currency t
                       else "USD")
                      (or_null (or_cell (Some (bx_description t))
                                        (Some (memo t))))
                      None (or_null (bx_status t)) (bx_raw t))
                   (ledger_transactions s) in
      Done (Some id) (set_ledger_transactions tb s).

Definition insert_bank_txn (sourceId : nat) (t : BankTxn) : M unit :=
  bankId <- insert_bank_row sourceId t ;;
  lt <- insert_bank_ledger sourceId t ;;
  match bankId, lt with
  | Some b, Some l =>
      modify (fun s =>
        set_ledger_links
          (snd (insert_row
                  (fun id => mkLedgerLink id l "bank_txn" (toString (dec_of_Z (Z.of_nat b)))
                                          "matched")
                  (ledger_links s))) s)
  | _, _ => ret tt
  end.

Definition insertBankTransactions (sourceName : string)
           (txns : list BankTxn) : M nat :=
  sourceId <- getOrCreateSource sourceName ;;
  transaction undo_bank
    (for_each (insert_bank_txn sourceId) txns ;;;
     ret (List.length txns)).

(** The amounts of a transaction fit their NUMERIC(14,2) columns. *)
Definition fits_columns (t : BankTxn) : bool :=
  match numeric 14 2 (amount t),
        numeric_opt 14 2 (num_or_null (balance_after t)) with
  | Some _, Some _ => true
  | _, _ => false
  end.

(** ** [getDefaultQbdAccounts] *)

(** [map[k] = v] on an object. *)
Fixpoint obj_set (k v : string) (o : row) : row :=
  match o with
  | [] => [(k, v)]
  | (k', v') :: o' =>
      if String.eqb k' k then (k', v) :: o' else (k', v') :: obj_set k v o'
  end.

(** The rows come in the order of the table; the query has no ORDER BY,
    so that with several defaults of one role the name that stays is the
    one the server returns last. *)
Definition getDefaultQbdAccounts : M row :=
  gets (fun s =>
    fold_left
      (fun map r =>
         if cell_truthy (role r) then obj_set (or_empty (role r)) (qa_name r) map
         else map)
      (filter is_default (rows (qbd_accounts s))) []).

(** ** [upsertQbdAccount]

    The account object as the destructuring reads it: a field that is
    absent is [None] and takes its default, [is_default] is the boolean
    [!!is_default].  The columns account_type and active, which nothing
    here reads, are not part of the rows. *)
Record Account : Type := mkAccount {
  acc_name : option string;
  acc_role : option string;
  acc_is_default : bool }.

Definition upsertQbdAccount (account : Account) : M nat :=
  fun s =>
    match find (fun r => opt_eqb (acc_name account) (qa_name r))
               (rows (qbd_accounts s)) with
    | Some old =>
        Done (qa_id old)
             (set_qbd_accounts
                (update_rows
                   (fun r => if Nat.eqb (qa_id r) (qa_id old)
                             then mkQbdAccount (qa_id r) (qa_name r)
                                    (acc_role account)
                                    (acc_is_default account)
                             else r)
                   (qbd_accounts s)) s)
    | None =>
        match acc_name account with
        | None => Raised "null value in column name"
                         (set_qbd_accounts (burn (qbd_accounts s)) s)
        | Some name =>
            let (id, t) :=
              insert_row (fun id => mkQbdAccount id name (acc_role account)
                                      (acc_is_default account))
                         (qbd_accounts s) in
            Done id (set_qbd_accounts t s)
        end
    end.

(** ** [setDefaultQbdAccount] *)

(** [role = $1] in a WHERE clause: a NULL on either side matches
    nothing. *)
Definition role_is (role_ : option string) (r : qbd_account_row) : bool :=
  match role r, role_ with
  | Some a, Some b => String.eqb a b
  | _, _ => false
  end.

Definition undo_accounts (before now : store) : store :=
  set_qbd_accounts (rolled_back (qbd_accounts before) (qbd_accounts now)) now.

Definition setDefaultQbdAccount (role_ : option string) (accountId : nat)
  : M bool :=
  transaction undo_accounts
    (modify (fun s =>
       set_qbd_accounts
         (update_rows
            (fun r => if role_is role_ r
                      then mkQbdAccount (qa_id r) (qa_name r) (role r) false
                      else r)
            (qbd_accounts s)) s) ;;;
     modify (fun s =>
       set_qbd_accounts
         (update_rows
            (fun r => if Nat.eqb (qa_id r) accountId
                      then mkQbdAccount (qa_id r) (qa_name r) role_ true
                      else r)
            (qbd_accounts s)) s) ;;;
     ret true).

(** ** [upsertCatalogItems]

    An item as the query reads it, in the columns that can refuse a
    value: [item_code] is NOT NULL, the two amounts are NUMERIC(12,4). *)
Record CatalogItem : Type := mkItem {
  ci_item_code : option string;
  ci_unit_cost : option dec;
  ci_unit_price : option dec }.

Definition undo_catalog (before now : store) : store :=
  set_catalog_items
    (rolled_back (catalog_items before) (catalog_items now)) now.

Definition upsert_catalog_item (sourceId : nat) (it : CatalogItem) : M unit :=
  require "numeric field overflow"
    (numeric_opt 12 4 (num_or_null (ci_unit_cost it))) ;;;
  require "numeric field overflow"
    (numeric_opt 12 4 (num_or_null (ci_unit_price it))) ;;;
  fun s =>
    match ci_item_code it with
    | None => Raised "null value in column item_code"
                     (set_catalog_items (burn (catalog_items s)) s)
    | Some code =>
        match find (fun r => Nat.eqb (cat_source_id r) sourceId
                             && String.eqb (item_code r) code)
                   (rows (catalog_items s)) with
        | Some _ => Done tt (set_catalog_items (burn (catalog_items s)) s)
        | None =>
            let (_, t) := insert_row (fun id => mkCatalogItem id sourceId code)
                                     (catalog_items s) in
            Done tt (set_catalog_items t s)
        end
    end.

Definition upsertCatalogItems (sourceName : string) (items : list CatalogItem)
  : M nat :=
  sourceId <- getOrCreateSource sourceName ;;
  transaction undo_catalog
    (for_each (upsert_catalog_item sourceId) items ;;;
     ret (List.length items)).

End Calls.

(** ** Vocabulary for the properties *)

(** The line rows of an invoice. *)
Definition lines_of (invoiceId : nat) (s : store) : list invoice_line_row :=
  filter (fun r => Nat.eqb (invoice_id r) invoiceId) (rows (invoice_lines s)).

(** The catalog item an item code resolves to. *)
Definition resolve_item (sourceId : nat) (s : store) (code : option string)
  : option nat :=
  if cell_truthy code then
    option_map cat_id
      (find (fun r => Nat.eqb (cat_source_id r) sourceId
                      && String.eqb (item_code r) (or_empty code))
            (rows (catalog_items s)))
  else None.

(** Row [r] is what the INSERT of line [ln] writes for invoice
    [invoiceId]: the texts with empty ones as NULL, the numbers with zero
    as NULL and rounded to the scale of their column, the item resolved in
    the catalog. *)
Definition written_as (sourceId invoiceId : nat) (s : store)
           (ln : InvoiceLine) (r : invoice_line_row) : Prop :=
  invoice_id r = invoiceId
  /\ il_item_id r = resolve_item sourceId s (ln_item_code ln)
  /\ il_description r = or_null (ln_description ln)
  /\ numeric_opt 12 4 (num_or_null (ln_quantity ln)) = Some (il_quantity r)
  /\ numeric_opt 12 4 (num_or_null (ln_unit_price ln))
     = Some (il_unit_price r)
  /\ il_tax_code r = or_null (ln_tax_code ln)
  /\ numeric_opt 14 2 (num_or_null (ln_line_total ln))
     = Some (il_line_total r).

(** *** Bill processing *)

(** The tables [processCsvImport] never writes are the same in both
    stores. *)
Definition outside_processing (s s' : store) : Prop :=
  ledger_sources s' = ledger_sources s
  /\ import_metadata s' = import_metadata s
  /\ import_records s' = import_records s
  /\ customers s' = customers s
  /\ clients s' = clients s
  /\ msp_tenants s' = msp_tenants s
  /\ catalog_items s' = catalog_items s
  /\ invoices s' = invoices s
  /\ invoice_lines s' = invoice_lines s
  /\ ledger_transactions s' = ledger_transactions s
  /\ ledger_links s' = ledger_links s
  /\ bank_transactions s' = bank_transactions s
  /\ qbd_accounts s' = qbd_accounts s
  /\ uuids_drawn s' = uuids_drawn s.

(** The five tables it writes hold the same rows in both stores. *)
Definition same_bill_rows (s s' : store) : Prop :=
  rows (transactions s') = rows (transactions s)
  /\ rows (line_items s') = rows (line_items s)
  /\ rows (inventory s') = rows (inventory s)
  /\ rows (inventory_transactions s') = rows (inventory_transactions s)
  /\ rows (csv_imports s') = rows (csv_imports s).

(** The [UPDATE csv_imports SET processed = TRUE WHERE id = importId]. *)
Definition mark_processed (importId : nat) (r : csv_import_row)
  : csv_import_row :=
  if Nat.eqb (ci_id r) importId
  then mkCsvImport (ci_id r) (filename r) (csv_content r) (file_size r) true
                   (checksum r)
  else r.

(** *** Bank transactions *)

(** A row of bank_transactions, of ledger_transactions, holds the key
    (source, external id). *)
Definition bank_known (sourceId : nat) (ext : option string) (s : store)
  : bool :=
  existsb (fun r => same_key (bt_source_id r) (bt_external_id r) sourceId ext)
          (rows (bank_transactions s)).

Definition ledger_known (sourceId : nat) (ext : option string) (s : store)
  : bool :=
  existsb (fun r => same_key (lt_source_id r) (lt_external_id r) sourceId ext)
          (rows (ledger_transactions s)).

(** *** Inventory costing *)

(** The inventory row of an item. *)
Definition inventory_of (name : string) (s : store) : option inventory_row :=
  find (fun r => String.eqb (inv_item_name r) name) (rows (inventory s)).

(** Ids of inventory rows are distinct and were handed out by the
    sequence (PRIMARY KEY, SERIAL). *)
Definition wf_inventory (s : store) : Prop :=
  NoDup (map inv_id (rows (inventory s)))
  /\ Forall (fun r => inv_id r <= seq (inventory s)) (rows (inventory s)).

(** The line items of item [X], over all bills, in the order they are
    processed. *)
Definition lines_for (X : string) (bills : list Bill) : list LineItem :=
  filter (fun l => String.eqb (item l) X) (flat_map lines bills).

Fixpoint sum_quantity (ls : list LineItem) : Q :=
  match ls with
  | [] => 0%Q
  | l :: r => (sum_quantity r + toQ (quantity l))%Q
  end.

Fixpoint sum_amount (ls : list LineItem) : Q :=
  match ls with
  | [] => 0%Q
  | l :: r => (sum_amount r + toQ (line_amount l))%Q
  end.

(** The sum of quantity times unit cost. *)
Fixpoint sum_products (ls : list LineItem) : Q :=
  match ls with
  | [] => 0%Q
  | l :: r => (sum_products r + toQ (quantity l) * toQ (unit_cost l))%Q
  end.

(** Total amount over total quantity, and 0 when the quantity is 0. *)
Definition weighted_average (ls : list LineItem) : Q :=
  if Qeq_bool (sum_quantity ls) 0 then 0%Q
  else (sum_amount ls / sum_quantity ls)%Q.

(** An amount in whole cents. *)
Definition two_places (d : dec) : Prop :=
  exists m : Z, (toQ d == inject_Z m / inject_Z 100)%Q.

(** A whole number of at most nine digits.  A million of them add up to
    less than 2^53, and below that doubles hold every whole number, so
    sums of such quantities are the same in doubles and in decimals. *)
Definition whole (d : dec) : bool :=
  ((mant d mod pow10 (scale d) =? 0)
   && (Z.abs (mant d) <=? 10 ^ 9 * pow10 (scale d)))%Z.

(** [q] is not half-way between two numbers of four decimal places.
    Half-way the NUMERIC(12,4) column rounds by the digits the driver
    hands it, which are those of a double (0.17 / 8 arrives as
    0.021249999999999998); off it, a quotient of cents by a whole
    number is at least 1 / (20000 * quantity) away from the half, more
    than the double is off, and the rounding is that of the exact
    quotient. *)
Definition off_half (q : Q) : bool :=
  negb (((Qnum q * 20000) mod Zpos (Qden q) =? 0)%Z
        && Z.odd (Qnum q * 20000 / Zpos (Qden q))).

(** The inventory row of [X] after the line items [ls] of [X] were
    processed, in this order: none before the first line; after the first
    line the quantity and amount of that line, with its unit cost as
    average; from the second line on the running sums, with the weighted
    average rounded to the four places of its column. *)
Definition reflects (X : string) (ls : list LineItem) (s : store) : Prop :=
  match ls with
  | [] => inventory_of X s = None
  | first :: rest =>
      exists row,
        inventory_of X s = Some row
        /\ (toQ (current_quantity row) == sum_quantity ls)%Q
        /\ scale (total_cost row) = 2
        /\ (toQ (total_cost row) == sum_amount ls)%Q
        /\ match rest with
           | [] => numeric 12 4 (unit_cost first)
                   = Some (average_unit_cost row)
           | _ :: _ => numericQ 12 4 (weighted_average ls)
                       = Some (average_unit_cost row)
           end
  end.

(** The line items of item [X] carry their amounts in whole cents. *)
Definition in_cents (X : string) (l : LineItem) : Prop :=
  String.eqb (item l) X = true -> two_places (line_amount l).

(** A sequence of calls of [processCsvImport], one per import. *)
Definition process_imports (imports : list (nat * list Bill)) : M unit :=
  for_each (fun im => processCsvImport (fst im) (snd im)) imports.

(** No row of invoice_lines carries an id its sequence has not handed
    out yet. *)
Definition serial_ok (s : store) : Prop :=
  Forall (fun r => il_id r <= seq (invoice_lines s)) (rows (invoice_lines s)).

(** The tables the invoice upsert reads and writes are the same in both
    stores. *)
Definition same_invoicing (s s' : store) : Prop :=
  ledger_sources s' = ledger_sources s /\ invoices s' = invoices s
  /\ invoice_lines s' = invoice_lines s
  /\ catalog_items s' = catalog_items s.

(** *** Accounts *)

(** Ids and names of the accounts are distinct, and no id is ahead of
    the sequence. *)
Definition wf_accounts (s : store) : Prop :=
  NoDup (map qa_id (rows (qbd_accounts s)))
  /\ NoDup (map qa_name (rows (qbd_accounts s)))
  /\ Forall (fun r => qa_id r <= seq (qbd_accounts s))
            (rows (qbd_accounts s)).


(** The account of id [accountId]. *)
Definition account_of (accountId : nat) (s : store)
  : option qbd_account_row :=
  find (fun r => Nat.eqb (qa_id r) accountId) (rows (qbd_accounts s)).

(** *** Invoices *)

(** Ids of invoices are distinct and none is ahead of the sequence. *)
Definition wf_invoices (s : store) : Prop :=
  NoDup (map inv_row_id (rows (invoices s)))
  /\ Forall (fun r => inv_row_id r <= seq (invoices s)) (rows (invoices s)).

(** Row [r] holds the key [(sourceId, ext)] of the constraint
    UNIQUE (source_id, external_id). *)
Definition keyed_as (sourceId : nat) (ext : option string) (r : invoice_row)
  : bool :=
  same_key (in_source_id r) (in_external_id r) sourceId ext.

(** *** Provenance *)

(** The tables that record where the data came from are the same in
    both stores. *)
Definition same_provenance (s s' : store) : Prop :=
  import_metadata s' = import_metadata s
  /\ import_records s' = import_records s.

(** *** The catalog *)

(** The catalog row of item code [code] under source [sourceId]. *)
Definition catalog_row (sourceId : nat) (code : string) (s : store)
  : option catalog_item_row :=
  find (fun r => Nat.eqb (cat_source_id r) sourceId
                 && String.eqb (item_code r) code)
       (rows (catalog_items s)).

(** The columns of catalog_items accept the item: it has an item code
    and its amounts fit NUMERIC(12,4). *)
Definition item_accepted (it : CatalogItem) : Prop :=
  ci_item_code it <> None
  /\ numeric_opt 12 4 (num_or_null (ci_unit_cost it)) <> None
  /\ numeric_opt 12 4 (num_or_null (ci_unit_price it)) <> None.

End Db.

(* ================================================================== *)
(** * The inventory update of the SQLite store (part_000) *)
(* ================================================================== *)

(** [updateInventoryFromTransaction] issues, for every line of the bill,
    a SELECT of the inventory row of the item, with a callback that
    issues the UPDATE or the INSERT.  The callback is a function of the
    row it is handed and of the line; when the driver runs the callbacks
    of one bill, and which of their writes a later SELECT sees, is the
    driver's affair and is not modelled.  The columns are REAL: sums and
    quotients are those of doubles, which the decimals here follow for
    whole numbers only. *)
Module Sqlite.
Import Num Server.

(** The columns of the row the callback reads. *)
Record inventory_row : Type := mkInventory {
  id : nat;
  current_quantity : dec;
  total_received : dec;
  total_cost : dec }.

(** The value of a division: a number, or Infinity or NaN, which is
    what a division by zero gives. *)
Inductive quotient : Type :=
  | Finite (q : Q)
  | NotFinite.

(** [a / b] *)
Definition divide (a b : dec) : quotient :=
  if num_truthy b then Finite (toQ a / toQ b) else NotFinite.

(** The statements handed to [db.run], with their parameters. *)
Inductive statement : Type :=
  | UpdateInventory (newQuantity newReceived newTotalCost : dec)
                    (newAverageCost : quotient)
                    (last_transaction_date last_vendor : string) (rowId : nat)
  | InsertInventory (item_name description : string)
                    (quantity received total_cost average_unit_cost : dec)
                    (last_transaction_date last_vendor : string)
  | InsertInventoryTransaction (item_id transactionId : nat)
                               (quantity unit_cost total_cost : dec)
                               (vendor ref_number transaction_date : string).

(** The callback of the SELECT for [line].  (The transaction record of
    a new item is issued from the callback of its INSERT.) *)
Definition on_row (transactionId : nat) (bill : Bill) (line : LineItem)
           (row : option inventory_row) : list statement :=
  match row with
  | Some row =>
      let newQuantity := dec_add (current_quantity row) (quantity line) in
      let newTotalCost := dec_add (total_cost row) (line_amount line) in
      let newAverageCost := divide newTotalCost newQuantity in
      [ UpdateInventory newQuantity
          (dec_add (total_received row) (quantity line))
          newTotalCost newAverageCost (date bill) (vendor bill) (id row);
        InsertInventoryTransaction (id row) transactionId (quantity line)
          (unit_cost line) (line_amount line) (vendor bill) (ref_num bill)
          (date bill) ]
  | None =>
      [ InsertInventory (item line) (description line) (quantity line)
          (quantity line) (line_amount line) (unit_cost line) (date bill)
          (vendor bill) ]
  end.

(** One SELECT per line, by item name, each with its callback. *)
Definition updateInventoryFromTransaction (transactionId : nat) (bill : Bill)
  : list (string * (option inventory_row -> list statement)) :=
  map (fun line => (item line, on_row transactionId bill line)) (lines bill).

End Sqlite.

(* ================================================================== *)
(** * The import entry points (importer.js) *)
(* ================================================================== *)

Module Importer.
Import Num Db.
Local Infix "+++" := String.append (right associativity, at level 60).

Section WithCollaborators.
Context {lib : Dayjs} {env : Env}.

(** The object an import returns; a field the object does not carry is
    [None]. *)
Record import_result : Type := mkImportResult {
  error : option string;
  isDuplicate : option bool;
  importId : option nat;
  bills : option (list Bill);
  filePath : option string;
  import_meta_id : option nat;
  imported : option nat;
  detectedType : Classifier.csv_type }.

Definition headers_of (rows : list row) : list string :=
  match rows with [] => [] | r0 :: _ => Object_keys r0 end.

Definition import_meta_of (fname : string) (content_type : option string)
           (rows : list row) : import_meta :=
  {| meta_original_filename := Some fname;
     meta_content_type := content_type;
     meta_row_count := List.length rows;
     meta_raw_headers := headers_of rows;
     meta_sample := firstn 5 rows |}.

(** A thrown exception of plain code, inside a call on the store. *)
Definition lift {A : Type} (r : result A) : M A :=
  match r with Ok a => ret a | Throw msg => raise msg end.

Definition importPoBills (content fname : string) (mimetype : option string)
           (rows : list row) : M import_result :=
  metaId <- createImportMetadata "LocalCSV" "po_bills"
              (import_meta_of fname
                 (Some (if cell_truthy mimetype then or_empty mimetype
                        else "text/csv")) rows) ;;
  addImportRecords metaId
    (map (fun r => {| rec_external_id :=
                        or_null (or_cell (get r "RefNumber")
                                         (get r "Ref Number"));
                      rec_checksum := hashRow r;
                      rec_raw := r |}) rows) ;;;
  importResult <- storeCsvImport fname content ;;
  if sr_isDuplicate importResult then
    ret {| error := Some (message importResult);
           isDuplicate := Some true;
           importId := Some (sr_id importResult);
           bills := None; filePath := None; import_meta_id := None;
           imported := None;
           detectedType := Classifier.po_bills |}
  else
    bs <- lift (Server.parseBillsFromCsv content) ;;
    ret {| error := None;
           isDuplicate := Some false;
           importId := Some (sr_id importResult);
           bills := Some bs; filePath := Some fname;
           import_meta_id := Some metaId;
           imported := None;
           detectedType := Classifier.po_bills |}.

(** ** [importBankFile] *)

Definition parseNumber (v : option string) : dec :=
  match v with
  | None => dec_of_Z 0
  | Some text =>
      match Number (strip_non_numeric text) with
      | Some n => n
      | None => dec_of_Z 0
      end
  end.

(** [new Date(text)] when the text is truthy, else [new Date()]. *)
Definition date_of (c : option string) : JsDate :=
  if cell_truthy c then c else None.

(** A field of an object handed to [hashRow]; an undefined one is left
    out by [JSON.stringify]. *)
Definition field (k : string) (v : option string) : list (string * string) :=
  match v with Some x => [(k, x)] | None => [] end.

(** The cells of a batch row the split reads. *)
Definition batch_ref (r : row) : string :=
  or_empty (or_cell (get r "Reference Number") (get r "reference number")).
Definition batch_dr (r : row) : dec :=
  parseNumber (or_cell (get r "DR Amount") (get r "dr amount")).
Definition batch_cr (r : row) : dec :=
  parseNumber (or_cell (get r "CR Amount") (get r "cr amount")).

Definition batch_txns (r : row) : list BankTxn :=
  let effective := or_cell (get r "Effective Date")
                     (or_cell (get r "effective date")
                        (or_cell (get r "Date") (get r "date"))) in
  let transferDesc := or_empty (or_cell (get r "Transfer Description")
                                        (get r "transfer description")) in
  let company := or_empty (or_cell (get r "Company Name")
                                   (get r "company name")) in
  let batchType := or_empty (or_cell (get r "Batch Type")
                                     (get r "batch type")) in
  let sec := or_empty (or_cell (get r "SEC Code") (get r "sec code")) in
  let itemCount := or_empty (or_cell (get r "Item Count")
                                     (get r "item count")) in
  let status := or_empty (or_cell (get r "Batch Status")
                                  (get r "batch status")) in
  let ref := batch_ref r in
  let dr := batch_dr r in
  let cr := batch_cr r in
  let baseDesc := Js.trim transferDesc in
  let memoBase := "Company: " +++ company +++ " | SEC: " +++ sec
                  +++ " | Items: " +++ itemCount +++ " | Status: " +++ status
                  +++ " | Type: " +++ batchType in
  let txnDate := date_of effective in
  (if gt0 cr then
     [ {| bx_external_id := if Js.truthy ref then Some (ref +++ "-CR")
                            else None;
          txn_date := txnDate; amount := cr; bx_currency := "USD";
          bx_description := baseDesc +++ " • CR"; memo := memoBase;
          balance_after := None;
          bx_checksum := hashRow (field "effective" effective
                                  ++ [("baseDesc", baseDesc);
                                      ("cr", toString cr); ("type", "CR");
                                      ("ref", ref)]);
          bx_status := None; bx_raw := r |} ]
   else [])
  ++
  (if gt0 dr then
     [ {| bx_external_id := if Js.truthy ref then Some (ref +++ "-DR")
                            else None;
          txn_date := txnDate; amount := dec_neg (Math_abs dr);
          bx_currency := "USD";
          bx_description := baseDesc +++ " • DR"; memo := memoBase;
          balance_after := None;
          bx_checksum := hashRow (field "effective" effective
                                  ++ [("baseDesc", baseDesc);
                                      ("dr", toString dr); ("type", "DR");
                                      ("ref", ref)]);
          bx_status := None; bx_raw := r |} ]
   else []).

(** The amount text of a generic row. *)
Definition generic_amount (r : row) : option string :=
  if cell_truthy (or_cell (get r "Amount")
                    (or_cell (get r "Credit") (get r "Debit")))
  then or_cell (get r "Amount")
         (or_cell (get r "Credit")
            (Some ("-" +++ toString (Math_abs (parseNumber (get r "Debit"))))))
  else get r "amount".

Definition generic_txns (r : row) : list BankTxn :=
  let date := or_cell (get r "Date")
                (or_cell (get r "Transaction Date")
                   (or_cell (get r "Posting Date") (get r "TxnDate"))) in
  let desc := or_empty (or_cell (get r "Description")
                          (or_cell (get r "Memo") (get r "Details"))) in
  let memo_ := or_empty (or_cell (get r "Memo") (get r "Notes")) in
  let amount_ := generic_amount r in
  let balance := or_null (or_cell (get r "Balance")
                                  (get r "Running Balance")) in
  let parsedAmt := parseNumber amount_ in
  if negb (num_truthy parsedAmt) then []
  else
    [ {| bx_external_id := or_null (or_cell (get r "Transaction ID")
                                            (get r "ID"));
         txn_date := date_of date; amount := parsedAmt;
         bx_currency := "USD";
         bx_description := Js.trim desc; memo := Js.trim memo_;
         balance_after := match balance with
                          | Some b => Some (parseNumber (Some b))
                          | None => None
                          end;
         bx_checksum := hashRow (field "date" date
                                 ++ [("desc", desc); ("memo", memo_)]
                                 ++ field "amount" amount_
                                 ++ field "balance" balance);
         bx_status := None; bx_raw := r |} ].

Definition bank_txns (detected : Classifier.csv_type) (rows : list row)
  : list BankTxn :=
  if Classifier.csv_type_eqb detected Classifier.bank_batch
  then flat_map batch_txns rows
  else flat_map generic_txns rows.

Definition importBankFile (content fname : string) (mimetype : option string)
           (rows : list row) (detected : Classifier.csv_type)
  : M import_result :=
  let sourceName :=
    if Classifier.csv_type_eqb detected Classifier.bank_batch
    then "FNBPA" else "BankCSV" in
  importMetaId <- createImportMetadata sourceName
                    (match detected with
                     | Classifier.bank_batch => "bank_batch"
                     | _ => "bank_generic"
                     end)
                    (import_meta_of fname mimetype rows) ;;
  addImportRecords importMetaId
    (map (fun r => {| rec_external_id :=
                        or_null (or_cell (get r "Reference Number")
                                   (or_cell (get r "reference number")
                                      (or_cell (get r "Transaction ID")
                                               (get r "ID"))));
                      rec_checksum := hashRow r;
                      rec_raw := r |}) rows) ;;;
  count <- insertBankTransactions sourceName (bank_txns detected rows) ;;
  ret {| error := None; isDuplicate := None; importId := None;
         bills := None; filePath := None;
         import_meta_id := Some importMetaId;
         imported := Some count;
         detectedType := detected |}.

(** ** [importHaloInvoices] *)

Section Halo.

(** Two more collaborators: [d.format('YYYY-MM-DD')] of dayjs, and
    [hashRow({ r })], the hash of the object that wraps a record. *)
Variable format_YMD : Z -> string.
Variable hashWrapped : row -> string.

(** [String(c || <empty>).trim()] *)
Definition trimmed (c : option string) : string := Js.trim (or_empty c).

(** [text || null] *)
Definition text_or_null (text : string) : option string :=
  if Js.truthy text then Some text else None.

(** What [parseNum] returns: null for a cell that is absent, else the
    number read from the digits, dots and minus signs of the cell. *)
Inductive parsed : Type :=
  | IsNull
  | IsNaN
  | IsNum (d : dec).

Definition parseNum (v : option string) : parsed :=
  match v with
  | None => IsNull
  | Some text =>
      match Number (strip_non_numeric text) with
      | Some n => IsNum n
      | None => IsNaN
      end
  end.

(** A parsed amount as a field of the invoice: the store reads these
    fields through [x || null] and [x || 0] only, which take null and
    NaN alike. *)
Definition amount_of (p : parsed) : option dec :=
  match p with IsNum d => Some d | _ => None end.

(** [Number(x.toFixed(2))]: from 1e21 on [toFixed] prints [String(x)],
    which reads back as [x].  As [toFixed2], it is taken of the exact
    decimal, where the code takes it of a double. *)
Definition to_cents (x : dec) : option dec :=
  if (pow10 21 * pow10 (scale x) <=? Z.abs (mant x))%Z then Some x
  else Number (toFixed2 x).

(** [dayjs(v).isValid() ? dayjs(v).format('YYYY-MM-DD') : null];
    [dayjs(undefined)] is the day of the call. *)
Definition parseDateStr (v : option string) : option string :=
  match v with
  | None => Some (format_YMD today)
  | Some text => option_map format_YMD (dayjs text)
  end.

Definition halo_number (r : row) : string :=
  trimmed (or_cell (get r "Invoice Number")
             (or_cell (get r "Number")
                (or_cell (get r "Invoice")
                   (or_cell (get r "INV") (get r "Document Number"))))).

Definition halo_ext_id (r : row) : string :=
  trimmed (or_cell (get r "InvoiceID")
             (or_cell (get r "Invoice ID") (get r "ID"))).

Definition halo_key (r : row) : string :=
  if Js.truthy (halo_number r) then halo_number r
  else if Js.truthy (halo_ext_id r) then halo_ext_id r
  else hashWrapped r.

Fixpoint halo_groups (rows : list row) (map : Server.groups)
  : Server.groups :=
  match rows with
  | [] => map
  | r :: rest => halo_groups rest (Server.group_push (halo_key r) r map)
  end.

Definition halo_customer (head : row) : Customer :=
  {| c_external_id :=
       or_null (or_cell (get head "CustomerID")
                  (or_cell (get head "Customer Id")
                           (get head "Customer ID")));
     c_name :=
       or_null (or_cell (get head "Customer")
                  (or_cell (get head "Customer Name")
                           (get head "Account Name")));
     c_email := or_null (get head "Customer Email");
     c_address := or_null (get head "Billing Address");
     c_tax_id := None;
     client_external_id := None; client_name := None;
     tenant_external_id := None; tenant_name := None |}.

Definition halo_external_id (head : row) : option string :=
  text_or_null
    (trimmed (or_cell (get head "InvoiceID")
                (or_cell (get head "Invoice ID")
                   (or_cell (get head "ID")
                      (or_cell (get head "Number")
                               (get head "Document Number")))))).

Definition halo_invoice (head : row) : Invoice :=
  {| external_id := halo_external_id head;
     number :=
       text_or_null
         (trimmed (or_cell (get head "Invoice Number")
                     (or_cell (get head "Number")
                              (get head "Document Number"))));
     invoice_date :=
       parseDateStr (or_cell (get head "Invoice Date")
                       (or_cell (get head "Date") (get head "InvoiceDate")));
     inv_due_date :=
       parseDateStr (or_cell (get head "Due Date") (get head "DueDate"));
     status := or_null (get head "Status");
     currency :=
       (let c := or_cell (get head "Currency")
                         (get head "Document Currency") in
        Some (if cell_truthy c then or_empty c else "USD"));
     subtotal := amount_of (parseNum (get head "Subtotal"));
     tax_total :=
       (if cell_truthy (get head "Tax")
        then amount_of (parseNum (get head "Tax"))
        else if cell_truthy (get head "Tax Total")
             then amount_of (parseNum (get head "Tax Total"))
             else None);
     total := amount_of (parseNum (get head "Total"));
     balance :=
       (if cell_truthy (get head "Balance")
        then amount_of (parseNum (get head "Balance"))
        else if cell_truthy (get head "Amount Due")
             then amount_of (parseNum (get head "Amount Due"))
             else None);
     customer := Some (halo_customer head);
     raw := head |}.

Definition halo_line (r : row) : InvoiceLine :=
  let qtyN := parseNum (or_cell (get r "Qty") (get r "Quantity")) in
  let priceN := parseNum (or_cell (get r "Unit Price") (get r "Price")) in
  let lineTotal :=
    match get r "Line Total" with
    | Some text => amount_of (parseNum (Some text))
    | None =>
        match qtyN, priceN with
        | IsNum q, IsNum p => to_cents (dec_mul q p)
        | _, _ => None
        end
    end in
  {| ln_item_code :=
       or_null (or_cell (get r "Item Code")
                  (or_cell (get r "Item") (get r "SKU")));
     ln_description :=
       or_null (or_cell (get r "Description") (get r "Item Description"));
     ln_quantity := amount_of qtyN;
     ln_unit_price := amount_of priceN;
     ln_tax_code := or_null (get r "Tax Code");
     ln_line_total := lineTotal |}.

(** One turn of the loop over [map.entries()]. *)
Definition import_halo_group (entry : string * list row) : M unit :=
  match snd entry with
  | [] => raise "TypeError: Cannot read properties of undefined"
  | head :: _ =>
      upsertInvoiceWithLines "HaloPSA" (halo_invoice head)
        (map halo_line (snd entry)) ;;;
      ret tt
  end.

Definition importHaloInvoices (content fname : string)
           (mimetype : option string) (rows : list row) : M import_result :=
  importMetaId <- createImportMetadata "HaloPSA" "halo_invoices"
                    (import_meta_of fname mimetype rows) ;;
  addImportRecords importMetaId
    (map (fun r => {| rec_external_id :=
                        or_null (or_cell (get r "InvoiceID")
                                   (or_cell (get r "Invoice ID")
                                            (get r "ID")));
                      rec_checksum := hashRow r;
                      rec_raw := r |}) rows) ;;;
  let groups := halo_groups rows [] in
  for_each import_halo_group groups ;;;
  ret {| error := None; isDuplicate := None; importId := None;
         bills := None; filePath := None;
         import_meta_id := Some importMetaId;
         imported := Some (List.length groups);
         detectedType := Classifier.halo_invoices |}.

(** ** [importFile]

    [parseCsv], [detectCsvType] and [parseBillsFromCsv] are required
    from ./csv; they are taken to be the reader, the classifier and the
    normaliser of server.js (the messages of the normaliser of ./csv may
    be worded otherwise). *)
Definition importFile (content fname : string) (mimetype : option string)
  : M import_result :=
  rows <- lift (csv_parse content) ;;
  let detectedType := Classifier.detectCsvType rows fname in
  match detectedType with
  | Classifier.po_bills => importPoBills content fname mimetype rows
  | Classifier.halo_invoices =>
      importHaloInvoices content fname mimetype rows
  | Classifier.bank_batch | Classifier.bank_generic =>
      importBankFile content fname mimetype rows detectedType
  | Classifier.stripe_csv =>
      raise "Stripe CSV not supported yet. Use Stripe backfill API."
  | Classifier.unknown => raise "Unknown CSV structure"
  end.

(** *** Vocabulary for the properties *)







End Halo.

End WithCollaborators.
End Importer.

(* ================================================================== *)
(** * InterchangeSerializer (exporter.js, and server.js [generateIif]) *)
(* ================================================================== *)

Module Exporter.
Import Num Db.
Local Infix "+++" := String.append (right associativity, at level 60).

Definition tab : string := String Js.TAB EmptyString.
Definition crlf : string := String Js.CR (String Js.LF EmptyString).
Definition lf : string := String Js.LF EmptyString.

Definition trns_header : string :=
  Js.join tab ["!TRNS"; "TRNSID"; "TRNSTYPE"; "DATE"; "ACCNT"; "NAME";
               "CLASS"; "AMOUNT"; "DOCNUM"; "MEMO"; "CLEAR"; "TOPRINT";
               "ADDR5"; "DUEDATE"; "TERMS"].
Definition spl_header : string :=
  Js.join tab ["!SPL"; "SPLID"; "TRNSTYPE"; "DATE"; "ACCNT"; "NAME"; "CLASS";
               "AMOUNT"; "DOCNUM"; "MEMO"; "CLEAR"; "QNTY"; "PRICE";
               "INVITEM"].

(** [String(line.quantity || <empty>)] *)
Definition quantity_text (q : dec) : string :=
  if num_truthy q then toString q else "".

(** The fields of the TRNS line of a bill and of the SPL line of one of
    its line items, as the arrays the source joins with tabs. *)
Definition trns_fields (apAcc : string) (bill : Bill) : list string :=
  ["TRNS"; ""; "BILL"; date bill; apAcc; vendor bill; "";
   "-" +++ toFixed2 (total_amount bill); ref_num bill; ""; "N"; "N"; "";
   due_date bill; terms bill].

Definition spl_fields (invAssetAcc : string) (bill : Bill) (line : LineItem)
  : list string :=
  ["SPL"; ""; "BILL"; date bill; invAssetAcc; ""; "";
   toFixed2 (line_amount line); ""; description line; "N";
   quantity_text (quantity line); toFixed2 (unit_cost line); item line].

Definition bill_lines (apAcc invAssetAcc : string) (bill : Bill)
  : list string :=
  Js.join tab (trns_fields apAcc bill)
  :: map (fun line => Js.join tab (spl_fields invAssetAcc bill line))
         (lines bill)
  ++ ["ENDTRNS"].

Definition iif_lines (apAcc invAssetAcc : string) (bills : list Bill)
  : list string :=
  [trns_header; spl_header; "!ENDTRNS"]
  ++ flat_map (bill_lines apAcc invAssetAcc) bills.

(** A character that is not structural in the interchange format: no
    tab, no carriage return, no line feed, no double quote. *)
Definition plain_char (c : ascii) : bool :=
  negb (Ascii.eqb c Js.TAB || Ascii.eqb c Js.CR || Ascii.eqb c Js.LF
        || Ascii.eqb c Js.DQUOTE).

Definition clean (s : string) : bool := Js.str_forall plain_char s.

Definition clean_line (l : LineItem) : bool :=
  clean (item l) && clean (description l).

Definition clean_bill (b : Bill) : bool :=
  clean (vendor b) && clean (ref_num b) && clean (date b)
  && clean (due_date b) && clean (terms b) && forallb clean_line (lines b).

(** Every line followed by the line ending [eol]. *)
Fixpoint terminated (eol : string) (ls : list string) : string :=
  match ls with
  | [] => EmptyString
  | l :: r => l +++ eol +++ terminated eol r
  end.

(** [defaults.role || fallback] *)
Definition account (defaults : row) (role_ fallback : string) : string :=
  if cell_truthy (get defaults role_) then or_empty (get defaults role_)
  else fallback.

(** exporter.js *)
Definition generateBillsIif (bills : list Bill) : M string :=
  defaults <- getDefaultQbdAccounts ;;
  let apAcc := account defaults "accounts_payable" "Accounts Payable" in
  let invAssetAcc := account defaults "inventory_asset" "Inventory Asset" in
  ret (Js.join crlf (iif_lines apAcc invAssetAcc bills) +++ crlf).

(** server.js, route /api/export-iif *)
Definition generateIif (bills : list Bill) : string :=
  Js.join lf (iif_lines "Accounts Payable" "Inventory Asset" bills) +++ lf.

(** ** [generateItemsIif] *)

Section Items.

(** ORDER BY item_name: the order of two names is the collation of the
    database. *)
Variable name_le : string -> string -> bool.

Fixpoint insert_by_name (r : inventory_row) (l : list inventory_row)
  : list inventory_row :=
  match l with
  | [] => [r]
  | x :: l' =>
      if name_le (inv_item_name r) (inv_item_name x) then r :: l
      else x :: insert_by_name r l'
  end.

Definition order_by_item_name (l : list inventory_row)
  : list inventory_row :=
  fold_right insert_by_name [] l.

(** database.js, as far as the exporter reads the rows: the columns of
    inventory, in the order of the query.  The aggregates the query joins
    to each row (vendors, transaction_dates, transaction_count) are left
    out. *)
Definition getInventoryForExport : M (list inventory_row) :=
  gets (fun s => order_by_item_name (rows (inventory s))).

(** A value between double quotes, as the template writes it. *)
Definition quoted (v : string) : string :=
  String Js.DQUOTE (v +++ String Js.DQUOTE EmptyString).

Definition items_header : string :=
  Js.join tab ["!INVITEM"; "NAME"; "DESC"; "PRICE"; "COST"; "ACCNT";
               "ASSETACCNT"; "COGSACCNT"].

Definition item_fields (incomeAcc invAssetAcc cogsAcc : string)
           (r : inventory_row) : list string :=
  ["INVITEM"; quoted (inv_item_name r); quoted (inv_description r); "0";
   toString (average_unit_cost r); quoted incomeAcc; quoted invAssetAcc;
   quoted cogsAcc].

Definition item_line (incomeAcc invAssetAcc cogsAcc : string)
           (r : inventory_row) : string :=
  Js.join tab (item_fields incomeAcc invAssetAcc cogsAcc r).

Definition generateItemsIif : M string :=
  defaults <- getDefaultQbdAccounts ;;
  let invAssetAcc := account defaults "inventory_asset" "Inventory Asset" in
  let cogsAcc := account defaults "cogs" "Cost of Goods Sold" in
  let incomeAcc := account defaults "income" "Sales" in
  inventory <- getInventoryForExport ;;
  ret (fold_left
         (fun out r =>
            out +++ item_line incomeAcc invAssetAcc cogsAcc r +++ crlf)
         inventory (items_header +++ crlf)).

End Items.

End Exporter.

(* ================================================================== *)
(** * Reference collaborators, to run the development *)
(* ================================================================== *)

Module Reference.

(** Plain comma-separated text without quoting: the first non-empty line
    names the columns. *)
Definition read_csv (content : string) : result (list row) :=
  match filter Js.truthy (Server.split Exporter.lf content) with
  | [] => Ok []
  | header :: body =>
      let names := Server.split "," header in
      Ok (map (fun l => combine names (Server.split "," l)) body)
  end.

Definition flatten (fields : list (string * string)) : string :=
  Js.join ";" (map (fun kv => String.append (fst kv)
                                (String.append "=" (snd kv))) fields).

(** The digest is the text itself, the UUIDs are numbered. *)
Definition env : Env :=
  {| csv_parse := read_csv;
     md5 := fun content => content;
     hashRow := flatten;
     randomUUID := fun k => String.append "uuid-" (Num.digits (Z.of_nat k)) |}.

(** Day 19800 is 03/18/2024. *)
Definition lib : Dayjs := Calendar.reference 19800.

(** [YYYY-MM-DD] in the reference calendar. *)
Definition format_YMD (z : Z) : string :=
  let '(y, m, d) := Calendar.civil_from_days z in
  String.append (Calendar.pad 4 y)
    (String.append "-" (String.append (Calendar.pad 2 m)
       (String.append "-" (Calendar.pad 2 d)))).

Definition hashWrapped (r : row) : string :=
  String.append "r:" (flatten r).

End Reference.

(* ================================================================== *)
(* ======================  PROPERTIES  ============================== *)

(* ================================================================== *)
(** * White space and trimming *)
(* ================================================================== *)

Module TrimFacts.
Import Js.

Lemma strip_prefix_app (p s : string) : strip_prefix p (p ++ s) = Some s.
Proof.
  induction p as [|a p IH]; cbn [append strip_prefix]; [reflexivity|].
  rewrite Ascii.eqb_refl. exact IH.
Qed.

Lemma strip_prefix_Some (p s r : string) :
  strip_prefix p s = Some r -> s = (p ++ r)%string.
Proof.
  revert s. induction p as [|a p IH]; intros s H; cbn [strip_prefix] in H.
  - inversion H. reflexivity.
  - destruct s as [|b s]; [discriminate|].
    destruct (Ascii.eqb_spec a b) as [->|]; [|discriminate].
    cbn [append]. f_equal. apply IH. exact H.
Qed.

Lemma strip_one_Some (ws : list string) (s r : string) :
  strip_one ws s = Some r -> exists w, In w ws /\ s = (w ++ r)%string.
Proof.
  induction ws as [|w ws IH]; cbn [strip_one]; [discriminate|].
  destruct (strip_prefix w s) as [x|] eqn:E.
  - intros H. inversion H; subst x. exists w. split; [left; reflexivity|].
    apply strip_prefix_Some. exact E.
  - intros H. destruct (IH H) as (w' & Hin & Hs).
    exists w'. split; [right; exact Hin | exact Hs].
Qed.

Lemma strip_ws_Some (s r : string) :
  strip_ws s = Some r -> exists w, In w white_space /\ s = (w ++ r)%string.
Proof. apply strip_one_Some. Qed.

(** No white-space character is the start of another: after one of them
    the rest is what [strip_ws] gives. *)
Lemma strip_ws_white (w x : string) :
  In w white_space -> strip_ws (w ++ x) = Some x.
Proof.
  unfold white_space. cbn [In]. intros H.
  repeat (destruct H as [<-|H]; [reflexivity|]). destruct H.
Qed.

Lemma white_not_empty (w : string) :
  In w white_space -> 1 <= String.length w.
Proof.
  unfold white_space. cbn [In]. intros H.
  repeat (destruct H as [<-|H]; [cbn; lia|]). destruct H.
Qed.

Lemma text_length_app (a b : string) :
  String.length (a ++ b) = String.length a + String.length b.
Proof. induction a as [|c a IH]; cbn; [reflexivity | rewrite IH; reflexivity]. Qed.

Lemma strip_ws_shorter (s r : string) :
  strip_ws s = Some r -> String.length r < String.length s.
Proof.
  intros H. destruct (strip_ws_Some _ _ H) as (w & Hin & ->).
  rewrite text_length_app. pose proof (white_not_empty _ Hin). lia.
Qed.

Lemma strip_all_enough (n m : nat) (s : string) :
  String.length s <= n -> String.length s <= m ->
  strip_all n s = strip_all m s.
Proof.
  revert m s. induction n as [|n IH]; intros m s Hn Hm.
  - destruct s; [|cbn in Hn; lia]. destruct m; reflexivity.
  - destruct m as [|m].
    + destruct s; [reflexivity | cbn in Hm; lia].
    + cbn [strip_all]. destruct (strip_ws s) as [r|] eqn:E; [|reflexivity].
      apply strip_ws_shorter in E. apply IH; lia.
Qed.

(** The equation of [trimStart]. *)
Lemma trimStart_eq (s : string) :
  trimStart s = match strip_ws s with
                | Some r => trimStart r
                | None => s
                end.
Proof.
  unfold trimStart. destruct (String.length s) as [|n] eqn:El.
  - destruct s; [reflexivity | discriminate].
  - cbn [strip_all]. destruct (strip_ws s) as [r|] eqn:E; [|reflexivity].
    apply strip_ws_shorter in E. apply strip_all_enough; lia.
Qed.

Lemma trimStart_white (w x : string) :
  In w white_space -> trimStart (w ++ x) = trimStart x.
Proof.
  intros H. rewrite trimStart_eq, (strip_ws_white _ _ H). reflexivity.
Qed.

Lemma all_ws_white (w x : string) :
  In w white_space -> all_ws (w ++ x) = all_ws x.
Proof. intros H. unfold all_ws. rewrite (trimStart_white _ _ H). reflexivity. Qed.

Lemma text_app_assoc (a b c : string) : ((a ++ b) ++ c = a ++ (b ++ c))%string.
Proof. induction a as [|x a IH]; cbn; [reflexivity | rewrite IH; reflexivity]. Qed.

(** [trimStart] takes a run of white space away and nothing else. *)
Lemma trimStart_split (s : string) :
  exists ws, s = (ws ++ trimStart s)%string /\ all_ws ws = true.
Proof.
  remember (String.length s) as n eqn:En. revert s En.
  induction n as [n IH] using lt_wf_ind. intros s En.
  rewrite trimStart_eq. destruct (strip_ws s) as [r|] eqn:E.
  - destruct (strip_ws_Some _ _ E) as (w & Hin & Hs).
    apply strip_ws_shorter in E.
    destruct (IH (String.length r) ltac:(lia) r eq_refl) as (ws & Hr & Hws).
    exists (w ++ ws)%string. split.
    + rewrite text_app_assoc, <- Hr. exact Hs.
    + rewrite (all_ws_white _ _ Hin). exact Hws.
  - exists EmptyString. split; reflexivity.
Qed.

(** A run of white space before a text that starts with none is what
    [trimStart] takes away. *)
Lemma trimStart_app (ws s : string) :
  all_ws ws = true -> strip_ws s = None -> trimStart (ws ++ s) = s.
Proof.
  intros Hws Hs.
  remember (String.length ws) as n eqn:En. revert ws En Hws.
  induction n as [n IH] using lt_wf_ind. intros ws En Hws.
  unfold all_ws in Hws. rewrite trimStart_eq in Hws.
  destruct (strip_ws ws) as [r|] eqn:E.
  - destruct (strip_ws_Some _ _ E) as (w & Hin & ->).
    apply strip_ws_shorter in E.
    rewrite text_app_assoc, (trimStart_white _ _ Hin).
    apply (IH (String.length r)); [lia | reflexivity | exact Hws].
  - destruct ws; [|discriminate].
    cbn [append]. rewrite trimStart_eq, Hs. reflexivity.
Qed.

Lemma strip_prefix_digit (w : string) (c : ascii) (r : string) :
  In w white_space -> is_digit c = true -> strip_prefix w (String c r) = None.
Proof.
  intros Hin Hc.
  assert (Hn : 48 <= nat_of_ascii c <= 57).
  { unfold is_digit in Hc. apply andb_true_iff in Hc. destruct Hc as [H1 H2].
    apply Nat.leb_le in H1. apply Nat.leb_le in H2. lia. }
  unfold white_space in Hin. cbn [In] in Hin.
  repeat (destruct Hin as [<-|Hin];
          [cbn [strip_prefix];
           match goal with
           | |- context [Ascii.eqb ?a c] =>
               destruct (Ascii.eqb_spec a c) as [<-|]; [cbn in Hn; lia | reflexivity]
           end|]).
  destruct Hin.
Qed.

(** A text that starts with a digit starts with no white space. *)
Lemma strip_ws_digit (c : ascii) (r : string) :
  is_digit c = true -> strip_ws (String c r) = None.
Proof.
  intros Hc. unfold strip_ws.
  assert (H : forall w, In w white_space -> strip_prefix w (String c r) = None)
    by (intros w Hw; apply strip_prefix_digit; assumption).
  induction white_space as [|w l IH]; cbn [strip_one]; [reflexivity|].
  rewrite (H w (or_introl eq_refl)). apply IH.
  intros w' Hw'. apply H. right. exact Hw'.
Qed.

(** ** Lower case and white space *)









End TrimFacts.
(* ================================================================== *)

(** * FormatClassifier *)

Module ClassifierFacts.
Import Classifier.








(** A header that comes with a byte order mark before it, as the first
    header of a file saved with one does, is read without it. *)
Example detect_with_byte_order_mark :
  detectCsvType
    [[((Js.utf8 [239; 187; 191] ++ "Vendor")%string, "Acme");
      ("Reference", "PO-7");
      ("SKU", "W-1"); ("Quantity", "3"); ("Unit Cost", "1.25")]] "march.csv"
  = po_bills.
Proof. reflexivity. Qed.

(** Rule 1 wins over every later rule, rule 3 over rule 5: a sheet that
    satisfies the PO fallback and the invoice rule is an invoice sheet. *)
Example earlier_rule_wins :
  detectCsvType
    [[("Vendor", "Acme"); ("Document Number", "7"); ("Item", "W");
      ("Qty", "1"); ("Cost", "2")]] "po.csv" = halo_invoices.
Proof. reflexivity. Qed.

End ClassifierFacts.

(** * Decimal text: printing and reading back *)

Module NumFacts.
Import Num.
Local Open Scope Z_scope.
Local Arguments Z.mul : simpl never.
Local Arguments Z.add : simpl never.
Local Arguments Z.sub : simpl never.
Local Arguments Z.pow : simpl never.
Local Arguments Z.of_nat : simpl never.
Local Arguments Z.div : simpl never.
Local Arguments Z.modulo : simpl never.

Lemma pow10_pos (n : nat) : (0 < pow10 n)%Z.
Proof. unfold pow10. apply Z.pow_pos_nonneg; lia. Qed.

Lemma digit_char_is_digit (d : Z) :
  0 <= d < 10 -> Js.is_digit (digit_char d) = true /\ digit_val (digit_char d) = d.
Proof.
  intros H.
  assert (d = 0 \/ d = 1 \/ d = 2 \/ d = 3 \/ d = 4 \/ d = 5 \/ d = 6
          \/ d = 7 \/ d = 8 \/ d = 9) as Hd by lia.
  repeat (destruct Hd as [-> | Hd]; [split; reflexivity|]).
  subst d. split; reflexivity.
Qed.

Lemma val_digits_app (a b : string) (acc : Z) :
  val_digits (a ++ b) acc = val_digits b (val_digits a acc).
Proof. revert acc. induction a as [|c a IH]; intros acc; simpl; auto. Qed.

Lemma all_digits_app (a b : string) :
  all_digits (a ++ b) = all_digits a && all_digits b.
Proof.
  induction a as [|c a IH]; simpl; auto.
  rewrite IH, andb_assoc. reflexivity.
Qed.

Lemma append_assoc (a b c : string) :
  ((a ++ b) ++ c)%string = (a ++ (b ++ c))%string.
Proof. induction a as [|x a IH]; simpl; congruence. Qed.

Lemma append_nil_r (a : string) : (a ++ "")%string = a.
Proof. induction a; simpl; congruence. Qed.

Lemma length_app (a b : string) :
  String.length (a ++ b) = (String.length a + String.length b)%nat.
Proof. induction a as [|c a IH]; simpl; auto. Qed.

Lemma digits_fuel_spec (fuel : nat) :
  forall (n : Z) (acc : string),
    0 <= n < 2 ^ Z.of_nat (S fuel) ->
    exists ds, digits_fuel (S fuel) n acc = (ds ++ acc)%string
               /\ all_digits ds = true /\ ds <> EmptyString
               /\ forall a, val_digits ds a = a * 10 ^ Z.of_nat (String.length ds) + n.
Proof.
  induction fuel as [|f IH]; intros n acc Hn;
    cbn [digits_fuel]; destruct (n <? 10) eqn:E.
  1, 3: apply Z.ltb_lt in E;
    destruct (digit_char_is_digit n) as [Hd Hv]; [lia|];
    exists (String (digit_char n) EmptyString); simpl;
    rewrite Hd, Hv; repeat split; try discriminate; intros a;
    change (10 ^ Z.of_nat 1) with 10; lia.
  - apply Z.ltb_ge in E. change (2 ^ Z.of_nat 1) with 2 in Hn. lia.
  - apply Z.ltb_ge in E.
    assert (Hq : 0 <= n / 10 < 2 ^ Z.of_nat (S f)).
    { split; [apply Z.div_pos; lia|].
      apply Z.div_lt_upper_bound; [lia|].
      rewrite (Nat2Z.inj_succ (S f)), Z.pow_succ_r in Hn by lia. lia. }
    destruct (IH (n / 10) (String (digit_char (n mod 10)) acc) Hq)
      as (ds & Heq & Hall & Hne & Hval).
    destruct (digit_char_is_digit (n mod 10)) as [Hd Hv].
    { apply Z.mod_pos_bound; lia. }
    exists (ds ++ String (digit_char (n mod 10)) EmptyString)%string.
    change (if n / 10 <? 10
            then String (digit_char (n / 10))
                   (String (digit_char (n mod 10)) acc)
            else digits_fuel f (n / 10 / 10)
                   (String (digit_char (n / 10 mod 10))
                      (String (digit_char (n mod 10)) acc)))
      with (digits_fuel (S f) (n / 10) (String (digit_char (n mod 10)) acc)).
    rewrite Heq. repeat split.
    + rewrite append_assoc. reflexivity.
    + rewrite all_digits_app, Hall. simpl. rewrite Hd. reflexivity.
    + destruct ds; simpl; discriminate.
    + intros a. rewrite val_digits_app, Hval. simpl. rewrite Hv.
      rewrite length_app. simpl.
      rewrite Nat2Z.inj_add, Z.pow_add_r by lia.
      change (Z.of_nat 1) with 1. rewrite Z.pow_1_r.
      pose proof (Z.div_mod n 10). lia.
Qed.

Lemma digits_spec (n : Z) :
  0 <= n ->
  all_digits (digits n) = true /\ digits n <> EmptyString
  /\ forall a, val_digits (digits n) a
               = a * 10 ^ Z.of_nat (String.length (digits n)) + n.
Proof.
  intros Hn. unfold digits.
  assert (Hb : 0 <= n < 2 ^ Z.of_nat (S (Z.to_nat (Z.log2 n)))).
  { split; [assumption|].
    rewrite Nat2Z.inj_succ, Z2Nat.id by apply Z.log2_nonneg.
    destruct (Z.eq_dec n 0) as [->|Hz]; [reflexivity|].
    apply Z.log2_spec. lia. }
  destruct (digits_fuel_spec _ n EmptyString Hb) as (ds & Heq & H1 & H2 & H3).
  rewrite Heq, append_nil_r. auto.
Qed.


Lemma strip_zeros_spec (fuel : nat) :
  forall (m : Z) (z : nat) (s : Z) (z' : nat),
    0 < m -> strip_zeros fuel m z = (s, z') ->
    0 < s /\ (z <= z')%nat
    /\ m * 10 ^ Z.of_nat z = s * 10 ^ Z.of_nat z'.
Proof.
  induction fuel as [|f IH]; intros m z s z' Hm H; cbn [strip_zeros] in H.
  - inversion H; subst. repeat split; auto.
  - destruct ((m mod 10 =? 0) && negb (m =? 0)) eqn:E.
    + apply andb_true_iff in E. destruct E as [E _]. apply Z.eqb_eq in E.
      pose proof (Z.div_mod m 10 ltac:(lia)) as Hdm.
      assert (Hq : 0 < m / 10) by lia.
      destruct (IH _ _ _ _ Hq H) as (Hs & Hz & Heq).
      repeat split; [assumption | lia |].
      rewrite <- Heq, Nat2Z.inj_succ, Z.pow_succ_r by lia.
      replace m with (10 * (m / 10)) at 1 by lia. ring.
    + inversion H; subst. repeat split; auto.
Qed.

Lemma zeros_spec (n : nat) :
  all_digits (zeros n) = true /\ String.length (zeros n) = n
  /\ forall a, val_digits (zeros n) a = a * 10 ^ Z.of_nat n.
Proof.
  induction n as [|n (H1 & H2 & H3)]; cbn [zeros all_digits String.length val_digits].
  - repeat split. intros a. change (Z.of_nat 0) with 0. lia.
  - repeat split; [assumption | congruence |].
    intros a. rewrite H3, Nat2Z.inj_succ, Z.pow_succ_r by lia.
    change (digit_val "0") with 0. ring.
Qed.

Lemma take_drop (n : nat) (s : string) :
  (str_take n s ++ str_drop n s)%string = s.
Proof.
  revert s. induction n as [|n IH]; intros [|c s]; simpl; auto.
  rewrite IH. reflexivity.
Qed.

Lemma all_digits_take_drop (n : nat) (s : string) :
  all_digits s = true ->
  all_digits (str_take n s) = true /\ all_digits (str_drop n s) = true.
Proof.
  intros H. rewrite <- (take_drop n s), all_digits_app in H.
  apply andb_true_iff in H. exact H.
Qed.

Lemma length_drop (n : nat) (s : string) :
  String.length (str_drop n s) = (String.length s - n)%nat.
Proof.
  revert s. induction n as [|n IH]; intros [|c s]; simpl; auto.
Qed.

Lemma digit_not_dot (c : ascii) :
  Js.is_digit c = true -> Ascii.eqb c "." = false.
Proof.
  intros H. destruct (Ascii.eqb_spec c "."); [subst; discriminate | reflexivity].
Qed.

Lemma split_dot_digits (a : string) :
  all_digits a = true -> split_dot a = (a, None).
Proof.
  induction a as [|c a IH]; cbn [all_digits split_dot]; intros H; auto.
  apply andb_true_iff in H. destruct H as [Hc Ha].
  rewrite (digit_not_dot _ Hc), (IH Ha). reflexivity.
Qed.

Lemma split_dot_point (a b : string) :
  all_digits a = true -> split_dot (a ++ String "." b) = (a, Some b).
Proof.
  induction a as [|c a IH]; cbn [all_digits split_dot append]; intros H; auto.
  apply andb_true_iff in H. destruct H as [Hc Ha].
  rewrite (digit_not_dot _ Hc), (IH Ha). reflexivity.
Qed.

Lemma forall_app (p : ascii -> bool) (a b : string) :
  Js.str_forall p (a ++ b) = Js.str_forall p a && Js.str_forall p b.
Proof.
  induction a as [|c a IH]; simpl; auto. rewrite IH, andb_assoc. reflexivity.
Qed.

Lemma digits_numeric (s : string) :
  all_digits s = true -> Js.str_forall numeric_char s = true.
Proof.
  induction s as [|c s IH]; simpl; auto. intros H.
  apply andb_true_iff in H. destruct H as [Hc Hs].
  rewrite (IH Hs). unfold numeric_char. rewrite Hc. reflexivity.
Qed.

Lemma strip_numeric (s : string) :
  Js.str_forall numeric_char s = true -> strip_non_numeric s = s.
Proof.
  induction s as [|c s IH]; simpl; auto. intros H.
  apply andb_true_iff in H. destruct H as [Hc Hs].
  rewrite Hc, (IH Hs). reflexivity.
Qed.

Lemma has_char_app (c : ascii) (a b : string) :
  Js.has_char c (a ++ b) = Js.has_char c a || Js.has_char c b.
Proof.
  induction a as [|x a IH]; simpl; auto. rewrite IH, orb_assoc. reflexivity.
Qed.

Lemma truthy_app_l (a b : string) :
  a <> EmptyString -> Js.truthy (a ++ b) = true.
Proof. destruct a; [congruence | reflexivity]. Qed.

(** What [String(x)] prints without an exponent reads back as [x]. *)
Lemma unsigned_toString_pos (m : Z) (sc : nat) :
  0 < m ->
  Js.has_char "e" (toString_pos m sc) = false ->
  Js.str_forall numeric_char (toString_pos m sc) = true
  /\ exists d, unsigned_literal (toString_pos m sc) = Some d
               /\ dec_eqv d (mkDec m sc).
Proof.
  intros Hm. unfold toString_pos.
  destruct (strip_zeros (S (Z.to_nat (Z.log2 m))) m 0) as [s z] eqn:Hsz.
  destruct (strip_zeros_spec _ _ _ _ _ Hm Hsz) as (Hs & _ & Heq).
  change (Z.of_nat 0) with 0 in Heq. rewrite Z.pow_0_r, Z.mul_1_r in Heq.
  destruct (digits_spec s ltac:(lia)) as (Hall & Hne & Hval).
  set (ds := digits s) in *.
  set (k := Z.of_nat (String.length ds)).
  set (n := k + Z.of_nat z - Z.of_nat sc).
  assert (Hds : val_digits ds 0 = s) by (rewrite Hval; lia).
  destruct ((k <=? n) && (n <=? 21)) eqn:Ea.
  { intros _. apply andb_true_iff in Ea. destruct Ea as [Ea _].
    apply Z.leb_le in Ea.
    destruct (zeros_spec (Z.to_nat (n - k))) as (Z1 & Z2 & Z3).
    assert (Hd : all_digits (ds ++ zeros (Z.to_nat (n - k))) = true)
      by (rewrite all_digits_app, Hall, Z1; reflexivity).
    split; [apply digits_numeric, Hd|].
    unfold unsigned_literal. rewrite (split_dot_digits _ Hd), Hd.
    rewrite (truthy_app_l _ _ Hne). cbn [andb].
    eexists; split; [reflexivity|].
    unfold dec_eqv, pow10; cbn [mant scale].
    rewrite val_digits_app, Z3, Hds, Z2Nat.id by lia.
    change (Z.of_nat 0) with 0. rewrite Z.pow_0_r, Heq.
    rewrite <- Z.mul_assoc, <- Z.pow_add_r by lia.
    replace (n - k + Z.of_nat sc) with (Z.of_nat z) by lia. lia. }
  destruct ((0 <? n) && (n <=? 21)) eqn:Eb.
  { intros _. apply andb_true_iff in Eb. destruct Eb as [Eb Eb'].
    apply Z.ltb_lt in Eb. rewrite Eb', andb_true_r in Ea.
    apply Z.leb_gt in Ea.
    destruct (all_digits_take_drop (Z.to_nat n) ds Hall) as [Ht Hd].
    split.
    { rewrite forall_app, (digits_numeric _ Ht). cbn [andb append Js.str_forall].
      rewrite (digits_numeric _ Hd). reflexivity. }
    unfold unsigned_literal. cbn [append].
    rewrite (split_dot_point _ _ Ht), Ht, Hd.
    assert (Htr : Js.truthy (str_take (Z.to_nat n) ds)
                  || Js.truthy (str_drop (Z.to_nat n) ds) = true).
    { pose proof (take_drop (Z.to_nat n) ds) as E.
      destruct (str_take (Z.to_nat n) ds); [|reflexivity].
      cbn [append] in E. rewrite E. destruct ds; [congruence | reflexivity]. }
    rewrite Htr. cbn [andb].
    eexists; split; [reflexivity|].
    unfold dec_eqv, pow10; cbn [mant scale].
    rewrite <- val_digits_app, take_drop, Hds, length_drop, Heq.
    rewrite Nat2Z.inj_sub by (apply Nat2Z.inj_le; rewrite Z2Nat.id; lia).
    rewrite Z2Nat.id by lia. fold k.
    rewrite <- Z.mul_assoc, <- Z.pow_add_r by lia.
    replace (Z.of_nat z + (k - n)) with (Z.of_nat sc) by lia. reflexivity. }
  destruct ((-6 <? n) && (n <=? 0)) eqn:Ec.
  { intros _. apply andb_true_iff in Ec. destruct Ec as [_ Ec].
    apply Z.leb_le in Ec.
    destruct (zeros_spec (Z.to_nat (- n))) as (Z1 & Z2 & Z3).
    assert (Hd : all_digits (zeros (Z.to_nat (- n)) ++ ds) = true)
      by (rewrite all_digits_app, Hall, Z1; reflexivity).
    split.
    { cbn [append Js.str_forall]. rewrite (digits_numeric _ Hd). reflexivity. }
    unfold unsigned_literal.
    change ("0." ++ zeros (Z.to_nat (- n)) ++ ds)%string
      with ("0" ++ String "." (zeros (Z.to_nat (- n)) ++ ds))%string.
    rewrite (split_dot_point "0" _ eq_refl), Hd. cbn [all_digits andb Js.truthy orb Js.is_digit].
    eexists; split; [reflexivity|].
    unfold dec_eqv, pow10; cbn [mant scale].
    rewrite val_digits_app, Z3, length_app, Z2. cbn [val_digits].
    change (digit_val "0") with 0. rewrite Hval, Heq.
    rewrite Nat2Z.inj_add, Z2Nat.id by lia. fold k.
    replace ((10 * 0 + 0) * 10 ^ (- n) * 10 ^ k + s) with s by ring.
    rewrite <- Z.mul_assoc, <- Z.pow_add_r by lia.
    replace (Z.of_nat z + (- n + k)) with (Z.of_nat sc) by lia. reflexivity. }
  intros He. exfalso.
  destruct (k =? 1); rewrite !has_char_app in He; cbn [Js.has_char Ascii.eqb] in He;
    repeat rewrite ?orb_true_r, ?orb_true_l in He; discriminate.
Qed.

(** [parseNumber] of a minus sign followed by [String(|x|)] is [-|x|],
    as long as [String] prints [|x|] without an exponent. *)
Lemma parse_minus_toString_abs (x : dec) :
  Js.has_char "e" (toString (Math_abs x)) = false ->
  exists d, Number (strip_non_numeric
                      (String "-" (toString (Math_abs x)))) = Some d
            /\ dec_eqv d (dec_neg (Math_abs x)).
Proof.
  unfold toString. cbn [Math_abs mant scale].
  destruct (Z.abs (mant x) =? 0) eqn:E0.
  - intros _. apply Z.eqb_eq in E0. exists (dec_neg (dec_of_Z 0)).
    split; [reflexivity|]. unfold dec_eqv; cbn. rewrite E0. reflexivity.
  - apply Z.eqb_neq in E0.
    destruct (Z.abs (mant x) <? 0) eqn:E1; [apply Z.ltb_lt in E1; lia|].
    intros He.
    destruct (unsigned_toString_pos (Z.abs (mant x)) (scale x) ltac:(lia) He)
      as (Hnum & d & Hd & Heqv).
    cbn [strip_non_numeric]. change (numeric_char "-") with true. cbn iota.
    rewrite (strip_numeric _ Hnum).
    cbn [Number]. change (Ascii.eqb "-" "-") with true. cbn iota.
    rewrite Hd. exists (dec_neg d). split; [reflexivity|].
    unfold dec_eqv, dec_neg, Math_abs in *; cbn [mant scale] in *.
    rewrite !Z.mul_opp_l, Heqv. reflexivity.
Qed.


End NumFacts.

(** * BankTransactionNormalizer *)

Module BankFacts.
Import Num Db Importer.
Local Open Scope Z_scope.

Section WithCollaborators.
Context {env : Env}.

Lemma neg_abs_positive (d : dec) : gt0 d = true -> dec_neg (Math_abs d) = dec_neg d.
Proof.
  unfold gt0, dec_neg, Math_abs. intros H. apply Z.ltb_lt in H.
  cbn [mant scale]. rewrite Z.abs_eq by lia. reflexivity.
Qed.

(** C4, as the code has it.  A batch row whose debit amount is positive
    and whose credit amount is not yields exactly one transaction, with
    the negated debit as amount; a row with both positive yields exactly
    two, the credit first and positive, the debit second and negative; a
    row with neither positive yields none.  The external id is the
    reference number followed by -CR or -DR when the row has a non-empty
    reference number, and absent (null) otherwise. *)
Theorem batch_row_split (r : row) :
  let dr := batch_dr r in
  let cr := batch_cr r in
  let ext := fun suffix : string =>
               if Js.truthy (batch_ref r)
               then Some (batch_ref r ++ suffix)%string else None in
  (gt0 dr = true -> gt0 cr = false ->
   exists t, batch_txns r = [t]
             /\ amount t = dec_neg dr /\ bx_external_id t = ext "-DR")
  /\ (gt0 dr = true -> gt0 cr = true ->
      exists c d, batch_txns r = [c; d]
                  /\ amount c = cr /\ bx_external_id c = ext "-CR"
                  /\ amount d = dec_neg dr /\ (mant (amount d) < 0)
                  /\ bx_external_id d = ext "-DR")
  /\ (gt0 dr = false -> gt0 cr = false -> batch_txns r = []).
Proof.
  intros dr cr ext. unfold batch_txns. fold dr. fold cr.
  repeat split; intros Hd Hc; rewrite Hd, Hc; cbn [app].
  - eexists; split; [reflexivity|]. cbn [amount bx_external_id].
    rewrite (neg_abs_positive _ Hd). split; reflexivity.
  - do 2 eexists; split; [reflexivity|]. cbn [amount bx_external_id].
    rewrite (neg_abs_positive _ Hd).
    repeat split. unfold gt0 in Hd. apply Z.ltb_lt in Hd.
    cbn [dec_neg mant]. lia.
  - reflexivity.
Qed.

End WithCollaborators.

(** A debit of 50 and no credit, reference R-17: one transaction of -50
    under the id R-17-DR. *)
Lemma batch_row_split_witness :
  exists t,
    batch_txns (env := Reference.env)
      [("Reference Number", "R-17"); ("DR Amount", "50"); ("CR Amount", "0")]
    = [t]
    /\ amount t = mkDec (-50) 0 /\ bx_external_id t = Some "R-17-DR".
Proof.
  destruct (batch_row_split (env := Reference.env)
              [("Reference Number", "R-17"); ("DR Amount", "50");
               ("CR Amount", "0")]) as [H _].
  apply H; reflexivity.
Defined.

(** C4 as stated fails on a row without a reference number: the debit
    side carries no external id at all, not the suffix alone. *)
Lemma batch_row_without_reference :
  ~ (forall (env : Env) (r : row),
       dec_eqv (batch_dr r) (dec_of_Z 50) ->
       dec_eqv (batch_cr r) (dec_of_Z 0) ->
       exists t, batch_txns r = [t]
                 /\ dec_eqv (amount t) (dec_of_Z (-50))
                 /\ bx_external_id t = Some (batch_ref r ++ "-DR")%string).
Proof.
  intros H.
  destruct (H Reference.env [("DR Amount", "50"); ("CR Amount", "0")]
              eq_refl eq_refl) as (t & Ht & _ & Hext).
  inversion Ht; subst t. discriminate Hext.
Qed.

Section Generic.
Context {env : Env}.

Lemma cell_truthy_or (a b : option string) :
  cell_truthy (or_cell a b) = cell_truthy a || cell_truthy b.
Proof. destruct a as [[|c a]|]; reflexivity. Qed.

Lemma or_cell_truthy (a b : option string) :
  cell_truthy a = true -> or_cell a b = a.
Proof. destruct a as [[|c a]|]; simpl; congruence. Qed.

Lemma or_cell_falsy (a b : option string) :
  cell_truthy a = false -> or_cell a b = b.
Proof. destruct a as [[|c a]|]; simpl; congruence. Qed.

(** C8, as the code has it.  The amount of a generic row is the parsed
    Amount cell when that cell is non-empty, else the parsed Credit cell
    when that one is non-empty, else, when the Debit cell is non-empty,
    minus the magnitude of the parsed Debit (as long as JavaScript prints
    that magnitude without an exponent), else the parsed cell of the
    lower-case column amount.  A row whose amount parses to zero yields no
    transaction and no error, every other row exactly one, carrying that
    amount. *)
Theorem generic_row_amount (r : row) :
  let parsedAmt := parseNumber (generic_amount r) in
  (cell_truthy (get r "Amount") = true ->
   parsedAmt = parseNumber (get r "Amount"))
  /\ (cell_truthy (get r "Amount") = false ->
      cell_truthy (get r "Credit") = true ->
      parsedAmt = parseNumber (get r "Credit"))
  /\ (cell_truthy (get r "Amount") = false ->
      cell_truthy (get r "Credit") = false ->
      cell_truthy (get r "Debit") = true ->
      Js.has_char "e" (toString (Math_abs (parseNumber (get r "Debit"))))
        = false ->
      dec_eqv parsedAmt (dec_neg (Math_abs (parseNumber (get r "Debit")))))
  /\ (cell_truthy (get r "Amount") = false ->
      cell_truthy (get r "Credit") = false ->
      cell_truthy (get r "Debit") = false ->
      parsedAmt = parseNumber (get r "amount"))
  /\ (num_truthy parsedAmt = false -> generic_txns r = [])
  /\ (num_truthy parsedAmt = true ->
      exists t, generic_txns r = [t] /\ amount t = parsedAmt).
Proof.
  intros parsedAmt. subst parsedAmt. unfold generic_amount.
  rewrite !cell_truthy_or.
  split; [|split; [|split; [|split; [|split]]]].
  - intros HA. rewrite HA. cbn [orb]. rewrite (or_cell_truthy _ _ HA).
    reflexivity.
  - intros HA HC. rewrite HA, HC. cbn [orb].
    rewrite (or_cell_falsy _ _ HA), (or_cell_truthy _ _ HC). reflexivity.
  - intros HA HC HD He. rewrite HA, HC, HD. cbn [orb].
    rewrite (or_cell_falsy _ _ HA), (or_cell_falsy _ _ HC).
    destruct (NumFacts.parse_minus_toString_abs _ He) as (d & Hd & Heqv).
    unfold parseNumber at 1. cbn [append]. rewrite Hd. exact Heqv.
  - intros HA HC HD. rewrite HA, HC, HD. reflexivity.
  - intros Hz. unfold generic_txns, generic_amount.
    rewrite !cell_truthy_or, Hz. reflexivity.
  - intros Hz. unfold generic_txns, generic_amount.
    rewrite !cell_truthy_or, Hz. cbn [negb].
    eexists; split; reflexivity.
Qed.

End Generic.

(** A row with a debit of 12.50 only: one transaction of -12.50. *)
Lemma generic_row_amount_witness :
  dec_eqv (parseNumber (generic_amount [("Date", "01/05/2024");
                                        ("Description", "fee");
                                        ("Debit", "12.50")]))
          (mkDec (-1250) 2)
  /\ exists t,
       generic_txns (env := Reference.env)
         [("Date", "01/05/2024"); ("Description", "fee"); ("Debit", "12.50")]
       = [t].
Proof.
  destruct (generic_row_amount (env := Reference.env)
              [("Date", "01/05/2024"); ("Description", "fee");
               ("Debit", "12.50")]) as (_ & _ & H3 & _ & _ & H6).
  split.
  - exact (H3 eq_refl eq_refl eq_refl eq_refl).
  - destruct H6 as (t & Ht & _); [reflexivity|]. exists t. exact Ht.
Defined.

(** C8 as stated fails on a negative Debit cell: the code stores minus
    the magnitude, not the negation. *)
Lemma generic_row_negative_debit :
  ~ (forall (env : Env) (r : row),
       let resolved :=
         if cell_truthy (get r "Amount") then parseNumber (get r "Amount")
         else if cell_truthy (get r "Credit")
              then parseNumber (get r "Credit")
              else dec_neg (parseNumber (get r "Debit")) in
       (num_truthy resolved = false -> generic_txns r = [])
       /\ (num_truthy resolved = true ->
           exists t, generic_txns r = [t] /\ dec_eqv (amount t) resolved)).
Proof.
  intros H.
  destruct (H Reference.env [("Debit", "-50")]) as [_ H2].
  destruct H2 as (t & Ht & Heq); [reflexivity|].
  inversion Ht; subst t. vm_compute in Heq. discriminate Heq.
Qed.

(** The exponent that [String] prints for a magnitude of 1e21 and more is
    lost when the text is read back. *)
Example generic_row_huge_debit :
  map amount (generic_txns (env := Reference.env)
                [("Debit", "1000000000000000000000")])
  = [mkDec (-121) 0].
Proof. reflexivity. Qed.

End BankFacts.

(** * Calls on the store: general facts *)

Module DbFacts.
Import Num Db.

Lemma bind_Done {A B : Type} (c : M A) (k : A -> M B) (s s' : store) (b : B) :
  bind c k s = Done b s' ->
  exists a s1, c s = Done a s1 /\ k a s1 = Done b s'.
Proof.
  unfold bind. destruct (c s) as [a s1|msg s1]; [eauto | discriminate].
Qed.

Lemma transaction_Done {A : Type} (undo : store -> store -> store)
      (body : M A) (s s' : store) (a : A) :
  transaction undo body s = Done a s' <-> body s = Done a s'.
Proof.
  unfold transaction. destruct (body s); split; intros H;
    try discriminate; assumption.
Qed.

Lemma require_Done {A : Type} (msg : string) (v : option A) (s s' : store)
      (a : A) :
  require msg v s = Done a s' -> v = Some a /\ s' = s.
Proof.
  destruct v; cbn; intros H; inversion H; auto.
Qed.

(** Decompose a run that ended in [Done]. *)
Ltac run H :=
  repeat match type of H with
  | bind _ _ _ = Done _ _ =>
      let a := fresh "a" in let s1 := fresh "s" in
      let H1 := fresh "H" in
      apply bind_Done in H; destruct H as (a & s1 & H1 & H)
  | transaction _ _ _ = Done _ _ => apply transaction_Done in H
  | ret _ _ = Done _ _ => inversion H; subst; clear H
  end.

(** A loop whose steps each keep an invariant between stores keeps it. *)
Lemma for_each_Done {A : Type} (f : A -> M unit) (R : store -> store -> Prop) :
  (forall s, R s s) ->
  (forall s1 s2 s3, R s1 s2 -> R s2 s3 -> R s1 s3) ->
  (forall x s s', f x s = Done tt s' -> R s s') ->
  forall l s s', for_each f l s = Done tt s' -> R s s'.
Proof.
  intros Hrefl Htrans Hstep l.
  induction l as [|x l IH]; intros s s' H; cbn [for_each] in H.
  - inversion H; subst. apply Hrefl.
  - apply bind_Done in H. destruct H as ([] & s1 & H1 & H2).
    eapply Htrans; [eapply Hstep; eassumption | eapply IH; eassumption].
Qed.

Lemma for_each_total {A : Type} (f : A -> M unit) (P : A -> Prop) :
  (forall x s, P x -> exists s', f x s = Done tt s') ->
  forall l s, Forall P l -> exists s', for_each f l s = Done tt s'.
Proof.
  intros Hstep l. induction l as [|x l IH]; intros s Hl; cbn [for_each].
  - eexists; reflexivity.
  - inversion Hl; subst.
    destruct (Hstep x s H1) as (s1 & E1).
    destruct (IH s1 H2) as (s2 & E2).
    exists s2. unfold bind. rewrite E1. exact E2.
Qed.

(** ** Lists without repetition *)

Lemma NoDup_snoc {A : Type} (l : list A) (x : A) :
  NoDup l -> ~ In x l -> NoDup (l ++ [x]).
Proof.
  intros Hl Hx. apply NoDup_app; [exact Hl | |].
  - constructor; [intros [] | constructor].
  - intros a Ha [<-|[]]. exact (Hx Ha).
Qed.

Lemma NoDup_key {R K : Type} (f : R -> K) (l : list R) (a b : R) :
  NoDup (map f l) -> In a l -> In b l -> f a = f b -> a = b.
Proof.
  induction l as [|x l IH]; cbn [map In]; [tauto|]. intros Hnd Ha Hb E.
  inversion Hnd as [|y l' Hnot Hnd']; subst.
  destruct Ha as [<-|Ha], Hb as [<-|Hb]; auto.
  - exfalso. apply Hnot. rewrite E. apply in_map. exact Hb.
  - exfalso. apply Hnot. rewrite <- E. apply in_map. exact Ha.
Qed.

End DbFacts.

(** * [insertBankTransactions] *)

Module BankStoreFacts.
Import Num Db DbFacts.

Section WithEnv.
Context {env : Env}.

Lemma getOrCreateSource_Done (name : string) (s : store) :
  exists id s', getOrCreateSource name s = Done id s'
                /\ bank_transactions s' = bank_transactions s
                /\ invoices s' = invoices s
                /\ invoice_lines s' = invoice_lines s.
Proof.
  unfold getOrCreateSource.
  destruct (find _ _); cbn; do 2 eexists; repeat split; reflexivity.
Qed.

Lemma insert_bank_txn_rows (sourceId : nat) (t : BankTxn) (s s' : store) :
  insert_bank_txn sourceId t s = Done tt s' ->
  List.length (rows (bank_transactions s'))
  <= S (List.length (rows (bank_transactions s))).
Proof.
  unfold insert_bank_txn, insert_bank_row, insert_bank_ledger, bind, require,
    ret, raise, modify.
  destruct (numeric 14 2 (amount t)); [|discriminate].
  destruct (numeric_opt 14 2 (num_or_null (balance_after t))); [|discriminate].
  destruct (existsb _ (rows (bank_transactions s))); cbn;
    match goal with
    | |- context [existsb ?p ?l] => destruct (existsb p l)
    end; cbn; intros H; inversion H; subst; cbn;
    rewrite ?length_app; cbn; lia.
Qed.

Lemma insert_bank_txn_total (sourceId : nat) (t : BankTxn) (s : store) :
  fits_columns t = true -> exists s', insert_bank_txn sourceId t s = Done tt s'.
Proof.
  unfold fits_columns, insert_bank_txn, insert_bank_row, insert_bank_ledger,
    bind, require, ret, raise, modify.
  destruct (numeric 14 2 (amount t)); [|discriminate].
  destruct (numeric_opt 14 2 (num_or_null (balance_after t))); [|discriminate].
  intros _.
  destruct (existsb _ (rows (bank_transactions s))); cbn;
    match goal with
    | |- context [existsb ?p ?l] => destruct (existsb p l)
    end; cbn; eexists; reflexivity.
Qed.

(** C10.  Whenever [insertBankTransactions] returns, the count it
    returns is the number of transactions it was given, and the rows it
    added to bank_transactions are at most that many.  An insert skipped
    by the conflict on (source_id, external_id) is counted all the same,
    so the count can be larger than the number of rows inserted: the same
    transaction given twice is reported as 2 and stored once. *)
Theorem insertBankTransactions_count (sourceName : string)
        (txns : list BankTxn) (s : store) :
  (forall n s', insertBankTransactions sourceName txns s = Done n s' ->
                n = List.length txns
                /\ List.length (rows (bank_transactions s'))
                   <= List.length (rows (bank_transactions s)) + n)
  /\ (exists src dup s1,
        insertBankTransactions src [dup; dup] empty_store = Done 2 s1
        /\ List.length (rows (bank_transactions s1)) = 1).
Proof.
  split.
  - intros n s' H. unfold insertBankTransactions in H. run H.
    destruct (getOrCreateSource_Done sourceName s) as (id & s1 & E & Hb & _).
    rewrite E in H0. inversion H0; subst a s1. rewrite <- Hb.
    split; [reflexivity|].
    destruct a0. clear E H0 Hb. revert s0 H1.
    induction txns as [|t l IH]; intros s0 H; cbn [for_each] in H.
    + inversion H; subst. cbn. lia.
    + apply bind_Done in H. destruct H as ([] & s1 & H1 & H2).
      apply insert_bank_txn_rows in H1. apply IH in H2. cbn [List.length]. lia.
  - exists "BankCSV",
      {| bx_external_id := Some "TX-1"; txn_date := None;
         amount := mkDec 500 2; bx_currency := "USD";
         bx_description := "deposit"; memo := ""; balance_after := None;
         bx_checksum := ""; bx_status := None; bx_raw := [] |}.
    eexists. split; [vm_compute; reflexivity | reflexivity].
Qed.

End WithEnv.

(** A batch row with a debit and a credit: two transactions, reported
    as 2. *)
Lemma insertBankTransactions_count_witness :
  exists n s',
    insertBankTransactions "FNBPA"
      (Importer.batch_txns (env := Reference.env)
         [("Reference Number", "R-17"); ("DR Amount", "50");
          ("CR Amount", "30")])
      empty_store = Done n s'
    /\ n = 2
    /\ List.length (rows (bank_transactions s')) <= 2.
Proof.
  destruct (insertBankTransactions "FNBPA"
              (Importer.batch_txns (env := Reference.env)
                 [("Reference Number", "R-17"); ("DR Amount", "50");
                  ("CR Amount", "30")]) empty_store) as [n s'|m s'] eqn:E;
    [|vm_compute in E; discriminate E].
  exists n, s'. split; [reflexivity|].
  destruct (insertBankTransactions_count "FNBPA"
              (Importer.batch_txns (env := Reference.env)
                 [("Reference Number", "R-17"); ("DR Amount", "50");
                  ("CR Amount", "30")]) empty_store) as [H _].
  destruct (H n s' E) as [Hn Hl]. rewrite Hn in Hl.
  split; [exact Hn | exact Hl].
Defined.

End BankStoreFacts.

(** * DeduplicationEngine: importing the same bytes again *)

Module DuplicateFacts.
Import Num Db DbFacts Importer.

Section WithCollaborators.
Context {lib : Dayjs} {env : Env}.

Lemma find_app_some {A : Type} (p : A -> bool) (l l' : list A) (x : A) :
  find p l = Some x -> find p (l ++ l') = Some x.
Proof.
  induction l as [|a l IH]; cbn; [discriminate|].
  destruct (p a); auto.
Qed.

Lemma find_app_none {A : Type} (p : A -> bool) (l l' : list A) :
  find p l = None -> find p (l ++ l') = find p l'.
Proof.
  induction l as [|a l IH]; cbn; [reflexivity|].
  destruct (p a); [discriminate | auto].
Qed.

Lemma existsb_last {A : Type} (p : A -> bool) (l : list A) (x : A) :
  p x = true -> existsb p (l ++ [x]) = true.
Proof.
  intros H. rewrite existsb_app. cbn. rewrite H, orb_true_r. reflexivity.
Qed.

(** The loop of [addImportRecords] under a metadata row that exists. *)
Lemma add_records_loop (metaId : nat) (records : list import_record) :
  forall s,
    existsb (fun m => Nat.eqb (im_id m) metaId) (rows (import_metadata s))
    = true ->
    exists t,
      for_each (insert_import_record metaId) records s
      = Done tt (set_import_records t s)
      /\ List.length (rows t)
         = List.length (rows (import_records s)) + List.length records.
Proof.
  induction records as [|r l IH]; intros s Hm; cbn [for_each].
  - exists (import_records s). split; [destruct s; reflexivity|]. cbn. lia.
  - unfold bind. unfold insert_import_record at 1. rewrite Hm.
    set (s1 := set_import_records _ s).
    destruct (IH s1) as (t & E & Hlen); [destruct s; exact Hm|].
    exists t. rewrite E. split; [destruct s; reflexivity|].
    rewrite Hlen. subst s1. destruct s; cbn. rewrite length_app. cbn. lia.
Qed.

Lemma addImportRecords_spec (metaId : nat) (records : list import_record)
      (s : store) :
  existsb (fun m => Nat.eqb (im_id m) metaId) (rows (import_metadata s))
  = true ->
  exists t,
    addImportRecords metaId records s
    = Done (List.length records) (set_import_records t s)
    /\ List.length (rows t)
       = List.length (rows (import_records s)) + List.length records.
Proof.
  intros Hm. unfold addImportRecords. destruct records as [|r l].
  - exists (import_records s). split; [destruct s; reflexivity|]. cbn. lia.
  - destruct (add_records_loop metaId (r :: l) s Hm) as (t & E & Hlen).
    exists t. unfold bind, transaction. rewrite E. split; [reflexivity|].
    exact Hlen.
Qed.

(** What [createImportMetadata] does: one new metadata row, and the
    source row when the source is new. *)
Lemma createImportMetadata_spec (src ty : string) (meta : import_meta)
      (s : store) :
  exists id ts tm,
    createImportMetadata src ty meta s
    = Done id (set_import_metadata tm (set_ledger_sources ts s))
    /\ List.length (rows tm) = S (List.length (rows (import_metadata s)))
    /\ existsb (fun m => Nat.eqb (im_id m) id) (rows tm) = true
    /\ (find (fun r => String.eqb (src_name r) src) (rows ts) <> None)
    /\ (find (fun r => String.eqb (src_name r) src) (rows (ledger_sources s))
        <> None -> ts = ledger_sources s).
Proof.
  unfold createImportMetadata, bind, getOrCreateSource.
  destruct (find _ (rows (ledger_sources s))) as [r|] eqn:F.
  - exists (S (seq (import_metadata s))), (ledger_sources s),
      (snd (insert_row (fun id => mkImportMetadata id (src_id r) ty
                          (meta_original_filename meta)
                          (meta_content_type meta) (meta_row_count meta)
                          (meta_raw_headers meta) (meta_sample meta))
                       (import_metadata s))).
    split; [destruct s; reflexivity|].
    cbn [insert_row snd rows]. rewrite length_app. cbn [List.length].
    repeat split; [lia | | congruence].
    apply existsb_last. cbn. apply Nat.eqb_refl.
  - exists (S (seq (import_metadata s))),
      (snd (insert_row (fun id => mkSource id src "csv") (ledger_sources s))),
      (snd (insert_row (fun id => mkImportMetadata id
                          (S (seq (ledger_sources s))) ty
                          (meta_original_filename meta)
                          (meta_content_type meta) (meta_row_count meta)
                          (meta_raw_headers meta) (meta_sample meta))
                       (import_metadata s))).
    split; [destruct s; reflexivity|].
    cbn [insert_row snd rows]. rewrite length_app. cbn [List.length].
    repeat split; [lia | | | congruence].
    + apply existsb_last. cbn. apply Nat.eqb_refl.
    + rewrite (find_app_none _ _ _ F). cbn. rewrite String.eqb_refl.
      discriminate.
Qed.




End WithCollaborators.


(** The message follows the processed flag of the prior import. *)
Example reimport_after_processing :
  let content := "Vendor,RefNumber,Item,Qty,Cost" in
  let s1 := final (importPoBills (lib := Reference.lib) (env := Reference.env)
                     content "po.csv" None [] empty_store) in
  let s2 := final (processCsvImport 1 [] s1) in
  exists r s3,
    importPoBills (lib := Reference.lib) (env := Reference.env)
      content "again.csv" None [] s2 = Done r s3
    /\ error r = Some "CSV already imported and processed"
    /\ isDuplicate r = Some true
    /\ csv_imports s3 = csv_imports s2.
Proof. vm_compute. do 2 eexists. repeat split. Qed.

End DuplicateFacts.

(** * Due dates *)

Module DueDateFacts.
Import Num Server NumFacts.
Local Open Scope Z_scope.

Lemma trimStart_ws (ws s : string) :
  Js.all_ws ws = true -> digit_follows s = true ->
  Js.trimStart (ws ++ s) = s.
Proof.
  intros Hws Hs. apply TrimFacts.trimStart_app; [exact Hws|].
  destruct s as [|d s]; [discriminate|]. cbn in Hs.
  apply TrimFacts.strip_ws_digit. exact Hs.
Qed.

Lemma take_digits_run (n : nat) (ds rest : string) :
  all_digits ds = true -> (String.length ds <= n)%nat ->
  String.length ds = n \/ digit_follows rest = false ->
  take_digits n (ds ++ rest) = ds.
Proof.
  revert n. induction ds as [|c ds IH]; intros n Hd Hl Hr; cbn [append].
  - destruct n; [destruct rest; reflexivity|].
    destruct Hr as [Hr|Hr]; [discriminate|].
    destruct rest as [|d rest]; [reflexivity|]. cbn in Hr.
    cbn [take_digits]. rewrite Hr. reflexivity.
  - cbn in Hd. apply andb_true_iff in Hd. destruct Hd as [Hc Hd].
    cbn [String.length] in Hl, Hr.
    destruct n as [|n]; [lia|]. cbn [take_digits]. rewrite Hc.
    rewrite IH; [reflexivity | assumption | lia |].
    destruct Hr as [Hr|Hr]; [left; lia | right; assumption].
Qed.

Lemma Number_digits (ds : string) :
  all_digits ds = true -> ds <> EmptyString ->
  Number ds = Some (mkDec (val_digits ds 0) 0).
Proof.
  intros Hd Hne. destruct ds as [|c ds]; [congruence|].
  unfold Number.
  assert (Hc : Ascii.eqb c "-" = false).
  { cbn in Hd. apply andb_true_iff in Hd. destruct Hd as [Hc _].
    destruct (Ascii.eqb_spec c "-"); [subst; discriminate | reflexivity]. }
  rewrite Hc. unfold unsigned_literal.
  rewrite (split_dot_digits _ Hd), Hd. reflexivity.
Qed.

(** The regular expression, read off a text of the shape it accepts. *)
Lemma netMatch_shape (ws ds rest : string) :
  ws <> EmptyString -> Js.all_ws ws = true ->
  ds <> EmptyString -> all_digits ds = true ->
  (String.length ds <= 3)%nat ->
  String.length ds = 3%nat \/ digit_follows rest = false ->
  netMatch ("net" ++ ws ++ ds ++ rest) = Some ds.
Proof.
  intros Hw1 Hw2 Hd1 Hd2 Hl Hr. unfold netMatch.
  change (Js.startsWith "net" ("net" ++ ws ++ ds ++ rest)) with true.
  change (str_drop 3 ("net" ++ ws ++ ds ++ rest)) with (ws ++ ds ++ rest)%string.
  cbv iota.
  assert (Hf : digit_follows (ds ++ rest) = true).
  { destruct ds as [|c ds]; [congruence|]. cbn in Hd2 |- *.
    apply andb_true_iff in Hd2. tauto. }
  rewrite (trimStart_ws _ _ Hw2 Hf).
  assert (Hlt : (String.length (ds ++ rest) <? String.length (ws ++ ds ++ rest))%nat
                = true).
  { apply Nat.ltb_lt. rewrite (length_app ws). destruct ws; [congruence|].
    cbn [String.length]. lia. }
  rewrite Hlt, (take_digits_run 3 ds rest Hd2 Hl Hr).
  destruct ds; [congruence | reflexivity].
Qed.

Lemma startsWith_drop (p t : string) :
  Js.startsWith p t = true -> t = (p ++ str_drop (String.length p) t)%string.
Proof.
  revert t. induction p as [|a p IH]; intros [|b t]; cbn; try discriminate; auto.
  intros H. apply andb_true_iff in H. destruct H as [Hab Hp].
  apply Ascii.eqb_eq in Hab. subst b. f_equal. auto.
Qed.

(** Conversely, a match shows the shape. *)
Lemma netMatch_Some (t ds : string) :
  netMatch t = Some ds ->
  exists ws c rest,
    t = ("net" ++ ws ++ String c rest)%string
    /\ ws <> EmptyString /\ Js.all_ws ws = true
    /\ Js.is_digit c = true.
Proof.
  unfold netMatch.
  destruct (Js.startsWith "net" t) eqn:Hs; [|discriminate].
  apply startsWith_drop in Hs. cbn [String.length] in Hs.
  remember (str_drop 3 t) as r eqn:Er. clear Er.
  destruct (String.length (Js.trimStart r) <? String.length r)%nat eqn:Hlt;
    [|discriminate].
  destruct (Js.truthy (take_digits 3 (Js.trimStart r))) eqn:Ht; [|discriminate].
  intros _.
  pose proof (TrimFacts.trimStart_split r) as Hsplit.
  destruct Hsplit as (ws & E & Hws).
  destruct (Js.trimStart r) as [|c rest] eqn:Etr; [discriminate|].
  exists ws, c, rest. repeat split.
  - rewrite Hs, E. reflexivity.
  - intros ->. cbn [append] in E. rewrite E in Hlt.
    rewrite Nat.ltb_irrefl in Hlt. discriminate.
  - exact Hws.
  - cbn in Ht. destruct (Js.is_digit c); [reflexivity | discriminate].
Qed.

Section WithDayjs.
Context {lib : Dayjs}.

(** C7, as the code has it.  For a non-empty bill date that dayjs reads
    as a valid date: when the terms, in lower case, are [net], at least one
    white-space character (any that the class [\s] takes, the no-break
    space included) and a run of digits, the due date is the bill
    date plus N days, written MM/DD/YYYY, where N is the number the digits
    write when they are at most three (of a longer run the first three
    count).  For terms of any other shape, or a bill date dayjs does not
    read, the due date is the bill date as given. *)
Theorem due_date_net (dateStr terms : string) :
  Js.truthy dateStr = true ->
  (forall (ws ds rest : string) (d : Z),
      Js.toLowerCase terms = ("net" ++ ws ++ ds ++ rest)%string ->
      ws <> EmptyString -> Js.all_ws ws = true ->
      ds <> EmptyString -> all_digits ds = true ->
      (String.length ds <= 3)%nat ->
      String.length ds = 3%nat \/ digit_follows rest = false ->
      dayjs_fmt dateStr "MM/DD/YYYY" false = Some d ->
      computeDueDate dateStr terms
      = format_MDY (add_days (val_digits ds 0) d))
  /\ ((forall ws c rest,
          Js.toLowerCase terms = ("net" ++ ws ++ String c rest)%string ->
          ws <> EmptyString -> Js.all_ws ws = true ->
          Js.is_digit c = false) ->
      computeDueDate dateStr terms = dateStr)
  /\ (dayjs_fmt dateStr "MM/DD/YYYY" false = None ->
      computeDueDate dateStr terms = dateStr).
Proof.
  intros Hdate. unfold computeDueDate. rewrite Hdate. cbn [negb].
  split; [|split].
  - intros ws ds rest d Ht Hw1 Hw2 Hd1 Hd2 Hl Hr Hparse.
    rewrite Ht, (netMatch_shape ws ds rest Hw1 Hw2 Hd1 Hd2 Hl Hr), Hparse.
    unfold Number_or_0. rewrite (Number_digits ds Hd2 Hd1).
    unfold to_int, pow10. cbn [mant scale].
    change (10 ^ Z.of_nat 0) with 1. rewrite Z.div_1_r. reflexivity.
  - intros Hno. destruct (netMatch (Js.toLowerCase terms)) as [ds|] eqn:E;
      [|reflexivity].
    destruct (netMatch_Some _ _ E) as (ws & c & rest & Ht & Hw1 & Hw2 & Hc).
    rewrite (Hno ws c rest Ht Hw1 Hw2) in Hc. discriminate.
  - intros Hbad. rewrite Hbad.
    destruct (netMatch (Js.toLowerCase terms)); reflexivity.
Qed.

End WithDayjs.

(** Net 30 on 01/05/2024: due 02/04/2024. *)
Lemma due_date_net_witness :
  computeDueDate (lib := Reference.lib) "01/05/2024" "Net 30" = "02/04/2024".
Proof.
  destruct (due_date_net (lib := Reference.lib) "01/05/2024" "Net 30" eq_refl)
    as [H _].
  apply (H " " "30" "" 19727); try reflexivity; try discriminate.
  - cbn. lia.
  - right. reflexivity.
Defined.

(** C7 as stated fails from four digits on: Net 1000 adds 100 days. *)
Lemma due_date_net_1000 :
  ~ (forall (lib : Dayjs) (dateStr : string) (N d : Z),
       0 <= N ->
       dayjs_fmt dateStr "MM/DD/YYYY" false = Some d ->
       computeDueDate dateStr ("Net " ++ digits N)
       = format_MDY (add_days N d)).
Proof.
  intros H.
  specialize (H Reference.lib "01/01/2024" 1000 19723 ltac:(lia) eq_refl).
  vm_compute in H. discriminate H.
Qed.

(** The white space after Net may be a no-break space. *)
Example due_date_no_break_space :
  computeDueDate (lib := Reference.lib) "01/01/2024"
    ("Net" ++ Js.utf8 [194; 160]%nat ++ "30") = "01/31/2024".
Proof. reflexivity. Qed.

Example due_date_examples :
  computeDueDate (lib := Reference.lib) "01/01/2024" "Net 1000" = "04/10/2024"
  /\ computeDueDate (lib := Reference.lib) "01/01/2024" "NET  15 days"
     = "01/16/2024"
  /\ computeDueDate (lib := Reference.lib) "01/01/2024" "Net30" = "01/01/2024"
  /\ computeDueDate (lib := Reference.lib) "01/01/2024" "Due upon receipt"
     = "01/01/2024"
  /\ computeDueDate (lib := Reference.lib) "soon" "Net 30" = "soon".
Proof. repeat split. Qed.

End DueDateFacts.

(** * PoBillNormalizer: the grouping key *)

Module GroupingFacts.
Import Num Server.

(** ** The key text and its parts *)




(** ** Rounding to cents *)

Lemma round2_shape (x : dec) : exists n, round2 x = mkDec n 2.
Proof.
  unfold round2, dec_div100, Math_round. cbn [mant scale].
  eexists. reflexivity.
Qed.

Lemma round2_cents (n : Z) : round2 (mkDec n 2) = mkDec n 2.
Proof.
  unfold round2, dec_div100, Math_round, dec_mul, dec_of_Z.
  cbn [mant scale Nat.add]. f_equal.
  change (pow10 2) with 100%Z.
  symmetry. apply Z.div_unique with (r := 100%Z); lia.
Qed.

Lemma round2_idempotent (x : dec) : round2 (round2 x) = round2 x.
Proof. destruct (round2_shape x) as [n ->]. apply round2_cents. Qed.




(** ** The map of groups *)

Lemma group_push_key (key : string) (r : row) (m : groups) (k : string) :
  In k (map fst (group_push key r m)) <-> k = key \/ In k (map fst m).
Proof.
  induction m as [|[k0 rs0] m IH]; cbn [group_push map fst In].
  - intuition congruence.
  - destruct (String.eqb k0 key) eqn:E; cbn [map fst In].
    + apply String.eqb_eq in E. subst k0. intuition congruence.
    + rewrite IH. intuition congruence.
Qed.

Lemma group_push_NoDup (key : string) (r : row) (m : groups) :
  NoDup (map fst m) -> NoDup (map fst (group_push key r m)).
Proof.
  induction m as [|[k0 rs0] m IH]; cbn [group_push map fst]; intros H.
  - constructor; [intros []|constructor].
  - inversion H as [|x l Hnot Hnd]; subst.
    destruct (String.eqb k0 key) eqn:E; cbn [map fst].
    + constructor; assumption.
    + constructor; [|apply IH; exact Hnd].
      rewrite group_push_key. intros [->|Hin]; [|contradiction].
      rewrite String.eqb_refl in E. discriminate.
Qed.

Lemma group_push_entry (key : string) (r : row) (m : groups)
      (k : string) (rs : list row) :
  NoDup (map fst m) -> In (k, rs) (group_push key r m) ->
  (k <> key /\ In (k, rs) m)
  \/ (k = key
      /\ ((exists rs0, In (key, rs0) m /\ rs = rs0 ++ [r])
          \/ (~ In key (map fst m) /\ rs = [r]))).
Proof.
  induction m as [|[k0 rs0] m IH]; cbn [group_push map fst In]; intros Hnd H.
  - destruct H as [H|[]]. inversion H; subst. right. split; [reflexivity|].
    right. split; [tauto | reflexivity].
  - inversion Hnd as [|x l Hnot Hnd']; subst.
    destruct (String.eqb k0 key) eqn:E.
    + apply String.eqb_eq in E. subst k0. destruct H as [H|H].
      * inversion H; subst. right. split; [reflexivity|]. left.
        exists rs0. split; [left; reflexivity | reflexivity].
      * left. split; [|right; exact H]. intros ->. apply Hnot.
        change key with (fst (key, rs)). apply in_map. exact H.
    + apply String.eqb_neq in E. destruct H as [H|H].
      * inversion H; subst. left. split; [exact E | left; reflexivity].
      * destruct (IH Hnd' H) as [[Hk Hin]|[Hk [(rs1 & Hin & Ers)|[Hnin Ers]]]].
        -- left. split; [exact Hk | right; exact Hin].
        -- right. split; [exact Hk|]. left. exists rs1.
           split; [right; exact Hin | exact Ers].
        -- right. split; [exact Hk|]. right. split; [|exact Ers].
           intros [Hh|Ht]; [congruence | contradiction].
Qed.

Lemma filter_nil {A : Type} (p : A -> bool) (l : list A) :
  (forall x, In x l -> p x = false) -> filter p l = [].
Proof.
  induction l as [|a l IH]; cbn [filter]; intros H; [reflexivity|].
  rewrite (H a (or_introl eq_refl)). apply IH. intros x Hx. apply H.
  right. exact Hx.
Qed.

Section WithDayjs.
Context {lib : Dayjs}.

Lemma rows_under_snoc (vc rc k : string) (seen : list row) (r : row) :
  rows_under vc rc k (seen ++ [r])
  = rows_under vc rc k seen
    ++ (if keyed vc rc r && String.eqb (group_key vc rc r) k then [r] else []).
Proof. unfold rows_under. rewrite filter_app. reflexivity. Qed.

(** A row that takes part is pushed under its key text. *)
Lemma grouped_push (vc rc : string) (m : groups) (seen : list row) (r : row) :
  keyed vc rc r = true -> grouped vc rc m seen ->
  grouped vc rc (group_push (group_key vc rc r) r m) (seen ++ [r]).
Proof.
  intros Hr (Hnd & Hrows & Hkeys). split; [|split].
  - apply group_push_NoDup. exact Hnd.
  - intros k rs Hin. rewrite rows_under_snoc, Hr. cbn [andb].
    destruct (group_push_entry _ _ _ _ _ Hnd Hin)
      as [[Hk Hold]|[-> [(rs0 & Hold & ->)|[Hnew ->]]]].
    + destruct (Hrows k rs Hold) as [E Hne].
      assert (F : String.eqb (group_key vc rc r) k = false)
        by (apply String.eqb_neq; congruence).
      rewrite F, app_nil_r. split; assumption.
    + destruct (Hrows _ rs0 Hold) as [E Hne].
      rewrite String.eqb_refl, <- E. split; [reflexivity|].
      destruct rs0; discriminate.
    + rewrite String.eqb_refl. split; [|discriminate].
      unfold rows_under. rewrite filter_nil; [reflexivity|].
      intros x Hx. destruct (keyed vc rc x) eqn:Kx; [|reflexivity].
      cbn [andb]. apply String.eqb_neq. intros E. apply Hnew.
      rewrite <- E. apply Hkeys; assumption.
  - intros x Hx Kx. apply group_push_key. apply in_app_or in Hx.
    destruct Hx as [Hx|[<-|[]]]; [right; apply Hkeys; assumption|].
    left. reflexivity.
Qed.

(** A row without vendor or reference leaves the map as it is. *)
Lemma grouped_skip (vc rc : string) (m : groups) (seen : list row) (r : row) :
  keyed vc rc r = false -> grouped vc rc m seen -> grouped vc rc m (seen ++ [r]).
Proof.
  intros Hr (Hnd & Hrows & Hkeys). split; [exact Hnd|]. split.
  - intros k rs Hin. rewrite rows_under_snoc, Hr. cbn [andb].
    rewrite app_nil_r. apply Hrows. exact Hin.
  - intros x Hx Kx. apply in_app_or in Hx.
    destruct Hx as [Hx|[<-|[]]]; [apply Hkeys; assumption | congruence].
Qed.

Lemma group_rows_grouped (vc rc : string) (records : list row) :
  forall m seen,
    grouped vc rc m seen ->
    grouped vc rc (group_rows vc rc records m) (seen ++ records).
Proof.
  induction records as [|r l IH]; intros m seen H; cbn [group_rows].
  - rewrite app_nil_r. exact H.
  - change (seen ++ r :: l) with (seen ++ [r] ++ l). rewrite app_assoc.
    rewrite <- negb_andb. fold (keyed vc rc r).
    destruct (keyed vc rc r) eqn:K; cbn [negb]; apply IH.
    + apply grouped_push; assumption.
    + apply grouped_skip; assumption.
Qed.

Lemma grouped_all (vc rc : string) (records : list row) :
  grouped vc rc (group_rows vc rc records []) records.
Proof.
  apply (group_rows_grouped vc rc records [] []).
  split; [constructor|]. split; [intros k rs []|intros r []].
Qed.

(** ** One bill *)

Lemma line_amount_of_row (ic qc cc : string) (r : row) :
  line_amount (snd (line_of_row ic qc cc r)) = fst (line_of_row ic qc cc r).
Proof. unfold line_of_row. cbn [fst snd line_amount]. apply round2_idempotent. Qed.

Lemma build_lines_spec (ic qc cc : string) (rws : list row) :
  forall total acc,
    build_lines ic qc cc rws total acc
    = (fold_left (fun t l => dec_add t (line_amount l))
                 (map (fun r => snd (line_of_row ic qc cc r)) rws) total,
       acc ++ map (fun r => snd (line_of_row ic qc cc r)) rws).
Proof.
  induction rws as [|r l IH]; intros total acc; cbn [build_lines map fold_left].
  - rewrite app_nil_r. reflexivity.
  - rewrite line_amount_of_row.
    destruct (line_of_row ic qc cc r) as [la ln] eqn:E. cbn [fst snd].
    rewrite IH, <- app_assoc. reflexivity.
Qed.





(** ** The grouping property *)


(** What [bills_of_records] returns is the bills of the groups, for the
    columns found in the first record. *)
Lemma bills_of_records_Ok (records : list row) (bills : list Bill) :
  bills_of_records records = Ok bills ->
  exists r0 vc rc ic qc cc,
    hd_error records = Some r0
    /\ findActualCol (Object_keys r0) ["vendor"; "supplier"; "vendor name"]
       = Some vc
    /\ findActualCol (Object_keys r0)
         ["refnumber"; "ref number"; "reference"; "reference number";
          "docnum"; "document number"] = Some rc
    /\ findActualCol (Object_keys r0)
         ["item"; "item code"; "sku"; "product"; "product code"] = Some ic
    /\ findActualCol (Object_keys r0) ["qty"; "quantity"; "qnty"] = Some qc
    /\ findActualCol (Object_keys r0)
         ["cost"; "unit cost"; "price"; "unit price"; "rate"] = Some cc
    /\ bills = map (bill_of_group ic qc cc) (group_rows vc rc records []).
Proof.
  unfold bills_of_records. destruct records as [|r0 rest]; [discriminate|].
  cbv zeta.
  destruct (findActualCol (Object_keys r0)
              ["vendor"; "supplier"; "vendor name"]) as [vc|] eqn:E1;
    [|discriminate].
  destruct (findActualCol (Object_keys r0)
              ["refnumber"; "ref number"; "reference"; "reference number";
               "docnum"; "document number"]) as [rc|] eqn:E2;
    [|discriminate].
  destruct (findActualCol (Object_keys r0)
              ["item"; "item code"; "sku"; "product"; "product code"])
    as [ic|] eqn:E3; [|discriminate].
  destruct (findActualCol (Object_keys r0) ["qty"; "quantity"; "qnty"])
    as [qc|] eqn:E4; [|discriminate].
  destruct (findActualCol (Object_keys r0)
              ["cost"; "unit cost"; "price"; "unit price"; "rate"])
    as [cc|] eqn:E5; [|discriminate].
  destruct (map (bill_of_group ic qc cc) (group_rows vc rc (r0 :: rest) []))
    as [|b bs] eqn:E; [discriminate|].
  intros H. inversion H; subst bills.
  exists r0, vc, rc, ic, qc, cc. repeat split; try assumption.
  symmetry. exact E.
Qed.

End WithDayjs.


(** C2 fails on the code: the group key is the text
    vendor||reference||date and the bill's fields are read back by
    splitting it at ||.  Two rows with different (vendor, reference) pairs,
    (A||B, C) and (A, B||C), fall into one group; the single bill produced
    carries both rows as lines, under vendor A, reference B and the text C
    as its date. *)
Theorem grouping_key_collision :
  let r1 := [("Vendor", "A||B"); ("RefNumber", "C"); ("Date", "01/05/2024");
             ("Item", "Widget"); ("Qty", "10"); ("Cost", "2.50")] in
  let r2 := [("Vendor", "A"); ("RefNumber", "B||C"); ("Date", "01/05/2024");
             ("Item", "Gadget"); ("Qty", "2"); ("Cost", "5.00")] in
  exists b,
    bills_of_records (lib := Reference.lib) [r1; r2] = Ok [b]
    /\ vendor b = "A" /\ ref_num b = "B" /\ date b = "C"
    /\ map item (lines b) = ["Widget"; "Gadget"]
    /\ total_amount b = mkDec 3500 2.
Proof.
  intros r1 r2. eexists. split; [vm_compute; reflexivity|].
  repeat split.
Qed.

End GroupingFacts.

(** * InterchangeSerializer *)

Module ExporterFacts.
Import Num Db DbFacts Exporter NumFacts.

Lemma clean_app (a b : string) : clean (a ++ b) = clean a && clean b.
Proof. apply forall_app. Qed.

Lemma digit_plain (c : ascii) : Js.is_digit c = true -> plain_char c = true.
Proof.
  intros H. unfold plain_char.
  destruct (Ascii.eqb_spec c Js.TAB); [subst; discriminate|].
  destruct (Ascii.eqb_spec c Js.CR); [subst; discriminate|].
  destruct (Ascii.eqb_spec c Js.LF); [subst; discriminate|].
  destruct (Ascii.eqb_spec c Js.DQUOTE); [subst; discriminate|].
  reflexivity.
Qed.

Lemma clean_digits (s : string) : all_digits s = true -> clean s = true.
Proof.
  induction s as [|c s IH]; cbn; auto. intros H.
  apply andb_true_iff in H. destruct H as [Hc Hs].
  rewrite (digit_plain _ Hc). auto.
Qed.

Lemma clean_take_drop (n : nat) (s : string) :
  clean s = true ->
  clean (str_take n s) = true /\ clean (str_drop n s) = true.
Proof.
  intros H. rewrite <- (take_drop n s), clean_app in H.
  apply andb_true_iff in H. exact H.
Qed.

Lemma clean_zeros (n : nat) : clean (zeros n) = true.
Proof. apply clean_digits. apply zeros_spec. Qed.

Lemma clean_digits_of (n : Z) : (0 <= n)%Z -> clean (digits n) = true.
Proof. intros H. apply clean_digits. apply (digits_spec n H). Qed.

Lemma clean_toString_pos (m : Z) (sc : nat) :
  (0 < m)%Z -> clean (toString_pos m sc) = true.
Proof.
  intros Hm. unfold toString_pos.
  destruct (strip_zeros _ m 0) as [s z] eqn:Hsz.
  destruct (strip_zeros_spec _ _ _ _ _ Hm Hsz) as (Hs & _ & _).
  pose proof (clean_digits_of s ltac:(lia)) as Hds.
  destruct (clean_take_drop 1 (digits s) Hds) as [Ht1 Hd1].
  set (n := (Z.of_nat (String.length (digits s)) + Z.of_nat z - Z.of_nat sc)%Z).
  destruct (clean_take_drop (Z.to_nat n) (digits s) Hds) as [Htn Hdn].
  pose proof (clean_digits_of (Z.abs (n - 1)) ltac:(lia)) as Hes.
  repeat match goal with
         | |- context [if ?c then _ else _] => destruct c
         end;
    repeat (rewrite clean_app || cbn [append]);
    rewrite ?Hds, ?Ht1, ?Hd1, ?Htn, ?Hdn, ?Hes, ?clean_zeros;
    cbn [clean Js.str_forall plain_char andb];
    rewrite ?Hds, ?Ht1, ?Hd1, ?Htn, ?Hdn, ?Hes, ?clean_zeros; reflexivity.
Qed.

Lemma clean_toString (d : dec) : clean (toString d) = true.
Proof.
  unfold toString.
  destruct (mant d =? 0)%Z eqn:E0; [reflexivity|]. apply Z.eqb_neq in E0.
  destruct (mant d <? 0)%Z eqn:E1.
  - apply Z.ltb_lt in E1. cbn [append clean Js.str_forall].
    change (plain_char "-") with true. cbn [andb].
    apply clean_toString_pos. lia.
  - apply Z.ltb_ge in E1. apply clean_toString_pos. lia.
Qed.

Lemma clean_toFixed2 (d : dec) : clean (toFixed2 d) = true.
Proof.
  unfold toFixed2.
  destruct (pow10 21 * pow10 (scale d) <=? Z.abs (mant d))%Z;
    [apply clean_toString|].
  set (n := ((2 * Z.abs (mant d) * 100 + pow10 (scale d))
             / (2 * pow10 (scale d)))%Z).
  assert (Hn : (0 <= n)%Z).
  { pose proof (pow10_pos (scale d)). apply Z.div_pos; lia. }
  pose proof (clean_digits_of n Hn) as Hds.
  set (m := (zeros (3 - String.length (digits n)) ++ digits n)%string).
  assert (Hm : clean m = true)
    by (unfold m; rewrite clean_app, clean_zeros, Hds; reflexivity).
  destruct (clean_take_drop (String.length m - 2) m Hm) as [Ht Hd].
  rewrite !clean_app, Ht. cbn [append clean Js.str_forall].
  change (plain_char ".") with true. fold (clean (str_drop (String.length m - 2) m)).
  rewrite Hd. destruct (mant d <? 0)%Z; reflexivity.
Qed.

Lemma clean_quantity_text (q : dec) : clean (quantity_text q) = true.
Proof.
  unfold quantity_text. destruct (num_truthy q); [apply clean_toString|].
  reflexivity.
Qed.

Lemma join_terminated (eol : string) (ls : list string) :
  ls <> [] -> (Js.join eol ls ++ eol)%string = terminated eol ls.
Proof.
  induction ls as [|l r IH]; [congruence|]. intros _.
  destruct r as [|l' r].
  - cbn. rewrite append_nil_r. reflexivity.
  - change (Js.join eol (l :: l' :: r))
      with (l ++ eol ++ Js.join eol (l' :: r))%string.
    change (terminated eol (l :: l' :: r))
      with (l ++ eol ++ terminated eol (l' :: r))%string.
    rewrite <- IH by discriminate.
    rewrite !append_assoc. reflexivity.
Qed.

Lemma obj_set_clean (k v : string) (o : row) :
  clean v = true -> forallb (fun kv => clean (snd kv)) o = true ->
  forallb (fun kv => clean (snd kv)) (obj_set k v o) = true.
Proof.
  intros Hv. induction o as [|[k' v'] o IH]; cbn [obj_set forallb snd];
    intros H.
  - rewrite Hv. reflexivity.
  - apply andb_true_iff in H. destruct H as [H1 H2].
    destruct (String.eqb k' k); cbn [forallb snd];
      [rewrite Hv, H2 | rewrite H1, IH]; auto.
Qed.

Lemma get_clean (o : row) (k : string) :
  forallb (fun kv => clean (snd kv)) o = true ->
  clean (or_empty (get o k)) = true.
Proof.
  induction o as [|[k' v'] o IH]; cbn [get forallb snd or_empty]; auto.
  intros H. apply andb_true_iff in H. destruct H as [H1 H2].
  destruct (String.eqb k' k); auto.
Qed.

Lemma defaults_spec (s : store) :
  forallb (fun r => clean (qa_name r)) (rows (qbd_accounts s)) = true ->
  exists defaults,
    getDefaultQbdAccounts s = Done defaults s
    /\ forallb (fun kv => clean (snd kv)) defaults = true.
Proof.
  intros H. unfold getDefaultQbdAccounts, gets. eexists. split; [reflexivity|].
  assert (G : forall l acc,
             forallb (fun r => clean (qa_name r)) l = true ->
             forallb (fun kv => clean (snd kv)) acc = true ->
             forallb (fun kv => clean (snd kv))
               (fold_left
                  (fun map r =>
                     if cell_truthy (role r)
                     then obj_set (or_empty (role r)) (qa_name r) map
                     else map) l acc) = true).
  { clear. induction l as [|r l IH]; cbn; auto. intros acc Hl Ha.
    apply andb_true_iff in Hl. destruct Hl as [Hr Hl].
    apply IH; [assumption|].
    destruct (cell_truthy (role r)); [apply obj_set_clean|]; assumption. }
  apply G; [|reflexivity].
  rewrite forallb_forall in *. intros r Hr. apply H.
  apply filter_In in Hr. tauto.
Qed.

Lemma account_clean (defaults : row) (role_ fallback : string) :
  forallb (fun kv => clean (snd kv)) defaults = true ->
  clean fallback = true -> clean (account defaults role_ fallback) = true.
Proof.
  intros Hd Hf. unfold account.
  destruct (cell_truthy (get defaults role_)); [apply get_clean|]; assumption.
Qed.

(** A line made of clean fields holds no line break. *)
Lemma joined_fields_no_break (fields : list string) :
  forallb clean fields = true ->
  Js.str_forall (fun c => negb (Ascii.eqb c Js.CR || Ascii.eqb c Js.LF))
                (Js.join tab fields) = true.
Proof.
  assert (Hc : forall s, clean s = true ->
               Js.str_forall
                 (fun c => negb (Ascii.eqb c Js.CR || Ascii.eqb c Js.LF)) s
               = true).
  { induction s as [|c s IH]; cbn; auto. intros H.
    apply andb_true_iff in H. destruct H as [H1 H2]. rewrite (IH H2).
    unfold plain_char in H1.
    destruct (Ascii.eqb c Js.TAB), (Ascii.eqb c Js.CR), (Ascii.eqb c Js.LF);
      cbn in *; congruence. }
  induction fields as [|f r IH]; [reflexivity|]. cbn [forallb]. intros H.
  apply andb_true_iff in H. destruct H as [Hf Hr].
  destruct r as [|f' r]; [cbn; auto|].
  change (Js.join tab (f :: f' :: r))
    with (f ++ tab ++ Js.join tab (f' :: r))%string.
  rewrite !forall_app, (Hc _ Hf), (IH Hr). reflexivity.
Qed.

(** C6, as the code has it.  The interchange file of exporter.js ends
    every line with CRLF.  The serializer places the fields as it is given
    them: when the text fields of the bills and the configured account
    names hold no tab, carriage return, line feed or double quote (as is
    the case for bills that come out of [parseBillsFromCsv], which
    sanitises them), no field of any TRNS or SPL line holds one, and no
    line of the file holds a line break. *)
Theorem bills_iif_layout (bills : list Bill) (s : store) :
  forallb (fun r => clean (qa_name r)) (rows (qbd_accounts s)) = true ->
  forallb clean_bill bills = true ->
  exists apAcc invAssetAcc,
    generateBillsIif bills s
    = Done (terminated crlf (iif_lines apAcc invAssetAcc bills)) s
    /\ forall b, In b bills ->
         forallb clean (trns_fields apAcc b) = true
         /\ Js.str_forall
              (fun c => negb (Ascii.eqb c Js.CR || Ascii.eqb c Js.LF))
              (Js.join tab (trns_fields apAcc b)) = true
         /\ forall l, In l (lines b) ->
              forallb clean (spl_fields invAssetAcc b l) = true
              /\ Js.str_forall
                   (fun c => negb (Ascii.eqb c Js.CR || Ascii.eqb c Js.LF))
                   (Js.join tab (spl_fields invAssetAcc b l)) = true.
Proof.
  intros Hacc Hbills.
  destruct (defaults_spec s Hacc) as (defaults & E & Hd).
  exists (account defaults "accounts_payable" "Accounts Payable"),
         (account defaults "inventory_asset" "Inventory Asset").
  split.
  - unfold generateBillsIif, bind. rewrite E. unfold ret.
    rewrite join_terminated; [reflexivity|]. discriminate.
  - intros b Hb. rewrite forallb_forall in Hbills.
    pose proof (Hbills b Hb) as Hcb. unfold clean_bill in Hcb.
    repeat (apply andb_true_iff in Hcb; destruct Hcb as [Hcb ?]).
    pose proof (account_clean defaults "accounts_payable" "Accounts Payable"
                  Hd eq_refl) as Hap.
    pose proof (account_clean defaults "inventory_asset" "Inventory Asset"
                  Hd eq_refl) as Hinv.
    assert (Ht : forallb clean (trns_fields
                   (account defaults "accounts_payable" "Accounts Payable") b)
                 = true).
    { unfold trns_fields. cbn [forallb].
      change ("-" ++ toFixed2 (total_amount b))%string
        with (String "-" (toFixed2 (total_amount b))).
      cbn [clean Js.str_forall]. fold (clean (toFixed2 (total_amount b))).
      rewrite clean_toFixed2.
      repeat match goal with
             | H : clean _ = true |- _ => rewrite H; clear H
             end. reflexivity. }
    split; [exact Ht|]. split; [apply joined_fields_no_break, Ht|].
    intros l Hl.
    match goal with
    | H : forallb clean_line (lines b) = true |- _ =>
        rewrite forallb_forall in H; pose proof (H l Hl) as Hcl
    end.
    unfold clean_line in Hcl. apply andb_true_iff in Hcl.
    destruct Hcl as [Hi Hde].
    assert (Hs : forallb clean (spl_fields
                   (account defaults "inventory_asset" "Inventory Asset") b l)
                 = true).
    { unfold spl_fields. cbn [forallb].
      rewrite !clean_toFixed2, clean_quantity_text, Hi, Hde, Hinv.
      match goal with
      | H : clean (date b) = true |- _ => rewrite H
      end. reflexivity. }
    split; [exact Hs | apply joined_fields_no_break, Hs].
Qed.

(** The bill of the specification's scenario, two lines. *)
Lemma bills_iif_layout_witness :
  exists apAcc invAssetAcc,
    generateBillsIif
      [mkBill "Acme" "PO-1" "01/05/2024" (mkDec 3500 2) "01/05/2024"
              "Due upon receipt"
              [mkLine "Widget" "" (mkDec 10 0) (mkDec 250 2) (mkDec 2500 2);
               mkLine "Gadget" "" (mkDec 2 0) (mkDec 500 2) (mkDec 1000 2)]]
      empty_store
    = Done (terminated crlf
              (iif_lines apAcc invAssetAcc
                 [mkBill "Acme" "PO-1" "01/05/2024" (mkDec 3500 2)
                         "01/05/2024" "Due upon receipt"
                         [mkLine "Widget" "" (mkDec 10 0) (mkDec 250 2)
                                 (mkDec 2500 2);
                          mkLine "Gadget" "" (mkDec 2 0) (mkDec 500 2)
                                 (mkDec 1000 2)]]))
           empty_store.
Proof.
  destruct (bills_iif_layout
              [mkBill "Acme" "PO-1" "01/05/2024" (mkDec 3500 2) "01/05/2024"
                      "Due upon receipt"
                      [mkLine "Widget" "" (mkDec 10 0) (mkDec 250 2)
                              (mkDec 2500 2);
                       mkLine "Gadget" "" (mkDec 2 0) (mkDec 500 2)
                              (mkDec 1000 2)]]
              empty_store eq_refl eq_refl) as (ap & inv & H & _).
  exists ap, inv. exact H.
Defined.

(** C6 as stated fails twice.  The serializer of exporter.js does not
    sanitise: a vendor with a tab in it is placed as it is.  And the file
    server.js produces on /api/export-iif ends its lines with a bare line
    feed. *)
Lemma iif_fields_not_sanitised :
  ~ (forall (bills : list Bill) (s s' : store) (out : string),
       generateBillsIif bills s = Done out s' ->
       exists apAcc invAssetAcc,
         out = terminated crlf (iif_lines apAcc invAssetAcc bills)
         /\ forall b, In b bills ->
                      forallb clean (trns_fields apAcc b) = true)
  /\ ~ (forall bills : list Bill,
          exists apAcc invAssetAcc,
            generateIif bills
            = terminated crlf (iif_lines apAcc invAssetAcc bills)).
Proof.
  split.
  - intros H.
    pose (b := mkBill (String "A" (String Js.TAB "B")) "PO-1" "01/05/2024"
                      (mkDec 0 0) "01/05/2024" "Net 30" []).
    destruct (H [b] empty_store empty_store _ eq_refl)
      as (ap & inv & _ & Hf).
    specialize (Hf b (or_introl eq_refl)). unfold trns_fields in Hf.
    cbn [forallb] in Hf.
    apply andb_true_iff in Hf. destruct Hf as [_ Hf].
    apply andb_true_iff in Hf. destruct Hf as [_ Hf].
    apply andb_true_iff in Hf. destruct Hf as [_ Hf].
    apply andb_true_iff in Hf. destruct Hf as [_ Hf].
    apply andb_true_iff in Hf. destruct Hf as [_ Hf].
    apply andb_true_iff in Hf. destruct Hf as [Hf _].
    vm_compute in Hf. discriminate Hf.
  - intros H. destruct (H []) as (ap & inv & E).
    vm_compute in E. discriminate E.
Qed.

Example server_iif_has_no_carriage_return :
  Js.has_char Js.CR
    (generateIif
       [mkBill "Acme" "PO-1" "01/05/2024" (mkDec 3500 2) "01/05/2024"
               "Due upon receipt"
               [mkLine "Widget" "" (mkDec 10 0) (mkDec 250 2) (mkDec 2500 2)]])
  = false.
Proof. reflexivity. Qed.

End ExporterFacts.

(** * PoBillNormalizer: what it hands to the serializer *)

Module NormalizerFacts.
Import Num Server Exporter NumFacts ExporterFacts.

Lemma sanitize_clean (v : string) : clean (sanitize v) = true.
Proof.
  induction v as [|c v IH]; [reflexivity|]. cbn [sanitize].
  destruct (Ascii.eqb c Js.TAB || Ascii.eqb c Js.CR || Ascii.eqb c Js.LF)
    eqn:E1; [exact IH|].
  destruct (Ascii.eqb c Js.DQUOTE) eqn:E2; [exact IH|].
  cbn [clean Js.str_forall]. unfold plain_char. rewrite E2.
  apply orb_false_iff in E1. destruct E1 as [E1 E3].
  apply orb_false_iff in E1. destruct E1 as [E1 E4].
  rewrite E1, E3, E4. exact IH.
Qed.

Lemma split_from_clean (sep : string) (s : string) :
  clean s = true ->
  forall skip, forallb clean (split_from sep s skip) = true.
Proof.
  induction s as [|c s IH]; intros Hs skip; [reflexivity|].
  cbn [clean Js.str_forall] in Hs. apply andb_true_iff in Hs.
  destruct Hs as [Hc Hs]. cbn [split_from].
  destruct skip as [|k]; [|apply IH; assumption].
  destruct (Js.startsWith sep (String c s)).
  - cbn [forallb]. rewrite (IH Hs). reflexivity.
  - pose proof (IH Hs 0) as H0.
    destruct (split_from sep s 0) as [|h t]; [cbn; rewrite Hc; reflexivity|].
    cbn [forallb] in *. apply andb_true_iff in H0. destruct H0 as [Hh Ht].
    cbn [clean Js.str_forall]. fold (clean h). rewrite Hc, Hh, Ht.
    reflexivity.
Qed.

Lemma nth_clean (n : nat) (l : list string) :
  forallb clean l = true -> clean (nth n l "") = true.
Proof.
  revert n. induction l as [|x l IH]; intros [|n] H; cbn [nth]; auto;
    cbn [forallb] in H; apply andb_true_iff in H; destruct H; auto.
Qed.

Section WithDayjs.
Context {lib : Dayjs} {env : Env}.
Hypothesis format_clean : forall d, clean (format_MDY d) = true.

Lemma formatDate_clean (input : option string) : clean (formatDate input) = true.
Proof.
  unfold formatDate. destruct (negb (cell_truthy input)); [apply format_clean|].
  destruct (first_valid _ _); [apply format_clean|].
  destruct (dayjs _); apply format_clean.
Qed.

Lemma computeDueDate_clean (dateStr terms : string) :
  clean dateStr = true -> clean (computeDueDate dateStr terms) = true.
Proof.
  intros H. unfold computeDueDate.
  destruct (negb (Js.truthy dateStr)); [reflexivity|].
  destruct (netMatch _); [|assumption].
  destruct (dayjs_fmt _ _ _); [apply format_clean | assumption].
Qed.

Lemma group_key_clean (vc rc : string) (r : row) :
  clean (group_key vc rc r) = true.
Proof.
  unfold group_key. rewrite !clean_app, !sanitize_clean, formatDate_clean.
  reflexivity.
Qed.

Lemma group_push_keys (key : string) (r : row) (m : groups) :
  clean key = true ->
  forallb (fun g => clean (fst g)) m = true ->
  forallb (fun g => clean (fst g)) (group_push key r m) = true.
Proof.
  intros Hk. induction m as [|[k rs] m IH]; cbn [group_push forallb fst];
    intros H.
  - rewrite Hk. reflexivity.
  - apply andb_true_iff in H. destruct H as [H1 H2].
    destruct (String.eqb k key); cbn [forallb fst]; rewrite H1; auto.
Qed.

Lemma group_rows_keys (vc rc : string) (records : list row) :
  forall m, forallb (fun g => clean (fst g)) m = true ->
            forallb (fun g => clean (fst g)) (group_rows vc rc records m)
            = true.
Proof.
  induction records as [|r l IH]; intros m Hm; cbn [group_rows]; auto.
  destruct (negb _ || negb _); apply IH; auto.
  apply group_push_keys; [apply group_key_clean | assumption].
Qed.

Lemma infer_terms_clean (rows : list row) : clean (infer_terms rows) = true.
Proof.
  induction rows as [|r l IH]; cbn [infer_terms]; auto.
  destruct (Js.truthy (terms_cell r)); auto. apply sanitize_clean.
Qed.

Lemma build_lines_clean (ic qc cc : string) (rows : list row) :
  forall total acc,
    forallb clean_line acc = true ->
    forallb clean_line (snd (build_lines ic qc cc rows total acc)) = true.
Proof.
  induction rows as [|r l IH]; intros total acc Ha; cbn [build_lines];
    [exact Ha|].
  unfold line_of_row. apply IH. rewrite forallb_app, Ha. cbn [forallb].
  unfold clean_line. cbn [item description].
  rewrite !sanitize_clean. reflexivity.
Qed.

Lemma bill_of_group_clean (ic qc cc : string) (g : string * list row) :
  clean (fst g) = true -> clean_bill (bill_of_group ic qc cc g) = true.
Proof.
  destruct g as [key rows]. cbn [fst]. intros Hk. unfold bill_of_group.
  pose proof (split_from_clean "||" key Hk 0) as Hparts. fold (split "||" key) in Hparts.
  pose proof (build_lines_clean ic qc cc rows (dec_of_Z 0) [] eq_refl) as Hl.
  destruct (build_lines ic qc cc rows (dec_of_Z 0) []) as [total lines_].
  cbn [snd] in Hl. unfold clean_bill.
  cbn [vendor ref_num date due_date terms lines].
  rewrite !(nth_clean _ _ Hparts), Hl.
  rewrite (computeDueDate_clean _ _ (nth_clean 2 _ Hparts)).
  destruct (Js.truthy (infer_terms rows)); [rewrite infer_terms_clean|];
    reflexivity.
Qed.

(** Every bill the normalizer produces is free of structural characters
    in its text fields. *)
Lemma bills_of_records_clean (records : list row) (bills : list Bill) :
  bills_of_records records = Ok bills -> forallb clean_bill bills = true.
Proof.
  unfold bills_of_records. destruct records as [|r0 rest]; [discriminate|].
  destruct (findActualCol _ _) as [vc|]; [|discriminate].
  destruct (findActualCol _ _) as [rc|]; [|discriminate].
  destruct (findActualCol _ _) as [ic|]; [|discriminate].
  destruct (findActualCol _ _) as [qc|]; [|discriminate].
  destruct (findActualCol _ _) as [cc|]; [|discriminate].
  cbv zeta.
  pose proof (group_rows_keys vc rc (r0 :: rest) [] eq_refl) as Hk.
  destruct (map _ (group_rows vc rc (r0 :: rest) [])) as [|b bs] eqn:E;
    [discriminate|].
  intros H. inversion H; subst bills. rewrite <- E.
  rewrite forallb_forall. intros x Hx. apply in_map_iff in Hx.
  destruct Hx as (g & <- & Hg). apply bill_of_group_clean.
  rewrite forallb_forall in Hk. apply Hk. exact Hg.
Qed.

End WithDayjs.
End NormalizerFacts.

(** * LedgerUpsertEngine: invoices and their lines *)

Module InvoiceFacts.
Import Num Db DbFacts.

Lemma same_invoicing_refl (s : store) : same_invoicing s s.
Proof. repeat split. Qed.

Lemma same_invoicing_trans (s1 s2 s3 : store) :
  same_invoicing s1 s2 -> same_invoicing s2 s3 -> same_invoicing s1 s3.
Proof.
  unfold same_invoicing. intros (A & B & C & D) (A' & B' & C' & D').
  repeat split; congruence.
Qed.

Lemma source_known (name : string) (s : store) :
  has_source name s -> exists id, getOrCreateSource name s = Done id s.
Proof.
  unfold has_source, getOrCreateSource.
  destruct (find _ _) as [r|]; [eauto | congruence].
Qed.

Lemma source_created (name : string) (s s' : store) (id : nat) :
  getOrCreateSource name s = Done id s' ->
  has_source name s'
  /\ invoices s' = invoices s /\ invoice_lines s' = invoice_lines s
  /\ catalog_items s' = catalog_items s
  /\ forall s2, ledger_sources s2 = ledger_sources s' ->
                getOrCreateSource name s2 = Done id s2.
Proof.
  unfold getOrCreateSource, has_source.
  destruct (find _ (rows (ledger_sources s))) as [r|] eqn:F; intros H;
    inversion H; subst; clear H; repeat split.
  - rewrite F. discriminate.
  - intros s2 E. rewrite E, F. reflexivity.
  - cbn. rewrite (DuplicateFacts.find_app_none _ _ _ F). cbn.
    rewrite String.eqb_refl. discriminate.
  - intros s2 E. rewrite E. cbn.
    rewrite (DuplicateFacts.find_app_none _ _ _ F). cbn.
    rewrite String.eqb_refl. reflexivity.
Qed.

Section WithEnv.
Context {env : Env}.

(** Take a run apart, case by case, down to the store it ends in. *)
Ltac crack H :=
  repeat match type of H with
         | context [match ?x with _ => _ end] => destruct x eqn:?
         end;
  try discriminate; inversion H; subst; clear H;
  repeat match goal with
         | G : context [match ?x with _ => _ end] |- _ => destruct x eqn:?
         | G : Done _ _ = Done _ _ |- _ => inversion G; subst; clear G
         | G : (_, _) = (_, _) |- _ => inversion G; subst; clear G
         | G : Raised _ _ = Done _ _ |- _ => discriminate G
         | G : ret _ _ = Done _ _ |- _ => inversion G; subst; clear G
         end.

Lemma client_frame (src : string) (ext name : option string)
      (s s' : store) (r : nat * string) :
  has_source src s ->
  getOrCreateClient src ext name s = Done r s' -> same_invoicing s s'.
Proof.
  intros Hsrc H. destruct (source_known src s Hsrc) as (sid & E).
  unfold getOrCreateClient, bind in H. rewrite E in H.
  unfold gets, ret, require, raise, draw_uuid, bind, insert_row in H.
  crack H; repeat split.
Qed.

Lemma tenant_frame (src : string) (ext name : option string)
      (s s' : store) (r : nat * string) :
  has_source src s ->
  getOrCreateTenant src ext name s = Done r s' -> same_invoicing s s'.
Proof.
  intros Hsrc H. destruct (source_known src s Hsrc) as (sid & E).
  unfold getOrCreateTenant, bind in H. rewrite E in H.
  unfold gets, ret, require, raise, draw_uuid, bind, insert_row in H.
  crack H; repeat split.
Qed.

Lemma has_source_same (src : string) (s s' : store) :
  same_invoicing s s' -> has_source src s -> has_source src s'.
Proof. unfold same_invoicing, has_source. intros (E & _) H. rewrite E. exact H. Qed.

Lemma customer_frame (src : string) (c : Customer) (s s' : store) (id : nat) :
  has_source src s ->
  upsertCustomer src c s = Done id s' -> same_invoicing s s'.
Proof.
  intros Hsrc H. destruct (source_known src s Hsrc) as (sid & E).
  unfold upsertCustomer in H. unfold bind at 1 in H. rewrite E in H.
  apply bind_Done in H. destruct H as (cl & s1 & H1 & H).
  apply bind_Done in H. destruct H as (te & s2 & H2 & H).
  pose proof (client_frame _ _ _ _ _ _ Hsrc H1) as F1.
  pose proof (tenant_frame _ _ _ _ _ _ (has_source_same _ _ _ F1 Hsrc) H2)
    as F2.
  apply (same_invoicing_trans _ _ _ F1).
  apply (same_invoicing_trans _ _ _ F2).
  unfold insert_row in H. crack H; repeat split.
Qed.

(** *** The invoice row *)

Lemma same_key_refl (sid : nat) (e : string) :
  same_key sid (Some e) sid (Some e) = true.
Proof. cbn. rewrite Nat.eqb_refl, String.eqb_refl. reflexivity. Qed.

Lemma find_updated {R : Type} (p : R -> bool) (idf : R -> nat)
      (fresh : nat -> R) (old : R) (l : list R) :
  (forall i, p (fresh i) = true) -> (forall i, idf (fresh i) = i) ->
  find p l = Some old ->
  exists r, find p (map (fun r => if Nat.eqb (idf r) (idf old)
                                  then fresh (idf r) else r) l) = Some r
            /\ idf r = idf old.
Proof.
  intros Hp Hid. induction l as [|a l IH]; cbn [find map]; [discriminate|].
  destruct (p a) eqn:Pa.
  - intros H. inversion H; subst a. rewrite Nat.eqb_refl, Hp.
    eexists. split; [reflexivity | apply Hid].
  - intros H. destruct (Nat.eqb (idf a) (idf old)) eqn:E.
    + rewrite Hp. eexists. split; [reflexivity|].
      rewrite Hid. apply Nat.eqb_eq. exact E.
    + rewrite Pa. auto.
Qed.

Lemma invoice_row_spec (sid : nat) (inv : Invoice) (cust : option nat)
      (s s' : store) (id : nat) :
  upsert_invoice_row sid inv cust s = Done id s' ->
  ledger_sources s' = ledger_sources s
  /\ invoice_lines s' = invoice_lines s
  /\ catalog_items s' = catalog_items s
  /\ (forall e, or_null (external_id inv) = Some e ->
        exists r,
          find (fun r => same_key (in_source_id r) (in_external_id r)
                                  sid (Some e))
               (rows (invoices s')) = Some r
          /\ inv_row_id r = id)
  /\ (forall e r, or_null (external_id inv) = Some e ->
        find (fun r => same_key (in_source_id r) (in_external_id r)
                                sid (Some e))
             (rows (invoices s)) = Some r ->
        id = inv_row_id r).
Proof.
  intros H. unfold upsert_invoice_row in H.
  apply bind_Done in H. destruct H as (sub & s1 & H1 & H).
  apply require_Done in H1. destruct H1 as [_ ->].
  apply bind_Done in H. destruct H as (tax & s1 & H1 & H).
  apply require_Done in H1. destruct H1 as [_ ->].
  apply bind_Done in H. destruct H as (tot & s1 & H1 & H).
  apply require_Done in H1. destruct H1 as [_ ->].
  apply bind_Done in H. destruct H as (bal & s1 & H1 & H).
  apply require_Done in H1. destruct H1 as [_ ->].
  cbv zeta in H.
  set (fresh := fun id : nat => mkInvoiceRow id sid _ _ _ _ _ _ _ _ _ _ _) in H.
  assert (Hkey : forall e i, or_null (external_id inv) = Some e ->
             same_key (in_source_id (fresh i)) (in_external_id (fresh i))
                      sid (Some e) = true).
  { intros e i He. unfold fresh. cbn [in_source_id in_external_id].
    rewrite He. apply same_key_refl. }
  destruct (find _ (rows (invoices s))) as [old|] eqn:F.
  - inversion H; subst id s'; clear H.
    repeat split.
    + intros e He. rewrite He in F.
      cbn [invoices set_invoices burn update_rows rows].
      destruct (find_updated
                  (fun r => same_key (in_source_id r) (in_external_id r)
                                     sid (Some e))
                  inv_row_id fresh old (rows (invoices s))
                  (fun i => Hkey e i He) (fun i => eq_refl) F)
        as (r & Hr & Hi).
      exists r. split; assumption.
    + intros e r He Hf. rewrite He in F. rewrite F in Hf.
      inversion Hf. reflexivity.
  - cbn [insert_row] in H. inversion H; subst id s'; clear H.
    repeat split.
    + intros e He. rewrite He in F.
      cbn [invoices set_invoices rows].
      rewrite (DuplicateFacts.find_app_none _ _ _ F). cbn [find].
      rewrite (Hkey e _ He).
      eexists. split; reflexivity.
    + intros e r He Hf. rewrite He in F. rewrite F in Hf. discriminate.
Qed.

(** The invoices table over one upsert of a row: ids stay distinct, the
    row of the invoice is there under its key, and the rows of other keys
    are as they were. *)
Lemma invoice_row_rows (sid : nat) (inv : Invoice) (cust : option nat)
      (s s' : store) (id : nat) :
  upsert_invoice_row sid inv cust s = Done id s' ->
  wf_invoices s ->
  wf_invoices s'
  /\ (exists r,
        In r (rows (invoices s')) /\ inv_row_id r = id
        /\ in_source_id r = sid
        /\ in_external_id r = or_null (external_id inv))
  /\ (forall r,
        In r (rows (invoices s)) ->
        keyed_as sid (or_null (external_id inv)) r = false ->
        In r (rows (invoices s')) /\ inv_row_id r <> id).
Proof.
  intros H (Hnd & Hseq). unfold upsert_invoice_row in H.
  apply bind_Done in H. destruct H as (sub & s1 & H1 & H).
  apply require_Done in H1. destruct H1 as [_ ->].
  apply bind_Done in H. destruct H as (tax & s1 & H1 & H).
  apply require_Done in H1. destruct H1 as [_ ->].
  apply bind_Done in H. destruct H as (tot & s1 & H1 & H).
  apply require_Done in H1. destruct H1 as [_ ->].
  apply bind_Done in H. destruct H as (bal & s1 & H1 & H).
  apply require_Done in H1. destruct H1 as [_ ->].
  cbv zeta in H.
  set (fresh := fun id : nat => mkInvoiceRow id sid _ _ _ _ _ _ _ _ _ _ _) in H.
  rewrite Forall_forall in Hseq.
  destruct (find _ (rows (invoices s))) as [old|] eqn:F.
  - apply find_some in F. destruct F as [Hold Kold].
    inversion H; subst id s'; clear H.
    unfold wf_invoices.
    cbn [invoices set_invoices burn update_rows rows seq].
    split; [|split].
    + split.
      * rewrite map_map.
        rewrite (map_ext _ inv_row_id); [exact Hnd|].
        intros r. destruct (Nat.eqb (inv_row_id r) (inv_row_id old));
          reflexivity.
      * apply Forall_forall. intros r' Hr'. apply in_map_iff in Hr'.
        destruct Hr' as (r & <- & Hr). specialize (Hseq r Hr).
        destruct (Nat.eqb (inv_row_id r) (inv_row_id old));
          cbn [inv_row_id fresh]; lia.
    + exists (fresh (inv_row_id old)). split.
      * apply in_map_iff. exists old. rewrite Nat.eqb_refl.
        split; [reflexivity | exact Hold].
      * repeat split.
    + intros r Hr Hk.
      assert (Hne : inv_row_id r <> inv_row_id old).
      { intros E.
        pose proof (NoDup_key inv_row_id _ r old Hnd Hr Hold E).
        subst r. unfold keyed_as in Hk. congruence. }
      split; [|exact Hne]. apply in_map_iff. exists r. split; [|exact Hr].
      apply Nat.eqb_neq in Hne. rewrite Hne. reflexivity.
  - unfold insert_row in H. inversion H; subst id s'; clear H.
    unfold wf_invoices. cbn [invoices set_invoices rows seq].
    split; [|split].
    + split.
      * rewrite map_app. cbn [map]. apply NoDup_snoc; [exact Hnd|].
        intros Hin. apply in_map_iff in Hin. destruct Hin as (r & Er & Hr).
        specialize (Hseq r Hr). cbn [inv_row_id fresh] in Er. lia.
      * apply Forall_app. split.
        -- apply Forall_forall. intros r Hr. specialize (Hseq r Hr). lia.
        -- constructor; [cbn [inv_row_id fresh]; lia | constructor].
    + exists (fresh (S (seq (invoices s)))). split.
      * apply in_or_app. right. left. reflexivity.
      * repeat split.
    + intros r Hr _. split; [apply in_or_app; left; exact Hr|].
      specialize (Hseq r Hr). lia.
Qed.

(** *** The lines *)

Lemma written_as_same (sid iid : nat) (s1 s2 : store) (ln : InvoiceLine)
      (r : invoice_line_row) :
  catalog_items s2 = catalog_items s1 ->
  written_as sid iid s1 ln r -> written_as sid iid s2 ln r.
Proof.
  unfold written_as, resolve_item. intros E H. rewrite E. exact H.
Qed.

Lemma invoice_line_spec (sid iid : nat) (ln : InvoiceLine) (s s' : store) :
  insert_invoice_line sid iid ln s = Done tt s' ->
  exists r,
    rows (invoice_lines s') = rows (invoice_lines s) ++ [r]
    /\ written_as sid iid s ln r
    /\ il_id r = S (seq (invoice_lines s))
    /\ seq (invoice_lines s') = S (seq (invoice_lines s))
    /\ ledger_sources s' = ledger_sources s /\ invoices s' = invoices s
    /\ catalog_items s' = catalog_items s.
Proof.
  intros H. unfold insert_invoice_line in H.
  apply bind_Done in H. destruct H as (itemId & s1 & H1 & H).
  unfold gets in H1. inversion H1; subst itemId s1; clear H1.
  apply bind_Done in H. destruct H as (q & s1 & H1 & H).
  apply require_Done in H1. destruct H1 as [Hq ->].
  apply bind_Done in H. destruct H as (up & s1 & H1 & H).
  apply require_Done in H1. destruct H1 as [Hup ->].
  apply bind_Done in H. destruct H as (lt & s1 & H1 & H).
  apply require_Done in H1. destruct H1 as [Hlt ->].
  unfold modify in H. inversion H; subst s'; clear H.
  eexists. cbn [invoice_lines set_invoice_lines insert_row snd rows seq].
  split; [reflexivity|].
  unfold written_as, resolve_item.
  cbn [invoice_id il_item_id il_description il_quantity il_unit_price
       il_tax_code il_line_total il_id].
  repeat split; assumption.
Qed.

Lemma invoice_lines_loop (sid iid : nat) (lines_ : list InvoiceLine) :
  forall s s',
    for_each (insert_invoice_line sid iid) lines_ s = Done tt s' ->
    exists new,
      rows (invoice_lines s') = rows (invoice_lines s) ++ new
      /\ Forall2 (written_as sid iid s) lines_ new
      /\ map il_id new
         = List.seq (S (seq (invoice_lines s))) (List.length lines_)
      /\ seq (invoice_lines s')
         = seq (invoice_lines s) + List.length lines_
      /\ ledger_sources s' = ledger_sources s /\ invoices s' = invoices s
      /\ catalog_items s' = catalog_items s.
Proof.
  induction lines_ as [|ln l IH]; intros s s' H; cbn [for_each] in H.
  - inversion H; subst. exists []. rewrite app_nil_r. cbn.
    repeat split; auto.
  - apply bind_Done in H. destruct H as ([] & s1 & H1 & H2).
    destruct (invoice_line_spec _ _ _ _ _ H1)
      as (r & Hr & Hw & Hid & Hseq & A & B & C).
    destruct (IH _ _ H2) as (new & Hn & Hf & Hids & Hs & A' & B' & C').
    exists (r :: new). repeat split.
    + rewrite Hn, Hr, <- app_assoc. reflexivity.
    + constructor; [exact Hw|].
      eapply Forall2_impl; [|exact Hf]. intros a b Hab.
      eapply written_as_same; [|exact Hab]. symmetry. exact C.
    + cbn [map List.length List.seq]. rewrite Hid, Hids, Hseq. reflexivity.
    + rewrite Hs, Hseq. cbn [List.length]. lia.
    + congruence.
    + congruence.
    + congruence.
Qed.

Lemma ledger_frame (sid : nat) (inv : Invoice) (s s' : store) :
  insert_invoice_ledger sid inv s = Done tt s' -> same_invoicing s s'.
Proof.
  intros H. unfold insert_invoice_ledger, bind, require, modify, ret, raise in H.
  destruct (numeric 14 2 _); [|discriminate].
  inversion H; subst s'; clear H.
  destruct (existsb _ _); repeat split.
Qed.

(** *** The whole upsert *)

Lemma upsert_spec (src : string) (inv : Invoice) (lines_ : list InvoiceLine)
      (s s' : store) (id : nat) :
  upsertInvoiceWithLines src inv lines_ s = Done id s' ->
  exists sid sA,
    getOrCreateSource src s = Done sid sA
    /\ ledger_sources s' = ledger_sources sA
    /\ catalog_items s' = catalog_items s
    /\ (forall e, or_null (external_id inv) = Some e ->
          exists r,
            find (fun r => same_key (in_source_id r) (in_external_id r)
                                    sid (Some e))
                 (rows (invoices s')) = Some r
            /\ inv_row_id r = id)
    /\ (forall e r, or_null (external_id inv) = Some e ->
          find (fun r => same_key (in_source_id r) (in_external_id r)
                                  sid (Some e))
               (rows (invoices s)) = Some r ->
          id = inv_row_id r)
    /\ exists new,
         rows (invoice_lines s')
         = filter (fun r => negb (Nat.eqb (invoice_id r) id))
                  (rows (invoice_lines s)) ++ new
         /\ Forall2 (written_as sid id s) lines_ new
         /\ map il_id new
            = List.seq (S (seq (invoice_lines s))) (List.length lines_)
         /\ seq (invoice_lines s')
            = seq (invoice_lines s) + List.length lines_.
Proof.
  intros H. unfold upsertInvoiceWithLines in H.
  apply bind_Done in H. destruct H as (sid & sA & HA & H).
  destruct (source_created _ _ _ _ HA) as (Hsrc & IA & LA & CA & _).
  apply transaction_Done in H.
  apply bind_Done in H. destruct H as (cust & sB & HB & H).
  assert (FB : same_invoicing sA sB).
  { destruct (customer inv) as [c|].
    - apply bind_Done in HB. destruct HB as (cid & sB' & HB & HB').
      inversion HB'; subst. eapply customer_frame; eassumption.
    - inversion HB; subst. apply same_invoicing_refl. }
  destruct FB as (SB & IB & LB & CB).
  apply bind_Done in H. destruct H as (iid & sC & HC & H).
  destruct (invoice_row_spec _ _ _ _ _ _ HC) as (SC & LC & CC & Hfind & Hold).
  apply bind_Done in H. destruct H as ([] & sD & HD & H).
  unfold modify in HD. inversion HD; subst sD; clear HD.
  apply bind_Done in H. destruct H as ([] & sE & HE & H).
  destruct (invoice_lines_loop _ _ _ _ _ HE)
    as (new & Hrows & Hw & Hids & Hseq & SE & IE & CE).
  cbn [invoice_lines set_invoice_lines delete_rows rows seq ledger_sources
       invoices catalog_items] in Hrows, Hids, Hseq, SE, IE, CE.
  apply bind_Done in H. destruct H as ([] & sF & HF & H).
  destruct (ledger_frame _ _ _ _ HF) as (SF & IF_ & LF_ & CF).
  inversion H; subst id s'; clear H.
  exists sid, sA. split; [exact HA|].
  split; [congruence|]. split; [congruence|].
  split.
  { intros e He. destruct (Hfind e He) as (r & Hr & Hi).
    exists r. split; [|exact Hi]. rewrite IF_, IE. exact Hr. }
  split.
  { intros e r He Hr. apply (Hold e r He). rewrite IB, IA. exact Hr. }
  exists new. rewrite LF_, Hrows, LC, LB, LA.
  split; [reflexivity|]. split.
  { eapply Forall2_impl; [|exact Hw]. intros a b Hab.
    eapply written_as_same; [|exact Hab].
    cbn [catalog_items set_invoice_lines]. congruence. }
  split; [rewrite Hids, LC, LB, LA; reflexivity|].
  rewrite Hseq, LC, LB, LA. reflexivity.
Qed.

Lemma written_invoice_id (sid iid : nat) (s : store)
      (lines_ : list InvoiceLine) (new : list invoice_line_row) :
  Forall2 (written_as sid iid s) lines_ new ->
  Forall (fun r => invoice_id r = iid) new.
Proof.
  induction 1 as [|a b l l' Hab _ IH]; constructor; [apply Hab | exact IH].
Qed.

Lemma filter_all {A : Type} (p : A -> bool) (l : list A) :
  Forall (fun x => p x = true) l -> filter p l = l.
Proof.
  induction 1 as [|x l Hx _ IH]; cbn; [reflexivity|]. rewrite Hx, IH.
  reflexivity.
Qed.

Lemma filter_none {A : Type} (p : A -> bool) (l : list A) :
  Forall (fun x => p x = false) l -> filter p l = [].
Proof.
  induction 1 as [|x l Hx _ IH]; cbn; [reflexivity|]. rewrite Hx. exact IH.
Qed.

Lemma filter_filter {A : Type} (p q : A -> bool) (l : list A) :
  filter p (filter q l) = filter (fun x => p x && q x) l.
Proof.
  induction l as [|x l IH]; cbn; [reflexivity|].
  destruct (q x); cbn; [destruct (p x); cbn; congruence|].
  rewrite andb_false_r. exact IH.
Qed.

(** The upsert of the invoice row, cut out of the whole call: the
    invoices table is untouched before it and after it. *)
Lemma upsert_row_step (src : string) (inv : Invoice)
      (lines_ : list InvoiceLine) (s s' : store) (id : nat) :
  upsertInvoiceWithLines src inv lines_ s = Done id s' ->
  exists sid sA cust sB sC,
    getOrCreateSource src s = Done sid sA
    /\ invoices sB = invoices s
    /\ upsert_invoice_row sid inv cust sB = Done id sC
    /\ invoices s' = invoices sC.
Proof.
  intros H. unfold upsertInvoiceWithLines in H.
  apply bind_Done in H. destruct H as (sid & sA & HA & H).
  destruct (source_created _ _ _ _ HA) as (Hsrc & IA & _).
  apply transaction_Done in H.
  apply bind_Done in H. destruct H as (cust & sB & HB & H).
  assert (FB : same_invoicing sA sB).
  { destruct (customer inv) as [c|].
    - apply bind_Done in HB. destruct HB as (cid & sB' & HB & HB').
      inversion HB'; subst. eapply customer_frame; eassumption.
    - inversion HB; subst. apply same_invoicing_refl. }
  destruct FB as (_ & IB & _).
  apply bind_Done in H. destruct H as (iid & sC & HC & H).
  apply bind_Done in H. destruct H as ([] & sD & HD & H).
  unfold modify in HD. inversion HD; subst sD; clear HD.
  apply bind_Done in H. destruct H as ([] & sE & HE & H).
  destruct (invoice_lines_loop _ _ _ _ _ HE) as (_ & _ & _ & _ & _ & _ & IE & _).
  cbn [invoices set_invoice_lines] in IE.
  apply bind_Done in H. destruct H as ([] & sF & HF & H).
  destruct (ledger_frame _ _ _ _ HF) as (_ & IF_ & _).
  inversion H; subst iid sF; clear H.
  exists sid, sA, cust, sB, sC.
  split; [exact HA|]. split; [congruence|]. split; [exact HC | congruence].
Qed.

(** Ids stay distinct over the whole call. *)
Lemma upsert_keeps_wf (src : string) (inv : Invoice)
      (lines_ : list InvoiceLine) (s s' : store) (id : nat) :
  upsertInvoiceWithLines src inv lines_ s = Done id s' ->
  wf_invoices s -> wf_invoices s'.
Proof.
  intros H Hwf.
  destruct (upsert_row_step _ _ _ _ _ _ H)
    as (sid & sA & cust & sB & sC & _ & IB & HC & IC).
  assert (HwfB : wf_invoices sB) by (unfold wf_invoices; rewrite IB; exact Hwf).
  destruct (invoice_row_rows _ _ _ _ _ _ HC HwfB) as (HwfC & _).
  unfold wf_invoices. rewrite IC. exact HwfC.
Qed.

(** When the key of the invoice is met, the upsert of its row adds no
    row and takes none away: the ids of the table are as they were, in
    their order, and the rows of other ids are untouched. *)
Lemma invoice_row_met (sid : nat) (inv : Invoice) (cust : option nat)
      (s s' : store) (id : nat) (r0 : invoice_row) :
  upsert_invoice_row sid inv cust s = Done id s' ->
  find (keyed_as sid (or_null (external_id inv))) (rows (invoices s))
  = Some r0 ->
  map inv_row_id (rows (invoices s')) = map inv_row_id (rows (invoices s))
  /\ (forall r, In r (rows (invoices s)) -> inv_row_id r <> id ->
                In r (rows (invoices s'))).
Proof.
  intros H F. unfold upsert_invoice_row in H.
  apply bind_Done in H. destruct H as (sub & s1 & H1 & H).
  apply require_Done in H1. destruct H1 as [_ ->].
  apply bind_Done in H. destruct H as (tax & s1 & H1 & H).
  apply require_Done in H1. destruct H1 as [_ ->].
  apply bind_Done in H. destruct H as (tot & s1 & H1 & H).
  apply require_Done in H1. destruct H1 as [_ ->].
  apply bind_Done in H. destruct H as (bal & s1 & H1 & H).
  apply require_Done in H1. destruct H1 as [_ ->].
  cbv zeta in H.
  set (fresh := fun id : nat => mkInvoiceRow id sid _ _ _ _ _ _ _ _ _ _ _) in H.
  unfold keyed_as in F.
  match type of H with
  | context [find ?p ?l] =>
      change (find p l) with
        (find (fun r => same_key (in_source_id r) (in_external_id r) sid
                                 (or_null (external_id inv)))
              (rows (invoices s))) in H
  end.
  rewrite F in H. inversion H; subst id s'; clear H.
  cbn [invoices set_invoices burn update_rows rows]. split.
  - rewrite map_map. apply map_ext. intros r.
    destruct (Nat.eqb (inv_row_id r) (inv_row_id r0)); reflexivity.
  - intros r Hr Hne. apply in_map_iff. exists r. split; [|exact Hr].
    apply Nat.eqb_neq in Hne. rewrite Hne. reflexivity.
Qed.

Lemma keyed_as_Some (sid : nat) (e : string) (r : invoice_row) :
  keyed_as sid (Some e) r = true ->
  in_source_id r = sid /\ in_external_id r = Some e.
Proof.
  unfold keyed_as, same_key. destruct (in_external_id r) as [x|];
    [|discriminate].
  intros H. apply andb_true_iff in H. destruct H as [H1 H2].
  apply Nat.eqb_eq in H1. apply String.eqb_eq in H2. subst. split; reflexivity.
Qed.

(** C9.  Re-importing an invoice under the same source and the same
    external id, when that id is not empty, meets the stored invoice.
    The first import stores the invoice under the key (source, external
    id); the second finds that row: the id returned is the stored one, the
    row is still the one under the key, no invoice row is added or taken
    away, ids stay distinct, and the rows of other invoices are untouched.
    The lines are replaced by delete-then-insert: afterwards the line rows
    of the invoice are exactly the rows written for the lines of the new
    import, in their order and under fresh ids; no line row of the earlier
    import remains; the lines of every other invoice are as they were. *)
Theorem reimport_replaces_lines (src : string) (inv1 inv2 : Invoice)
        (lines1 lines2 : list InvoiceLine) (e : string)
        (s0 s1 s2 : store) (id1 id2 : nat) :
  or_null (external_id inv1) = Some e ->
  or_null (external_id inv2) = Some e ->
  serial_ok s0 -> wf_invoices s0 ->
  upsertInvoiceWithLines src inv1 lines1 s0 = Done id1 s1 ->
  upsertInvoiceWithLines src inv2 lines2 s1 = Done id2 s2 ->
  exists sid,
    getOrCreateSource src s1 = Done sid s1
    /\ (exists r1,
          find (keyed_as sid (Some e)) (rows (invoices s1)) = Some r1
          /\ inv_row_id r1 = id1
          /\ in_source_id r1 = sid /\ in_external_id r1 = Some e)
    /\ id2 = id1
    /\ (exists r2,
          find (keyed_as sid (Some e)) (rows (invoices s2)) = Some r2
          /\ inv_row_id r2 = id1
          /\ in_source_id r2 = sid /\ in_external_id r2 = Some e)
    /\ map inv_row_id (rows (invoices s2))
       = map inv_row_id (rows (invoices s1))
    /\ NoDup (map inv_row_id (rows (invoices s2)))
    /\ (forall r, In r (rows (invoices s1)) -> inv_row_id r <> id1 ->
                  In r (rows (invoices s2)))
    /\ Forall2 (written_as sid id1 s1) lines2 (lines_of id1 s2)
    /\ map il_id (lines_of id1 s2)
       = List.seq (S (seq (invoice_lines s1))) (List.length lines2)
    /\ (forall r, In r (lines_of id1 s1) -> ~ In r (rows (invoice_lines s2)))
    /\ (forall other, other <> id1 -> lines_of other s2 = lines_of other s1).
Proof.
  intros He1 He2 Hok Hwf H1 H2.
  destruct (upsert_spec _ _ _ _ _ _ H1)
    as (sid1 & sA1 & HA1 & S1 & _ & Hfind1 & _ & new1 & Hrows1 & Hw1 & Hids1
        & Hseq1).
  destruct (upsert_spec _ _ _ _ _ _ H2)
    as (sid2 & sA2 & HA2 & _ & _ & Hfind2 & Hold2 & new2 & Hrows2 & Hw2
        & Hids2 & _).
  destruct (source_created _ _ _ _ HA1) as (_ & _ & _ & _ & Hstable).
  pose proof (Hstable s1 S1) as Hsrc1.
  rewrite Hsrc1 in HA2. inversion HA2; subst sid2 sA2; clear HA2.
  destruct (Hfind1 e He1) as (r & Hr & Hi).
  assert (Hid : id2 = id1) by (rewrite (Hold2 e r He2 Hr); exact Hi).
  subst id2.
  destruct (Hfind2 e He2) as (r2 & Hr2 & Hi2).
  pose proof (written_invoice_id _ _ _ _ _ Hw2) as Hnew2.
  assert (Hlines : lines_of id1 s2 = new2).
  { unfold lines_of. rewrite Hrows2, filter_app, filter_filter.
    rewrite filter_none, filter_all; [reflexivity | |].
    - eapply Forall_impl; [|exact Hnew2]. intros a Ha. cbn beta.
      rewrite Ha. apply Nat.eqb_refl.
    - apply Forall_forall. intros a _. destruct (Nat.eqb _ _); reflexivity. }
  (* the invoices table over the second call *)
  pose proof (upsert_keeps_wf _ _ _ _ _ _ H1 Hwf) as Hwf1.
  pose proof (upsert_keeps_wf _ _ _ _ _ _ H2 Hwf1) as Hwf2.
  destruct (upsert_row_step _ _ _ _ _ _ H2)
    as (sid' & sA & cust & sB & sC & HA & IB & HC & IC).
  rewrite Hsrc1 in HA. inversion HA; subst sid' sA; clear HA.
  assert (Fmet : find (keyed_as sid1 (or_null (external_id inv2)))
                      (rows (invoices sB)) = Some r)
    by (rewrite He2, IB; exact Hr).
  destruct (invoice_row_met _ _ _ _ _ _ _ HC Fmet) as (Hsame & Hkeep).
  rewrite <- IC, IB in Hsame. rewrite <- IC, IB in Hkeep.
  exists sid1. split; [exact Hsrc1|].
  split.
  { exists r. split; [exact Hr|]. split; [exact Hi|].
    apply keyed_as_Some. apply find_some in Hr. apply Hr. }
  split; [reflexivity|].
  split.
  { exists r2. split; [exact Hr2|]. split; [exact Hi2|].
    apply keyed_as_Some. apply find_some in Hr2. apply Hr2. }
  split; [exact Hsame|].
  split; [apply Hwf2|].
  split; [exact Hkeep|].
  split; [rewrite Hlines; exact Hw2|].
  split; [rewrite Hlines; exact Hids2|].
  assert (Hok1 : serial_ok s1).
  { unfold serial_ok in *. rewrite Hrows1, Hseq1. apply Forall_app. split.
    - apply Forall_forall. intros a Ha. apply filter_In in Ha.
      destruct Ha as [Ha _]. rewrite Forall_forall in Hok.
      specialize (Hok a Ha). lia.
    - apply Forall_forall. intros a Ha.
      assert (Hin : In (il_id a) (map il_id new1)) by (apply in_map; exact Ha).
      rewrite Hids1 in Hin. apply in_seq in Hin. lia. }
  split.
  - intros a Ha Hin. unfold lines_of in Ha. apply filter_In in Ha.
    destruct Ha as [Ha Hida]. rewrite Hrows2 in Hin. apply in_app_or in Hin.
    destruct Hin as [Hin|Hin].
    + apply filter_In in Hin. destruct Hin as [_ Hn]. rewrite Hida in Hn.
      discriminate.
    + assert (Hin' : In (il_id a) (map il_id new2))
        by (apply in_map; exact Hin).
      rewrite Hids2 in Hin'. apply in_seq in Hin'.
      unfold serial_ok in Hok1. rewrite Forall_forall in Hok1.
      specialize (Hok1 a Ha). lia.
  - intros other Hother. unfold lines_of.
    rewrite Hrows2, filter_app, filter_filter.
    rewrite (filter_none _ new2).
    + rewrite app_nil_r. apply filter_ext. intros a.
      destruct (Nat.eqb (invoice_id a) other) eqn:E1; [|reflexivity].
      apply Nat.eqb_eq in E1.
      destruct (Nat.eqb (invoice_id a) id1) eqn:E2; [|reflexivity].
      apply Nat.eqb_eq in E2. congruence.
    + eapply Forall_impl; [|exact Hnew2]. intros a Ha. cbn beta.
      rewrite Ha. apply Nat.eqb_neq. congruence.
Qed.

End WithEnv.

(** An invoice of two lines, imported again with one line. *)
Lemma reimport_replaces_lines_witness :
  let cust := mkCustomer (Some "C-9") (Some "Acme") None None None
                         None None None None in
  let inv := mkInvoice (Some "INV-1") (Some "1001") (Some "2024-01-05") None
                       (Some "Open") None None None (Some (mkDec 3500 2)) None
                       (Some cust) [] in
  let widget := mkInvoiceLine None (Some "Widget") (Some (mkDec 10 0))
                              (Some (mkDec 250 2)) None (Some (mkDec 2500 2)) in
  let gadget := mkInvoiceLine None (Some "Gadget") (Some (mkDec 2 0))
                              (Some (mkDec 500 2)) None (Some (mkDec 1000 2)) in
  let s1 := final (upsertInvoiceWithLines (env := Reference.env) "HaloPSA" inv
                     [widget; gadget] empty_store) in
  let s2 := final (upsertInvoiceWithLines (env := Reference.env) "HaloPSA" inv
                     [gadget] s1) in
  map inv_row_id (rows (invoices s2)) = map inv_row_id (rows (invoices s1))
  /\ map il_id (lines_of 1 s2) = [3]
  /\ forall r, In r (lines_of 1 s1) -> ~ In r (rows (invoice_lines s2)).
Proof.
  intros cust inv widget gadget s1 s2.
  assert (H1 : upsertInvoiceWithLines (env := Reference.env) "HaloPSA" inv
                 [widget; gadget] empty_store = Done 1 s1)
    by (vm_compute; reflexivity).
  assert (H2 : upsertInvoiceWithLines (env := Reference.env) "HaloPSA" inv
                 [gadget] s1 = Done 1 s2)
    by (vm_compute; reflexivity).
  assert (Hwf : wf_invoices empty_store) by (split; constructor).
  destruct (reimport_replaces_lines (env := Reference.env) "HaloPSA" inv inv
              [widget; gadget] [gadget] "INV-1" empty_store s1 s2 1 1
              eq_refl eq_refl (Forall_nil _) Hwf H1 H2)
    as (sid & _ & _ & _ & _ & Hsame & _ & _ & _ & Hids & Hgone & _).
  split; [exact Hsame|]. split; [exact Hids | exact Hgone].
Defined.

(** C9 as stated fails for an invoice without external id.  NULL keys
    never conflict under UNIQUE (source_id, external_id): the second
    import of the same invoice makes a second invoice row, under a new id,
    and the line of the first import stays where it was. *)
Lemma reimport_without_external_id :
  ~ (forall (src : string) (inv1 inv2 : Invoice)
            (lines1 lines2 : list InvoiceLine) (s0 s1 s2 : store)
            (id1 id2 : nat),
       external_id inv2 = external_id inv1 ->
       serial_ok s0 -> wf_invoices s0 ->
       upsertInvoiceWithLines (env := Reference.env) src inv1 lines1 s0
       = Done id1 s1 ->
       upsertInvoiceWithLines (env := Reference.env) src inv2 lines2 s1
       = Done id2 s2 ->
       forall r, In r (lines_of id1 s1) ->
                 ~ In r (rows (invoice_lines s2))).
Proof.
  intros H.
  pose (inv := mkInvoice None (Some "1001") None None None None None None
                         None None None []).
  pose (ln := mkInvoiceLine None (Some "Widget") None None None None).
  pose (s1 := final (upsertInvoiceWithLines (env := Reference.env) "HaloPSA"
                       inv [ln] empty_store)).
  pose (s2 := final (upsertInvoiceWithLines (env := Reference.env) "HaloPSA"
                       inv [] s1)).
  assert (H1 : upsertInvoiceWithLines (env := Reference.env) "HaloPSA" inv
                 [ln] empty_store = Done 1 s1)
    by (vm_compute; reflexivity).
  assert (H2 : upsertInvoiceWithLines (env := Reference.env) "HaloPSA" inv
                 [] s1 = Done 2 s2)
    by (vm_compute; reflexivity).
  assert (Hwf : wf_invoices empty_store) by (split; constructor).
  pose proof (H "HaloPSA" inv inv [ln] [] empty_store s1 s2 1 2 eq_refl
                (Forall_nil _) Hwf H1 H2) as Hgone.
  assert (Hstays : exists r, In r (lines_of 1 s1)
                             /\ In r (rows (invoice_lines s2))).
  { vm_compute. eexists. split; left; reflexivity. }
  destruct Hstays as (r & Hr1 & Hr2). exact (Hgone r Hr1 Hr2).
Qed.

(** The line of the first import is still there after the second. *)
Example null_external_id_keeps_lines :
  let inv := mkInvoice None (Some "1001") None None None None None None None
                       None None [] in
  let ln := mkInvoiceLine None (Some "Widget") None None None None in
  let s1 := final (upsertInvoiceWithLines (env := Reference.env) "HaloPSA" inv
                     [ln] empty_store) in
  let s2 := final (upsertInvoiceWithLines (env := Reference.env) "HaloPSA" inv
                     [] s1) in
  List.length (rows (invoices s2)) = 2
  /\ lines_of 1 s2 = lines_of 1 s1
  /\ List.length (lines_of 1 s2) = 1.
Proof. vm_compute. repeat split; reflexivity. Qed.

End InvoiceFacts.

(** * InventoryCostingEngine *)

Module CostingFacts.
Import Num Db DbFacts.

(** ** Decimals as rationals *)

Lemma Qpow10_nonzero (n : nat) : ~ (inject_Z (pow10 n) == 0)%Q.
Proof.
  unfold pow10, Qeq. cbn. rewrite Z.mul_1_r.
  pose proof (Z.pow_pos_nonneg 10 (Z.of_nat n)). lia.
Qed.

Lemma toQ_make (m : Z) (sc : nat) :
  (toQ (mkDec m sc) == inject_Z m / inject_Z (pow10 sc))%Q.
Proof. reflexivity. Qed.

Lemma toQ_add (a b : dec) : (toQ (dec_add a b) == toQ a + toQ b)%Q.
Proof.
  destruct a as [m1 s1], b as [m2 s2]. unfold dec_add, toQ. cbn [mant scale].
  set (s := Nat.max s1 s2).
  assert (E1 : (inject_Z (pow10 s)
                == inject_Z (pow10 (s - s1)) * inject_Z (pow10 s1))%Q).
  { rewrite <- inject_Z_mult. unfold pow10.
    rewrite <- Z.pow_add_r by lia.
    replace (Z.of_nat (s - s1) + Z.of_nat s1)%Z with (Z.of_nat s) by lia.
    reflexivity. }
  assert (E2 : (inject_Z (pow10 s)
                == inject_Z (pow10 (s - s2)) * inject_Z (pow10 s2))%Q).
  { rewrite <- inject_Z_mult. unfold pow10.
    rewrite <- Z.pow_add_r by lia.
    replace (Z.of_nat (s - s2) + Z.of_nat s2)%Z with (Z.of_nat s) by lia.
    reflexivity. }
  rewrite inject_Z_plus, !inject_Z_mult.
  pose proof (Qpow10_nonzero s1) as N1. pose proof (Qpow10_nonzero s2) as N2.
  pose proof (Qpow10_nonzero (s - s1)) as N3.
  pose proof (Qpow10_nonzero (s - s2)) as N4.
  pose proof (Qpow10_nonzero s) as N.
  transitivity
    (inject_Z m1 * inject_Z (pow10 (s - s1))
       / (inject_Z (pow10 (s - s1)) * inject_Z (pow10 s1))
     + inject_Z m2 * inject_Z (pow10 (s - s2))
       / (inject_Z (pow10 (s - s2)) * inject_Z (pow10 s2)))%Q.
  - rewrite <- E1, <- E2. field. exact N.
  - field. repeat split; assumption.
Qed.

(** Rounding to a column's scale depends on the value only. *)
Lemma numericQ_proper (p sc : nat) (q1 q2 : Q) :
  (q1 == q2)%Q -> numericQ p sc q1 = numericQ p sc q2.
Proof.
  destruct q1 as [a1 d1], q2 as [a2 d2]. unfold Qeq, numericQ.
  cbn [Qnum Qden]. intros E.
  pose proof (NumFacts.pow10_pos sc) as HP. set (P := pow10 sc) in *.
  assert (Hsgn : Z.sgn (a1 * P) = Z.sgn (a2 * P)).
  { rewrite !Z.sgn_mul, (Z.sgn_pos P) by lia. f_equal.
    assert (Z.sgn (a1 * Z.pos d2) = Z.sgn (a2 * Z.pos d1)) as H by congruence.
    rewrite !Z.sgn_mul in H.
    rewrite (Z.sgn_pos (Z.pos d2)), (Z.sgn_pos (Z.pos d1)) in H by lia. lia. }
  assert (Habs : (Z.abs a1 * Z.pos d2 = Z.abs a2 * Z.pos d1)%Z).
  { assert (Z.abs (a1 * Z.pos d2) = Z.abs (a2 * Z.pos d1)) as H by congruence.
    rewrite !Z.abs_mul in H. rewrite (Z.abs_eq (Z.pos d2)) in H by lia.
    rewrite (Z.abs_eq (Z.pos d1)) in H by lia. exact H. }
  assert (Hdiv : ((2 * Z.abs (a1 * P) + Z.pos d1) / (2 * Z.pos d1)
                  = (2 * Z.abs (a2 * P) + Z.pos d2) / (2 * Z.pos d2))%Z).
  { rewrite <- (Z.div_mul_cancel_r _ _ (Z.pos d2)) by lia.
    rewrite <- (Z.div_mul_cancel_r (2 * Z.abs (a2 * P) + Z.pos d2) _
                  (Z.pos d1)) by lia.
    rewrite !Z.abs_mul, (Z.abs_eq P) by lia.
    f_equal; nia. }
  rewrite Hsgn, Hdiv. reflexivity.
Qed.

(** A value that has no more places than the column keeps them all. *)
Lemma numericQ_exact (p sc : nat) (q : Q) (m : Z) (v : dec) :
  (q == inject_Z m / inject_Z (pow10 sc))%Q ->
  numericQ p sc q = Some v -> v = mkDec m sc.
Proof.
  intros E H.
  pose proof (NumFacts.pow10_pos sc) as HP.
  assert (E' : (q == m # Z.to_pos (pow10 sc))%Q).
  { rewrite E. unfold Qeq, Qdiv, Qmult, Qinv. cbn [Qnum Qden inject_Z].
    destruct (pow10 sc) eqn:EP; try lia. cbn. lia. }
  rewrite (numericQ_proper p sc _ _ E') in H. unfold numericQ in H.
  cbn [Qnum Qden] in H. rewrite Z2Pos.id in H by lia.
  set (P := pow10 sc) in *.
  assert (Hd : ((2 * Z.abs (m * P) + P) / (2 * P) = Z.abs m)%Z).
  { rewrite Z.abs_mul, (Z.abs_eq P) by lia.
    replace (2 * (Z.abs m * P) + P)%Z with ((2 * Z.abs m + 1) * P)%Z by ring.
    rewrite Z.div_mul_cancel_r by lia.
    symmetry. apply Z.div_unique with (r := 1%Z); lia. }
  rewrite Hd, Z.sgn_mul, (Z.sgn_pos P), Z.mul_1_r in H by lia.
  rewrite Z.mul_comm, Z.abs_sgn in H.
  destruct (Z.abs m <? pow10 p)%Z; [|discriminate].
  inversion H. reflexivity.
Qed.

(** The column holds a value within half a unit of its last place. *)
Lemma numericQ_near (p : nat) (q : Q) (v : dec) :
  numericQ p 4 q = Some v -> (Qabs (toQ v - q) <= 1 # 20000)%Q.
Proof.
  unfold numericQ. destruct q as [a b]. cbn [Qnum Qden].
  change (pow10 4) with 10000%Z.
  set (t := ((2 * Z.abs (a * 10000) + Z.pos b) / (2 * Z.pos b))%Z).
  assert (Ht : (2 * Z.pos b * t <= 2 * Z.abs (a * 10000) + Z.pos b
                < 2 * Z.pos b * t + 2 * Z.pos b)%Z).
  { unfold t.
    pose proof (Z.mul_div_le (2 * Z.abs (a * 10000) + Z.pos b) (2 * Z.pos b)
                  ltac:(lia)).
    pose proof (Z.mul_succ_div_gt (2 * Z.abs (a * 10000) + Z.pos b)
                  (2 * Z.pos b) ltac:(lia)).
    lia. }
  clearbody t.
  destruct (_ <? _)%Z; [|discriminate]. intros H. inversion H; subst v.
  unfold toQ. cbn [mant scale]. change (pow10 4) with 10000%Z.
  apply Qabs_Qle_condition.
  unfold Qle, Qminus, Qplus, Qopp, Qdiv, Qmult, Qinv.
  cbn [Qnum Qden inject_Z].
  destruct (Z.sgn_spec (a * 10000)) as [[Hs E]|[[Hs E]|[Hs E]]];
    rewrite E; split; nia.
Qed.

Lemma numericQ_scale (p sc : nat) (q : Q) (v : dec) :
  numericQ p sc q = Some v -> scale v = sc.
Proof.
  unfold numericQ. destruct (_ <? _)%Z; [|discriminate].
  intros H. inversion H. reflexivity.
Qed.

Lemma two_places_scale (v : dec) : scale v = 2 -> two_places v.
Proof.
  destruct v as [m sc]. cbn. intros ->. exists m. reflexivity.
Qed.

Lemma two_places_add (a b : dec) :
  two_places a -> two_places b -> two_places (dec_add a b).
Proof.
  intros [m1 E1] [m2 E2]. exists (m1 + m2)%Z.
  rewrite toQ_add, E1, E2, inject_Z_plus. field.
Qed.

Lemma numeric_two_places (p : nat) (d v : dec) :
  two_places d -> numeric p 2 d = Some v ->
  scale v = 2 /\ (toQ v == toQ d)%Q.
Proof.
  intros [m E] H. unfold numeric in H.
  pose proof (numericQ_scale _ _ _ _ H) as Hs.
  rewrite (numericQ_exact p 2 (toQ d) m v E H) in *.
  split; [reflexivity|]. rewrite E. reflexivity.
Qed.

Lemma truthy_nonzero (d : dec) :
  num_truthy d = negb (Qeq_bool (toQ d) 0).
Proof.
  unfold num_truthy. f_equal.
  pose proof (NumFacts.pow10_pos (scale d)) as HP.
  destruct (mant d =? 0)%Z eqn:E.
  - apply Z.eqb_eq in E. symmetry. apply Qeq_bool_iff.
    unfold toQ. rewrite E. apply Qmult_0_l.
  - apply Z.eqb_neq in E. symmetry. apply not_true_is_false. intros H.
    apply Qeq_bool_iff in H. unfold toQ in H.
    apply E. unfold Qeq, Qdiv, Qmult, Qinv in H. cbn [Qnum Qden inject_Z] in H.
    destruct (pow10 (scale d)) eqn:EP; try lia. cbn in H. lia.
Qed.

Lemma Qeq_bool_proper (a b : Q) : (a == b)%Q -> Qeq_bool a 0 = Qeq_bool b 0.
Proof.
  intros E. destruct (Qeq_bool b 0) eqn:Hb.
  - apply Qeq_bool_iff. apply Qeq_bool_iff in Hb. rewrite E. exact Hb.
  - apply not_true_is_false. intros Ha. apply Qeq_bool_iff in Ha.
    rewrite E in Ha. apply Qeq_bool_iff in Ha. congruence.
Qed.

Lemma newAverageCost_value (nt nq : dec) (A B : Q) :
  (toQ nt == A)%Q -> (toQ nq == B)%Q ->
  (newAverageCost nt nq == if Qeq_bool B 0 then 0 else A / B)%Q.
Proof.
  intros EA EB. unfold newAverageCost.
  rewrite truthy_nonzero, (Qeq_bool_proper _ _ EB).
  destruct (Qeq_bool B 0); cbn [negb]; [reflexivity|].
  rewrite EA, EB. reflexivity.
Qed.

(** ** One line item *)

Lemma find_map_same {R : Type} (p : R -> bool) (f : R -> R) (l : list R) :
  (forall r, p (f r) = p r) -> find p (map f l) = option_map f (find p l).
Proof.
  intros Hp. induction l as [|a l IH]; cbn; [reflexivity|].
  rewrite Hp. destruct (p a); [reflexivity | exact IH].
Qed.

Lemma NoDup_map_eq {R : Type} (f : R -> nat) (l : list R) (a b : R) :
  NoDup (map f l) -> In a l -> In b l -> f a = f b -> a = b.
Proof.
  induction l as [|x l IH]; cbn; [tauto|]. intros Hnd Ha Hb E.
  inversion Hnd as [|y l' Hnot Hnd']; subst.
  destruct Ha as [<-|Ha], Hb as [<-|Hb]; auto.
  - exfalso. apply Hnot. rewrite E. apply in_map. exact Hb.
  - exfalso. apply Hnot. rewrite <- E. apply in_map. exact Ha.
Qed.

Lemma reflects_same (X : string) (acc : list LineItem) (s s' : store) :
  inventory s' = inventory s -> reflects X acc s -> reflects X acc s'.
Proof.
  unfold reflects, inventory_of. intros E. rewrite E. exact (fun H => H).
Qed.

Lemma reflects_inv (X : string) (acc : list LineItem) (s s' : store) :
  inventory_of X s' = inventory_of X s -> reflects X acc s -> reflects X acc s'.
Proof. unfold reflects. intros E. rewrite E. exact (fun H => H). Qed.

Lemma sum_quantity_app (a b : list LineItem) :
  (sum_quantity (a ++ b) == sum_quantity a + sum_quantity b)%Q.
Proof.
  induction a as [|x a IH]; cbn [app sum_quantity].
  - rewrite Qplus_0_l. reflexivity.
  - rewrite IH. ring.
Qed.

Lemma sum_amount_app (a b : list LineItem) :
  (sum_amount (a ++ b) == sum_amount a + sum_amount b)%Q.
Proof.
  induction a as [|x a IH]; cbn [app sum_amount].
  - rewrite Qplus_0_l. reflexivity.
  - rewrite IH. ring.
Qed.

Lemma flat_map_singleton {A : Type} (l : list A) :
  flat_map (fun x => [x]) l = l.
Proof. induction l as [|x l IH]; cbn; congruence. Qed.

Lemma flat_map_flat_map {A B C : Type} (f : A -> list B) (g : B -> list C)
      (l : list A) :
  flat_map g (flat_map f l) = flat_map (fun x => flat_map g (f x)) l.
Proof.
  induction l as [|x l IH]; cbn [flat_map]; [reflexivity|].
  rewrite flat_map_app, IH. reflexivity.
Qed.

Lemma wf_same (s s' : store) :
  inventory s' = inventory s -> wf_inventory s -> wf_inventory s'.
Proof. unfold wf_inventory. intros E. rewrite E. exact (fun H => H). Qed.

Section WithEnv.
Context {env : Env}.

Lemma inventory_transaction_frame (itemId tid : nat) (bill : Bill)
      (line : LineItem) (s s' : store) :
  insert_inventory_transaction itemId tid bill line s = Done tt s' ->
  inventory s' = inventory s.
Proof.
  unfold insert_inventory_transaction, bind, require, modify, ret, raise.
  destruct (numeric 12 4 _); [|discriminate].
  destruct (numeric 12 2 _); [|discriminate].
  intros H. inversion H. reflexivity.
Qed.

(** What the inventory upsert for one line does to the row of its item
    and to the rows of the other items. *)
Lemma upsert_inventory_spec (tid : nat) (bill : Bill) (line : LineItem)
      (s s' : store) :
  wf_inventory s ->
  upsert_inventory tid bill line s = Done tt s' ->
  wf_inventory s'
  /\ (forall X, String.eqb (item line) X = false ->
                inventory_of X s' = inventory_of X s)
  /\ match inventory_of (item line) s with
     | Some row =>
         exists tc avg,
           numeric 12 2 (dec_add (total_cost row) (line_amount line))
           = Some tc
           /\ numericQ 12 4
                (newAverageCost
                   (dec_add (total_cost row) (line_amount line))
                   (dec_add (current_quantity row) (quantity line)))
              = Some avg
           /\ inventory_of (item line) s'
              = Some (mkInventory (inv_id row) (inv_item_name row)
                        (inv_description row)
                        (dec_add (current_quantity row) (quantity line))
                        (dec_add (total_received row) (quantity line))
                        tc avg (date bill) (vendor bill))
     | None =>
         exists tc avg id,
           numeric 12 2 (line_amount line) = Some tc
           /\ numeric 12 4 (unit_cost line) = Some avg
           /\ inventory_of (item line) s'
              = Some (mkInventory id (item line) (description line)
                        (quantity line) (quantity line) tc avg
                        (date bill) (vendor bill))
     end.
Proof.
  intros [Hnd Hle] H. unfold upsert_inventory in H.
  apply bind_Done in H. destruct H as (invRow & s1 & H1 & H).
  unfold gets in H1. inversion H1; subst invRow s1; clear H1.
  change (inventory_of (item line) s)
    with (find (fun r => String.eqb (inv_item_name r) (item line))
               (rows (inventory s))).
  destruct (find (fun r => String.eqb (inv_item_name r) (item line))
                 (rows (inventory s))) as [row|] eqn:F.
  - apply bind_Done in H. destruct H as (tc & s1 & H1 & H).
    apply require_Done in H1. destruct H1 as [Htc ->].
    apply bind_Done in H. destruct H as (avg & s1 & H1 & H).
    apply require_Done in H1. destruct H1 as [Havg ->].
    apply bind_Done in H. destruct H as ([] & s1 & H1 & H).
    unfold modify in H1. inversion H1; subst s1; clear H1.
    apply inventory_transaction_frame in H.
    cbn [inventory set_inventory] in H.
    set (f := fun r : inventory_row =>
                if Nat.eqb (inv_id r) (inv_id row)
                then mkInventory (inv_id r) (inv_item_name r)
                       (inv_description r)
                       (dec_add (current_quantity row) (quantity line))
                       (dec_add (total_received row) (quantity line))
                       tc avg (date bill) (vendor bill)
                else r) in *.
    assert (Hid : forall r, inv_id (f r) = inv_id r)
      by (intros r; unfold f; destruct (Nat.eqb _ _); reflexivity).
    assert (Hname : forall X r,
               String.eqb (inv_item_name (f r)) X
               = String.eqb (inv_item_name r) X)
      by (intros X r; unfold f; destruct (Nat.eqb _ _); reflexivity).
    assert (Hrows : rows (inventory s') = map f (rows (inventory s)))
      by (rewrite H; reflexivity).
    assert (Hseq : seq (inventory s') = seq (inventory s))
      by (rewrite H; reflexivity).
    destruct (find_some _ _ F) as [Hin Hrow]. apply String.eqb_eq in Hrow.
    repeat split.
    + unfold wf_inventory. rewrite Hrows, map_map.
      rewrite (map_ext _ inv_id Hid). exact Hnd.
    + rewrite Hrows, Hseq. apply Forall_forall. intros r Hr.
      apply in_map_iff in Hr. destruct Hr as (r0 & <- & Hr0).
      rewrite Hid. rewrite Forall_forall in Hle. auto.
    + intros X HX. unfold inventory_of. rewrite Hrows.
      rewrite (find_map_same _ f _ (Hname X)).
      destruct (find (fun r => String.eqb (inv_item_name r) X)
                     (rows (inventory s))) as [rX|] eqn:FX; [|reflexivity].
      cbn [option_map]. f_equal.
      destruct (find_some _ _ FX) as [HinX HrX]. apply String.eqb_eq in HrX.
      unfold f. destruct (Nat.eqb (inv_id rX) (inv_id row)) eqn:E;
        [|reflexivity].
      apply Nat.eqb_eq in E.
      pose proof (NoDup_map_eq inv_id _ _ _ Hnd HinX Hin E) as Erow.
      assert (EX : item line = X) by congruence.
      rewrite EX, String.eqb_refl in HX. discriminate.
    + exists tc, avg. split; [exact Htc|]. split; [exact Havg|].
      unfold inventory_of. rewrite Hrows.
      rewrite (find_map_same _ f _ (Hname (item line))), F.
      cbn [option_map]. unfold f. rewrite Nat.eqb_refl. reflexivity.
  - apply bind_Done in H. destruct H as (tc & s1 & H1 & H).
    apply require_Done in H1. destruct H1 as [Htc ->].
    apply bind_Done in H. destruct H as (avg & s1 & H1 & H).
    apply require_Done in H1. destruct H1 as [Havg ->].
    apply bind_Done in H. destruct H as (newItem & s1 & H1 & H).
    cbn [insert_row] in H1. inversion H1; subst newItem s1; clear H1.
    apply inventory_transaction_frame in H.
    cbn [inventory set_inventory] in H.
    assert (Hrows : rows (inventory s')
                    = rows (inventory s)
                      ++ [mkInventory (S (seq (inventory s))) (item line)
                            (description line) (quantity line)
                            (quantity line) tc avg (date bill) (vendor bill)])
      by (rewrite H; reflexivity).
    assert (Hseq : seq (inventory s') = S (seq (inventory s)))
      by (rewrite H; reflexivity).
    repeat split.
    + unfold wf_inventory. rewrite Hrows, map_app. cbn [map inv_id].
      apply NoDup_app.
      * exact Hnd.
      * constructor; [intros []|constructor].
      * intros x Hx [<-|[]]. apply in_map_iff in Hx.
        destruct Hx as (r & Er & Hr). rewrite Forall_forall in Hle.
        specialize (Hle r Hr). lia.
    + rewrite Hrows, Hseq. apply Forall_app. split.
      * eapply Forall_impl; [|exact Hle]. intros r Hr. cbn beta in *. lia.
      * constructor; [cbn; lia | constructor].
    + intros X HX. unfold inventory_of. rewrite Hrows.
      destruct (find (fun r => String.eqb (inv_item_name r) X)
                     (rows (inventory s))) as [rX|] eqn:FX.
      * apply (DuplicateFacts.find_app_some _ _ _ _ FX).
      * rewrite (DuplicateFacts.find_app_none _ _ _ FX). cbn [find inv_item_name].
        rewrite HX. reflexivity.
    + exists tc, avg, (S (seq (inventory s))).
      split; [exact Htc|]. split; [exact Havg|].
      unfold inventory_of. rewrite Hrows.
      rewrite (DuplicateFacts.find_app_none _ _ _ F). cbn [find inv_item_name].
      rewrite String.eqb_refl. reflexivity.
Qed.

(** One line item moves the row of [X] from the lines seen so far to the
    lines seen so far and this one, when it is a line of [X]. *)
Lemma process_line_reflects (tid : nat) (bill : Bill) (line : LineItem)
      (X : string) (acc : list LineItem) (s s' : store) :
  wf_inventory s -> reflects X acc s -> in_cents X line ->
  process_line tid bill line s = Done tt s' ->
  wf_inventory s'
  /\ reflects X (acc ++ filter (fun l => String.eqb (item l) X) [line]) s'.
Proof.
  intros Hwf Hacc Hc H. unfold process_line in H.
  apply bind_Done in H. destruct H as (uc & s1 & H1 & H).
  apply require_Done in H1. destruct H1 as [_ ->].
  apply bind_Done in H. destruct H as (la & s1 & H1 & H).
  apply require_Done in H1. destruct H1 as [_ ->].
  apply bind_Done in H. destruct H as ([] & s1 & H1 & H).
  unfold modify in H1. inversion H1; subst s1; clear H1.
  match type of H with
  | upsert_inventory _ _ _ ?s1 = _ =>
      assert (E1 : inventory s1 = inventory s) by reflexivity;
      pose proof (wf_same s s1 E1 Hwf) as Hwf1;
      pose proof (reflects_same X acc s s1 E1 Hacc) as Hacc1
  end.
  clear Hwf Hacc E1.
  destruct (upsert_inventory_spec _ _ _ _ _ Hwf1 H) as (Hwf' & Hother & Hrow).
  split; [exact Hwf'|]. cbn [filter].
  destruct (String.eqb (item line) X) eqn:EX.
  - specialize (Hc EX). apply String.eqb_eq in EX. subst X.
    destruct acc as [|first rest].
    + cbn [reflects] in Hacc1. rewrite Hacc1 in Hrow.
      destruct Hrow as (tc & avg & id & Htc & Havg & Hnew).
      destruct (numeric_two_places _ _ _ Hc Htc) as [Hs Hv].
      cbn [app reflects]. eexists. split; [exact Hnew|].
      cbn [current_quantity total_cost average_unit_cost
           sum_quantity sum_amount].
      repeat split.
      * rewrite Qplus_0_l. reflexivity.
      * exact Hs.
      * rewrite Hv, Qplus_0_l. reflexivity.
      * exact Havg.
    + cbn [reflects] in Hacc1.
      destruct Hacc1 as (row & Hinv & Hq & Hsc & Ht & _).
      rewrite Hinv in Hrow. destruct Hrow as (tc & avg & Htc & Havg & Hnew).
      assert (H2 : two_places (dec_add (total_cost row) (line_amount line)))
        by (apply two_places_add; [apply two_places_scale; exact Hsc | exact Hc]).
      destruct (numeric_two_places _ _ _ H2 Htc) as [Hs Hv].
      assert (EQ : (toQ (dec_add (current_quantity row) (quantity line))
                    == sum_quantity ((first :: rest) ++ [line]))%Q).
      { rewrite toQ_add, Hq, sum_quantity_app. cbn [sum_quantity]. ring. }
      assert (EA : (toQ (dec_add (total_cost row) (line_amount line))
                    == sum_amount ((first :: rest) ++ [line]))%Q).
      { rewrite toQ_add, Ht, sum_amount_app. cbn [sum_amount]. ring. }
      change ((first :: rest) ++ [line]) with (first :: (rest ++ [line])) in *.
      cbn [reflects]. eexists. split; [exact Hnew|].
      cbn [current_quantity total_cost average_unit_cost].
      repeat split.
      * exact EQ.
      * exact Hs.
      * rewrite Hv. exact EA.
      * rewrite (numericQ_proper 12 4 _ _
                      (newAverageCost_value _ _ _ _ EA EQ)) in Havg.
        destruct rest; exact Havg.
  - rewrite app_nil_r. eapply reflects_inv; [|exact Hacc1].
    apply Hother. exact EX.
Qed.

(** A loop over calls that each move the row of [X] by their own lines
    moves it by all the lines. *)
Lemma loop_reflects {A : Type} (f : A -> M unit) (sel : A -> list LineItem)
      (X : string) :
  (forall x acc s s',
      wf_inventory s -> reflects X acc s -> Forall (in_cents X) (sel x) ->
      f x s = Done tt s' ->
      wf_inventory s'
      /\ reflects X (acc ++ filter (fun l => String.eqb (item l) X) (sel x))
                  s') ->
  forall l acc s s',
    wf_inventory s -> reflects X acc s ->
    Forall (in_cents X) (flat_map sel l) ->
    for_each f l s = Done tt s' ->
    wf_inventory s'
    /\ reflects X (acc ++ filter (fun l => String.eqb (item l) X)
                                 (flat_map sel l)) s'.
Proof.
  intros Hstep l. induction l as [|x l IH]; intros acc s s' Hwf Hacc Hc H;
    cbn [for_each flat_map] in *.
  - inversion H; subst. cbn [filter]. rewrite app_nil_r. auto.
  - apply bind_Done in H. destruct H as ([] & s1 & H1 & H).
    apply Forall_app in Hc. destruct Hc as [Hc1 Hc2].
    destruct (Hstep x acc s s1 Hwf Hacc Hc1 H1) as [Hwf1 Hacc1].
    destruct (IH _ s1 s' Hwf1 Hacc1 Hc2 H) as [Hwf' Hacc'].
    split; [exact Hwf'|].
    rewrite filter_app, app_assoc. exact Hacc'.
Qed.

Lemma process_bill_reflects (importId : nat) (bill : Bill) (X : string)
      (acc : list LineItem) (s s' : store) :
  wf_inventory s -> reflects X acc s -> Forall (in_cents X) (lines bill) ->
  process_bill importId bill s = Done tt s' ->
  wf_inventory s'
  /\ reflects X (acc ++ filter (fun l => String.eqb (item l) X) (lines bill))
              s'.
Proof.
  intros Hwf Hacc Hc H. unfold process_bill in H.
  apply bind_Done in H. destruct H as (total & s1 & H1 & H).
  apply require_Done in H1. destruct H1 as [_ ->].
  apply bind_Done in H. destruct H as (tid & s1 & H1 & H).
  assert (E1 : inventory s1 = inventory s).
  { destruct (existsb _ _); [|discriminate].
    cbn [insert_row] in H1. inversion H1. reflexivity. }
  pose proof (wf_same s s1 E1 Hwf) as Hwf1.
  pose proof (reflects_same X acc s s1 E1 Hacc) as Hacc1.
  rewrite <- (flat_map_singleton (lines bill)) in Hc |- *.
  revert H. apply loop_reflects; try assumption.
  intros x acc0 s2 s3 W R C. inversion C; subst.
  apply process_line_reflects; assumption.
Qed.

Lemma processCsvImport_reflects (importId : nat) (bills : list Bill)
      (X : string) (acc : list LineItem) (s s' : store) :
  wf_inventory s -> reflects X acc s ->
  Forall (in_cents X) (flat_map lines bills) ->
  processCsvImport importId bills s = Done tt s' ->
  wf_inventory s' /\ reflects X (acc ++ lines_for X bills) s'.
Proof.
  intros Hwf Hacc Hc H. unfold processCsvImport in H.
  apply transaction_Done in H.
  apply bind_Done in H. destruct H as ([] & s1 & H1 & H).
  unfold modify in H. inversion H; subst s'; clear H.
  destruct (loop_reflects (process_bill importId) lines X
              (fun x acc0 s2 s3 => process_bill_reflects importId x X acc0 s2 s3)
              bills acc s s1 Hwf Hacc Hc H1) as [Hwf1 Hacc1].
  split.
  - eapply wf_same; [|exact Hwf1]. reflexivity.
  - eapply reflects_same; [|exact Hacc1]. reflexivity.
Qed.

Lemma process_imports_reflects (imports : list (nat * list Bill))
      (X : string) (acc : list LineItem) (s s' : store) :
  wf_inventory s -> reflects X acc s ->
  Forall (in_cents X) (flat_map lines (flat_map snd imports)) ->
  process_imports imports s = Done tt s' ->
  wf_inventory s'
  /\ reflects X (acc ++ lines_for X (flat_map snd imports)) s'.
Proof.
  intros Hwf Hacc Hc H. unfold process_imports in H. unfold lines_for.
  rewrite flat_map_flat_map in Hc |- *.
  revert H. apply loop_reflects; try assumption.
  intros im acc0 s2 s3 W R C. apply processCsvImport_reflects; assumption.
Qed.

(** C3, as the code has it.

    In the PostgreSQL store ([processCsvImport]): the imports are
    processed one after the other from a store that has no inventory row
    of [X] yet; [ls] are the line items of [X] in the order they are
    processed, at most a million of them, their quantities whole numbers
    and their amounts in whole cents (as [parseBillsFromCsv] makes them).
    Then, with no line of [X], there is no row of [X]; otherwise its row
    holds the sum of the quantities and the sum of the line amounts, and
    as average unit cost: after one line of non-zero quantity the unit
    cost of that line (a number of moderate size), rounded to the four
    places of the column; after two lines or more a number within 0.00005
    of the sum of the line amounts over the sum of the quantities (0 when
    the quantities sum to 0), which is that quotient rounded to four
    places unless the quotient is half-way between two numbers of four
    places (there the column rounds by the digits of the double, to
    either neighbour).  Off the half the row is a function of [ls] alone,
    whatever the split into bills and imports.

    In the SQLite store ([updateInventoryFromTransaction]) the callback
    of a line whose item has a row hands the UPDATE the same sums and
    their quotient without a guard: when the whole-number quantities add
    up to 0, the quantity it hands over is 0 and the average is no finite
    number, where the claim has 0. *)
Theorem inventory_weighted_average (imports : list (nat * list Bill))
        (X : string) (s s' : store) :
  (wf_inventory s -> inventory_of X s = None ->
   let ls := lines_for X (flat_map snd imports) in
   Forall (fun l => two_places (line_amount l)) ls ->
   Forall (fun l => whole (quantity l) = true) ls ->
   (Z.of_nat (List.length ls) <= 1000000)%Z ->
   process_imports imports s = Done tt s' ->
   match ls with
   | [] => inventory_of X s' = None
   | first :: rest =>
       exists row,
         inventory_of X s' = Some row
         /\ (toQ (current_quantity row) == sum_quantity (first :: rest))%Q
         /\ (toQ (total_cost row) == sum_amount (first :: rest))%Q
         /\ match rest with
            | [] => num_truthy (quantity first) = true ->
                    Server.ordinary (unit_cost first) = true ->
                    numeric 12 4 (unit_cost first)
                    = Some (average_unit_cost row)
            | _ :: _ =>
                (Qabs (toQ (average_unit_cost row)
                       - weighted_average (first :: rest)) <= 1 # 20000)%Q
                /\ (off_half (weighted_average (first :: rest)) = true ->
                    numericQ 12 4 (weighted_average (first :: rest))
                    = Some (average_unit_cost row))
            end
   end)
  /\ (forall (transactionId : nat) (bill : Bill) (line : LineItem)
             (row : Sqlite.inventory_row),
        whole (Sqlite.current_quantity row) = true ->
        whole (quantity line) = true ->
        (toQ (Sqlite.current_quantity row) + toQ (quantity line) == 0)%Q ->
        exists received total,
          hd_error (Sqlite.on_row transactionId bill line (Some row))
          = Some (Sqlite.UpdateInventory
                    (dec_add (Sqlite.current_quantity row) (quantity line))
                    received total Sqlite.NotFinite (date bill)
                    (vendor bill) (Sqlite.id row))).
Proof.
  split.
  - intros Hwf Hnone ls Hc _ _ H. subst ls.
    assert (Hc' : Forall (in_cents X) (flat_map lines (flat_map snd imports))).
    { apply Forall_forall. intros l Hl HX. rewrite Forall_forall in Hc.
      apply Hc. unfold lines_for. apply filter_In. split; assumption. }
    destruct (process_imports_reflects imports X [] s s' Hwf Hnone Hc' H)
      as [_ R].
    cbn [app] in R. unfold reflects in R.
    destruct (lines_for X (flat_map snd imports)) as [|first rest];
      [exact R|].
    destruct R as (row & Hrow & Hq & _ & Ht & Havg).
    exists row. split; [exact Hrow|]. split; [exact Hq|].
    split; [exact Ht|].
    destruct rest; [intros _ _; exact Havg|].
    split; [apply (numericQ_near 12); exact Havg | intros _; exact Havg].
  - intros transactionId bill line row _ _ Hz.
    unfold Sqlite.on_row, Sqlite.divide. cbn [hd_error].
    assert (Hn : num_truthy (dec_add (Sqlite.current_quantity row)
                                     (quantity line)) = false).
    { rewrite <- toQ_add in Hz. rewrite truthy_nonzero.
      apply Qeq_bool_iff in Hz. rewrite Hz. reflexivity. }
    rewrite Hn. do 2 eexists. reflexivity.
Qed.

End WithEnv.

(** Two imports of one bill each: 10 Widgets at 2.50, then 5 Widgets at
    4.00 and a Gadget in between.  The row of Widget holds 15, 45.00 and
    3.0000.  In the SQLite store, 5 Widgets taken off a row of 5 leave
    the quantity 0 and no finite average. *)
Lemma inventory_weighted_average_witness :
  let widget q c a := mkLine "Widget" "" (mkDec q 0) (mkDec c 2) (mkDec a 2) in
  let gadget := mkLine "Gadget" "" (mkDec 2 0) (mkDec 500 2) (mkDec 1000 2) in
  let bill ref total ls :=
    mkBill "Acme" ref "01/05/2024" (mkDec total 2) "01/05/2024"
           "Due upon receipt" ls in
  let imports := [(1, [bill "PO-1" 3500%Z [widget 10%Z 250%Z 2500%Z; gadget]]);
                  (1, [bill "PO-2" 2000%Z [widget 5%Z 400%Z 2000%Z]])] in
  let s0 := final (storeCsvImport (env := Reference.env) "po.csv" "bytes"
                     empty_store) in
  let s' := final (process_imports imports s0) in
  (exists row,
     inventory_of "Widget" s' = Some row
     /\ (toQ (current_quantity row) == 15)%Q
     /\ (toQ (total_cost row) == 45)%Q
     /\ average_unit_cost row = mkDec 30000 4)
  /\ (exists received total,
        hd_error
          (Sqlite.on_row 7 (bill "PO-3" (-2000)%Z [])
             (widget (-5)%Z 400%Z (-2000)%Z)
             (Some (Sqlite.mkInventory 1 (mkDec 5 0) (mkDec 5 0)
                                       (mkDec 2000 2))))
        = Some (Sqlite.UpdateInventory (mkDec 0 0) received total
                  Sqlite.NotFinite "01/05/2024" "Acme" 1)).
Proof.
  intros widget gadget bill imports s0 s'.
  assert (Hwf : wf_inventory s0) by (split; constructor).
  assert (Hnone : inventory_of "Widget" s0 = None) by reflexivity.
  assert (Hc : Forall (fun l => two_places (line_amount l))
                      (lines_for "Widget" (flat_map snd imports))).
  { repeat constructor; [exists 2500%Z | exists 2000%Z]; reflexivity. }
  assert (Hw : Forall (fun l => whole (quantity l) = true)
                      (lines_for "Widget" (flat_map snd imports)))
    by (repeat constructor).
  assert (Hn : (Z.of_nat (List.length
                             (lines_for "Widget" (flat_map snd imports)))
                <= 1000000)%Z) by (cbn; lia).
  assert (Hrun : process_imports imports s0
                 = Done tt s') by (vm_compute; reflexivity).
  destruct (inventory_weighted_average imports "Widget" s0 s') as [HA HB].
  split.
  - destruct (HA Hwf Hnone Hc Hw Hn Hrun)
      as (row & Hrow & Hq & Ht & _ & Havg).
    specialize (Havg eq_refl).
    exists row. split; [exact Hrow|].
    split; [rewrite Hq; vm_compute; reflexivity|].
    split; [rewrite Ht; vm_compute; reflexivity|].
    vm_compute in Havg. inversion Havg as [E]. symmetry. exact E.
  - apply (HB 7 (bill "PO-3" (-2000)%Z []) (widget (-5)%Z 400%Z (-2000)%Z)
              (Sqlite.mkInventory 1 (mkDec 5 0) (mkDec 5 0) (mkDec 2000 2)));
      reflexivity.
Defined.

(** C3 as stated fails.  Two lines of 3 Widgets with the cell 0.333 as
    cost are normalised to the unit cost 0.33 and the line amount 1.00
    each; the sum of quantity times unit cost over the sum of the
    quantities is 0.33, the stored average is 2.00 / 6 in four places,
    0.3333. *)
Lemma average_is_not_sum_of_products :
  ~ (forall (imports : list (nat * list Bill)) (X : string)
            (s s' : store) (row : inventory_row),
       wf_inventory s -> inventory_of X s = None ->
       process_imports imports s = Done tt s' ->
       inventory_of X s' = Some row ->
       let ls := lines_for X (flat_map snd imports) in
       (toQ (average_unit_cost row)
        == if Qeq_bool (sum_quantity ls) 0 then 0
           else sum_products ls / sum_quantity ls)%Q).
Proof.
  intros H.
  pose (widget := mkLine "Widget" "" (mkDec 3 0) (mkDec 33 2) (mkDec 100 2)).
  pose (imports := [(1, [mkBill "Acme" "PO-1" "01/05/2024" (mkDec 200 2)
                                "01/05/2024" "Due upon receipt"
                                [widget; widget]])]).
  pose (s0 := final (storeCsvImport (env := Reference.env) "po.csv" "bytes"
                       empty_store)).
  pose (s' := final (process_imports imports s0)).
  specialize (H imports "Widget" s0 s'
                (mkInventory 1 "Widget" "" (mkDec 6 0) (mkDec 6 0)
                             (mkDec 200 2) (mkDec 3333 4) "01/05/2024" "Acme")).
  assert (Hwf : wf_inventory s0) by (split; constructor).
  specialize (H Hwf eq_refl).
  assert (Hrun : process_imports imports s0
                 = Done tt s') by (vm_compute; reflexivity).
  specialize (H Hrun).
  assert (Hrow : inventory_of "Widget" s'
                 = Some (mkInventory 1 "Widget" "" (mkDec 6 0) (mkDec 6 0)
                           (mkDec 200 2) (mkDec 3333 4) "01/05/2024" "Acme"))
    by (vm_compute; reflexivity).
  specialize (H Hrow). vm_compute in H. discriminate H.
Qed.

(** The bill of the instance above is what the normaliser makes of two
    rows with the cells 3 and 0.333. *)
Example normalised_cost_cell :
  let r := [("Vendor", "Acme"); ("RefNumber", "PO-1");
            ("Date", "01/05/2024"); ("Item", "Widget"); ("Qty", "3");
            ("Cost", "0.333")] in
  option_map (map (fun l => (quantity l, unit_cost l, line_amount l)))
    (option_map lines
       (match Server.bills_of_records (lib := Reference.lib) [r; r] with
        | Ok [b] => Some b
        | _ => None
        end))
  = Some [(mkDec 3 0, mkDec 33 2, mkDec 100 2);
          (mkDec 3 0, mkDec 33 2, mkDec 100 2)].
Proof. vm_compute. reflexivity. Qed.

(** The first line of an item is stored with its unit cost as average
    without a look at its quantity: a first line of quantity 0 and unit
    cost 5.00 leaves the average 5.0000 with the quantity 0 (the update
    of an existing row does guard the division and stores 0). *)
Example first_line_of_zero_quantity :
  let line := mkLine "Widget" "" (mkDec 0 0) (mkDec 500 2) (mkDec 0 2) in
  let bill := mkBill "Acme" "PO-1" "01/05/2024" (mkDec 0 2) "01/05/2024"
                     "Due upon receipt" [line] in
  let s0 := final (storeCsvImport (env := Reference.env) "po.csv" "bytes"
                     empty_store) in
  option_map (fun r => (current_quantity r, average_unit_cost r))
    (inventory_of "Widget"
       (final (processCsvImport 1 [bill] s0)))
  = Some (mkDec 0 0, mkDec 50000 4).
Proof. vm_compute. reflexivity. Qed.

End CostingFacts.

(* ================================================================== *)
(** * Further properties of the normaliser (server.js) *)
(* ================================================================== *)

Module ParseFacts.
Import Num Server Exporter.

Lemma sanitize_plain (v : string) : clean v = true -> sanitize v = v.
Proof.
  induction v as [|c v IH]; [reflexivity|].
  cbn [clean Js.str_forall]. fold (clean v). intros H.
  apply andb_true_iff in H. destruct H as [Hc Hv].
  unfold plain_char in Hc. apply negb_true_iff in Hc.
  apply orb_false_iff in Hc. destruct Hc as [Hc Hq].
  cbn [sanitize]. rewrite Hc, Hq, (IH Hv). reflexivity.
Qed.

Lemma sanitize_length (v : string) :
  String.length (sanitize v) <= String.length v.
Proof.
  induction v as [|c v IH]; [apply Nat.le_refl|]. cbn [sanitize].
  destruct (Ascii.eqb c Js.TAB || Ascii.eqb c Js.CR || Ascii.eqb c Js.LF);
    [cbn [String.length]; lia|].
  destruct (Ascii.eqb c Js.DQUOTE); cbn [String.length]; lia.
Qed.

(** X1. [sanitize] leaves no tab, carriage return, line feed or double
    quote, never makes a text longer, is the identity exactly on the
    texts that hold none of these characters, and so changes nothing
    when applied twice. *)
Theorem sanitize_normal_form (v : string) :
  clean (sanitize v) = true
  /\ String.length (sanitize v) <= String.length v
  /\ (sanitize v = v <-> clean v = true)
  /\ sanitize (sanitize v) = sanitize v.
Proof.
  pose proof (NormalizerFacts.sanitize_clean v) as Hc.
  split; [exact Hc|]. split; [apply sanitize_length|]. split.
  - split; [intros E; rewrite <- E; exact Hc | apply sanitize_plain].
  - apply sanitize_plain. exact Hc.
Qed.

(** ** The groups and the rows *)

Lemma group_push_total (key : string) (r : row) (m : groups) :
  List.length (flat_map snd (group_push key r m))
  = S (List.length (flat_map snd m)).
Proof.
  induction m as [|[k rs] m IH]; cbn [group_push flat_map snd]; [reflexivity|].
  destruct (String.eqb k key); cbn [flat_map snd].
  - rewrite !length_app. cbn [List.length]. lia.
  - rewrite !length_app, IH. lia.
Qed.

Section WithDayjs.
Context {lib : Dayjs}.

Lemma group_rows_total (vc rc : string) (records : list row) :
  forall m,
    List.length (flat_map snd (group_rows vc rc records m))
    = List.length (flat_map snd m)
      + List.length (filter (keyed vc rc) records).
Proof.
  induction records as [|r l IH]; intros m; cbn [group_rows filter];
    [cbn [List.length]; lia|].
  rewrite <- negb_andb. fold (keyed vc rc r).
  destruct (keyed vc rc r); cbn [negb]; rewrite IH.
  - rewrite group_push_total. cbn [List.length]. lia.
  - reflexivity.
Qed.

Lemma lines_of_group (ic qc cc : string) (g : string * list row) :
  lines (bill_of_group ic qc cc g)
  = map (fun r => snd (line_of_row ic qc cc r)) (snd g).
Proof.
  destruct g as [k rs]. unfold bill_of_group.
  rewrite GroupingFacts.build_lines_spec. reflexivity.
Qed.

Lemma lines_of_groups (ic qc cc : string) (gm : groups) :
  List.length (flat_map lines (map (bill_of_group ic qc cc) gm))
  = List.length (flat_map snd gm).
Proof.
  induction gm as [|g gm IH]; cbn [map flat_map]; [reflexivity|].
  rewrite !length_app, IH, lines_of_group, length_map. reflexivity.
Qed.

Lemma group_rows_nonempty (vc rc : string) (records : list row) :
  group_rows vc rc records [] <> []
  <-> existsb (keyed vc rc) records = true.
Proof.
  pose proof (group_rows_total vc rc records []) as T. cbn in T.
  destruct (GroupingFacts.grouped_all vc rc records) as (_ & Hrows & Hkeys).
  split.
  - intros Hne. destruct (group_rows vc rc records []) as [|[k rs] gm];
      [congruence|].
    destruct (Hrows k rs (or_introl eq_refl)) as [E Hrs].
    destruct rs as [|r0 rs]; [congruence|].
    assert (Hin : In r0 (rows_under vc rc k records))
      by (rewrite <- E; left; reflexivity).
    unfold rows_under in Hin. apply filter_In in Hin.
    destruct Hin as [Hin Hsel]. apply andb_true_iff in Hsel.
    apply existsb_exists. exists r0. tauto.
  - intros H. apply existsb_exists in H. destruct H as (r & Hin & K).
    specialize (Hkeys r Hin K). intros E. rewrite E in Hkeys. exact Hkeys.
Qed.

(** X2. [parseBillsFromCsv] returns bills exactly when there is a first
    record, each of the five column roles is resolved in its headers, and
    some row has a vendor and a reference that are not empty once
    sanitised; in every other case it throws. *)
Theorem bills_of_records_succeeds_iff (records : list row) :
  (exists bills, bills_of_records records = Ok bills)
  <-> exists r0 vc rc ic qc cc,
        hd_error records = Some r0
        /\ findActualCol (Object_keys r0) ["vendor"; "supplier"; "vendor name"]
           = Some vc
        /\ findActualCol (Object_keys r0)
             ["refnumber"; "ref number"; "reference"; "reference number";
              "docnum"; "document number"] = Some rc
        /\ findActualCol (Object_keys r0)
             ["item"; "item code"; "sku"; "product"; "product code"] = Some ic
        /\ findActualCol (Object_keys r0) ["qty"; "quantity"; "qnty"] = Some qc
        /\ findActualCol (Object_keys r0)
             ["cost"; "unit cost"; "price"; "unit price"; "rate"] = Some cc
        /\ existsb (keyed vc rc) records = true.
Proof.
  split.
  - intros (bills & H).
    assert (Hne : bills <> []).
    { intros ->. unfold bills_of_records in H.
      destruct records as [|r0 rest]; [discriminate|]. cbv zeta in H.
      repeat (destruct (findActualCol _ _); [|discriminate]).
      destruct (map _ _); discriminate. }
    destruct (GroupingFacts.bills_of_records_Ok records bills H)
      as (r0 & vc & rc & ic & qc & cc & E0 & E1 & E2 & E3 & E4 & E5 & Eb).
    exists r0, vc, rc, ic, qc, cc. repeat split; try assumption.
    apply group_rows_nonempty. intros E. apply Hne. rewrite Eb, E.
    reflexivity.
  - intros (r0 & vc & rc & ic & qc & cc & E0 & E1 & E2 & E3 & E4 & E5 & K).
    destruct records as [|r rest]; [discriminate|]. cbn in E0.
    inversion E0; subst r. unfold bills_of_records. cbv zeta.
    rewrite E1, E2, E3, E4, E5.
    apply group_rows_nonempty in K.
    destruct (group_rows vc rc (r0 :: rest) []) as [|g gm]; [congruence|].
    cbn [map]. eexists. reflexivity.
Qed.

(** X3. No row is lost and none is counted twice: the bills returned are
    not empty, every bill has at least one line item, and the line items
    of all bills together are as many as the rows that have a vendor and
    a reference. *)
Theorem bills_of_records_keeps_rows (records : list row) (bills : list Bill) :
  bills_of_records records = Ok bills ->
  bills <> []
  /\ Forall (fun b => lines b <> []) bills
  /\ exists r0 vc rc,
       hd_error records = Some r0
       /\ findActualCol (Object_keys r0) ["vendor"; "supplier"; "vendor name"]
          = Some vc
       /\ findActualCol (Object_keys r0)
            ["refnumber"; "ref number"; "reference"; "reference number";
             "docnum"; "document number"] = Some rc
       /\ List.length (flat_map lines bills)
          = List.length (filter (keyed vc rc) records).
Proof.
  intros H.
  destruct (GroupingFacts.bills_of_records_Ok records bills H)
    as (r0 & vc & rc & ic & qc & cc & E0 & E1 & E2 & _ & _ & _ & Eb).
  assert (Hex : exists bs, bills_of_records records = Ok bs) by eauto.
  apply bills_of_records_succeeds_iff in Hex.
  destruct Hex as (r0' & vc' & rc' & _ & _ & _ & E0' & E1' & E2' & _ & _ & _ & K).
  assert (r0' = r0) by congruence. subst r0'.
  assert (vc' = vc) by congruence. assert (rc' = rc) by congruence. subst.
  apply group_rows_nonempty in K.
  split; [|split].
  - destruct (group_rows vc rc records []); [congruence | discriminate].
  - apply Forall_forall. intros b Hb. apply in_map_iff in Hb.
    destruct Hb as ([k rs] & <- & Hg). rewrite lines_of_group. cbn [snd].
    destruct (GroupingFacts.grouped_all vc rc records) as (_ & Hrows & _).
    destruct (Hrows k rs Hg) as [_ Hrs].
    destruct rs; [congruence | discriminate].
  - exists r0, vc, rc. repeat split; try assumption.
    rewrite lines_of_groups, group_rows_total. reflexivity.
Qed.

End WithDayjs.

(** Three rows, one of them without a reference. *)
Lemma bills_of_records_keeps_rows_witness :
  let r1 := [("Vendor", "Acme"); ("RefNumber", "PO-1"); ("Item", "Widget");
             ("Qty", "10"); ("Cost", "2.50")] in
  let r2 := [("Vendor", "Acme"); ("RefNumber", ""); ("Item", "Nut");
             ("Qty", "3"); ("Cost", "0.10")] in
  let r3 := [("Vendor", "Bolt"); ("RefNumber", "PO-7"); ("Item", "Gadget");
             ("Qty", "2"); ("Cost", "5.00")] in
  exists bills,
    bills_of_records (lib := Reference.lib) [r1; r2; r3] = Ok bills
    /\ List.length (flat_map lines bills) = 2.
Proof.
  intros r1 r2 r3.
  destruct (bills_of_records (lib := Reference.lib) [r1; r2; r3])
    as [bs|msg] eqn:E; [|vm_compute in E; discriminate E].
  exists bs. split; [reflexivity|].
  destruct (bills_of_records_keeps_rows (lib := Reference.lib)
              [r1; r2; r3] bs E)
    as (_ & _ & r0 & vc & rc & E0 & E1 & E2 & El).
  cbn [hd_error] in E0. inversion E0; subst r0.
  vm_compute in E1. vm_compute in E2. inversion E1. inversion E2. subst.
  rewrite El. vm_compute. reflexivity.
Defined.

End ParseFacts.

(* ================================================================== *)
(** * The classifier and the column resolution of the normaliser *)
(* ================================================================== *)

Module ColumnFacts.
Import Num Server Classifier.

Lemma has_spec (h : list string) (name : string) :
  has h name = true <-> In name h.
Proof.
  unfold has, Js.arr_includes. rewrite existsb_exists. split.
  - intros (x & Hx & E). apply String.eqb_eq in E. subst. exact Hx.
  - intros H. exists name. split; [exact H | apply String.eqb_refl].
Qed.






Section WithDayjs.
Context {lib : Dayjs}.


End WithDayjs.


(** ** The order of the columns *)

Lemma has_perm (h1 h2 : list string) (name : string) :
  (forall n, In n h1 <-> In n h2) -> has h1 name = has h2 name.
Proof.
  intros H. apply eq_true_iff_eq. rewrite !has_spec. apply H.
Qed.

Lemma any_perm (h1 h2 : list string) (names : list string) :
  (forall n, In n h1 <-> In n h2) -> any h1 names = any h2 names.
Proof.
  intros H. unfold any. induction names as [|n l IH]; cbn [existsb];
    [reflexivity|]. rewrite IH, (has_perm h1 h2 n H). reflexivity.
Qed.

Lemma all_perm (h1 h2 : list string) (names : list string) :
  (forall n, In n h1 <-> In n h2) -> all h1 names = all h2 names.
Proof.
  intros H. unfold all. induction names as [|n l IH]; cbn [forallb];
    [reflexivity|]. rewrite IH, (has_perm h1 h2 n H). reflexivity.
Qed.

(** X6. The classification looks at the set of headers of the first
    record only, each lower-cased and trimmed: two files whose first
    records carry the same headers up to order, letter case and
    surrounding blanks are given the same type under the same file
    name. *)
Theorem detect_ignores_column_order (rows1 rows2 : list row)
        (filename : string) :
  (forall n, In n (getHeadersLower rows1) <-> In n (getHeadersLower rows2)) ->
  detectCsvType rows1 filename = detectCsvType rows2 filename.
Proof.
  intros H. unfold detectCsvType. cbv zeta.
  rewrite (has_perm _ _ "po_id" H).
  rewrite !(any_perm _ _ _ H), !(all_perm _ _ _ H). reflexivity.
Qed.

Lemma detect_ignores_column_order_witness :
  detectCsvType [[("Date", "1"); ("Amount", "2"); ("Memo", "3")]] "a.csv"
  = detectCsvType [[(" MEMO", "x"); ("amount ", "y"); ("date", "z")]] "a.csv".
Proof.
  apply detect_ignores_column_order. intros n. cbn. tauto.
Defined.

(** The first header of a file saved with a byte order mark carries the
    mark, and a header may be padded with no-break spaces; [trim] takes
    both away, and the columns are found under the keys as they are. *)
Example columns_with_byte_order_mark :
  let keys := [(Js.utf8 [239; 187; 191] ++ "Vendor")%string;
               ("Ref Number" ++ Js.utf8 [194; 160])%string; "Item"] in
  findActualCol keys ["vendor"; "supplier"; "vendor name"]
  = Some (Js.utf8 [239; 187; 191] ++ "Vendor")%string
  /\ findActualCol keys ["refnumber"; "ref number"; "reference"]
     = Some ("Ref Number" ++ Js.utf8 [194; 160])%string.
Proof. split; reflexivity. Qed.

End ColumnFacts.

(* ================================================================== *)
(** * Further properties of the bank import *)
(* ================================================================== *)

Module BankImportFacts.
Import Num Db DbFacts Importer.

(** ** The transactions a file gives *)

Section WithEnv.
Context {env : Env}.

Lemma batch_txns_spec (r : row) :
  Forall (fun t => mant (amount t) <> 0%Z /\ bx_raw t = r
                   /\ bx_currency t = "USD")
         (batch_txns r)
  /\ List.length (batch_txns r) <= 2.
Proof.
  unfold batch_txns. cbv zeta. unfold gt0.
  destruct (0 <? mant (batch_cr r))%Z eqn:C;
    destruct (0 <? mant (batch_dr r))%Z eqn:D;
    cbn [app List.length]; split; try lia;
    repeat constructor; cbn [amount dec_neg Math_abs mant];
    try (apply Z.ltb_lt in C); try (apply Z.ltb_lt in D); lia.
Qed.

Lemma generic_txns_spec (r : row) :
  Forall (fun t => mant (amount t) <> 0%Z /\ bx_raw t = r
                   /\ bx_currency t = "USD")
         (generic_txns r)
  /\ List.length (generic_txns r) <= 1.
Proof.
  unfold generic_txns. cbv zeta. unfold num_truthy.
  destruct (mant (parseNumber (generic_amount r)) =? 0)%Z eqn:E;
    cbn [negb List.length]; split; try lia; repeat constructor.
  cbn [amount]. apply Z.eqb_neq in E. exact E.
Qed.

(** X7. Whatever the rows hold, no transaction handed to the store has
    the amount zero; each carries the row it came from and the currency
    USD; a batch file gives at most two transactions per row, any other
    bank file at most one. *)
Theorem bank_txns_amounts (detected : Classifier.csv_type) (rows_ : list row) :
  Forall (fun t => mant (amount t) <> 0%Z /\ In (bx_raw t) rows_
                   /\ bx_currency t = "USD")
         (bank_txns detected rows_)
  /\ List.length (bank_txns detected rows_)
     <= (if Classifier.csv_type_eqb detected Classifier.bank_batch
         then 2 else 1) * List.length rows_.
Proof.
  unfold bank_txns.
  destruct (Classifier.csv_type_eqb detected Classifier.bank_batch).
  - induction rows_ as [|r l [IH1 IH2]]; cbn [flat_map List.length];
      [split; [constructor | lia]|].
    destruct (batch_txns_spec r) as [H1 H2]. split.
    + apply Forall_app. split.
      * eapply Forall_impl; [|exact H1]. intros t (A & B & C).
        repeat split; try assumption. left. symmetry. exact B.
      * eapply Forall_impl; [|exact IH1]. intros t (A & B & C).
        repeat split; try assumption. right. exact B.
    + rewrite length_app. lia.
  - induction rows_ as [|r l [IH1 IH2]]; cbn [flat_map List.length];
      [split; [constructor | lia]|].
    destruct (generic_txns_spec r) as [H1 H2]. split.
    + apply Forall_app. split.
      * eapply Forall_impl; [|exact H1]. intros t (A & B & C).
        repeat split; try assumption. left. symmetry. exact B.
      * eapply Forall_impl; [|exact IH1]. intros t (A & B & C).
        repeat split; try assumption. right. exact B.
    + rewrite length_app. lia.
Qed.

(** ** One transaction in the store *)

(** What one pass of the loop of [insertBankTransactions] writes. *)
Lemma insert_bank_txn_step (sid : nat) (t : BankTxn) (s s' : store) :
  insert_bank_txn sid t s = Done tt s' ->
  let ext := or_null (bx_external_id t) in
  fits_columns t = true
  /\ ledger_sources s' = ledger_sources s
  /\ import_metadata s' = import_metadata s
  /\ import_records s' = import_records s
  /\ (exists newB,
        rows (bank_transactions s') = rows (bank_transactions s) ++ newB
        /\ (if bank_known sid ext s then newB = []
            else exists b, newB = [b] /\ bt_source_id b = sid
                           /\ bt_external_id b = ext))
  /\ (exists newL,
        rows (ledger_transactions s') = rows (ledger_transactions s) ++ newL
        /\ (if ledger_known sid ext s then newL = []
            else exists l, newL = [l] /\ lt_source_id l = sid
                           /\ lt_external_id l = ext))
  /\ (exists newK,
        rows (ledger_links s') = rows (ledger_links s) ++ newK
        /\ List.length newK
           = if bank_known sid ext s || ledger_known sid ext s then 0 else 1).
Proof.
  unfold insert_bank_txn, insert_bank_row, insert_bank_ledger, bind, require,
    ret, raise, modify, fits_columns, bank_known, ledger_known.
  destruct (numeric 14 2 (amount t)); [|discriminate].
  destruct (numeric_opt 14 2 (num_or_null (balance_after t))); [|discriminate].
  destruct (existsb _ (rows (bank_transactions s))) eqn:B; cbn;
    match goal with
    | |- context [existsb ?p ?l] => destruct (existsb p l) eqn:L
    end; cbn; intros H; inversion H; subst; clear H; cbn;
    repeat split.
  - exists []. rewrite app_nil_r. split; reflexivity.
  - exists []. rewrite app_nil_r. split; reflexivity.
  - exists []. rewrite app_nil_r. split; reflexivity.
  - exists []. rewrite app_nil_r. split; reflexivity.
  - eexists. split; [reflexivity|]. eexists. repeat split.
  - exists []. rewrite app_nil_r. split; reflexivity.
  - eexists. split; [reflexivity|]. eexists. repeat split.
  - exists []. rewrite app_nil_r. split; reflexivity.
  - exists []. rewrite app_nil_r. split; reflexivity.
  - eexists. split; [reflexivity|]. eexists. repeat split.
  - eexists. split; [reflexivity|]. eexists. repeat split.
  - eexists. split; reflexivity.
Qed.

(** ** The loop *)

Lemma insertBankTransactions_Done (src : string) (txns : list BankTxn)
      (s s' : store) (n : nat) :
  insertBankTransactions src txns s = Done n s' <->
  n = List.length txns
  /\ exists sid sA,
       getOrCreateSource src s = Done sid sA
       /\ for_each (insert_bank_txn sid) txns sA = Done tt s'.
Proof.
  unfold insertBankTransactions. split.
  - intros H. apply bind_Done in H. destruct H as (sid & sA & HA & H).
    apply transaction_Done in H.
    apply bind_Done in H. destruct H as ([] & s1 & H1 & H).
    unfold ret in H. inversion H; subst. split; [reflexivity|]. eauto.
  - intros (-> & sid & sA & HA & H). unfold bind at 1. rewrite HA.
    apply transaction_Done. unfold bind. rewrite H. reflexivity.
Qed.

(** The tables a pass of the loop leaves alone, and those it only adds
    to. *)
Lemma bank_loop_frame (sid : nat) (txns : list BankTxn) :
  forall s s',
    for_each (insert_bank_txn sid) txns s = Done tt s' ->
    ledger_sources s' = ledger_sources s
    /\ import_metadata s' = import_metadata s
    /\ import_records s' = import_records s
    /\ (exists nb, rows (bank_transactions s')
                   = rows (bank_transactions s) ++ nb)
    /\ (exists nl, rows (ledger_transactions s')
                   = rows (ledger_transactions s) ++ nl).
Proof.
  apply for_each_Done.
  - intros s. repeat split; exists []; rewrite app_nil_r; reflexivity.
  - intros s1 s2 s3 (A1 & A2 & A3 & (nb & A4) & (nl & A5))
           (B1 & B2 & B3 & (nb' & B4) & (nl' & B5)).
    repeat split; try congruence.
    + exists (nb ++ nb'). rewrite B4, A4, app_assoc. reflexivity.
    + exists (nl ++ nl'). rewrite B5, A5, app_assoc. reflexivity.
  - intros t s s' H.
    destruct (insert_bank_txn_step sid t s s' H)
      as (_ & A1 & A2 & A3 & (nb & A4 & _) & (nl & A5 & _) & _).
    repeat split; eauto.
Qed.

Lemma bank_known_grows (sid : nat) (ext : option string) (s s' : store)
      (nb : list bank_transaction_row) :
  rows (bank_transactions s') = rows (bank_transactions s) ++ nb ->
  bank_known sid ext s = true -> bank_known sid ext s' = true.
Proof.
  unfold bank_known. intros -> H. rewrite existsb_app, H. reflexivity.
Qed.

Lemma ledger_known_grows (sid : nat) (ext : option string) (s s' : store)
      (nl : list ledger_transaction_row) :
  rows (ledger_transactions s') = rows (ledger_transactions s) ++ nl ->
  ledger_known sid ext s = true -> ledger_known sid ext s' = true.
Proof.
  unfold ledger_known. intros -> H. rewrite existsb_app, H. reflexivity.
Qed.

Lemma or_null_truthy (c : option string) :
  cell_truthy c = true -> exists e, or_null c = Some e.
Proof.
  unfold or_null. intros H. rewrite H. destruct c as [e|]; [eauto|discriminate].
Qed.

Lemma or_null_falsy (c : option string) :
  cell_truthy c = false -> or_null c = None.
Proof. unfold or_null. intros ->. reflexivity. Qed.

(** After a pass every transaction that has an external id is known to
    both tables. *)
Lemma bank_loop_covers (sid : nat) (txns : list BankTxn) :
  forall s s',
    for_each (insert_bank_txn sid) txns s = Done tt s' ->
    Forall (fun t => fits_columns t = true) txns
    /\ Forall (fun t => cell_truthy (bx_external_id t) = true ->
                        bank_known sid (or_null (bx_external_id t)) s' = true
                        /\ ledger_known sid (or_null (bx_external_id t)) s'
                           = true) txns.
Proof.
  induction txns as [|t l IH]; intros s s' H; cbn [for_each] in H.
  - split; constructor.
  - apply bind_Done in H. destruct H as ([] & s1 & H1 & H).
    destruct (IH s1 s' H) as [F1 F2].
    destruct (insert_bank_txn_step sid t s s1 H1)
      as (Hfit & _ & _ & _ & (nb & Eb & Hb) & (nl & El & Hl) & _).
    destruct (bank_loop_frame sid l s1 s' H)
      as (_ & _ & _ & (nb' & Eb') & (nl' & El')).
    split; constructor; try assumption.
    intros Ht. destruct (or_null_truthy _ Ht) as [e Ee]. rewrite Ee in *.
    split.
    + apply (bank_known_grows _ _ s1 s' nb' Eb').
      destruct (bank_known sid (Some e) s) eqn:K.
      * apply (bank_known_grows _ _ s s1 nb Eb K).
      * destruct Hb as (b & -> & Hs & He). unfold bank_known.
        rewrite Eb, existsb_app. cbn [existsb]. rewrite Hs, He.
        rewrite InvoiceFacts.same_key_refl. apply orb_true_r.
    + apply (ledger_known_grows _ _ s1 s' nl' El').
      destruct (ledger_known sid (Some e) s) eqn:K.
      * apply (ledger_known_grows _ _ s s1 nl El K).
      * destruct Hl as (b & -> & Hs & He). unfold ledger_known.
        rewrite El, existsb_app. cbn [existsb]. rewrite Hs, He.
        rewrite InvoiceFacts.same_key_refl. apply orb_true_r.
Qed.

(** A pass over transactions that are all known writes no row. *)
Lemma bank_loop_skips (sid : nat) (txns : list BankTxn) :
  forall s,
    Forall (fun t => fits_columns t = true) txns ->
    Forall (fun t => bank_known sid (or_null (bx_external_id t)) s = true
                     /\ ledger_known sid (or_null (bx_external_id t)) s
                        = true) txns ->
    exists s',
      for_each (insert_bank_txn sid) txns s = Done tt s'
      /\ rows (bank_transactions s') = rows (bank_transactions s)
      /\ rows (ledger_transactions s') = rows (ledger_transactions s)
      /\ rows (ledger_links s') = rows (ledger_links s).
Proof.
  induction txns as [|t l IH]; intros s Hf Hk; cbn [for_each].
  - exists s. repeat split; reflexivity.
  - inversion Hf as [|? ? Hft Hfl]; subst.
    inversion Hk as [|? ? [Kb Kl] Hkl]; subst.
    destruct (BankStoreFacts.insert_bank_txn_total sid t s Hft) as [s1 H1].
    destruct (insert_bank_txn_step sid t s s1 H1)
      as (_ & _ & _ & _ & (nb & Eb & Hb) & (nl & El & Hl) & (nk & Ek & Hk1)).
    rewrite Kb in Hb, Hk1. rewrite Kl in Hl. subst nb nl.
    cbn [orb] in Hk1. destruct nk; [|discriminate].
    rewrite app_nil_r in Eb, El, Ek.
    assert (Hk' : Forall (fun t0 =>
                    bank_known sid (or_null (bx_external_id t0)) s1 = true
                    /\ ledger_known sid (or_null (bx_external_id t0)) s1
                       = true) l).
    { eapply Forall_impl; [|exact Hkl]. intros t0 [A B].
      unfold bank_known, ledger_known in *. rewrite Eb, El. tauto. }
    destruct (IH s1 Hfl Hk') as (s' & H & A & B & C).
    exists s'. unfold bind. rewrite H1. repeat split; congruence.
Qed.

Lemma same_key_null (a : nat) (x : option string) (b : nat) :
  same_key a x b None = false.
Proof. destruct x; reflexivity. Qed.

Lemma never_known (sid : nat) (s : store) :
  bank_known sid None s = false /\ ledger_known sid None s = false.
Proof.
  unfold bank_known, ledger_known. split.
  - induction (rows (bank_transactions s)) as [|r l IH]; cbn [existsb];
      [reflexivity|]. rewrite same_key_null. exact IH.
  - induction (rows (ledger_transactions s)) as [|r l IH]; cbn [existsb];
      [reflexivity|]. rewrite same_key_null. exact IH.
Qed.

(** A pass over transactions without external id writes a row of each
    table per transaction. *)
Lemma bank_loop_unkeyed (sid : nat) (txns : list BankTxn) :
  forall s s',
    Forall (fun t => cell_truthy (bx_external_id t) = false) txns ->
    for_each (insert_bank_txn sid) txns s = Done tt s' ->
    List.length (rows (bank_transactions s'))
    = List.length (rows (bank_transactions s)) + List.length txns
    /\ List.length (rows (ledger_transactions s'))
       = List.length (rows (ledger_transactions s)) + List.length txns
    /\ List.length (rows (ledger_links s'))
       = List.length (rows (ledger_links s)) + List.length txns.
Proof.
  induction txns as [|t l IH]; intros s s' Hn H; cbn [for_each] in H.
  - inversion H; subst. cbn [List.length]. lia.
  - inversion Hn as [|? ? Ht Hl]; subst.
    apply bind_Done in H. destruct H as ([] & s1 & H1 & H).
    destruct (IH s1 s' Hl H) as (A & B & C).
    destruct (insert_bank_txn_step sid t s s1 H1)
      as (_ & _ & _ & _ & (nb & Eb & Hb) & (nl & El & Hl') & (nk & Ek & Hk)).
    rewrite (or_null_falsy _ Ht) in Hb, Hl', Hk.
    destruct (never_known sid s) as [N1 N2]. rewrite N1 in Hb, Hk.
    rewrite N2 in Hl', Hk. cbn [orb] in Hk.
    destruct Hb as (b & -> & _). destruct Hl' as (b' & -> & _).
    rewrite A, B, C, Eb, El, Ek, !length_app, Hk. cbn [List.length]. lia.
Qed.

(** X9. Importing again transactions that all carry an external id
    writes nothing: the second call returns the same count, and the rows
    of bank_transactions, ledger_transactions and ledger_links are those
    the first call left. *)
Theorem insertBankTransactions_twice (src : string) (txns : list BankTxn)
        (s s1 : store) (n : nat) :
  Forall (fun t => cell_truthy (bx_external_id t) = true) txns ->
  insertBankTransactions src txns s = Done n s1 ->
  exists s2,
    insertBankTransactions src txns s1 = Done n s2
    /\ rows (bank_transactions s2) = rows (bank_transactions s1)
    /\ rows (ledger_transactions s2) = rows (ledger_transactions s1)
    /\ rows (ledger_links s2) = rows (ledger_links s1).
Proof.
  intros Hext H. apply insertBankTransactions_Done in H.
  destruct H as (-> & sid & sA & HA & H).
  destruct (bank_loop_covers sid txns sA s1 H) as [Hfit Hcov].
  destruct (bank_loop_frame sid txns sA s1 H) as (Esrc & _).
  destruct (InvoiceFacts.source_created src s sA sid HA) as (_ & _ & _ & _ & Hagain).
  specialize (Hagain s1 Esrc).
  assert (Hk : Forall (fun t =>
                 bank_known sid (or_null (bx_external_id t)) s1 = true
                 /\ ledger_known sid (or_null (bx_external_id t)) s1 = true)
                 txns).
  { rewrite Forall_forall in *. intros t Ht. apply (Hcov t Ht), (Hext t Ht). }
  destruct (bank_loop_skips sid txns s1 Hfit Hk) as (s2 & H2 & A & B & C).
  exists s2. split; [|repeat split; assumption].
  apply insertBankTransactions_Done. split; [reflexivity|]. eauto.
Qed.

(** X10. Transactions without an external id never meet the uniqueness
    constraint: every call that returns has written one row of
    bank_transactions, one of ledger_transactions and one link per
    transaction, also when the same list was inserted before. *)
Theorem insertBankTransactions_unkeyed (src : string) (txns : list BankTxn)
        (s s' : store) (n : nat) :
  Forall (fun t => cell_truthy (bx_external_id t) = false) txns ->
  insertBankTransactions src txns s = Done n s' ->
  List.length (rows (bank_transactions s'))
  = List.length (rows (bank_transactions s)) + List.length txns
  /\ List.length (rows (ledger_transactions s'))
     = List.length (rows (ledger_transactions s)) + List.length txns
  /\ List.length (rows (ledger_links s'))
     = List.length (rows (ledger_links s)) + List.length txns.
Proof.
  intros Hn H. apply insertBankTransactions_Done in H.
  destruct H as (-> & sid & sA & HA & H).
  destruct (bank_loop_unkeyed sid txns sA s' Hn H) as (A & B & C).
  assert (E : bank_transactions sA = bank_transactions s
              /\ ledger_transactions sA = ledger_transactions s
              /\ ledger_links sA = ledger_links s).
  { unfold getOrCreateSource in HA.
    destruct (find _ _); inversion HA; subst; repeat split. }
  destruct E as (E1 & E2 & E3). rewrite E1, E2, E3 in *. auto.
Qed.

(** X8. Whenever [importBankFile] returns, it reports the number of
    transactions it made of the rows as imported, names the metadata row
    it created, and has written that one row of import_metadata and one
    row of import_records per parsed row. *)
Theorem importBankFile_result (content fname : string)
        (mimetype : option string) (rows_ : list row)
        (detected : Classifier.csv_type) (s : store) :
  forall r s',
    importBankFile content fname mimetype rows_ detected s = Done r s' ->
    imported r = Some (List.length (bank_txns detected rows_))
    /\ detectedType r = detected /\ error r = None
    /\ (exists id, import_meta_id r = Some id
                   /\ existsb (fun m => Nat.eqb (im_id m) id)
                              (rows (import_metadata s')) = true)
    /\ List.length (rows (import_metadata s'))
       = S (List.length (rows (import_metadata s)))
    /\ List.length (rows (import_records s'))
       = List.length (rows (import_records s)) + List.length rows_.
Proof.
  unfold importBankFile. cbv zeta.
  set (src := if Classifier.csv_type_eqb detected Classifier.bank_batch
              then "FNBPA" else "BankCSV").
  set (ty := match detected with
             | Classifier.bank_batch => "bank_batch"
             | _ => "bank_generic"
             end).
  set (recs := map _ rows_).
  destruct (DuplicateFacts.createImportMetadata_spec src ty
              (import_meta_of fname mimetype rows_) s)
    as (id & ts & tm & Hmeta & Hlen & Hex & _).
  set (s1 := set_import_metadata tm (set_ledger_sources ts s)) in *.
  destruct (DuplicateFacts.addImportRecords_spec id recs s1 Hex)
    as (tr & Hrec & Hlr).
  set (s2 := set_import_records tr s1) in *.
  assert (Hr : List.length recs = List.length rows_) by apply length_map.
  intros r s' H. unfold bind at 1 in H. rewrite Hmeta in H.
  unfold bind at 1 in H. rewrite Hrec in H.
  apply bind_Done in H. destruct H as (count & s3 & H3 & H).
  unfold ret in H. inversion H; subst r s3; clear H.
  apply insertBankTransactions_Done in H3.
  destruct H3 as (-> & sid & sA & HA & H3).
  destruct (bank_loop_frame sid _ sA s' H3) as (_ & E2 & E3 & _).
  assert (EA : import_metadata sA = import_metadata s2
               /\ import_records sA = import_records s2).
  { unfold getOrCreateSource in HA.
    destruct (find _ _); inversion HA; subst; split; reflexivity. }
  destruct EA as [EA1 EA2]. cbn [imported detectedType error import_meta_id].
  rewrite E2, E3, EA1, EA2. cbn [import_metadata import_records s2 s1
    set_import_records set_import_metadata set_ledger_sources].
  change (import_records s1) with (import_records s) in Hlr.
  split; [reflexivity|]. split; [reflexivity|]. split; [reflexivity|].
  split; [exists id; split; [reflexivity | exact Hex]|].
  split; [exact Hlen | lia].
Qed.

End WithEnv.

(** A batch file of one row. *)
Lemma importBankFile_result_witness :
  exists r s',
    importBankFile (env := Reference.env) "bytes" "batch.csv" None
      [[("Reference Number", "R-17"); ("DR Amount", "50");
        ("CR Amount", "30")]]
      Classifier.bank_batch empty_store = Done r s'
    /\ imported r = Some 2.
Proof.
  destruct (importBankFile (env := Reference.env) "bytes" "batch.csv" None
              [[("Reference Number", "R-17"); ("DR Amount", "50");
                ("CR Amount", "30")]]
              Classifier.bank_batch empty_store) as [r s'|m s'] eqn:H;
    [|vm_compute in H; discriminate H].
  exists r, s'. split; [reflexivity|].
  destruct (importBankFile_result (env := Reference.env) "bytes" "batch.csv"
              None
              [[("Reference Number", "R-17"); ("DR Amount", "50");
                ("CR Amount", "30")]]
              Classifier.bank_batch empty_store r s' H) as (E & _).
  rewrite E. reflexivity.
Defined.

(** The two sides of a batch row, inserted twice. *)
Lemma insertBankTransactions_twice_witness :
  let txns := batch_txns (env := Reference.env)
                [("Reference Number", "R-17"); ("DR Amount", "50");
                 ("CR Amount", "30")] in
  let s1 := final (insertBankTransactions "FNBPA" txns empty_store) in
  exists s2,
    insertBankTransactions "FNBPA" txns s1 = Done 2 s2
    /\ List.length (rows (bank_transactions s2)) = 2.
Proof.
  intros txns s1.
  assert (Hext : Forall (fun t => cell_truthy (bx_external_id t) = true) txns)
    by (repeat constructor).
  assert (H1 : insertBankTransactions "FNBPA" txns empty_store = Done 2 s1)
    by (vm_compute; reflexivity).
  destruct (insertBankTransactions_twice "FNBPA" txns empty_store s1 2 Hext H1)
    as (s2 & H2 & E & _).
  exists s2. split; [exact H2|]. rewrite E. vm_compute. reflexivity.
Defined.

(** A generic row without transaction id, inserted twice. *)
Lemma insertBankTransactions_unkeyed_witness :
  let txns := generic_txns (env := Reference.env)
                [("Date", "01/05/2024"); ("Description", "fee");
                 ("Debit", "12.50")] in
  let s1 := final (insertBankTransactions "BankCSV" txns empty_store) in
  let s2 := final (insertBankTransactions "BankCSV" txns s1) in
  List.length (rows (bank_transactions s2)) = 2.
Proof.
  intros txns s1 s2.
  assert (Hn : Forall (fun t => cell_truthy (bx_external_id t) = false) txns)
    by (repeat constructor).
  assert (H2 : insertBankTransactions "BankCSV" txns s1 = Done 1 s2)
    by (vm_compute; reflexivity).
  destruct (insertBankTransactions_unkeyed "BankCSV" txns s1 s2 1 Hn H2)
    as (E & _).
  rewrite E. vm_compute. reflexivity.
Defined.

End BankImportFacts.

(* ================================================================== *)
(** * Further properties of the store (database.js) *)
(* ================================================================== *)

Module StoreFacts.
Import Num Db DbFacts.

Lemma find_none_map {R : Type} (key : R -> string) (k : string) (l : list R) :
  find (fun r => String.eqb (key r) k) l = None -> ~ In k (map key l).
Proof.
  intros F Hin. apply in_map_iff in Hin. destruct Hin as (r & E & Hr).
  pose proof (find_none _ _ F r Hr) as N. cbn beta in N.
  rewrite E, String.eqb_refl in N. discriminate.
Qed.

Section WithEnv.
Context {env : Env}.

(** X11. The file store is addressed by content: once [storeCsvImport]
    has returned for some bytes, every later call with the same bytes,
    under whatever file name, is answered as a duplicate with the id of
    the first, and leaves the store as it is; checksums stay distinct. *)
Theorem storeCsvImport_twice (fname1 fname2 content : string)
        (s s1 : store) (r1 : store_result) :
  storeCsvImport fname1 content s = Done r1 s1 ->
  (exists r2,
      storeCsvImport fname2 content s1 = Done r2 s1
      /\ sr_id r2 = sr_id r1 /\ sr_isDuplicate r2 = true)
  /\ (NoDup (map checksum (rows (csv_imports s))) ->
      NoDup (map checksum (rows (csv_imports s1)))).
Proof.
  unfold storeCsvImport. cbv zeta.
  destruct (find _ (rows (csv_imports s))) as [r|] eqn:F; intros H;
    inversion H; subst; clear H.
  - split; [|exact (fun H => H)]. rewrite F. eexists.
    split; [reflexivity|]. split; reflexivity.
  - cbn [csv_imports set_csv_imports insert_row rows fst snd]. split.
    + rewrite (DuplicateFacts.find_app_none _ _ _ F). cbn [find checksum].
      rewrite String.eqb_refl. eexists. split; [reflexivity|].
      split; reflexivity.
    + intros Hnd. rewrite map_app. cbn [map checksum].
      apply NoDup_snoc; [exact Hnd|]. apply (find_none_map checksum). exact F.
Qed.

(** X12. [getOrCreateSource] finds what it created: a second call with
    the same name returns the same id and changes nothing, the row of
    that id carries the name, the rows of other names are as before, and
    names stay distinct. *)
Theorem getOrCreateSource_stable (name : string) (s s' : store) (id : nat) :
  getOrCreateSource name s = Done id s' ->
  getOrCreateSource name s' = Done id s'
  /\ (exists r, In r (rows (ledger_sources s'))
                /\ src_id r = id /\ src_name r = name)
  /\ (forall other, other <> name ->
        find (fun r => String.eqb (src_name r) other)
             (rows (ledger_sources s'))
        = find (fun r => String.eqb (src_name r) other)
               (rows (ledger_sources s)))
  /\ (NoDup (map src_name (rows (ledger_sources s))) ->
      NoDup (map src_name (rows (ledger_sources s')))).
Proof.
  unfold getOrCreateSource.
  destruct (find _ (rows (ledger_sources s))) as [r|] eqn:F; intros H;
    inversion H; subst; clear H.
  - rewrite F. split; [reflexivity|]. apply find_some in F.
    destruct F as [Hin E]. apply String.eqb_eq in E.
    split; [exists r; auto|]. split; [reflexivity | exact (fun H => H)].
  - cbn [ledger_sources set_ledger_sources insert_row rows fst snd].
    rewrite (DuplicateFacts.find_app_none _ _ _ F). cbn [find src_name].
    rewrite String.eqb_refl. split; [reflexivity|]. split; [|split].
    + eexists. split; [apply in_or_app; right; left; reflexivity|].
      split; reflexivity.
    + intros other Hother.
      destruct (find (fun r => String.eqb (src_name r) other)
                     (rows (ledger_sources s))) as [r|] eqn:G.
      * apply (DuplicateFacts.find_app_some _ _ _ _ G).
      * rewrite (DuplicateFacts.find_app_none _ _ _ G). cbn [find src_name].
        assert (E : String.eqb name other = false)
          by (apply String.eqb_neq; congruence).
        rewrite E. reflexivity.
    + intros Hnd. rewrite map_app. cbn [map src_name].
      apply NoDup_snoc; [exact Hnd|]. apply (find_none_map src_name). exact F.
Qed.

(** ** Clients and tenants *)

Lemma latest_snoc {R : Type} (id : R -> nat) (p : R -> bool) (l : list R)
      (x : R) :
  latest id p l = None -> p x = true -> latest id p (l ++ [x]) = Some x.
Proof.
  unfold latest. intros H Hx. rewrite fold_left_app, H. cbn [fold_left].
  rewrite Hx. reflexivity.
Qed.

Lemma getOrCreateClient_again (src : string) (ext name : option string)
      (s s' : store) (r : nat * string) :
  getOrCreateClient src ext name s = Done r s' ->
  getOrCreateClient src ext name s' = Done r s'.
Proof.
  intros H. unfold getOrCreateClient in H.
  apply bind_Done in H. destruct H as (sid & sA & HA & H).
  destruct (InvoiceFacts.source_created src s sA sid HA)
    as (_ & _ & _ & _ & Hagain).
  unfold bind at 1, gets at 1 in H.
  assert (Goal_ : forall s2,
            ledger_sources s2 = ledger_sources sA ->
            (byExt <- gets (fun s0 =>
               if cell_truthy ext then
                 find (fun r0 => Nat.eqb (cl_source_id r0) sid
                                 && opt_eqb (cl_external_id r0) (or_empty ext))
                      (rows (clients s0))
               else None) ;;
             match byExt with
             | Some r0 => ret (cl_id r0, msp_customer_uuid r0)
             | None =>
                 byName <- gets (fun s0 =>
                   match name with
                   | Some n =>
                       latest cl_id
                         (fun r0 => String.eqb (Js.toLowerCase (cl_name r0))
                                               (Js.toLowerCase n))
                         (rows (clients s0))
                   | None => None
                   end) ;;
                 match byName with
                 | Some r0 => ret (cl_id r0, msp_customer_uuid r0)
                 | None =>
                     uuid <- draw_uuid ;;
                     n <- require "null value in column name" name ;;
                     fun s0 =>
                       if existsb (fun r0 => String.eqb (msp_customer_uuid r0)
                                                        uuid)
                                  (rows (clients s0))
                       then Raised "clients_msp_customer_uuid_key"
                                   (set_clients (burn (clients s0)) s0)
                       else
                         let (id, t) :=
                           insert_row (fun id => mkClient id sid ext n uuid)
                                      (clients s0) in
                         Done (id, uuid) (set_clients t s0)
                 end
             end) s2 = Done r s2 ->
            getOrCreateClient src ext name s2 = Done r s2).
  { intros s2 E2 G. unfold getOrCreateClient. unfold bind at 1.
    rewrite (Hagain s2 E2). exact G. }
  set (byExt := if cell_truthy ext
                then find (fun r0 => Nat.eqb (cl_source_id r0) sid
                                     && opt_eqb (cl_external_id r0)
                                                (or_empty ext))
                          (rows (clients sA))
                else None) in H.
  destruct byExt as [r0|] eqn:Eb.
  - unfold ret in H. inversion H; subst r s'; clear H.
    apply Goal_; [reflexivity|]. unfold bind, gets. fold byExt. rewrite Eb.
    reflexivity.
  - unfold bind at 1, gets at 1 in H.
    set (byName := match name with
                   | Some n =>
                       latest cl_id
                         (fun r0 => String.eqb (Js.toLowerCase (cl_name r0))
                                               (Js.toLowerCase n))
                         (rows (clients sA))
                   | None => None
                   end) in H.
    destruct byName as [r0|] eqn:En.
    + unfold ret in H. inversion H; subst r s'; clear H.
      apply Goal_; [reflexivity|]. unfold bind, gets. fold byExt. rewrite Eb.
      fold byName. rewrite En. reflexivity.
    + unfold bind at 1, draw_uuid at 1 in H.
      unfold bind at 1 in H. destruct name as [n|]; [|discriminate H].
      cbn [require ret] in H.
      cbn [clients set_uuids_drawn] in H.
      destruct (existsb _ (rows (clients sA))) eqn:Eu; [discriminate H|].
      cbn [insert_row] in H. inversion H; subst r s'; clear H.
      apply Goal_; [reflexivity|]. unfold bind at 1, gets at 1.
      cbn [clients set_clients set_uuids_drawn rows].
      destruct (cell_truthy ext) eqn:Et.
      * subst byExt. rewrite (DuplicateFacts.find_app_none _ _ _ Eb).
        cbn [find cl_source_id cl_external_id]. rewrite Nat.eqb_refl.
        destruct ext as [e|]; [|discriminate Et]. cbn [opt_eqb or_empty].
        rewrite String.eqb_refl. reflexivity.
      * unfold bind at 1, gets at 1.
        cbn [clients set_clients set_uuids_drawn rows].
        subst byName.
        rewrite (latest_snoc cl_id _ _ _ En)
          by (cbn [cl_name]; apply String.eqb_refl).
        reflexivity.
Qed.

Lemma getOrCreateTenant_again (src : string) (ext name : option string)
      (s s' : store) (r : nat * string) :
  getOrCreateTenant src ext name s = Done r s' ->
  getOrCreateTenant src ext name s' = Done r s'.
Proof.
  intros H. unfold getOrCreateTenant in H.
  apply bind_Done in H. destruct H as (sid & sA & HA & H).
  destruct (InvoiceFacts.source_created src s sA sid HA)
    as (_ & _ & _ & _ & Hagain).
  unfold bind at 1, gets at 1 in H.
  assert (Goal_ : forall s2,
            ledger_sources s2 = ledger_sources sA ->
            (byExt <- gets (fun s0 =>
               if cell_truthy ext then
                 find (fun r0 => Nat.eqb (te_source_id r0) sid
                                 && opt_eqb (te_external_id r0) (or_empty ext))
                      (rows (msp_tenants s0))
               else None) ;;
             match byExt with
             | Some r0 => ret (te_id r0, msp_tenant_uuid r0)
             | None =>
                 byName <- gets (fun s0 =>
                   match name with
                   | Some n =>
                       latest te_id
                         (fun r0 => String.eqb (Js.toLowerCase (te_name r0))
                                               (Js.toLowerCase n))
                         (rows (msp_tenants s0))
                   | None => None
                   end) ;;
                 match byName with
                 | Some r0 => ret (te_id r0, msp_tenant_uuid r0)
                 | None =>
                     uuid <- draw_uuid ;;
                     n <- require "null value in column name" name ;;
                     fun s0 =>
                       if existsb (fun r0 => String.eqb (msp_tenant_uuid r0)
                                                        uuid)
                                  (rows (msp_tenants s0))
                       then Raised "msp_tenants_msp_tenant_uuid_key"
                                   (set_msp_tenants (burn (msp_tenants s0)) s0)
                       else
                         let (id, t) :=
                           insert_row (fun id => mkTenant id sid ext n uuid)
                                      (msp_tenants s0) in
                         Done (id, uuid) (set_msp_tenants t s0)
                 end
             end) s2 = Done r s2 ->
            getOrCreateTenant src ext name s2 = Done r s2).
  { intros s2 E2 G. unfold getOrCreateTenant. unfold bind at 1.
    rewrite (Hagain s2 E2). exact G. }
  set (byExt := if cell_truthy ext
                then find (fun r0 => Nat.eqb (te_source_id r0) sid
                                     && opt_eqb (te_external_id r0)
                                                (or_empty ext))
                          (rows (msp_tenants sA))
                else None) in H.
  destruct byExt as [r0|] eqn:Eb.
  - unfold ret in H. inversion H; subst r s'; clear H.
    apply Goal_; [reflexivity|]. unfold bind, gets. fold byExt. rewrite Eb.
    reflexivity.
  - unfold bind at 1, gets at 1 in H.
    set (byName := match name with
                   | Some n =>
                       latest te_id
                         (fun r0 => String.eqb (Js.toLowerCase (te_name r0))
                                               (Js.toLowerCase n))
                         (rows (msp_tenants sA))
                   | None => None
                   end) in H.
    destruct byName as [r0|] eqn:En.
    + unfold ret in H. inversion H; subst r s'; clear H.
      apply Goal_; [reflexivity|]. unfold bind, gets. fold byExt. rewrite Eb.
      fold byName. rewrite En. reflexivity.
    + unfold bind at 1, draw_uuid at 1 in H.
      unfold bind at 1 in H. destruct name as [n|]; [|discriminate H].
      cbn [require ret] in H.
      cbn [msp_tenants set_uuids_drawn] in H.
      destruct (existsb _ (rows (msp_tenants sA))) eqn:Eu; [discriminate H|].
      cbn [insert_row] in H. inversion H; subst r s'; clear H.
      apply Goal_; [reflexivity|]. unfold bind at 1, gets at 1.
      cbn [msp_tenants set_msp_tenants set_uuids_drawn rows].
      destruct (cell_truthy ext) eqn:Et.
      * subst byExt. rewrite (DuplicateFacts.find_app_none _ _ _ Eb).
        cbn [find te_source_id te_external_id]. rewrite Nat.eqb_refl.
        destruct ext as [e|]; [|discriminate Et]. cbn [opt_eqb or_empty].
        rewrite String.eqb_refl. reflexivity.
      * unfold bind at 1, gets at 1.
        cbn [msp_tenants set_msp_tenants set_uuids_drawn rows].
        subst byName.
        rewrite (latest_snoc te_id _ _ _ En)
          by (cbn [te_name]; apply String.eqb_refl).
        reflexivity.
Qed.

(** X13. A client, and a tenant, is found again once it was found or
    made: a second call of [getOrCreateClient] ([getOrCreateTenant]) with
    the same source, external id and name returns the same id and the
    same UUID and leaves the store as it is. *)
Theorem client_and_tenant_found_again (src : string)
        (ext name : option string) (s s' : store) (r : nat * string) :
  (getOrCreateClient src ext name s = Done r s' ->
   getOrCreateClient src ext name s' = Done r s')
  /\ (getOrCreateTenant src ext name s = Done r s' ->
      getOrCreateTenant src ext name s' = Done r s').
Proof.
  split; [apply getOrCreateClient_again | apply getOrCreateTenant_again].
Qed.

End WithEnv.

Lemma client_and_tenant_found_again_witness :
  let s1 := final (getOrCreateClient (env := Reference.env) "HaloPSA"
                     (Some "C-9") (Some "Acme") empty_store) in
  let s2 := final (getOrCreateTenant (env := Reference.env) "HaloPSA"
                     None (Some "Acme") s1) in
  getOrCreateClient (env := Reference.env) "HaloPSA" (Some "C-9")
    (Some "Acme") s1 = Done (1, "uuid-0") s1
  /\ getOrCreateTenant (env := Reference.env) "HaloPSA" None (Some "Acme") s2
     = Done (1, "uuid-1") s2.
Proof.
  intros s1 s2. split.
  - apply (client_and_tenant_found_again (env := Reference.env) "HaloPSA"
             (Some "C-9") (Some "Acme") empty_store s1 (1, "uuid-0")).
    vm_compute. reflexivity.
  - apply (client_and_tenant_found_again (env := Reference.env) "HaloPSA"
             None (Some "Acme") s1 s2 (1, "uuid-1")).
    vm_compute. reflexivity.
Defined.

Lemma storeCsvImport_twice_witness :
  exists r2 s1,
    storeCsvImport (env := Reference.env) "again.csv" "bytes" s1 = Done r2 s1
    /\ sr_id r2 = 1 /\ sr_isDuplicate r2 = true.
Proof.
  destruct (storeCsvImport (env := Reference.env) "po.csv" "bytes" empty_store)
    as [r1 s1|msg s1] eqn:E; [|vm_compute in E; discriminate E].
  destruct (storeCsvImport_twice (env := Reference.env) "po.csv" "again.csv"
              "bytes" empty_store s1 r1 E) as ((r2 & H2 & Eid & Edup) & _).
  exists r2, s1. split; [exact H2|]. split; [|exact Edup].
  rewrite Eid. vm_compute in E. inversion E. reflexivity.
Defined.

Lemma getOrCreateSource_stable_witness :
  exists s', getOrCreateSource "FNBPA" s' = Done 1 s'.
Proof.
  destruct (getOrCreateSource "FNBPA" empty_store) as [id s'|msg s'] eqn:E;
    [|vm_compute in E; discriminate E].
  destruct (getOrCreateSource_stable "FNBPA" empty_store s' id E) as (H & _).
  exists s'. vm_compute in E. inversion E; subst. exact H.
Defined.

End StoreFacts.

(* ================================================================== *)
(** * Further properties of [processCsvImport] *)
(* ================================================================== *)

Module ProcessFacts.
Import Num Db DbFacts.

(** ** The store a call leaves, returned or thrown *)

Lemma bind_final {A B : Type} (R : store -> store -> Prop)
      (c : M A) (k : A -> M B) (s : store) :
  (forall s1 s2 s3, R s1 s2 -> R s2 s3 -> R s1 s3) ->
  R s (final (c s)) ->
  (forall a s1, c s = Done a s1 -> R s1 (final (k a s1))) ->
  R s (final (bind c k s)).
Proof.
  intros Htrans Hc Hk. unfold bind. destruct (c s) as [a s1|msg s1] eqn:E.
  - apply (Htrans _ s1); [exact Hc | apply Hk; reflexivity].
  - exact Hc.
Qed.

Lemma for_each_final {A : Type} (R : store -> store -> Prop)
      (f : A -> M unit) :
  (forall s, R s s) ->
  (forall s1 s2 s3, R s1 s2 -> R s2 s3 -> R s1 s3) ->
  (forall x s, R s (final (f x s))) ->
  forall l s, R s (final (for_each f l s)).
Proof.
  intros Hrefl Htrans Hstep l. induction l as [|x l IH]; intros s;
    cbn [for_each].
  - apply Hrefl.
  - apply bind_final; [exact Htrans | apply Hstep | intros; apply IH].
Qed.

Lemma outside_refl (s : store) : outside_processing s s.
Proof. repeat split. Qed.

Lemma outside_trans (s1 s2 s3 : store) :
  outside_processing s1 s2 -> outside_processing s2 s3 ->
  outside_processing s1 s3.
Proof.
  unfold outside_processing. intros H1 H2.
  repeat match goal with H : _ /\ _ |- _ => destruct H end.
  repeat split; congruence.
Qed.

(** Unfold the calls of a line and decide every test. *)
Ltac settle :=
  unfold process_line, upsert_inventory, insert_inventory_transaction,
    bind, require, gets, modify, ret, raise, insert_row;
  repeat match goal with
         | |- context [match ?x with _ => _ end] =>
             lazymatch x with
             | context [match _ with _ => _ end] => fail
             | _ => destruct x
             end
         end;
  cbn; repeat split.

Lemma process_line_outside (tid : nat) (bill : Bill) (line : LineItem)
      (s : store) :
  outside_processing s (final (process_line tid bill line s)).
Proof. unfold outside_processing. settle. Qed.

Lemma process_bill_outside (importId : nat) (bill : Bill) (s : store) :
  outside_processing s (final (process_bill importId bill s)).
Proof.
  unfold process_bill.
  apply bind_final; [exact outside_trans | |].
  - unfold require, ret, raise. destruct (numeric _ _ _); apply outside_refl.
  - intros total s1 _.
    apply bind_final; [exact outside_trans | |].
    + unfold insert_row. destruct (existsb _ _); cbn; repeat split.
    + intros tid s2 _. apply for_each_final;
        [exact outside_refl | exact outside_trans |].
      intros line s3. apply process_line_outside.
Qed.

(** X14. [processCsvImport] is all or nothing: when it throws, whatever
    the reason and however far it got, every table holds the rows it
    held before the call, and the tables outside bill processing are
    untouched (only sequence values are used up). *)
Theorem processCsvImport_rolls_back (importId : nat) (bills : list Bill)
        (s s' : store) (msg : string) :
  processCsvImport importId bills s = Raised msg s' ->
  outside_processing s s' /\ same_bill_rows s s'.
Proof.
  unfold processCsvImport, transaction.
  set (body := bind _ _).
  assert (F : outside_processing s (final (body s))).
  { unfold body. apply bind_final; [exact outside_trans | |].
    - apply for_each_final; [exact outside_refl | exact outside_trans |].
      intros b s0. apply process_bill_outside.
    - intros [] s1 _. unfold modify. cbn. repeat split. }
  destruct (body s) as [a sb|m sb]; [discriminate|].
  intros H. inversion H; subst; clear H. cbn [final] in F.
  unfold outside_processing, same_bill_rows in *.
  repeat match goal with H : _ /\ _ |- _ => destruct H end.
  cbn. repeat split; assumption.
Qed.

(** ** What a call that returns has written *)

(** Decide every test of a run that returned. *)
Ltac returned H :=
  repeat match type of H with
         | context [match ?x with _ => _ end] =>
             lazymatch x with
             | context [match _ with _ => _ end] => fail
             | _ => destruct x eqn:?
             end
         end;
  try discriminate; inversion H; subst; clear H.

Lemma process_line_counts (tid : nat) (bill : Bill) (line : LineItem)
      (s s' : store) :
  process_line tid bill line s = Done tt s' ->
  transactions s' = transactions s /\ csv_imports s' = csv_imports s
  /\ List.length (rows (line_items s'))
     = S (List.length (rows (line_items s)))
  /\ List.length (rows (inventory_transactions s'))
     = S (List.length (rows (inventory_transactions s))).
Proof.
  unfold process_line, upsert_inventory, insert_inventory_transaction,
    bind, require, gets, modify, ret, raise, insert_row.
  intros H. returned H; cbn; rewrite ?length_app; cbn;
    repeat split; lia.
Qed.

Lemma process_lines_counts (tid : nat) (bill : Bill) (l : list LineItem) :
  forall s s',
    for_each (process_line tid bill) l s = Done tt s' ->
    transactions s' = transactions s /\ csv_imports s' = csv_imports s
    /\ List.length (rows (line_items s'))
       = List.length (rows (line_items s)) + List.length l
    /\ List.length (rows (inventory_transactions s'))
       = List.length (rows (inventory_transactions s)) + List.length l.
Proof.
  induction l as [|x l IH]; intros s s' H; cbn [for_each] in H.
  - inversion H; subst. cbn [List.length]. repeat split; lia.
  - apply bind_Done in H. destruct H as ([] & s1 & H1 & H).
    destruct (process_line_counts _ _ _ _ _ H1) as (A1 & A2 & A3 & A4).
    destruct (IH _ _ H) as (B1 & B2 & B3 & B4).
    cbn [List.length]. repeat split; try congruence; lia.
Qed.

Lemma process_bill_counts (importId : nat) (bill : Bill) (s s' : store) :
  process_bill importId bill s = Done tt s' ->
  csv_imports s' = csv_imports s
  /\ existsb (fun r => Nat.eqb (ci_id r) importId) (rows (csv_imports s))
     = true
  /\ List.length (rows (transactions s'))
     = S (List.length (rows (transactions s)))
  /\ List.length (rows (line_items s'))
     = List.length (rows (line_items s)) + List.length (lines bill)
  /\ List.length (rows (inventory_transactions s'))
     = List.length (rows (inventory_transactions s))
       + List.length (lines bill).
Proof.
  unfold process_bill. intros H.
  apply bind_Done in H. destruct H as (total & s1 & H1 & H).
  apply require_Done in H1. destruct H1 as [_ ->].
  apply bind_Done in H. destruct H as (tid & s1 & H1 & H).
  destruct (existsb _ (rows (csv_imports s))) eqn:E; [|discriminate H1].
  cbn [insert_row] in H1. inversion H1; subst tid s1; clear H1.
  destruct (process_lines_counts _ _ _ _ _ H) as (B1 & B2 & B3 & B4).
  rewrite B1, B2, B3, B4. cbn. rewrite length_app. cbn.
  repeat split; lia.
Qed.

Lemma process_bills_counts (importId : nat) (bills : list Bill) :
  forall s s',
    for_each (process_bill importId) bills s = Done tt s' ->
    csv_imports s' = csv_imports s
    /\ (bills <> [] ->
        existsb (fun r => Nat.eqb (ci_id r) importId) (rows (csv_imports s))
        = true)
    /\ List.length (rows (transactions s'))
       = List.length (rows (transactions s)) + List.length bills
    /\ List.length (rows (line_items s'))
       = List.length (rows (line_items s))
         + List.length (flat_map lines bills)
    /\ List.length (rows (inventory_transactions s'))
       = List.length (rows (inventory_transactions s))
         + List.length (flat_map lines bills).
Proof.
  induction bills as [|b l IH]; intros s s' H; cbn [for_each] in H.
  - inversion H; subst. cbn [List.length flat_map].
    repeat split; try lia. congruence.
  - apply bind_Done in H. destruct H as ([] & s1 & H1 & H).
    destruct (process_bill_counts _ _ _ _ H1) as (A1 & A2 & A3 & A4 & A5).
    destruct (IH _ _ H) as (B1 & _ & B3 & B4 & B5).
    cbn [List.length flat_map]. rewrite length_app.
    split; [congruence|]. split; [intros _; exact A2|]. repeat split; lia.
Qed.

(** X15. When [processCsvImport] returns it has written one row of
    transactions per bill, one row of line_items and one of
    inventory_transactions per line item, and has marked the import as
    processed, leaving every other import as it was; with at least one
    bill, the import id is that of a stored file. *)
Theorem processCsvImport_writes (importId : nat) (bills : list Bill)
        (s s' : store) :
  processCsvImport importId bills s = Done tt s' ->
  List.length (rows (transactions s'))
  = List.length (rows (transactions s)) + List.length bills
  /\ List.length (rows (line_items s'))
     = List.length (rows (line_items s)) + List.length (flat_map lines bills)
  /\ List.length (rows (inventory_transactions s'))
     = List.length (rows (inventory_transactions s))
       + List.length (flat_map lines bills)
  /\ rows (csv_imports s')
     = map (mark_processed importId) (rows (csv_imports s))
  /\ (bills <> [] ->
      existsb (fun r => Nat.eqb (ci_id r) importId) (rows (csv_imports s))
      = true).
Proof.
  unfold processCsvImport. intros H. apply transaction_Done in H.
  apply bind_Done in H. destruct H as ([] & s1 & H1 & H).
  unfold modify in H. inversion H; subst s'; clear H.
  destruct (process_bills_counts _ _ _ _ H1) as (A1 & A2 & A3 & A4 & A5).
  cbn. rewrite A1. repeat split; assumption.
Qed.

Lemma processCsvImport_rolls_back_witness :
  let bill := mkBill "Acme" "PO-1" "01/05/2024" (mkDec 2500 2) "01/05/2024"
                     "Due upon receipt"
                     [mkLine "Widget" "" (mkDec 10 0) (mkDec 250 2)
                             (mkDec 2500 2)] in
  exists msg s',
    processCsvImport 7 [bill] empty_store = Raised msg s'
    /\ rows (transactions s') = [].
Proof.
  intros bill.
  destruct (processCsvImport 7 [bill] empty_store) as [a s'|msg s'] eqn:E;
    [vm_compute in E; discriminate E|].
  destruct (processCsvImport_rolls_back 7 [bill] empty_store s' msg E)
    as (_ & Et & _).
  exists msg, s'. split; [reflexivity | exact Et].
Defined.

Lemma processCsvImport_writes_witness :
  let bill := mkBill "Acme" "PO-1" "01/05/2024" (mkDec 3500 2) "01/05/2024"
                     "Due upon receipt"
                     [mkLine "Widget" "" (mkDec 10 0) (mkDec 250 2)
                             (mkDec 2500 2);
                      mkLine "Gadget" "" (mkDec 2 0) (mkDec 500 2)
                             (mkDec 1000 2)] in
  let s0 := final (storeCsvImport (env := Reference.env) "po.csv" "bytes"
                     empty_store) in
  exists s',
    processCsvImport 1 [bill] s0 = Done tt s'
    /\ List.length (rows (line_items s')) = 2
    /\ map processed (rows (csv_imports s')) = [true].
Proof.
  intros bill s0.
  destruct (processCsvImport 1 [bill] s0) as [[] s'|msg s'] eqn:E;
    [|vm_compute in E; discriminate E].
  destruct (processCsvImport_writes 1 [bill] s0 s' E) as (_ & El & _ & Ec & _).
  exists s'. split; [reflexivity|]. split.
  - rewrite El. reflexivity.
  - rewrite Ec. reflexivity.
Defined.

End ProcessFacts.

(* ================================================================== *)
(** * Further properties of the invoice upsert *)
(* ================================================================== *)

Module LedgerFacts.
Import Num Db DbFacts.

(** Decide every test of a run that returned. *)
Ltac returned H :=
  repeat match type of H with
         | context [match ?x with _ => _ end] =>
             lazymatch x with
             | context [match _ with _ => _ end] => fail
             | _ => destruct x eqn:?
             end
         end;
  try discriminate; inversion H; subst; clear H;
  repeat match goal with
         | G : Done _ _ = Done _ _ |- _ => inversion G; subst; clear G
         | G : ret _ _ = Done _ _ |- _ => inversion G; subst; clear G
         | G : (_, _) = (_, _) |- _ => inversion G; subst; clear G
         | G : Raised _ _ = Done _ _ |- _ => discriminate G
         | G : raise _ _ = Done _ _ |- _ => discriminate G
         | G : context [match ?x with _ => _ end] |- _ =>
             lazymatch x with
             | context [match _ with _ => _ end] => fail
             | _ => destruct x eqn:?
             end
         end.

Section WithEnv.
Context {env : Env}.

Lemma source_keeps_ledger (src : string) (s s' : store) (id : nat) :
  getOrCreateSource src s = Done id s' ->
  ledger_transactions s' = ledger_transactions s.
Proof. unfold getOrCreateSource. intros H. returned H; reflexivity. Qed.

Lemma client_keeps_ledger (src : string) (ext name : option string)
      (s s' : store) (r : nat * string) :
  getOrCreateClient src ext name s = Done r s' ->
  ledger_transactions s' = ledger_transactions s
  /\ invoices s' = invoices s.
Proof.
  unfold getOrCreateClient, getOrCreateSource, bind, gets, ret, require,
    raise, draw_uuid, insert_row.
  intros H. returned H; split; reflexivity.
Qed.

Lemma tenant_keeps_ledger (src : string) (ext name : option string)
      (s s' : store) (r : nat * string) :
  getOrCreateTenant src ext name s = Done r s' ->
  ledger_transactions s' = ledger_transactions s
  /\ invoices s' = invoices s.
Proof.
  unfold getOrCreateTenant, getOrCreateSource, bind, gets, ret, require,
    raise, draw_uuid, insert_row.
  intros H. returned H; split; reflexivity.
Qed.

Lemma customer_keeps_ledger (src : string) (c : Customer) (s s' : store)
      (id : nat) :
  upsertCustomer src c s = Done id s' ->
  ledger_transactions s' = ledger_transactions s
  /\ invoices s' = invoices s.
Proof.
  intros H. unfold upsertCustomer in H.
  apply bind_Done in H. destruct H as (sid & s1 & H1 & H).
  apply bind_Done in H. destruct H as (cl & s2 & H2 & H).
  apply bind_Done in H. destruct H as (te & s3 & H3 & H).
  pose proof (source_keeps_ledger _ _ _ _ H1) as E1.
  assert (I1 : invoices s1 = invoices s)
    by (unfold getOrCreateSource in H1; returned H1; reflexivity).
  destruct (client_keeps_ledger _ _ _ _ _ _ H2) as [E2 I2].
  destruct (tenant_keeps_ledger _ _ _ _ _ _ H3) as [E3 I3].
  unfold insert_row in H. returned H; cbn; split; congruence.
Qed.

Lemma invoice_row_count (sid : nat) (inv : Invoice) (cust : option nat)
      (s s' : store) (id : nat) :
  upsert_invoice_row sid inv cust s = Done id s' ->
  ledger_transactions s' = ledger_transactions s
  /\ List.length (rows (invoices s'))
     = List.length (rows (invoices s))
       + match find (fun r => same_key (in_source_id r) (in_external_id r)
                                       sid (or_null (external_id inv)))
                    (rows (invoices s)) with
         | Some _ => 0
         | None => 1
         end.
Proof.
  unfold upsert_invoice_row, bind, require, ret, raise, insert_row.
  intros H. returned H; cbn; rewrite ?length_map, ?length_app; cbn;
    split; try reflexivity; lia.
Qed.

Lemma lines_keep_ledger (sid iid : nat) (ls : list InvoiceLine) :
  forall s s',
    for_each (insert_invoice_line sid iid) ls s = Done tt s' ->
    ledger_transactions s' = ledger_transactions s
    /\ invoices s' = invoices s.
Proof.
  apply for_each_Done.
  - intros s. split; reflexivity.
  - intros s1 s2 s3 [A B] [C D]. split; congruence.
  - intros ln s s' H.
    unfold insert_invoice_line, bind, gets, require, modify, ret, raise,
      insert_row in H.
    returned H; split; reflexivity.
Qed.

Lemma ledger_step (sid : nat) (inv : Invoice) (s s' : store) :
  insert_invoice_ledger sid inv s = Done tt s' ->
  let ext := or_null (or_cell (external_id inv) (number inv)) in
  invoices s' = invoices s
  /\ (ledger_known sid ext s = true ->
      rows (ledger_transactions s') = rows (ledger_transactions s))
  /\ (ledger_known sid ext s = false ->
      exists l,
        rows (ledger_transactions s') = rows (ledger_transactions s) ++ [l]
        /\ lt_source_id l = sid /\ lt_external_id l = ext
        /\ numeric 14 2 (num_or_0 (total inv)) = Some (lt_amount l)).
Proof.
  unfold insert_invoice_ledger, bind, require, modify, ret, raise,
    ledger_known.
  destruct (numeric 14 2 (num_or_0 (total inv))) as [amt|]; [|discriminate].
  intros H. inversion H; subst s'; clear H. cbv zeta.
  destruct (existsb _ (rows (ledger_transactions s))) eqn:K; cbn.
  - split; [reflexivity|]. split; [reflexivity | discriminate].
  - split; [reflexivity|]. split; [discriminate|]. intros _.
    eexists. split; [reflexivity|]. repeat split.
Qed.

(** What an upsert does to the invoices and to the ledger. *)
Lemma upsert_ledger (src : string) (inv : Invoice)
      (lines_ : list InvoiceLine) (s s' : store) (id : nat) :
  upsertInvoiceWithLines src inv lines_ s = Done id s' ->
  exists sid sA,
    getOrCreateSource src s = Done sid sA
    /\ List.length (rows (invoices s'))
       = List.length (rows (invoices s))
         + match find (fun r => same_key (in_source_id r) (in_external_id r)
                                         sid (or_null (external_id inv)))
                      (rows (invoices s)) with
           | Some _ => 0
           | None => 1
           end
    /\ let ext := or_null (or_cell (external_id inv) (number inv)) in
       (ledger_known sid ext s = true ->
        rows (ledger_transactions s') = rows (ledger_transactions s))
       /\ (ledger_known sid ext s = false ->
           exists l,
             rows (ledger_transactions s')
             = rows (ledger_transactions s) ++ [l]
             /\ lt_source_id l = sid /\ lt_external_id l = ext
             /\ numeric 14 2 (num_or_0 (total inv)) = Some (lt_amount l)).
Proof.
  intros H. unfold upsertInvoiceWithLines in H.
  apply bind_Done in H. destruct H as (sid & sA & HA & H).
  pose proof (source_keeps_ledger _ _ _ _ HA) as LA.
  destruct (InvoiceFacts.source_created _ _ _ _ HA) as (_ & IA & _).
  apply transaction_Done in H.
  apply bind_Done in H. destruct H as (cust & sB & HB & H).
  assert (FB : ledger_transactions sB = ledger_transactions sA
               /\ invoices sB = invoices sA).
  { destruct (customer inv) as [c|].
    - apply bind_Done in HB. destruct HB as (cid & sB' & HB & HB').
      inversion HB'; subst. eapply customer_keeps_ledger; eassumption.
    - inversion HB; subst. split; reflexivity. }
  destruct FB as [LB IB].
  apply bind_Done in H. destruct H as (iid & sC & HC & H).
  destruct (invoice_row_count _ _ _ _ _ _ HC) as [LC IC].
  apply bind_Done in H. destruct H as ([] & sD & HD & H).
  unfold modify in HD. inversion HD; subst sD; clear HD.
  apply bind_Done in H. destruct H as ([] & sE & HE & H).
  destruct (lines_keep_ledger _ _ _ _ _ HE) as [LE IE].
  cbn [ledger_transactions invoices set_invoice_lines] in LE, IE.
  apply bind_Done in H. destruct H as ([] & sF & HF & H).
  destruct (ledger_step _ _ _ _ HF) as (IF_ & K1 & K0).
  inversion H; subst id s'; clear H.
  exists sid, sA. split; [exact HA|].
  assert (EL : ledger_transactions sE = ledger_transactions s) by congruence.
  unfold ledger_known in *. rewrite EL in K1, K0.
  split; [|split; assumption].
  rewrite IF_, IE, IC, IB, IA. reflexivity.
Qed.

Lemma or_null_Some (c : option string) (e : string) :
  or_null c = Some e -> c = Some e /\ cell_truthy c = true.
Proof.
  unfold or_null. destruct (cell_truthy c) eqn:T; [|discriminate].
  intros ->. split; reflexivity.
Qed.

(** X16. Importing an invoice again under the same source and external
    id updates its row and leaves the ledger as it is: the second upsert
    returns the same invoice id, adds no row to invoices, and the rows of
    ledger_transactions are those the first upsert left; the ledger entry
    the first import made keeps the total of the first import. *)
Theorem invoice_reimport_keeps_ledger (src : string) (inv1 inv2 : Invoice)
        (lines1 lines2 : list InvoiceLine) (e : string)
        (s0 s1 s2 : store) (id1 id2 : nat) :
  or_null (external_id inv1) = Some e ->
  or_null (external_id inv2) = Some e ->
  upsertInvoiceWithLines src inv1 lines1 s0 = Done id1 s1 ->
  upsertInvoiceWithLines src inv2 lines2 s1 = Done id2 s2 ->
  id2 = id1
  /\ List.length (rows (invoices s2)) = List.length (rows (invoices s1))
  /\ rows (ledger_transactions s2) = rows (ledger_transactions s1)
  /\ (forall sid sA,
        getOrCreateSource src s0 = Done sid sA ->
        ledger_known sid (Some e) s0 = false ->
        exists l,
          In l (rows (ledger_transactions s2))
          /\ lt_source_id l = sid /\ lt_external_id l = Some e
          /\ numeric 14 2 (num_or_0 (total inv1)) = Some (lt_amount l)).
Proof.
  intros He1 He2 H1 H2.
  destruct (or_null_Some _ _ He1) as [Ee1 T1].
  destruct (or_null_Some _ _ He2) as [Ee2 T2].
  assert (X1 : or_null (or_cell (external_id inv1) (number inv1)) = Some e)
    by (rewrite (BankFacts.or_cell_truthy _ _ T1); exact He1).
  assert (X2 : or_null (or_cell (external_id inv2) (number inv2)) = Some e)
    by (rewrite (BankFacts.or_cell_truthy _ _ T2); exact He2).
  destruct (InvoiceFacts.upsert_spec _ _ _ _ _ _ H1)
    as (sid & sA & HA & S1 & _ & Hfind1 & _).
  destruct (InvoiceFacts.upsert_spec _ _ _ _ _ _ H2)
    as (sid2 & sA2 & HA2 & _ & _ & _ & Hold2 & _).
  destruct (InvoiceFacts.source_created _ _ _ _ HA) as (_ & _ & _ & _ & Hstable).
  rewrite (Hstable s1 S1) in HA2. inversion HA2; subst sid2 sA2; clear HA2.
  destruct (Hfind1 e He1) as (r & Hr & Hi).
  assert (Hid : id2 = id1) by (rewrite (Hold2 e r He2 Hr); exact Hi).
  destruct (upsert_ledger _ _ _ _ _ _ H1) as (sid' & sA' & HA' & _ & K1 & K0).
  rewrite HA in HA'. inversion HA'; subst sid' sA'; clear HA'.
  destruct (upsert_ledger _ _ _ _ _ _ H2) as (sid' & sA' & HA' & I2 & L1 & _).
  rewrite (Hstable s1 S1) in HA'. inversion HA'; subst sid' sA'; clear HA'.
  rewrite X1 in K1, K0. rewrite X2 in L1. rewrite He2, Hr in I2.
  assert (Known : ledger_known sid (Some e) s1 = true).
  { destruct (ledger_known sid (Some e) s0) eqn:K.
    - unfold ledger_known in *. rewrite (K1 eq_refl). exact K.
    - destruct (K0 eq_refl) as (l & El & Es & Ex & _).
      unfold ledger_known. rewrite El, existsb_app. cbn [existsb].
      rewrite Es, Ex, InvoiceFacts.same_key_refl. apply orb_true_r. }
  split; [exact Hid|]. split; [lia|]. split; [exact (L1 Known)|].
  intros sid' sA' HA' K. rewrite HA in HA'. inversion HA'; subst sid' sA'.
  destruct (K0 K) as (l & El & Es & Ex & Ea).
  exists l. rewrite (L1 Known), El. repeat split; try assumption.
  apply in_or_app. right. left. reflexivity.
Qed.

End WithEnv.

(** An invoice of 35.00 imported again with the total 99.00: the ledger
    keeps 35.00. *)
Lemma invoice_reimport_keeps_ledger_witness :
  let inv t := mkInvoice (Some "INV-1") (Some "1001") (Some "2024-01-05") None
                         (Some "Open") None None None (Some (mkDec t 2)) None
                         None [] in
  let s1 := final (upsertInvoiceWithLines (env := Reference.env) "HaloPSA"
                     (inv 3500%Z) [] empty_store) in
  let s2 := final (upsertInvoiceWithLines (env := Reference.env) "HaloPSA"
                     (inv 9900%Z) [] s1) in
  map in_total (rows (invoices s2)) = [Some (mkDec 9900 2)]
  /\ map lt_amount (rows (ledger_transactions s2))
     = map lt_amount (rows (ledger_transactions s1))
  /\ map lt_amount (rows (ledger_transactions s1)) = [mkDec 3500 2].
Proof.
  intros inv s1 s2.
  assert (H1 : upsertInvoiceWithLines (env := Reference.env) "HaloPSA"
                 (inv 3500%Z) [] empty_store = Done 1 s1)
    by (vm_compute; reflexivity).
  assert (H2 : upsertInvoiceWithLines (env := Reference.env) "HaloPSA"
                 (inv 9900%Z) [] s1 = Done 1 s2)
    by (vm_compute; reflexivity).
  destruct (invoice_reimport_keeps_ledger (env := Reference.env) "HaloPSA"
              (inv 3500%Z) (inv 9900%Z) [] [] "INV-1" empty_store s1 s2 1 1
              eq_refl eq_refl H1 H2) as (_ & _ & El & _).
  split; [vm_compute; reflexivity|]. split; [rewrite El; reflexivity|].
  vm_compute. reflexivity.
Defined.

End LedgerFacts.

(* ================================================================== *)
(** * Further properties of the interchange file *)
(* ================================================================== *)

Module IifFacts.
Import Num Db DbFacts Server Exporter.

(** ** Bills balance *)

Lemma add_cents (a n : Z) :
  dec_add (mkDec a 2) (mkDec n 2) = mkDec (a + n) 2.
Proof.
  unfold dec_add. cbn [mant scale Nat.max Nat.sub].
  change (pow10 0) with 1%Z. f_equal. lia.
Qed.

Lemma sum_from_cents (ls : list LineItem) :
  Forall (fun l => scale (line_amount l) = 2) ls ->
  forall a,
    fold_left (fun t l => dec_add t (line_amount l)) ls (mkDec a 2)
    = mkDec (a + sum_cents ls) 2.
Proof.
  induction 1 as [|l r Hl Hr IH]; intros a; cbn [fold_left sum_cents fold_right].
  - f_equal. lia.
  - destruct (line_amount l) as [n sc] eqn:E. cbn [scale] in Hl. subst sc.
    rewrite add_cents, IH. cbn [mant]. f_equal. fold (sum_cents r). lia.
Qed.

Lemma round2_sum_amounts (ls : list LineItem) :
  Forall (fun l => scale (line_amount l) = 2) ls ->
  round2 (sum_amounts ls) = mkDec (sum_cents ls) 2.
Proof.
  intros H. unfold sum_amounts. destruct H as [|l r Hl Hr].
  - reflexivity.
  - cbn [fold_left sum_cents fold_right].
    destruct (line_amount l) as [n sc] eqn:E. cbn [scale] in Hl. subst sc.
    replace (dec_add (dec_of_Z 0) (mkDec n 2)) with (mkDec n 2).
    + rewrite (sum_from_cents r Hr), GroupingFacts.round2_cents.
      cbn [mant]. reflexivity.
    + unfold dec_add, dec_of_Z. cbn [mant scale Nat.max Nat.sub].
      change (pow10 0) with 1%Z. f_equal. lia.
Qed.

Section WithDayjs.
Context {lib : Dayjs}.

(** X17. Every bill [parseBillsFromCsv] returns is in whole cents and
    balances: each line amount has two places, and the total of the bill
    is exactly the sum of its line amounts, so that the TRNS amount of the
    interchange file cancels the SPL amounts of its block to the cent. *)
Theorem normalised_bills_balance (records : list row) (bills : list Bill) :
  bills_of_records records = Ok bills ->
  Forall (fun b => Forall (fun l => scale (line_amount l) = 2) (lines b)
                   /\ total_amount b = mkDec (sum_cents (lines b)) 2) bills.
Proof.
  intros H.
  destruct (GroupingFacts.bills_of_records_Ok records bills H)
    as (r0 & vc & rc & ic & qc & cc & _ & _ & _ & _ & _ & _ & ->).
  apply Forall_forall. intros b Hb. apply in_map_iff in Hb.
  destruct Hb as ([k rs] & <- & _).
  assert (Hl : Forall (fun l => scale (line_amount l) = 2)
                      (lines (bill_of_group ic qc cc (k, rs)))).
  { rewrite ParseFacts.lines_of_group. cbn [snd]. apply Forall_forall.
    intros l Hin. apply in_map_iff in Hin. destruct Hin as (r & <- & _).
    unfold line_of_row. cbn [snd line_amount].
    destruct (GroupingFacts.round2_shape
                (round2 (dec_mul (numeric_cell (get r qc))
                                 (numeric_cell (get r cc))))) as [n ->].
    reflexivity. }
  split; [exact Hl|].
  rewrite <- (round2_sum_amounts _ Hl).
  unfold bill_of_group. rewrite GroupingFacts.build_lines_spec.
  cbn [total_amount lines app]. reflexivity.
Qed.

End WithDayjs.

Lemma normalised_bills_balance_witness :
  let r q c := [("Vendor", "Acme"); ("RefNumber", "PO-1"); ("Item", "Nut");
                ("Qty", q); ("Cost", c)] in
  match bills_of_records (lib := Reference.lib)
          [r "3" "0.333"; r "3" "0.336"] with
  | Ok [b] => total_amount b = mkDec 201 2
  | _ => False
  end.
Proof.
  intros r.
  destruct (bills_of_records (lib := Reference.lib)
              [r "3" "0.333"; r "3" "0.336"]) as [bills|msg] eqn:E;
    [|vm_compute in E; discriminate E].
  pose proof (normalised_bills_balance (lib := Reference.lib) _ _ E) as H.
  vm_compute in E. inversion E; subst bills; clear E.
  inversion H as [|b l [_ Hb] _]; subst. exact Hb.
Defined.

(** ** Reading the file back *)

Lemma startsWith_self (p rest : string) :
  Js.startsWith p (p ++ rest) = true.
Proof.
  induction p as [|c p IH]; [reflexivity|]. cbn [String.append Js.startsWith].
  rewrite Ascii.eqb_refl. exact IH.
Qed.

Lemma split_skip (sep p rest : string) :
  split_from sep (p ++ rest) (String.length p) = split_from sep rest 0.
Proof.
  induction p as [|c p IH]; [reflexivity|].
  cbn [String.append String.length split_from]. exact IH.
Qed.

(** A piece that holds no first character of the separator ends at the
    separator. *)
Lemma split_piece (c : ascii) (sep' a rest : string) :
  Js.has_char c a = false ->
  split (String c sep') (a ++ String c sep' ++ rest)
  = a :: split (String c sep') rest.
Proof.
  unfold split. induction a as [|x a IH]; intros H.
  - change ("" ++ String c sep' ++ rest)%string
      with (String c (sep' ++ rest)).
    cbn [split_from].
    change (String c (sep' ++ rest)) with (String c sep' ++ rest)%string.
    rewrite startsWith_self. cbn [String.length Nat.sub].
    rewrite Nat.sub_0_r, split_skip. reflexivity.
  - cbn [Js.has_char] in H. apply orb_false_iff in H. destruct H as [Hx Ha].
    pose proof (IH Ha) as E.
    cbn [String.append split_from Js.startsWith] in E |- *.
    rewrite Ascii.eqb_sym, Hx. cbn [andb]. rewrite E. reflexivity.
Qed.

Lemma split_whole (c : ascii) (sep' a : string) :
  Js.has_char c a = false -> split (String c sep') a = [a].
Proof.
  unfold split. induction a as [|x a IH]; intros H; [reflexivity|].
  cbn [Js.has_char] in H. apply orb_false_iff in H. destruct H as [Hx Ha].
  cbn [split_from Js.startsWith]. rewrite Ascii.eqb_sym, Hx. cbn [andb].
  rewrite (IH Ha). reflexivity.
Qed.

Lemma split_terminated (c : ascii) (sep' : string) (ls : list string) :
  Forall (fun l => Js.has_char c l = false) ls ->
  split (String c sep') (terminated (String c sep') ls) = ls ++ [""].
Proof.
  induction 1 as [|l r Hl Hr IH]; [reflexivity|].
  cbn [terminated app]. rewrite (split_piece c sep' l _ Hl), IH. reflexivity.
Qed.

Lemma split_join (c : ascii) (fields : list string) :
  fields <> [] ->
  Forall (fun f => Js.has_char c f = false) fields ->
  split (String c "") (Js.join (String c "") fields) = fields.
Proof.
  intros Hne H. induction H as [|f r Hf Hr IH]; [congruence|].
  destruct r as [|f' r].
  - cbn [Js.join]. apply split_whole. exact Hf.
  - change (Js.join (String c "") (f :: f' :: r))
      with (f ++ String c "" ++ Js.join (String c "") (f' :: r))%string.
    rewrite (split_piece c "" f _ Hf), IH; [reflexivity | discriminate].
Qed.

Lemma clean_no_tab (v : string) :
  clean v = true ->
  Js.has_char Js.TAB v = false /\ Js.has_char Js.CR v = false.
Proof.
  induction v as [|x v IH]; [split; reflexivity|].
  cbn [clean Js.str_forall Js.has_char]. fold (clean v). intros H.
  apply andb_true_iff in H. destruct H as [Hx Hv].
  destruct (IH Hv) as [A B]. rewrite A, B. unfold plain_char in Hx.
  destruct (Ascii.eqb x Js.TAB), (Ascii.eqb x Js.CR); cbn in *;
    split; congruence.
Qed.

Lemma fields_no_tab (fields : list string) :
  forallb clean fields = true ->
  Forall (fun f => Js.has_char Js.TAB f = false) fields
  /\ Js.has_char Js.CR (Js.join tab fields) = false.
Proof.
  induction fields as [|f r IH]; [split; [constructor | reflexivity]|].
  cbn [forallb]. intros H. apply andb_true_iff in H. destruct H as [Hf Hr].
  destruct (IH Hr) as [A B]. destruct (clean_no_tab f Hf) as [T C].
  split; [constructor; assumption|].
  destruct r as [|f' r]; [exact C|].
  change (Js.join tab (f :: f' :: r))
    with (f ++ tab ++ Js.join tab (f' :: r))%string.
  rewrite !NumFacts.has_char_app, C, B. reflexivity.
Qed.

Lemma trns_fields_clean (apAcc : string) (b : Bill) :
  clean apAcc = true -> clean_bill b = true ->
  forallb clean (trns_fields apAcc b) = true.
Proof.
  intros Hap Hcb. unfold clean_bill in Hcb.
  repeat (apply andb_true_iff in Hcb; destruct Hcb as [Hcb ?]).
  unfold trns_fields. cbn [forallb].
  change ("-" ++ toFixed2 (total_amount b))%string
    with (String "-" (toFixed2 (total_amount b))).
  cbn [clean Js.str_forall]. fold (clean (toFixed2 (total_amount b))).
  rewrite ExporterFacts.clean_toFixed2.
  repeat match goal with
         | H : clean _ = true |- _ => rewrite H; clear H
         end. reflexivity.
Qed.

Lemma spl_fields_clean (invAssetAcc : string) (b : Bill) (l : LineItem) :
  clean invAssetAcc = true -> clean (date b) = true -> clean_line l = true ->
  forallb clean (spl_fields invAssetAcc b l) = true.
Proof.
  intros Hinv Hd Hcl. unfold clean_line in Hcl. apply andb_true_iff in Hcl.
  destruct Hcl as [Hi Hde]. unfold spl_fields. cbn [forallb].
  rewrite !ExporterFacts.clean_toFixed2, ExporterFacts.clean_quantity_text,
    Hi, Hde, Hinv, Hd. reflexivity.
Qed.

Lemma bill_lines_no_cr (apAcc invAssetAcc : string) (b : Bill) :
  clean apAcc = true -> clean invAssetAcc = true -> clean_bill b = true ->
  Forall (fun l => Js.has_char Js.CR l = false)
         (bill_lines apAcc invAssetAcc b).
Proof.
  intros Hap Hinv Hcb. unfold bill_lines. constructor.
  - apply fields_no_tab, trns_fields_clean; assumption.
  - apply Forall_app. split; [|repeat constructor].
    apply Forall_forall. intros x Hx. apply in_map_iff in Hx.
    destruct Hx as (l & <- & Hl). apply fields_no_tab.
    pose proof Hcb as Hcb'. unfold clean_bill in Hcb'.
    repeat (apply andb_true_iff in Hcb'; destruct Hcb' as [Hcb' ?]).
    apply spl_fields_clean; try assumption.
    match goal with
    | H : forallb clean_line (lines b) = true |- _ =>
        rewrite forallb_forall in H; apply H; exact Hl
    end.
Qed.

Section WithEnv.
Context {env : Env}.

(** X18. The interchange file of exporter.js can be read back: for
    bills and account names free of tabs, line breaks and double quotes,
    splitting the file at CRLF gives exactly its lines and one empty text
    after the last line ending, and splitting a TRNS or SPL line at the
    tabs gives exactly the fields that were written, fifteen and
    fourteen of them. *)
Theorem bills_iif_reads_back (bills : list Bill) (s : store) :
  forallb (fun r => clean (qa_name r)) (rows (qbd_accounts s)) = true ->
  forallb clean_bill bills = true ->
  exists apAcc invAssetAcc out,
    generateBillsIif bills s = Done out s
    /\ split crlf out = iif_lines apAcc invAssetAcc bills ++ [""]
    /\ forall b, In b bills ->
         split tab (Js.join tab (trns_fields apAcc b)) = trns_fields apAcc b
         /\ List.length (trns_fields apAcc b) = 15
         /\ forall l, In l (lines b) ->
              split tab (Js.join tab (spl_fields invAssetAcc b l))
              = spl_fields invAssetAcc b l
              /\ List.length (spl_fields invAssetAcc b l) = 14.
Proof.
  intros Hacc Hbills.
  destruct (ExporterFacts.defaults_spec s Hacc) as (defaults & E & Hd).
  pose proof (ExporterFacts.account_clean defaults "accounts_payable"
                "Accounts Payable" Hd eq_refl) as Hap.
  pose proof (ExporterFacts.account_clean defaults "inventory_asset"
                "Inventory Asset" Hd eq_refl) as Hinv.
  set (apAcc := account defaults "accounts_payable" "Accounts Payable") in *.
  set (invAssetAcc := account defaults "inventory_asset" "Inventory Asset")
    in *.
  exists apAcc, invAssetAcc. eexists. split; [|split].
  - unfold generateBillsIif, bind. rewrite E. unfold ret.
    fold apAcc invAssetAcc.
    rewrite ExporterFacts.join_terminated; [reflexivity | discriminate].
  - unfold crlf. apply split_terminated. unfold iif_lines.
    apply Forall_app. split; [repeat constructor|].
    apply Forall_forall. intros x Hx. apply in_flat_map in Hx.
    destruct Hx as (b & Hb & Hx).
    rewrite forallb_forall in Hbills.
    pose proof (bill_lines_no_cr apAcc invAssetAcc b Hap Hinv (Hbills b Hb))
      as F.
    rewrite Forall_forall in F. apply F. exact Hx.
  - intros b Hb. rewrite forallb_forall in Hbills.
    pose proof (Hbills b Hb) as Hcb.
    split; [|split; [reflexivity|]].
    + unfold tab. apply split_join; [discriminate|].
      apply fields_no_tab, trns_fields_clean; assumption.
    + intros l Hl. split; [|reflexivity].
      unfold tab. apply split_join; [discriminate|].
      apply fields_no_tab. pose proof Hcb as Hcb'. unfold clean_bill in Hcb'.
      repeat (apply andb_true_iff in Hcb'; destruct Hcb' as [Hcb' ?]).
      apply spl_fields_clean; try assumption.
      match goal with
      | H : forallb clean_line (lines b) = true |- _ =>
          rewrite forallb_forall in H; apply H; exact Hl
      end.
Qed.

End WithEnv.

Lemma bills_iif_reads_back_witness :
  let bills := [mkBill "Acme" "PO-1" "01/05/2024" (mkDec 3500 2) "01/05/2024"
                       "Due upon receipt"
                       [mkLine "Widget" "" (mkDec 10 0) (mkDec 250 2)
                               (mkDec 2500 2);
                        mkLine "Gadget" "" (mkDec 2 0) (mkDec 500 2)
                               (mkDec 1000 2)]] in
  exists out,
    generateBillsIif bills empty_store = Done out empty_store
    /\ List.length (split crlf out) = 8.
Proof.
  intros bills.
  destruct (bills_iif_reads_back bills empty_store eq_refl eq_refl)
    as (apAcc & invAssetAcc & out & H & Hs & _).
  exists out. split; [exact H|]. rewrite Hs, length_app. reflexivity.
Defined.

End IifFacts.

(* ================================================================== *)
(** * The configured accounts *)
(* ================================================================== *)

Module AccountFacts.
Import Num Db DbFacts Exporter.

Lemma get_obj_set (k v k' : string) (o : row) :
  get (obj_set k v o) k' = if String.eqb k k' then Some v else get o k'.
Proof.
  induction o as [|[a b] o IH]; cbn [obj_set get]; [reflexivity|].
  destruct (String.eqb a k) eqn:E; cbn [get].
  - apply String.eqb_eq in E. subst a.
    destruct (String.eqb k k'); reflexivity.
  - destruct (String.eqb a k') eqn:E'; [|exact IH].
    apply String.eqb_eq in E'. subst a.
    rewrite String.eqb_sym, E. reflexivity.
Qed.

(** The object [getDefaultQbdAccounts] builds from the default rows. *)
Lemma defaults_fold_miss (k : string) (l : list qbd_account_row) :
  (forall r, In r l -> role r <> Some k) ->
  forall acc,
    get (fold_left
           (fun map r =>
              if cell_truthy (role r)
              then obj_set (or_empty (role r)) (qa_name r) map else map)
           l acc) k
    = get acc k.
Proof.
  induction l as [|a l IH]; intros H acc; [reflexivity|].
  cbn [fold_left]. rewrite IH by (intros r Hr; apply H; right; exact Hr).
  destruct (cell_truthy (role a)) eqn:T; [|reflexivity].
  rewrite get_obj_set.
  destruct (String.eqb (or_empty (role a)) k) eqn:E; [|reflexivity].
  apply String.eqb_eq in E. exfalso. apply (H a (or_introl eq_refl)).
  destruct (role a) as [x|]; [|discriminate T].
  cbn [or_empty] in E. congruence.
Qed.

Lemma defaults_fold_hit (k n : string) (l : list qbd_account_row) :
  Js.truthy k = true ->
  (forall r, In r l -> role r = Some k -> qa_name r = n) ->
  forall acc,
    get acc k = Some n \/ (exists r, In r l /\ role r = Some k) ->
    get (fold_left
           (fun map r =>
              if cell_truthy (role r)
              then obj_set (or_empty (role r)) (qa_name r) map else map)
           l acc) k
    = Some n.
Proof.
  intros Hk. induction l as [|a l IH]; intros H acc Hex.
  - destruct Hex as [Hacc|(r & [] & _)]. exact Hacc.
  - cbn [fold_left]. apply IH; [intros r Hr; apply H; right; exact Hr|].
    destruct (role a) as [x|] eqn:R; cbn [cell_truthy or_empty].
    + destruct (String.eqb x k) eqn:E.
      * apply String.eqb_eq in E. subst x. rewrite Hk. left.
        rewrite get_obj_set, String.eqb_refl. f_equal.
        apply (H a (or_introl eq_refl) R).
      * assert (Hget : get (if Js.truthy x then obj_set x (qa_name a) acc
                            else acc) k = get acc k).
        { destruct (Js.truthy x); [|reflexivity].
          rewrite get_obj_set, E. reflexivity. }
        rewrite Hget. destruct Hex as [Hacc|(r & [<-|Hr] & Hrole)].
        -- left. exact Hacc.
        -- rewrite R in Hrole. inversion Hrole; subst x.
           rewrite String.eqb_refl in E. discriminate E.
        -- right. exists r. split; assumption.
    + destruct Hex as [Hacc|(r & [<-|Hr] & Hrole)].
      * left. exact Hacc.
      * congruence.
      * right. exists r. split; assumption.
Qed.

(** What the two UPDATEs of [setDefaultQbdAccount] make of the rows. *)
Lemma set_default_rows (r0 : option string) (accountId : nat) (s : store) :
  exists s',
    setDefaultQbdAccount r0 accountId s = Done true s'
    /\ rows (qbd_accounts s')
       = map (fun r => if Nat.eqb (qa_id r) accountId
                       then mkQbdAccount (qa_id r) (qa_name r) r0 true
                       else if role_is r0 r
                            then mkQbdAccount (qa_id r) (qa_name r) (role r)
                                              false
                            else r)
             (rows (qbd_accounts s))
    /\ seq (qbd_accounts s') = seq (qbd_accounts s).
Proof.
  eexists. split; [reflexivity|]. split; [|reflexivity].
  cbn [qbd_accounts set_qbd_accounts update_rows rows]. rewrite map_map.
  apply map_ext. intros r.
  destruct (role_is r0 r); cbn [qa_id qa_name]; reflexivity.
Qed.

Lemma set_default_lookup (r0 : string) (accountId : nat) (s : store) :
  Js.truthy r0 = true ->
  NoDup (map qa_id (rows (qbd_accounts s))) ->
  exists s' m,
    setDefaultQbdAccount (Some r0) accountId s = Done true s'
    /\ rows (qbd_accounts s')
       = map (fun r => if Nat.eqb (qa_id r) accountId
                       then mkQbdAccount (qa_id r) (qa_name r) (Some r0) true
                       else if role_is (Some r0) r
                            then mkQbdAccount (qa_id r) (qa_name r) (role r)
                                              false
                            else r)
             (rows (qbd_accounts s))
    /\ seq (qbd_accounts s') = seq (qbd_accounts s)
    /\ getDefaultQbdAccounts s' = Done m s'
    /\ get m r0 = option_map qa_name (account_of accountId s).
Proof.
  intros Hk Hnd.
  destruct (set_default_rows (Some r0) accountId s) as (s' & E & Hrows & Hseq).
  exists s'. eexists. split; [exact E|]. split; [exact Hrows|].
  split; [exact Hseq|]. split; [reflexivity|].
  rewrite Hrows. unfold account_of.
  assert (Hother : forall r,
             In r (rows (qbd_accounts s)) ->
             Nat.eqb (qa_id r) accountId = false ->
             is_default
               (if role_is (Some r0) r
                then mkQbdAccount (qa_id r) (qa_name r) (role r) false
                else r) = true ->
             role (if role_is (Some r0) r
                   then mkQbdAccount (qa_id r) (qa_name r) (role r) false
                   else r) = Some r0 -> False).
  { intros r _ _ Hdef Hrole. destruct (role_is (Some r0) r) eqn:RI.
    - cbn [is_default] in Hdef. discriminate Hdef.
    - unfold role_is in RI. rewrite Hrole, String.eqb_refl in RI.
      discriminate RI. }
  destruct (find (fun r => Nat.eqb (qa_id r) accountId)
                 (rows (qbd_accounts s))) as [a|] eqn:F.
  - apply find_some in F. destruct F as [Ha Hid]. cbn [option_map].
    apply defaults_fold_hit; [exact Hk| |right].
    + intros r' Hr' Hrole. apply filter_In in Hr'. destruct Hr' as [Hin Hdef].
      apply in_map_iff in Hin. destruct Hin as (r & <- & Hr).
      destruct (Nat.eqb (qa_id r) accountId) eqn:I.
      * cbn [qa_name]. f_equal. apply Nat.eqb_eq in I, Hid.
        apply (NoDup_key qa_id _ r a Hnd Hr Ha). congruence.
      * exfalso. exact (Hother r Hr I Hdef Hrole).
    + eexists. split.
      * apply filter_In. split; [apply in_map; exact Ha|].
        rewrite Hid. reflexivity.
      * rewrite Hid. reflexivity.
  - cbn [option_map]. rewrite defaults_fold_miss; [reflexivity|].
    intros r' Hr' Hrole. apply filter_In in Hr'. destruct Hr' as [Hin Hdef].
    apply in_map_iff in Hin. destruct Hin as (r & <- & Hr).
    pose proof (find_none _ _ F r Hr) as I. cbn beta in I.
    rewrite I in Hdef, Hrole. exact (Hother r Hr I Hdef Hrole).
Qed.



(** ** Saving an account *)

Lemma upsert_account_spec (a : Account) (name : string) (s0 : store) :
  wf_accounts s0 -> acc_name a = Some name ->
  exists id s1,
    upsertQbdAccount a s0 = Done id s1
    /\ wf_accounts s1
    /\ In (mkQbdAccount id name (acc_role a) (acc_is_default a))
          (rows (qbd_accounts s1))
    /\ (forall r, qa_name r <> name ->
          (In r (rows (qbd_accounts s1)) <-> In r (rows (qbd_accounts s0))))
    /\ (forall r, In r (rows (qbd_accounts s0)) -> qa_name r = name ->
          qa_id r = id
          /\ List.length (rows (qbd_accounts s1))
             = List.length (rows (qbd_accounts s0))).
Proof.
  intros (Hid & Hnm & Hseq) Hname. unfold upsertQbdAccount. rewrite Hname.
  cbn [opt_eqb].
  destruct (find (fun r => String.eqb name (qa_name r))
                 (rows (qbd_accounts s0))) as [old|] eqn:F.
  - apply find_some in F. destruct F as [Hold Eold].
    apply String.eqb_eq in Eold.
    eexists. eexists. split; [reflexivity|].
    cbn [qbd_accounts set_qbd_accounts update_rows rows seq].
    assert (Hids : forall l : list qbd_account_row,
               map qa_id
                 (map (fun r => if Nat.eqb (qa_id r) (qa_id old)
                                then mkQbdAccount (qa_id r) (qa_name r)
                                       (acc_role a) (acc_is_default a)
                                else r) l) = map qa_id l).
    { intros l. rewrite map_map. apply map_ext. intros r.
      destruct (Nat.eqb (qa_id r) (qa_id old)); reflexivity. }
    assert (Hnames : forall l : list qbd_account_row,
               map qa_name
                 (map (fun r => if Nat.eqb (qa_id r) (qa_id old)
                                then mkQbdAccount (qa_id r) (qa_name r)
                                       (acc_role a) (acc_is_default a)
                                else r) l) = map qa_name l).
    { intros l. rewrite map_map. apply map_ext. intros r.
      destruct (Nat.eqb (qa_id r) (qa_id old)); reflexivity. }
    split; [|split; [|split]].
    + unfold wf_accounts.
      cbn [qbd_accounts set_qbd_accounts update_rows rows seq].
      rewrite Hids, Hnames. split; [exact Hid|]. split; [exact Hnm|].
      apply Forall_forall. intros r' Hr'. apply in_map_iff in Hr'.
      destruct Hr' as (r & <- & Hr). rewrite Forall_forall in Hseq.
      specialize (Hseq r Hr).
      destruct (Nat.eqb (qa_id r) (qa_id old)); exact Hseq.
    + apply in_map_iff. exists old. split; [|exact Hold].
      rewrite Nat.eqb_refl, Eold. reflexivity.
    + intros r' Hne. split.
      * intros Hr'. apply in_map_iff in Hr'. destruct Hr' as (r & <- & Hr).
        destruct (Nat.eqb (qa_id r) (qa_id old)) eqn:I; [|exact Hr].
        exfalso. apply Hne. cbn [qa_name]. apply Nat.eqb_eq in I.
        rewrite (NoDup_key qa_id _ r old Hid Hr Hold I). symmetry. exact Eold.
      * intros Hr'. apply in_map_iff. exists r'. split; [|exact Hr'].
        destruct (Nat.eqb (qa_id r') (qa_id old)) eqn:I; [|reflexivity].
        exfalso. apply Hne. apply Nat.eqb_eq in I.
        rewrite (NoDup_key qa_id _ r' old Hid Hr' Hold I). symmetry.
        exact Eold.
    + intros r Hr Hrn. split; [|apply length_map].
      f_equal. apply (NoDup_key qa_name _ r old Hnm Hr Hold). congruence.
  - pose proof (find_none _ _ F) as Hnone. cbn beta in Hnone.
    unfold insert_row.
    eexists. eexists. split; [reflexivity|].
    assert (Hfresh : ~ In (S (seq (qbd_accounts s0)))
                          (map qa_id (rows (qbd_accounts s0)))).
    { intros Hin. apply in_map_iff in Hin. destruct Hin as (r & Er & Hr).
      rewrite Forall_forall in Hseq. specialize (Hseq r Hr). lia. }
    assert (Hnew : ~ In name (map qa_name (rows (qbd_accounts s0)))).
    { intros Hin. apply in_map_iff in Hin. destruct Hin as (r & Er & Hr).
      specialize (Hnone r Hr). rewrite Er, String.eqb_refl in Hnone.
      discriminate Hnone. }
    split; [|split; [|split]].
    + unfold wf_accounts. cbn [qbd_accounts set_qbd_accounts rows seq].
      rewrite !map_app. cbn [map qa_id qa_name].
      split; [apply NoDup_snoc; assumption|].
      split; [apply NoDup_snoc; assumption|].
      apply Forall_app. split.
      * eapply Forall_impl; [|exact Hseq]. cbn beta. intros r Hr. lia.
      * constructor; [cbn [qa_id]; lia | constructor].
    + cbn [qbd_accounts set_qbd_accounts rows]. apply in_or_app. right.
      left. reflexivity.
    + intros r Hne. cbn [qbd_accounts set_qbd_accounts rows]. split.
      * intros Hr. apply in_app_or in Hr. destruct Hr as [Hr|[<-|[]]];
          [exact Hr|]. exfalso. apply Hne. reflexivity.
      * intros Hr. apply in_or_app. left. exact Hr.
    + intros r Hr Hrn. exfalso. apply Hnew. rewrite <- Hrn.
      apply in_map. exact Hr.
Qed.

(** X20. The account an export names is the account that was saved:
    after [upsertQbdAccount] of an account with a non-empty name and
    [setDefaultQbdAccount] of the role accounts_payable to the id it
    returned, [generateBillsIif] writes its TRNS lines against that name,
    whatever accounts and defaults the table held before. *)
Theorem saved_default_is_exported (a : Account) (name : string)
        (bills : list Bill) (s0 : store) :
  wf_accounts s0 -> acc_name a = Some name -> Js.truthy name = true ->
  exists id s1 s2 m,
    upsertQbdAccount a s0 = Done id s1
    /\ setDefaultQbdAccount (Some "accounts_payable") id s1 = Done true s2
    /\ getDefaultQbdAccounts s2 = Done m s2
    /\ get m "accounts_payable" = Some name
    /\ generateBillsIif bills s2
       = Done (String.append
                 (Js.join crlf
                    (iif_lines name
                       (account m "inventory_asset" "Inventory Asset") bills))
                 crlf) s2.
Proof.
  intros Hwf Hname Ht.
  destruct (upsert_account_spec a name s0 Hwf Hname)
    as (id & s1 & E1 & (Hid1 & Hnm1 & Hseq1) & Hin & _ & _).
  destruct (set_default_lookup "accounts_payable" id s1 eq_refl Hid1)
    as (s2 & m & E2 & _ & _ & Hm & Hget).
  assert (Hacc : account_of id s1
                 = Some (mkQbdAccount id name (acc_role a)
                                      (acc_is_default a))).
  { unfold account_of.
    destruct (find (fun r => Nat.eqb (qa_id r) id) (rows (qbd_accounts s1)))
      as [r|] eqn:F.
    - apply find_some in F. destruct F as [Hr I]. apply Nat.eqb_eq in I.
      f_equal. apply (NoDup_key qa_id _ _ _ Hid1 Hr Hin). exact I.
    - pose proof (find_none _ _ F _ Hin) as I. cbn [qa_id] in I.
      rewrite Nat.eqb_refl in I. discriminate I. }
  rewrite Hacc in Hget. cbn [option_map qa_name] in Hget.
  exists id, s1, s2, m. split; [exact E1|]. split; [exact E2|].
  split; [exact Hm|]. split; [exact Hget|].
  unfold generateBillsIif, bind. rewrite Hm. unfold ret.
  unfold account at 1. rewrite Hget. cbn [cell_truthy or_empty].
  rewrite Ht. reflexivity.
Qed.

Lemma saved_default_is_exported_witness :
  let s0 := set_qbd_accounts
              (mkTable [mkQbdAccount 1 "Payables" (Some "accounts_payable")
                                     true] 1)
              empty_store in
  let bill := mkBill "Acme" "PO-1" "01/05/2024" (mkDec 2500 2) "01/05/2024"
                     "Due upon receipt"
                     [mkLine "Widget" "" (mkDec 10 0) (mkDec 250 2)
                             (mkDec 2500 2)] in
  exists s2 out,
    generateBillsIif [bill] s2 = Done out s2
    /\ nth_error (Server.split tab (nth 3 (Server.split crlf out) "")) 4
       = Some "Trade Creditors".
Proof.
  intros s0 bill.
  assert (Hwf : wf_accounts s0).
  { unfold wf_accounts. cbn. repeat split; repeat constructor; cbn;
      intuition discriminate. }
  destruct (saved_default_is_exported
              (mkAccount (Some "Trade Creditors") None false)
              "Trade Creditors" [bill] s0 Hwf eq_refl eq_refl)
    as (id & s1 & s2 & m & _ & _ & _ & Hget & Hout).
  exists s2. eexists. split; [exact Hout|].
  destruct (get m "inventory_asset") as [v|] eqn:G; vm_compute; reflexivity.
Defined.

(** X21. [upsertQbdAccount] is keyed by name and writes one row: a
    second save under the same name returns the id of the first and adds
    no row, the row of that id then carries the role and the default flag
    of the last save, every account of another name is exactly as it was
    (a save with is_default set clears no other default), and ids and
    names stay distinct. *)
Theorem account_saved_by_name (a b : Account) (name : string) (s0 : store) :
  wf_accounts s0 -> acc_name a = Some name -> acc_name b = Some name ->
  exists id s1 s2,
    upsertQbdAccount a s0 = Done id s1
    /\ upsertQbdAccount b s1 = Done id s2
    /\ wf_accounts s2
    /\ account_of id s2
       = Some (mkQbdAccount id name (acc_role b) (acc_is_default b))
    /\ List.length (rows (qbd_accounts s2))
       = List.length (rows (qbd_accounts s1))
    /\ (forall r, qa_name r <> name ->
          (In r (rows (qbd_accounts s2)) <-> In r (rows (qbd_accounts s0)))).
Proof.
  intros Hwf Ha Hb.
  destruct (upsert_account_spec a name s0 Hwf Ha)
    as (id & s1 & E1 & Hwf1 & Hin1 & Hoth1 & _).
  destruct (upsert_account_spec b name s1 Hwf1 Hb)
    as (id2 & s2 & E2 & Hwf2 & Hin2 & Hoth2 & Hsame).
  destruct (Hsame _ Hin1 eq_refl) as [Eid Hlen]. cbn [qa_id] in Eid.
  subst id2. exists id, s1, s2.
  split; [exact E1|]. split; [exact E2|]. split; [exact Hwf2|].
  split; [|split; [exact Hlen|]].
  - destruct Hwf2 as (Hid2 & _ & _). unfold account_of.
    destruct (find (fun r => Nat.eqb (qa_id r) id) (rows (qbd_accounts s2)))
      as [r|] eqn:F.
    + apply find_some in F. destruct F as [Hr I]. apply Nat.eqb_eq in I.
      f_equal. apply (NoDup_key qa_id _ _ _ Hid2 Hr Hin2). exact I.
    + pose proof (find_none _ _ F _ Hin2) as I. cbn [qa_id] in I.
      rewrite Nat.eqb_refl in I. discriminate I.
  - intros r Hne. rewrite (Hoth2 r Hne). apply Hoth1. exact Hne.
Qed.

Lemma account_saved_by_name_witness :
  let s0 := set_qbd_accounts
              (mkTable [mkQbdAccount 1 "Payables" (Some "accounts_payable")
                                     true] 1)
              empty_store in
  exists id s1 s2,
    upsertQbdAccount
      (mkAccount (Some "Trade Creditors") (Some "accounts_payable") true) s0
    = Done id s1
    /\ upsertQbdAccount (mkAccount (Some "Trade Creditors") None false) s1
       = Done id s2
    /\ In (mkQbdAccount 1 "Payables" (Some "accounts_payable") true)
          (rows (qbd_accounts s2)).
Proof.
  intros s0.
  assert (Hwf : wf_accounts s0).
  { unfold wf_accounts. cbn. repeat split; repeat constructor; cbn;
      intuition discriminate. }
  destruct (account_saved_by_name
              (mkAccount (Some "Trade Creditors") (Some "accounts_payable")
                         true)
              (mkAccount (Some "Trade Creditors") None false)
              "Trade Creditors" s0 Hwf eq_refl eq_refl)
    as (id & s1 & s2 & E1 & E2 & _ & _ & _ & Hoth).
  exists id, s1, s2. split; [exact E1|]. split; [exact E2|].
  apply Hoth; [cbn; discriminate|]. left. reflexivity.
Defined.

End AccountFacts.

(* ================================================================== *)
(** * The item catalog *)
(* ================================================================== *)

Module CatalogFacts.
Import Num Db DbFacts.

Lemma find_app_Some {R : Type} (p : R -> bool) (l added : list R) (r : R) :
  find p l = Some r -> find p (l ++ added) = Some r.
Proof.
  induction l as [|x l IH]; cbn [find app]; [discriminate|].
  destruct (p x); [exact (fun H => H) | exact IH].
Qed.

Lemma find_app_None {R : Type} (p : R -> bool) (l added : list R) :
  find p l = None -> find p (l ++ added) = find p added.
Proof.
  induction l as [|x l IH]; cbn [find app]; [reflexivity|].
  destruct (p x); [discriminate | exact IH].
Qed.

Lemma catalog_row_stable (sid : nat) (code : string) (s s' : store)
      (added : list catalog_item_row) (r : catalog_item_row) :
  rows (catalog_items s') = rows (catalog_items s) ++ added ->
  catalog_row sid code s = Some r -> catalog_row sid code s' = Some r.
Proof.
  unfold catalog_row. intros ->. apply find_app_Some.
Qed.

Section WithEnv.
Context {env : Env}.

Lemma catalog_step (sid : nat) (it : CatalogItem) (s s' : store) :
  upsert_catalog_item sid it s = Done tt s' ->
  exists code,
    ci_item_code it = Some code
    /\ item_accepted it
    /\ rows (catalog_items s')
       = rows (catalog_items s)
         ++ match catalog_row sid code s with
            | Some _ => []
            | None => [mkCatalogItem (S (seq (catalog_items s))) sid code]
            end
    /\ ledger_sources s' = ledger_sources s.
Proof.
  unfold upsert_catalog_item. intros H.
  apply bind_Done in H. destruct H as (c & s1 & H1 & H).
  apply require_Done in H1. destruct H1 as [Hc ->].
  apply bind_Done in H. destruct H as (p & s1 & H1 & H).
  apply require_Done in H1. destruct H1 as [Hp ->].
  destruct (ci_item_code it) as [code|] eqn:C; [|discriminate H].
  exists code. split; [reflexivity|].
  split; [unfold item_accepted; rewrite C, Hc, Hp; repeat split; discriminate|].
  unfold catalog_row.
  destruct (find _ (rows (catalog_items s))) as [old|].
  - inversion H; subst s'. cbn [catalog_items set_catalog_items burn rows].
    rewrite app_nil_r. split; reflexivity.
  - unfold insert_row in H. inversion H; subst s'.
    cbn [catalog_items set_catalog_items rows]. split; reflexivity.
Qed.

Lemma catalog_step_total (sid : nat) (it : CatalogItem) (s : store) :
  item_accepted it -> exists s', upsert_catalog_item sid it s = Done tt s'.
Proof.
  intros (Hcode & Hc & Hp). unfold upsert_catalog_item, bind.
  destruct (numeric_opt 12 4 (num_or_null (ci_unit_cost it)));
    [|congruence].
  destruct (numeric_opt 12 4 (num_or_null (ci_unit_price it)));
    [|congruence].
  cbn [require ret]. destruct (ci_item_code it) as [code|]; [|congruence].
  destruct (find _ (rows (catalog_items s))); [eexists; reflexivity|].
  unfold insert_row. eexists; reflexivity.
Qed.

Lemma catalog_loop (sid : nat) (l : list CatalogItem) :
  forall s s',
    for_each (upsert_catalog_item sid) l s = Done tt s' ->
    (exists added,
        rows (catalog_items s') = rows (catalog_items s) ++ added)
    /\ ledger_sources s' = ledger_sources s
    /\ Forall item_accepted l
    /\ (forall it, In it l ->
          exists code r,
            ci_item_code it = Some code
            /\ catalog_row sid code s' = Some r)
    /\ ((forall it code, In it l -> ci_item_code it = Some code ->
          catalog_row sid code s <> None) ->
        rows (catalog_items s') = rows (catalog_items s)).
Proof.
  induction l as [|x l IH]; intros s s' H; cbn [for_each] in H.
  - inversion H; subst s'. split; [exists []; rewrite app_nil_r; reflexivity|].
    split; [reflexivity|]. split; [constructor|].
    split; [intros it []|]. intros _. reflexivity.
  - apply bind_Done in H. destruct H as ([] & s1 & H1 & H2).
    destruct (catalog_step _ _ _ _ H1) as (code & C & Hacc & Hrows & Hsrc).
    destruct (IH _ _ H2) as ((added & Hext) & Hsrc' & Hall & Hres & Hidem).
    split; [|split; [|split; [|split]]].
    + eexists. rewrite Hext, Hrows, <- app_assoc. reflexivity.
    + congruence.
    + constructor; assumption.
    + intros it [<-|Hit]; [|exact (Hres it Hit)].
      exists code.
      assert (Hone : exists r, catalog_row sid code s1 = Some r).
      { unfold catalog_row in Hrows |- *. rewrite Hrows.
        destruct (find _ (rows (catalog_items s))) as [old|] eqn:F.
        - exists old. apply find_app_Some. exact F.
        - eexists. rewrite (find_app_None _ _ _ F). cbn [find cat_source_id
            item_code]. rewrite Nat.eqb_refl, String.eqb_refl. reflexivity. }
      destruct Hone as (r & Hr). exists r. split; [exact C|].
      exact (catalog_row_stable _ _ _ _ _ _ Hext Hr).
    + intros Hknown.
      assert (E1 : rows (catalog_items s1) = rows (catalog_items s)).
      { rewrite Hrows.
        destruct (catalog_row sid code s) eqn:F; [apply app_nil_r|].
        exfalso. exact (Hknown x code (or_introl eq_refl) C F). }
      rewrite <- E1. apply Hidem. intros it c Hit Hc.
      unfold catalog_row. rewrite E1.
      exact (Hknown it c (or_intror Hit) Hc).
Qed.



(** X23. After [upsertCatalogItems] every item code of the call is in
    the catalog under the source, so that invoice lines naming it are
    linked; a code that was in the catalog keeps its row and its id; and
    a second call with the same items adds no row. *)
Theorem catalog_codes_resolve (src : string) (items : list CatalogItem)
        (n : nat) (s s' : store) :
  upsertCatalogItems src items s = Done n s' ->
  exists sid sA,
    getOrCreateSource src s = Done sid sA
    /\ (forall it, In it items ->
          exists code r,
            ci_item_code it = Some code
            /\ catalog_row sid code s' = Some r
            /\ (Js.truthy code = true ->
                resolve_item sid s' (Some code) = Some (cat_id r)))
    /\ (forall sid' code r,
          catalog_row sid' code s = Some r ->
          catalog_row sid' code s' = Some r)
    /\ exists s'',
         upsertCatalogItems src items s' = Done n s''
         /\ rows (catalog_items s'') = rows (catalog_items s').
Proof.
  intros H. unfold upsertCatalogItems in H.
  apply bind_Done in H. destruct H as (sid & sA & HA & H).
  apply transaction_Done in H.
  apply bind_Done in H. destruct H as ([] & s2 & Hloop & H).
  inversion H; subst n s2. clear H.
  destruct (InvoiceFacts.source_created _ _ _ _ HA)
    as (_ & _ & _ & Hcat & Hstable).
  destruct (catalog_loop _ _ _ _ Hloop)
    as ((added & Hext) & Hsrc & Hall & Hres & _).
  exists sid, sA. split; [exact HA|]. split; [|split].
  - intros it Hit. destruct (Hres it Hit) as (code & r & C & Hr).
    exists code, r. split; [exact C|]. split; [exact Hr|].
    intros Ht. unfold resolve_item. cbn [cell_truthy or_empty]. rewrite Ht.
    unfold catalog_row in Hr. rewrite Hr. reflexivity.
  - intros sid' code r Hr. rewrite Hcat in Hext.
    exact (catalog_row_stable _ _ _ _ _ _ Hext Hr).
  - destruct (for_each_total (upsert_catalog_item sid) item_accepted
                (fun x s0 Hx => catalog_step_total sid x s0 Hx) items s' Hall)
      as (s'' & E).
    exists s''. split.
    + unfold upsertCatalogItems, bind, transaction.
      rewrite (Hstable s' Hsrc), E. reflexivity.
    + destruct (catalog_loop _ _ _ _ E) as (_ & _ & _ & _ & Hidem).
      apply Hidem. intros it code Hit C.
      destruct (Hres it Hit) as (code' & r & C' & Hr).
      rewrite C in C'. inversion C'; subst code'. rewrite Hr. discriminate.
Qed.

End WithEnv.


Lemma catalog_codes_resolve_witness :
  let items := [mkItem (Some "SKU-1") (Some (mkDec 1250 2)) None;
                mkItem (Some "SKU-1") None None;
                mkItem (Some "SKU-2") None (Some (mkDec 5 0))] in
  exists s' s'',
    upsertCatalogItems "HaloPSA" items empty_store = Done 3 s'
    /\ upsertCatalogItems "HaloPSA" items s' = Done 3 s''
    /\ List.length (rows (catalog_items s'')) = 2.
Proof.
  intros items.
  destruct (upsertCatalogItems "HaloPSA" items empty_store)
    as [n s'|msg s'] eqn:E; [|vm_compute in E; discriminate E].
  assert (En : n = 3) by (vm_compute in E; inversion E; reflexivity).
  subst n.
  destruct (catalog_codes_resolve "HaloPSA" items 3 empty_store s' E)
    as (sid & sA & _ & _ & _ & s'' & E2 & Hrows).
  exists s', s''. split; [reflexivity|]. split; [exact E2|].
  rewrite Hrows. vm_compute in E. inversion E. reflexivity.
Defined.

End CatalogFacts.

(* ================================================================== *)
(** * The invoice import (importer.js) *)
(* ================================================================== *)

Module HaloFacts.
Import Num Db DbFacts Importer.

Lemma prov_refl (s : store) : same_provenance s s.
Proof. split; reflexivity. Qed.

Lemma prov_trans (s1 s2 s3 : store) :
  same_provenance s1 s2 -> same_provenance s2 s3 -> same_provenance s1 s3.
Proof. unfold same_provenance. intros [A B] [C D]. split; congruence. Qed.

Lemma transaction_final {A : Type} (R : store -> store -> Prop)
      (undo : store -> store -> store) (body : M A) (s : store) :
  (forall s1 s2 s3, R s1 s2 -> R s2 s3 -> R s1 s3) ->
  (forall before now, R now (undo before now)) ->
  R s (final (body s)) ->
  R s (final (transaction undo body s)).
Proof.
  intros Htrans Hundo H. unfold transaction.
  destruct (body s) as [a s1|msg s1]; cbn [final] in *; [exact H|].
  apply (Htrans _ s1); [exact H | apply Hundo].
Qed.

(** Walk through a call, one bind at a time. *)
Ltac walk :=
  repeat first
    [ apply ProcessFacts.bind_final; [exact prov_trans | | intros ? ? _]
    | apply ProcessFacts.for_each_final;
        [exact prov_refl | exact prov_trans | intros ? ?]
    | match goal with
      | |- context [match ?x with _ => _ end] =>
          lazymatch x with
          | context [match _ with _ => _ end] => fail
          | _ => destruct x
          end
      end
    | progress unfold gets, ret, raise, require, modify, draw_uuid,
        insert_row
    | progress cbn [final]
    | solve [split; reflexivity] ].

Section WithCollaborators.
Context {lib : Dayjs} {env : Env}.
Variable format_YMD : Z -> string.
Variable hashWrapped : row -> string.

Lemma source_prov (name : string) (s : store) :
  same_provenance s (final (getOrCreateSource name s)).
Proof. unfold getOrCreateSource. walk. Qed.

Lemma client_prov (src : string) (e n : option string) (s : store) :
  same_provenance s (final (getOrCreateClient src e n s)).
Proof.
  unfold getOrCreateClient.
  apply ProcessFacts.bind_final; [exact prov_trans | apply source_prov |].
  intros sid s1 _. walk.
Qed.

Lemma tenant_prov (src : string) (e n : option string) (s : store) :
  same_provenance s (final (getOrCreateTenant src e n s)).
Proof.
  unfold getOrCreateTenant.
  apply ProcessFacts.bind_final; [exact prov_trans | apply source_prov |].
  intros sid s1 _. walk.
Qed.

Lemma customer_prov (src : string) (c : Customer) (s : store) :
  same_provenance s (final (upsertCustomer src c s)).
Proof.
  unfold upsertCustomer.
  apply ProcessFacts.bind_final; [exact prov_trans | apply source_prov |].
  intros sid s1 _.
  apply ProcessFacts.bind_final; [exact prov_trans | apply client_prov |].
  intros cl s2 _.
  apply ProcessFacts.bind_final; [exact prov_trans | apply tenant_prov |].
  intros te s3 _. walk.
Qed.

Lemma invoice_prov (src : string) (inv : Invoice) (lines_ : list InvoiceLine)
      (s : store) :
  same_provenance s (final (upsertInvoiceWithLines src inv lines_ s)).
Proof.
  unfold upsertInvoiceWithLines.
  apply ProcessFacts.bind_final; [exact prov_trans | apply source_prov |].
  intros sid s1 _.
  apply transaction_final; [exact prov_trans | intros; split; reflexivity |].
  apply ProcessFacts.bind_final; [exact prov_trans | |].
  - destruct (customer inv) as [c|]; [|split; reflexivity].
    apply ProcessFacts.bind_final; [exact prov_trans | apply customer_prov |].
    intros. split; reflexivity.
  - intros cid s2 _.
    apply ProcessFacts.bind_final; [exact prov_trans | |].
    + unfold upsert_invoice_row. walk.
    + intros iid s3 _.
      apply ProcessFacts.bind_final; [exact prov_trans | split; reflexivity |].
      intros [] s4 _.
      apply ProcessFacts.bind_final; [exact prov_trans | |].
      * apply ProcessFacts.for_each_final;
          [exact prov_refl | exact prov_trans |].
        intros ln s5. unfold insert_invoice_line. walk.
      * intros [] s5 _. unfold insert_invoice_ledger. walk.
Qed.

(** ** An invoice needs a customer name *)




Lemma halo_group_prov (entry : string * list row) (s : store) :
  same_provenance s (final (import_halo_group format_YMD entry s)).
Proof.
  unfold import_halo_group. destruct (snd entry) as [|head rest];
    [split; reflexivity|].
  apply ProcessFacts.bind_final; [exact prov_trans | apply invoice_prov |].
  intros. split; reflexivity.
Qed.

(** What an import has recorded when it turns to the data: one
    metadata row and one raw record per CSV row. *)
Lemma provenance_written (src ty : string) (meta : import_meta)
      (recs : list import_record) (s : store) :
  exists id s1 s2,
    createImportMetadata src ty meta s = Done id s1
    /\ addImportRecords id recs s1 = Done (List.length recs) s2
    /\ List.length (rows (import_metadata s2))
       = S (List.length (rows (import_metadata s)))
    /\ List.length (rows (import_records s2))
       = List.length (rows (import_records s)) + List.length recs
    /\ (recs = [] -> import_records s2 = import_records s)
    /\ invoices s2 = invoices s /\ invoice_lines s2 = invoice_lines s
    /\ catalog_items s2 = catalog_items s.
Proof.
  destruct (DuplicateFacts.createImportMetadata_spec src ty meta s)
    as (id & ts & tm & E1 & Hlen & Hex & _).
  destruct (DuplicateFacts.addImportRecords_spec id recs
              (set_import_metadata tm (set_ledger_sources ts s)) Hex)
    as (t & E2 & Hrec).
  exists id. eexists. eexists. split; [exact E1|]. split; [exact E2|].
  cbn. split; [exact Hlen|]. split; [exact Hrec|].
  split; [|repeat split].
  intros ->. cbn in E2. unfold ret in E2. inversion E2. congruence.
Qed.


(** ** The entry point *)


Lemma store_import_prov (fname content : string) (s s' : store)
      (r : store_result) :
  storeCsvImport fname content s = Done r s' -> same_provenance s s'.
Proof.
  unfold storeCsvImport. destruct (find _ _).
  - intros H. inversion H; subst. apply prov_refl.
  - unfold insert_row. intros H. inversion H; subst. split; reflexivity.
Qed.

(** X26. Whatever the kind of file, an [importFile] that returns has
    read the CSV text, reports the type the classifier gave its rows and
    name, and has recorded where the data came from: one row more in
    import_metadata and one row more in import_records per CSV row, also
    when the content was a duplicate or no row made a transaction. *)
Theorem importFile_records_provenance (content fname : string)
        (mimetype : option string) (s s' : store) (res : import_result) :
  importFile format_YMD hashWrapped content fname mimetype s = Done res s' ->
  exists rows_,
    csv_parse content = Ok rows_
    /\ detectedType res = Classifier.detectCsvType rows_ fname
    /\ List.length (rows (import_metadata s'))
       = S (List.length (rows (import_metadata s)))
    /\ List.length (rows (import_records s'))
       = List.length (rows (import_records s)) + List.length rows_.
Proof.
  unfold importFile. intros H.
  apply bind_Done in H. destruct H as (rows_ & s0 & Hparse & H).
  unfold lift in Hparse. destruct (csv_parse content) as [rs|msg];
    [|discriminate Hparse].
  inversion Hparse; subst rs s0. clear Hparse.
  exists rows_. split; [reflexivity|].
  destruct (Classifier.detectCsvType rows_ fname) eqn:D;
    try discriminate H.
  - (* po_bills *)
    unfold importPoBills in H.
    apply bind_Done in H. destruct H as (mid & s1 & E1 & H).
    apply bind_Done in H. destruct H as (n & s2 & E2 & H).
    apply bind_Done in H. destruct H as (ir & s3 & E3 & H).
    match type of E2 with
    | addImportRecords _ ?recs _ = _ =>
        destruct (provenance_written "LocalCSV" "po_bills"
                    (import_meta_of fname
                       (Some (if cell_truthy mimetype
                              then or_empty mimetype else "text/csv")) rows_)
                    recs s)
          as (id & sa & sb & F1 & F2 & Hm & Hr & _)
    end.
    rewrite E1 in F1. inversion F1; subst id sa. clear F1.
    rewrite E2 in F2. inversion F2; subst sb. clear F2.
    rewrite length_map in Hr.
    destruct (store_import_prov _ _ _ _ _ E3) as [Pm Pr].
    assert (Hs : same_provenance s3 s' /\ detectedType res
                                          = Classifier.po_bills).
    { destruct (sr_isDuplicate ir).
      - inversion H; subst. split; [apply prov_refl | reflexivity].
      - apply bind_Done in H. destruct H as (bs & s4 & E4 & H).
        unfold lift in E4. destruct (Server.parseBillsFromCsv content);
          [|discriminate E4].
        inversion E4; subst. inversion H; subst.
        split; [apply prov_refl | reflexivity]. }
    destruct Hs as [[Qm Qr] Ht]. split; [exact Ht|].
    rewrite Qm, Qr, Pm, Pr. split; assumption.
  - (* bank_batch *)
    unfold importBankFile in H.
    apply bind_Done in H. destruct H as (mid & s1 & E1 & H).
    apply bind_Done in H. destruct H as (n & s2 & E2 & H).
    apply bind_Done in H. destruct H as (cnt & s3 & E3 & H).
    inversion H; subst. clear H. cbn [detectedType].
    split; [reflexivity|].
    match type of E2 with
    | addImportRecords _ ?recs _ = _ =>
        match type of E1 with
        | createImportMetadata ?src ?ty ?meta _ = _ =>
            destruct (provenance_written src ty meta recs s)
              as (id & sa & sb & F1 & F2 & Hm & Hr & _)
        end
    end.
    rewrite E1 in F1. inversion F1; subst id sa. clear F1.
    rewrite E2 in F2. inversion F2; subst sb. clear F2.
    rewrite length_map in Hr.
    apply BankImportFacts.insertBankTransactions_Done in E3.
    destruct E3 as (_ & sid & sA & HA & Hloop).
    destruct (BankImportFacts.bank_loop_frame _ _ _ _ Hloop)
      as (_ & Bm & Br & _).
    pose proof (source_prov "FNBPA" s2) as [Sm Sr].
    cbn [Classifier.csv_type_eqb] in HA. rewrite HA in Sm, Sr.
    cbn [final] in Sm, Sr.
    rewrite Bm, Br, Sm, Sr. split; assumption.
  - (* halo_invoices *)
    unfold importHaloInvoices in H.
    apply bind_Done in H. destruct H as (mid & s1 & E1 & H).
    apply bind_Done in H. destruct H as (n & s2 & E2 & H).
    apply bind_Done in H. destruct H as ([] & s3 & E3 & H).
    inversion H; subst. clear H. cbn [detectedType].
    split; [reflexivity|].
    match type of E2 with
    | addImportRecords _ ?recs _ = _ =>
        destruct (provenance_written "HaloPSA" "halo_invoices"
                    (import_meta_of fname mimetype rows_) recs s)
          as (id & sa & sb & F1 & F2 & Hm & Hr & _)
    end.
    rewrite E1 in F1. inversion F1; subst id sa. clear F1.
    rewrite E2 in F2. inversion F2; subst sb. clear F2.
    rewrite length_map in Hr.
    pose proof (ProcessFacts.for_each_final same_provenance
                  (import_halo_group format_YMD) prov_refl prov_trans
                  halo_group_prov (halo_groups hashWrapped rows_ []) s2)
      as [Fm Fr].
    rewrite E3 in Fm, Fr. cbn [final] in Fm, Fr.
    rewrite Fm, Fr. split; assumption.
  - (* bank_generic *)
    unfold importBankFile in H.
    apply bind_Done in H. destruct H as (mid & s1 & E1 & H).
    apply bind_Done in H. destruct H as (n & s2 & E2 & H).
    apply bind_Done in H. destruct H as (cnt & s3 & E3 & H).
    inversion H; subst. clear H. cbn [detectedType].
    split; [reflexivity|].
    match type of E2 with
    | addImportRecords _ ?recs _ = _ =>
        match type of E1 with
        | createImportMetadata ?src ?ty ?meta _ = _ =>
            destruct (provenance_written src ty meta recs s)
              as (id & sa & sb & F1 & F2 & Hm & Hr & _)
        end
    end.
    rewrite E1 in F1. inversion F1; subst id sa. clear F1.
    rewrite E2 in F2. inversion F2; subst sb. clear F2.
    rewrite length_map in Hr.
    apply BankImportFacts.insertBankTransactions_Done in E3.
    destruct E3 as (_ & sid & sA & HA & Hloop).
    destruct (BankImportFacts.bank_loop_frame _ _ _ _ Hloop)
      as (_ & Bm & Br & _).
    pose proof (source_prov "BankCSV" s2) as [Sm Sr].
    cbn [Classifier.csv_type_eqb] in HA. rewrite HA in Sm, Sr.
    cbn [final] in Sm, Sr.
    rewrite Bm, Br, Sm, Sr. split; assumption.
Qed.

End WithCollaborators.



Lemma importFile_records_provenance_witness :
  exists res s',
    importFile (lib := Reference.lib) (env := Reference.env)
      Reference.format_YMD Reference.hashWrapped
      (String.append "Date,Amount,Description"
         (String.append Exporter.lf "01/05/2024,-12.50,Coffee"))
      "bank.csv" None empty_store
    = Done res s'
    /\ detectedType res = Classifier.bank_generic
    /\ List.length (rows (import_records s')) = 1.
Proof.
  destruct (importFile (lib := Reference.lib) (env := Reference.env)
              Reference.format_YMD Reference.hashWrapped
              (String.append "Date,Amount,Description"
                 (String.append Exporter.lf "01/05/2024,-12.50,Coffee"))
              "bank.csv" None empty_store) as [res s'|msg s'] eqn:E;
    [|vm_compute in E; discriminate E].
  destruct (importFile_records_provenance (lib := Reference.lib)
              (env := Reference.env) Reference.format_YMD
              Reference.hashWrapped _ _ _ _ _ _ E)
    as (rows_ & Hp & Ht & _ & Hr).
  exists res, s'. split; [reflexivity|].
  vm_compute in Hp. inversion Hp; subst rows_.
  split; [rewrite Ht; reflexivity | exact Hr].
Defined.

(** ** One stored line per row *)

Section Lines.
Context {lib : Dayjs} {env : Env}.
Variable format_YMD : Z -> string.
Variable hashWrapped : row -> string.










End Lines.


End HaloFacts.

(* ================================================================== *)
(** * The items file (exporter.js, [generateItemsIif]) *)
(* ================================================================== *)

Module ItemsFacts.
Import Num Db DbFacts Server Exporter.

Lemma has_char_join (c : ascii) (sep : string) (fields : list string) :
  Js.has_char c sep = false ->
  Forall (fun f => Js.has_char c f = false) fields ->
  Js.has_char c (Js.join sep fields) = false.
Proof.
  intros Hsep. induction 1 as [|f r Hf Hr IH]; [reflexivity|].
  destruct r as [|f' r]; [exact Hf|].
  change (Js.join sep (f :: f' :: r))
    with (f ++ sep ++ Js.join sep (f' :: r))%string.
  rewrite !NumFacts.has_char_app, Hf, Hsep, IH. reflexivity.
Qed.

Lemma has_char_quoted (c : ascii) (v : string) :
  Ascii.eqb Js.DQUOTE c = false ->
  Js.has_char c v = false -> Js.has_char c (quoted v) = false.
Proof.
  intros Hq Hv. unfold quoted. cbn [Js.has_char].
  rewrite Hq, NumFacts.has_char_app, Hv. cbn [Js.has_char].
  rewrite Hq. reflexivity.
Qed.

Lemma fold_lines (f : inventory_row -> string) (l : list inventory_row) :
  forall acc,
    fold_left (fun out r => out ++ f r ++ crlf)%string l acc
    = (acc ++ terminated crlf (map f l))%string.
Proof.
  induction l as [|x l IH]; intros acc; cbn [fold_left map terminated].
  - rewrite NumFacts.append_nil_r. reflexivity.
  - rewrite IH, <- !NumFacts.append_assoc. reflexivity.
Qed.

Section Ordered.
Variable name_le : string -> string -> bool.

Lemma insert_by_name_In (r x : inventory_row) (l : list inventory_row) :
  In x (insert_by_name name_le r l) <-> x = r \/ In x l.
Proof.
  induction l as [|y l IH]; cbn [insert_by_name In].
  - intuition congruence.
  - destruct (name_le (inv_item_name r) (inv_item_name y)); cbn [In].
    + intuition congruence.
    + rewrite IH. intuition congruence.
Qed.

Lemma insert_by_name_length (r : inventory_row) (l : list inventory_row) :
  List.length (insert_by_name name_le r l) = S (List.length l).
Proof.
  induction l as [|y l IH]; cbn [insert_by_name List.length]; [reflexivity|].
  destruct (name_le (inv_item_name r) (inv_item_name y));
    cbn [List.length]; [reflexivity|]. rewrite IH. reflexivity.
Qed.

Lemma order_by_In (x : inventory_row) (l : list inventory_row) :
  In x (order_by_item_name name_le l) <-> In x l.
Proof.
  induction l as [|y l IH]; cbn [order_by_item_name fold_right In];
    [tauto|].
  rewrite insert_by_name_In. fold (order_by_item_name name_le l).
  rewrite IH. intuition congruence.
Qed.

Lemma order_by_length (l : list inventory_row) :
  List.length (order_by_item_name name_le l) = List.length l.
Proof.
  induction l as [|y l IH]; cbn [order_by_item_name fold_right List.length];
    [reflexivity|].
  rewrite insert_by_name_length. fold (order_by_item_name name_le l).
  rewrite IH. reflexivity.
Qed.

Lemma item_fields_plain (c : ascii) (inc inv cogs : string)
      (r : inventory_row) :
  Ascii.eqb Js.DQUOTE c = false ->
  (forall v, clean v = true -> Js.has_char c v = false) ->
  clean inc = true -> clean inv = true -> clean cogs = true ->
  clean (inv_item_name r) = true -> clean (inv_description r) = true ->
  Forall (fun f => Js.has_char c f = false) (item_fields inc inv cogs r).
Proof.
  intros Hq Hc Hinc Hinv Hcogs Hn Hd. unfold item_fields.
  repeat constructor;
    try (apply has_char_quoted; [exact Hq | apply Hc; assumption]);
    apply Hc; try reflexivity.
  apply ExporterFacts.clean_toString.
Qed.

(** X28. The items file of [generateItemsIif] lists the inventory: after
    the header line it has one INVITEM line for each inventory row and
    no other, every line ended by CRLF.  When names, descriptions and
    default account names hold no tab, line break or double quote, the
    file splits back at CRLF into exactly these lines, and each item
    line splits at the tabs into its eight fields: the quoted name and
    description, the price 0, the average unit cost as a number, and the
    three quoted accounts. *)
Theorem items_iif_lists_inventory (s : store) :
  forallb (fun r => clean (qa_name r)) (rows (qbd_accounts s)) = true ->
  forallb (fun r => clean (inv_item_name r) && clean (inv_description r))
          (rows (inventory s)) = true ->
  exists inc inv cogs listed out,
    generateItemsIif name_le s = Done out s
    /\ (forall r, In r listed <-> In r (rows (inventory s)))
    /\ List.length listed = List.length (rows (inventory s))
    /\ split crlf out
       = items_header :: map (item_line inc inv cogs) listed ++ [""]
    /\ forall r, In r listed ->
         split tab (item_line inc inv cogs r)
         = ["INVITEM"; quoted (inv_item_name r); quoted (inv_description r);
            "0"; toString (average_unit_cost r); quoted inc; quoted inv;
            quoted cogs].
Proof.
  intros Hacc Hrows.
  destruct (ExporterFacts.defaults_spec s Hacc) as (defaults & E & Hd).
  pose proof (ExporterFacts.account_clean defaults "inventory_asset"
                "Inventory Asset" Hd eq_refl) as Hinv.
  pose proof (ExporterFacts.account_clean defaults "cogs"
                "Cost of Goods Sold" Hd eq_refl) as Hcogs.
  pose proof (ExporterFacts.account_clean defaults "income" "Sales" Hd
                eq_refl) as Hinc.
  set (inv := account defaults "inventory_asset" "Inventory Asset") in *.
  set (cogs := account defaults "cogs" "Cost of Goods Sold") in *.
  set (inc := account defaults "income" "Sales") in *.
  set (listed := order_by_item_name name_le (rows (inventory s))).
  assert (Hlisted : forall r, In r listed ->
            clean (inv_item_name r) = true
            /\ clean (inv_description r) = true).
  { intros r Hr.
    pose proof (proj1 (order_by_In r (rows (inventory s))) Hr) as Hr'.
    rewrite forallb_forall in Hrows.
    apply andb_true_iff. exact (Hrows r Hr'). }
  exists inc, inv, cogs, listed. eexists.
  split; [|split; [|split; [|split]]].
  - unfold generateItemsIif, bind. rewrite E.
    unfold getInventoryForExport, gets, ret. fold inv cogs inc listed.
    rewrite fold_lines. reflexivity.
  - intros r. apply order_by_In.
  - apply order_by_length.
  - rewrite NumFacts.append_assoc.
    change (items_header ++ crlf
            ++ terminated crlf (map (item_line inc inv cogs) listed))%string
      with (terminated crlf
              (items_header :: map (item_line inc inv cogs) listed)).
    unfold crlf. rewrite IifFacts.split_terminated.
    + rewrite <- app_comm_cons. reflexivity.
    + constructor; [reflexivity|].
      apply Forall_forall. intros x Hx. apply in_map_iff in Hx.
      destruct Hx as (r & <- & Hr). destruct (Hlisted r Hr) as [Hn Hde].
      unfold item_line. apply has_char_join; [reflexivity|].
      apply item_fields_plain; try assumption; [reflexivity|].
      intros v Hv. apply (IifFacts.clean_no_tab v Hv).
  - intros r Hr. destruct (Hlisted r Hr) as [Hn Hde].
    unfold item_line, tab. apply IifFacts.split_join; [discriminate|].
    apply item_fields_plain; try assumption; [reflexivity|].
    intros v Hv. apply (IifFacts.clean_no_tab v Hv).
Qed.

End Ordered.

Lemma items_iif_lists_inventory_witness :
  let s := set_inventory
             (mkTable [mkInventory 1 "Widget" "Blue widget" (mkDec 15 0)
                         (mkDec 15 0) (mkDec 4000 2) (mkDec 26667 4)
                         "01/05/2024" "Acme";
                       mkInventory 2 "Gadget" "" (mkDec 2 0) (mkDec 2 0)
                         (mkDec 1000 2) (mkDec 50000 4) "01/05/2024" "Acme"]
                      2)
             empty_store in
  exists out,
    generateItemsIif String.leb s = Done out s
    /\ nth 1 (split crlf out) ""
       = Js.join tab ["INVITEM"; quoted "Gadget"; quoted ""; "0"; "5";
                      quoted "Sales"; quoted "Inventory Asset";
                      quoted "Cost of Goods Sold"].
Proof.
  intros s.
  destruct (items_iif_lists_inventory String.leb s eq_refl eq_refl)
    as (inc & inv & cogs & listed & out & E & _).
  exists out. split; [exact E|].
  vm_compute in E. inversion E. vm_compute. reflexivity.
Defined.

End ItemsFacts.
